(** * NachOS file system core: file headers, directories and the file system

    A shallow embedding of the multi-level file header (filehdr.h / filehdr.cc),
    the directory (directory.h / directory.cc) and the file-system
    orchestrator (filesys.h / filesys.cc), together with the properties of
    the specification that can be stated over them.

    Conventions of the embedding.
    - A C [int] is a [Z]; comparisons against the [size_t]-typed macros of
      filehdr.h convert the [int] operand to unsigned, which is written out
      with [to_unsigned].
    - [ASSERT(c)] aborts the simulator when [c] is false: every operation
      that can reach an [ASSERT] returns a [res], whose [Abort] is that
      outcome.  An index outside a fixed-size array is also [Abort].
    - Objects are passed and returned explicitly; a method that mutates
      [this] returns the updated object. *)

From Stdlib Require Import ZArith Lia List Bool Ascii String.
From stdpp Require Import base option list gmap strings.

Local Open Scope Z_scope.

(** ** Outcomes of operations *)

Inductive res (A : Type) : Type :=
| Ok (a : A)
| Abort
| OutOfFuel.
Arguments Ok {A} a.
Arguments Abort {A}.
Arguments OutOfFuel {A}.

Definition rbind {A B : Type} (m : res A) (f : A -> res B) : res B :=
  match m with
  | Ok a => f a
  | Abort => Abort
  | OutOfFuel => OutOfFuel
  end.

#[global] Instance res_bind : MBind res := fun A B f m => rbind m f.
#[global] Instance res_ret : MRet res := @Ok.

(** [ASSERT(c); k] *)
Definition ASSERT {A : Type} (c : bool) (k : res A) : res A :=
  if c then k else Abort.

(** [for (int i = 0; i < n; i++) body], threading the loop state. *)
Fixpoint for_from {St : Type} (i : nat) (n : nat)
    (body : nat -> St -> res St) (s : St) : res St :=
  match n with
  | O => Ok s
  | S n' => s' ← body i s; for_from (S i) n' body s'
  end.

Definition for_ {St : Type} (n : Z) (body : nat -> St -> res St) (s : St) : res St :=
  for_from 0 (Z.to_nat n) body s.

(** ** Constants of disk.h and filehdr.h *)

(** Modelled from the spec: disk.h is not among the sources; the sector
    width is the 128 bytes that the comments of filehdr.h compute with, and
    an [int] takes 4 bytes (the build is [g++ -m32]). *)
Definition SectorSize : Z := 128.
Definition sizeof_int : Z := 4.
Definition word_bits : Z := 32.

(** Conversion of an [int] to [size_t] in a mixed comparison. *)
Definition to_unsigned (x : Z) : Z := x mod 2 ^ word_bits.

(** [a <= b] where [b] is a [size_t] expression. *)
Definition ule (a b : Z) : bool := to_unsigned a <=? to_unsigned b.

Definition int_range (x : Z) : Prop := - 2 ^ 31 <= x < 2 ^ 31.

Definition NUM_INT_IN_SECTOR : Z := SectorSize / sizeof_int.
Definition NUM_FILE_HEADER_POINTER : Z := NUM_INT_IN_SECTOR - 2.
Definition NUM_INDIRECT_POINTER : Z := NUM_INT_IN_SECTOR - 1.

Definition LEVEL_1_SECTOR_NUM : Z := NUM_FILE_HEADER_POINTER.
Definition LEVEL_2_SECTOR_NUM : Z := NUM_FILE_HEADER_POINTER * NUM_INDIRECT_POINTER.
Definition LEVEL_3_SECTOR_NUM : Z :=
  NUM_FILE_HEADER_POINTER * NUM_INDIRECT_POINTER * NUM_INDIRECT_POINTER.
Definition LEVEL_4_SECTOR_NUM : Z :=
  NUM_FILE_HEADER_POINTER * NUM_INDIRECT_POINTER * NUM_INDIRECT_POINTER
  * NUM_INDIRECT_POINTER.

Definition LEVEL_1_SIZE : Z := SectorSize * LEVEL_1_SECTOR_NUM.
Definition LEVEL_2_SIZE : Z := SectorSize * LEVEL_2_SECTOR_NUM.
Definition LEVEL_3_SIZE : Z := SectorSize * LEVEL_3_SECTOR_NUM.
Definition LEVEL_4_SIZE : Z := SectorSize * LEVEL_4_SECTOR_NUM.

Definition LEVEL_1 : Z := 1.
Definition LEVEL_2 : Z := 2.
Definition LEVEL_3 : Z := 3.
Definition LEVEL_4 : Z := 4.

Definition SECTOR_NUM_IN_LEVEL : list Z :=
  [1; LEVEL_1_SECTOR_NUM; LEVEL_2_SECTOR_NUM; LEVEL_3_SECTOR_NUM;
   LEVEL_4_SECTOR_NUM].

(** Reading a constant [int] array at an index. *)
Definition at_index (a : list Z) (i : Z) : Z :=
  if i <? 0 then 0 else nth (Z.to_nat i) a 0.

(** Modelled from the spec: utility.h is not among the sources; these are
    the rounding macros of NachOS, [((n) / (s)) + ((((n) % (s)) > 0) ? 1 : 0)]
    and [((n) / (s))], with C's truncating division. *)
Definition divRoundUp (n s : Z) : Z :=
  Z.quot n s + (if Z.rem n s >? 0 then 1 else 0).
Definition divRoundDown (n s : Z) : Z := Z.quot n s.

(** ** Level selection

    The two copies of the comparison chain, one in [FileHeader::Allocate]
    and one in [FileHeader::FetchFrom].  [None] is the final [else]. *)

Definition Allocate_level (fileSize : Z) : option Z :=
  if ule fileSize LEVEL_1_SIZE then Some LEVEL_1
  else if ule fileSize LEVEL_2_SIZE then Some LEVEL_2
  else if ule fileSize LEVEL_3_SIZE then Some LEVEL_3
  else if ule fileSize LEVEL_4_SIZE then Some LEVEL_4
  else None.

Definition FetchFrom_level (numBytes : Z) : option Z :=
  let decideLevel := true in
  if ule numBytes LEVEL_1_SIZE then Some LEVEL_1
  else if ule numBytes LEVEL_2_SIZE then Some LEVEL_2
  else if ule numBytes LEVEL_3_SIZE then Some LEVEL_3
  else if ule numBytes LEVEL_4_SIZE then Some LEVEL_4
  else None.

(** [numSectors] and [numPointer] as [FileHeader::Allocate] computes them
    once the level is known. *)
Definition Allocate_numSectors (fileSize : Z) : Z :=
  divRoundUp fileSize SectorSize.

Definition Allocate_numPointer (fileSize level : Z) : Z :=
  divRoundUp (Allocate_numSectors fileSize)
             (at_index SECTOR_NUM_IN_LEVEL (level - 1)).

(** ** The free-sector bitmap

    Modelled from the spec: bitmap.cc and pbitmap.cc are not among the
    sources.  A bitmap is a set over [[0, N)]; [FindAndSet] returns the
    lowest-index free sector and marks it, or [-1] when the map is full;
    [NumClear] counts the free sectors. *)

Abbreviation Bitmap := (list bool).

Definition Bitmap_new (numBits : Z) : Bitmap := replicate (Z.to_nat numBits) false.

Definition Test (which : Z) (b : Bitmap) : bool :=
  if which <? 0 then false else default false (b !! Z.to_nat which).

Definition Mark (which : Z) (b : Bitmap) : Bitmap :=
  if which <? 0 then b else <[Z.to_nat which := true]> b.

Definition Clear (which : Z) (b : Bitmap) : Bitmap :=
  if which <? 0 then b else <[Z.to_nat which := false]> b.

Fixpoint find_clear (b : Bitmap) : option nat :=
  match b with
  | [] => None
  | false :: _ => Some O
  | true :: r => S <$> find_clear r
  end.

Definition FindAndSet (b : Bitmap) : Z * Bitmap :=
  match find_clear b with
  | Some i => (Z.of_nat i, <[i := true]> b)
  | None => (-1, b)
  end.

Fixpoint count_clear (b : Bitmap) : nat :=
  match b with
  | [] => O
  | false :: r => S (count_clear r)
  | true :: r => count_clear r
  end.

Definition NumClear (b : Bitmap) : Z := Z.of_nat (count_clear b).

(** ** The simulated disk

    Modelled from the spec: synchdisk.cc is not among the sources.  The
    device exposes [ReadSector(n, buf)] and [WriteSector(n, buf)] of one
    sector; the header and pointer code only moves arrays of
    [SectorSize / sizeof(int)] integers, so a sector is the list of its
    integers. *)

Abbreviation SynchDisk := (Z -> list Z).

Definition ReadSector (d : SynchDisk) (sectorNumber : Z) : list Z :=
  d sectorNumber.

Definition WriteSector (d : SynchDisk) (sectorNumber : Z) (cache : list Z)
  : SynchDisk :=
  fun n => if n =? sectorNumber then cache else d n.

(** [int cache[cacheArraySize]; memset(cache, -1, sizeof(cache));] *)
Definition cache_init : list Z := replicate (Z.to_nat NUM_INT_IN_SECTOR) (-1).

(** [cache[i]] *)
Definition cache_get (cache : list Z) (i : nat) : Z := nth i cache (-1).

(** [for (i = 0; i < n; i++) cache[off + i] = a[i];] *)
Definition cache_fill (off : nat) (a : list Z) (cache : list Z) : list Z :=
  take off cache ++ a ++ drop (off + length a) cache.

(** [for (i = 0; i < n; i++) a[i] = cache[off + i];] *)
Definition cache_slice (off n : nat) (cache : list Z) : list Z :=
  map (fun i => cache_get cache (off + i)) (seq 0 n).

(** [a[i]] for an array member; an index outside the array aborts. *)
Definition array_get {A : Type} (a : list A) (i : nat) : res A :=
  match a !! i with
  | Some x => Ok x
  | None => Abort
  end.

(** [a[i] = x] for an array member; an index outside the array aborts. *)
Definition array_set {A : Type} (a : list A) (i : nat) (x : A) : res (list A) :=
  if decide (i < length a)%nat then Ok (<[i := x]> a) else Abort.

(** [a < b] where [b] is a [size_t] expression. *)
Definition ult (a b : Z) : bool := to_unsigned a <? to_unsigned b.

(** The loop shared by every [Allocate]:
    [for (i = 0; i < numPointer; i++) {
       pointerSectors[i] = freeMap->FindAndSet();
       ASSERT(pointerSectors[i] >= 0); }] *)
Definition alloc_pointerSectors (numPointer : Z) (pointerSectors : list Z)
    (freeMap : Bitmap) : res (list Z * Bitmap) :=
  for_ numPointer
    (fun i '(ps, fm) =>
       let '(s, fm') := FindAndSet fm in
       ps' ← array_set ps i s;
       ASSERT (s >=? 0) (Ok (ps', fm')))
    (pointerSectors, freeMap).

(** ** Pointer-tree nodes (filehdr.cc)

    Every node is created by [GetNewPointerByLevel] with [new T()], or is an
    element of the [table] array of such a node: its members start
    zero-initialised. *)

(** *** DirectPointer *)

Record DirectPointer : Type := { dataSector : Z }.

Definition DirectPointer_new : DirectPointer := {| dataSector := 0 |}.

Definition DirectPointer_Allocate (this : DirectPointer) (freeMap : Bitmap)
    (numSectors : Z) : res (bool * DirectPointer * Bitmap) :=
  ASSERT (numSectors =? 1)
    (if NumClear freeMap <? numSectors then Ok (false, this, freeMap)
     else
       let '(s, freeMap') := FindAndSet freeMap in
       ASSERT (s >=? 0) (Ok (true, {| dataSector := s |}, freeMap'))).

Definition DirectPointer_Deallocate (this : DirectPointer) (freeMap : Bitmap)
  : res Bitmap :=
  ASSERT (Test (dataSector this) freeMap)
    (Ok (Clear (dataSector this) freeMap)).

Definition DirectPointer_FetchFrom (this : DirectPointer) (d : SynchDisk)
    (sectorNumber : Z) : res DirectPointer :=
  let cache := ReadSector d sectorNumber in
  Ok {| dataSector := cache_get cache 0 |}.

Definition DirectPointer_WriteBack (this : DirectPointer) (d : SynchDisk)
    (sectorNumber : Z) : res SynchDisk :=
  let cache := <[O := dataSector this]> cache_init in
  Ok (WriteSector d sectorNumber cache).

Definition DirectPointer_ByteToSector (this : DirectPointer) (offset : Z)
  : res Z :=
  ASSERT (offset <=? SectorSize) (Ok (dataSector this)).

(** *** SingleIndirectPointer

    The member [DirectPointer table[NUM_INDIRECT_POINTER]] is declared but
    every use of it is commented out: the sectors of [pointerSectors] are
    handed out as the data sectors themselves. *)

Record SingleIndirectPointer : Type := {
  s_numPointer : Z;
  s_pointerSectors : list Z
}.

Definition SingleIndirectPointer_new : SingleIndirectPointer :=
  {| s_numPointer := 0;
     s_pointerSectors := replicate (Z.to_nat NUM_INDIRECT_POINTER) 0 |}.

Definition SingleIndirectPointer_Allocate (this : SingleIndirectPointer)
    (freeMap : Bitmap) (numSectors : Z)
  : res (bool * SingleIndirectPointer * Bitmap) :=
  ASSERT (ule numSectors LEVEL_1_SECTOR_NUM)
    (let numPointer := numSectors in
     if NumClear freeMap <? numPointer then
       Ok (false, {| s_numPointer := numPointer;
                     s_pointerSectors := s_pointerSectors this |}, freeMap)
     else
       '(ps, freeMap') ← alloc_pointerSectors numPointer
                            (s_pointerSectors this) freeMap;
       Ok (true, {| s_numPointer := numPointer; s_pointerSectors := ps |},
           freeMap')).

Definition SingleIndirectPointer_Deallocate (this : SingleIndirectPointer)
    (freeMap : Bitmap) : res Bitmap :=
  for_ (s_numPointer this)
    (fun i fm =>
       s ← array_get (s_pointerSectors this) i;
       ASSERT (Test s fm) (Ok (Clear s fm)))
    freeMap.

Definition SingleIndirectPointer_FetchFrom (this : SingleIndirectPointer)
    (d : SynchDisk) (sectorNumber : Z) : res SingleIndirectPointer :=
  let cache := ReadSector d sectorNumber in
  Ok {| s_numPointer := cache_get cache 0;
        s_pointerSectors :=
          cache_slice 1 (Z.to_nat NUM_INDIRECT_POINTER) cache |}.

Definition SingleIndirectPointer_WriteBack (this : SingleIndirectPointer)
    (d : SynchDisk) (sectorNumber : Z) : res SynchDisk :=
  let cache := <[O := s_numPointer this]> cache_init in
  let cache := cache_fill 1 (s_pointerSectors this) cache in
  Ok (WriteSector d sectorNumber cache).

(** *** DoubleIndirectPointer

    Modelled from the spec: the class declaration is not among the sources
    (filehdr.cc defines its methods); as the spec has it, the layout is that
    of the single-indirect node and the children are single-indirect nodes:
    [int numPointer; int pointerSectors[NUM_INDIRECT_POINTER];
     SingleIndirectPointer table[NUM_INDIRECT_POINTER];]. *)

Record DoubleIndirectPointer : Type := {
  d_numPointer : Z;
  d_pointerSectors : list Z;
  d_table : list SingleIndirectPointer
}.

Definition DoubleIndirectPointer_new : DoubleIndirectPointer :=
  {| d_numPointer := 0;
     d_pointerSectors := replicate (Z.to_nat NUM_INDIRECT_POINTER) 0;
     d_table := replicate (Z.to_nat NUM_INDIRECT_POINTER) SingleIndirectPointer_new |}.

Definition DoubleIndirectPointer_Allocate (this : DoubleIndirectPointer)
    (freeMap : Bitmap) (numSectors : Z)
  : res (bool * DoubleIndirectPointer * Bitmap) :=
  ASSERT (ule numSectors LEVEL_2_SECTOR_NUM)
    (let numPointer := divRoundUp numSectors LEVEL_1_SECTOR_NUM in
     if NumClear freeMap <? numPointer then
       Ok (false, {| d_numPointer := numPointer;
                     d_pointerSectors := d_pointerSectors this;
                     d_table := d_table this |}, freeMap)
     else
       '(ps, freeMap1) ← alloc_pointerSectors numPointer
                            (d_pointerSectors this) freeMap;
       let remainSector := numSectors in
       '(table, freeMap2, remainSector) ←
         for_ numPointer
           (fun i '(table, fm, remainSector) =>
              ASSERT (remainSector >? 0)
                (let allocateSectors :=
                   Z.min remainSector (at_index SECTOR_NUM_IN_LEVEL 1) in
                 child ← array_get table i;
                 '(ok, child', fm') ←
                   SingleIndirectPointer_Allocate child fm allocateSectors;
                 ASSERT ok
                   (Ok (<[i := child']> table, fm',
                        remainSector - allocateSectors))))
           (d_table this, freeMap1, remainSector);
       ASSERT (remainSector =? 0)
         (Ok (true, {| d_numPointer := numPointer; d_pointerSectors := ps;
                       d_table := table |}, freeMap2))).

Definition DoubleIndirectPointer_Deallocate (this : DoubleIndirectPointer)
    (freeMap : Bitmap) : res Bitmap :=
  for_ (d_numPointer this)
    (fun i fm =>
       child ← array_get (d_table this) i;
       SingleIndirectPointer_Deallocate child fm)
    freeMap.

Definition DoubleIndirectPointer_FetchFrom (this : DoubleIndirectPointer)
    (d : SynchDisk) (sectorNumber : Z) : res DoubleIndirectPointer :=
  let cache := ReadSector d sectorNumber in
  let numPointer := cache_get cache 0 in
  let ps := cache_slice 1 (Z.to_nat NUM_INDIRECT_POINTER) cache in
  table ← for_ numPointer
             (fun i table =>
                s ← array_get ps i;
                ASSERT (s >=? 0)
                  (child ← array_get table i;
                   child' ← SingleIndirectPointer_FetchFrom child d s;
                   Ok (<[i := child']> table)))
             (d_table this);
  Ok {| d_numPointer := numPointer; d_pointerSectors := ps; d_table := table |}.

Definition DoubleIndirectPointer_WriteBack (this : DoubleIndirectPointer)
    (d : SynchDisk) (sectorNumber : Z) : res SynchDisk :=
  let cache := <[O := d_numPointer this]> cache_init in
  let cache := cache_fill 1 (d_pointerSectors this) cache in
  d' ← for_ (d_numPointer this)
          (fun i d =>
             s ← array_get (d_pointerSectors this) i;
             ASSERT (s >=? 0)
               (child ← array_get (d_table this) i;
                SingleIndirectPointer_WriteBack child d s))
          d;
  Ok (WriteSector d' sectorNumber cache).

(** *** TripleIndirectPointer

    Modelled from the spec: the class declaration is not among the sources;
    same layout, the children are double-indirect nodes. *)

Record TripleIndirectPointer : Type := {
  t_numPointer : Z;
  t_pointerSectors : list Z;
  t_table : list DoubleIndirectPointer
}.

Definition TripleIndirectPointer_new : TripleIndirectPointer :=
  {| t_numPointer := 0;
     t_pointerSectors := replicate (Z.to_nat NUM_INDIRECT_POINTER) 0;
     t_table := replicate (Z.to_nat NUM_INDIRECT_POINTER) DoubleIndirectPointer_new |}.

Definition TripleIndirectPointer_Allocate (this : TripleIndirectPointer)
    (freeMap : Bitmap) (numSectors : Z)
  : res (bool * TripleIndirectPointer * Bitmap) :=
  ASSERT (ule numSectors LEVEL_3_SECTOR_NUM)
    (let numPointer := divRoundUp numSectors LEVEL_2_SECTOR_NUM in
     if NumClear freeMap <? numPointer then
       Ok (false, {| t_numPointer := numPointer;
                     t_pointerSectors := t_pointerSectors this;
                     t_table := t_table this |}, freeMap)
     else
       '(ps, freeMap1) ← alloc_pointerSectors numPointer
                            (t_pointerSectors this) freeMap;
       let remainSector := numSectors in
       '(table, freeMap2, remainSector) ←
         for_ numPointer
           (fun i '(table, fm, remainSector) =>
              ASSERT (remainSector >? 0)
                (let allocateSectors :=
                   Z.min remainSector (at_index SECTOR_NUM_IN_LEVEL 2) in
                 child ← array_get table i;
                 '(ok, child', fm') ←
                   DoubleIndirectPointer_Allocate child fm allocateSectors;
                 ASSERT ok
                   (Ok (<[i := child']> table, fm',
                        remainSector - allocateSectors))))
           (t_table this, freeMap1, remainSector);
       ASSERT (remainSector =? 0)
         (Ok (true, {| t_numPointer := numPointer; t_pointerSectors := ps;
                       t_table := table |}, freeMap2))).

Definition TripleIndirectPointer_Deallocate (this : TripleIndirectPointer)
    (freeMap : Bitmap) : res Bitmap :=
  for_ (t_numPointer this)
    (fun i fm =>
       child ← array_get (t_table this) i;
       DoubleIndirectPointer_Deallocate child fm)
    freeMap.

Definition TripleIndirectPointer_FetchFrom (this : TripleIndirectPointer)
    (d : SynchDisk) (sectorNumber : Z) : res TripleIndirectPointer :=
  let cache := ReadSector d sectorNumber in
  let numPointer := cache_get cache 0 in
  let ps := cache_slice 1 (Z.to_nat NUM_INDIRECT_POINTER) cache in
  table ← for_ numPointer
             (fun i table =>
                s ← array_get ps i;
                ASSERT (s >=? 0)
                  (child ← array_get table i;
                   child' ← DoubleIndirectPointer_FetchFrom child d s;
                   Ok (<[i := child']> table)))
             (t_table this);
  Ok {| t_numPointer := numPointer; t_pointerSectors := ps; t_table := table |}.

Definition TripleIndirectPointer_WriteBack (this : TripleIndirectPointer)
    (d : SynchDisk) (sectorNumber : Z) : res SynchDisk :=
  let cache := <[O := t_numPointer this]> cache_init in
  let cache := cache_fill 1 (t_pointerSectors this) cache in
  d' ← for_ (t_numPointer this)
          (fun i d =>
             s ← array_get (t_pointerSectors this) i;
             ASSERT (s >=? 0)
               (child ← array_get (t_table this) i;
                DoubleIndirectPointer_WriteBack child d s))
          d;
  Ok (WriteSector d' sectorNumber cache).

(** *** The interface and its dispatch *)

Inductive DataPointerInterface : Type :=
| Direct (p : DirectPointer)
| SingleIndirect (p : SingleIndirectPointer)
| DoubleIndirect (p : DoubleIndirectPointer)
| TripleIndirect (p : TripleIndirectPointer).

(** [nullptr] is [None]. *)
Definition GetNewPointerByLevel (level : Z) : option DataPointerInterface :=
  if level =? LEVEL_1 then Some (Direct DirectPointer_new)
  else if level =? LEVEL_2 then Some (SingleIndirect SingleIndirectPointer_new)
  else if level =? LEVEL_3 then Some (DoubleIndirect DoubleIndirectPointer_new)
  else if level =? LEVEL_4 then Some (TripleIndirect TripleIndirectPointer_new)
  else None.

Definition DataPointer_Allocate (this : DataPointerInterface) (freeMap : Bitmap)
    (numSectors : Z) : res (bool * DataPointerInterface * Bitmap) :=
  match this with
  | Direct p =>
      '(ok, p', fm) ← DirectPointer_Allocate p freeMap numSectors;
      Ok (ok, Direct p', fm)
  | SingleIndirect p =>
      '(ok, p', fm) ← SingleIndirectPointer_Allocate p freeMap numSectors;
      Ok (ok, SingleIndirect p', fm)
  | DoubleIndirect p =>
      '(ok, p', fm) ← DoubleIndirectPointer_Allocate p freeMap numSectors;
      Ok (ok, DoubleIndirect p', fm)
  | TripleIndirect p =>
      '(ok, p', fm) ← TripleIndirectPointer_Allocate p freeMap numSectors;
      Ok (ok, TripleIndirect p', fm)
  end.

Definition DataPointer_Deallocate (this : DataPointerInterface)
    (freeMap : Bitmap) : res Bitmap :=
  match this with
  | Direct p => DirectPointer_Deallocate p freeMap
  | SingleIndirect p => SingleIndirectPointer_Deallocate p freeMap
  | DoubleIndirect p => DoubleIndirectPointer_Deallocate p freeMap
  | TripleIndirect p => TripleIndirectPointer_Deallocate p freeMap
  end.

Definition DataPointer_FetchFrom (this : DataPointerInterface) (d : SynchDisk)
    (sectorNumber : Z) : res DataPointerInterface :=
  match this with
  | Direct p => p' ← DirectPointer_FetchFrom p d sectorNumber; Ok (Direct p')
  | SingleIndirect p =>
      p' ← SingleIndirectPointer_FetchFrom p d sectorNumber; Ok (SingleIndirect p')
  | DoubleIndirect p =>
      p' ← DoubleIndirectPointer_FetchFrom p d sectorNumber; Ok (DoubleIndirect p')
  | TripleIndirect p =>
      p' ← TripleIndirectPointer_FetchFrom p d sectorNumber; Ok (TripleIndirect p')
  end.

Definition DataPointer_WriteBack (this : DataPointerInterface) (d : SynchDisk)
    (sectorNumber : Z) : res SynchDisk :=
  match this with
  | Direct p => DirectPointer_WriteBack p d sectorNumber
  | SingleIndirect p => SingleIndirectPointer_WriteBack p d sectorNumber
  | DoubleIndirect p => DoubleIndirectPointer_WriteBack p d sectorNumber
  | TripleIndirect p => TripleIndirectPointer_WriteBack p d sectorNumber
  end.

(** ** The file header (filehdr.h, filehdr.cc) *)

Record FileHeader : Type := {
  numBytes : Z;
  numPointer : Z;
  pointerSectors : list Z;
  level : Z;
  table : list (option DataPointerInterface)
}.

(** [new FileHeader]: the class has no constructor, so the integer members
    hold whatever the storage held; they are the arguments.  The entries
    of [table] are taken to be [nullptr], which [Allocate], [FetchFrom],
    [Deallocate] and the destructor rely on when they test them. *)
Definition FileHeader_new (numBytes0 numPointer0 level0 : Z)
    (pointerSectors0 : list Z) : FileHeader :=
  {| numBytes := numBytes0;
     numPointer := numPointer0;
     pointerSectors :=
       take (Z.to_nat NUM_FILE_HEADER_POINTER)
            (pointerSectors0 ++ replicate (Z.to_nat NUM_FILE_HEADER_POINTER) 0);
     level := level0;
     table := replicate (Z.to_nat NUM_FILE_HEADER_POINTER) None |}.

Definition FileHeader_Allocate (this : FileHeader) (freeMap : Bitmap)
    (fileSize : Z) : res (bool * FileHeader * Bitmap) :=
  let numBytes' := fileSize in
  let numSectors := divRoundUp fileSize SectorSize in
  match Allocate_level fileSize with
  | None =>
      Ok (false, {| numBytes := numBytes'; numPointer := numPointer this;
                    pointerSectors := pointerSectors this;
                    level := level this; table := table this |}, freeMap)
  | Some level' =>
      let numPointer' :=
        divRoundUp numSectors (at_index SECTOR_NUM_IN_LEVEL (level' - 1)) in
      ASSERT (ule numPointer' NUM_FILE_HEADER_POINTER)
        (if NumClear freeMap <? numPointer' then
           Ok (false, {| numBytes := numBytes'; numPointer := numPointer';
                         pointerSectors := pointerSectors this;
                         level := level'; table := table this |}, freeMap)
         else
           '(ps, freeMap1) ← alloc_pointerSectors numPointer'
                                (pointerSectors this) freeMap;
           let remainSector := numSectors in
           '(table', freeMap2, remainSector) ←
             for_ numPointer'
               (fun i '(table, fm, remainSector) =>
                  match GetNewPointerByLevel level' with
                  | None => Abort
                  | Some p =>
                      ASSERT (remainSector >? 0)
                        (let allocateSectors :=
                           Z.min remainSector
                             (at_index SECTOR_NUM_IN_LEVEL (level' - 1)) in
                         '(ok, p', fm') ←
                           DataPointer_Allocate p fm allocateSectors;
                         ASSERT ok
                           (table' ← array_set table i (Some p');
                            Ok (table', fm', remainSector - allocateSectors)))
                  end)
               (table this, freeMap1, remainSector);
           ASSERT (remainSector =? 0)
             (Ok (true, {| numBytes := numBytes'; numPointer := numPointer';
                           pointerSectors := ps; level := level';
                           table := table' |}, freeMap2)))
  end.

Definition FileHeader_Deallocate (this : FileHeader) (freeMap : Bitmap)
  : res (FileHeader * Bitmap) :=
  '(table', freeMap') ←
    for_ NUM_FILE_HEADER_POINTER
      (fun i '(table, fm) =>
         entry ← array_get table i;
         match entry with
         | Some p =>
             fm1 ← DataPointer_Deallocate p fm;
             s ← array_get (pointerSectors this) i;
             ASSERT (Test s fm1) (Ok (<[i := None]> table, Clear s fm1))
         | None => Ok (table, fm)
         end)
      (table this, freeMap);
  Ok ({| numBytes := numBytes this; numPointer := numPointer this;
         pointerSectors := pointerSectors this; level := level this;
         table := table' |}, freeMap').

Definition FileHeader_FetchFrom (this : FileHeader) (d : SynchDisk)
    (sector : Z) : res FileHeader :=
  let cache := ReadSector d sector in
  let numBytes' := cache_get cache 0 in
  let numPointer' := cache_get cache 1 in
  let ps := cache_slice 2 (Z.to_nat NUM_FILE_HEADER_POINTER) cache in
  match FetchFrom_level numBytes' with
  | None => Abort
  | Some level' =>
      table' ←
        for_ numPointer'
          (fun i table =>
             match GetNewPointerByLevel level' with
             | None => Abort
             | Some p =>
                 s ← array_get ps i;
                 ASSERT (s >=? 0)
                   (p' ← DataPointer_FetchFrom p d s;
                    array_set table i (Some p'))
             end)
          (table this);
      Ok {| numBytes := numBytes'; numPointer := numPointer';
            pointerSectors := ps; level := level'; table := table' |}
  end.

Definition FileHeader_WriteBack (this : FileHeader) (d : SynchDisk)
    (sector : Z) : res SynchDisk :=
  let cache := <[O := numBytes this]> cache_init in
  let cache := <[1%nat := numPointer this]> cache in
  let cache := cache_fill 2 (pointerSectors this) cache in
  d' ← for_ (numPointer this)
          (fun i d =>
             s ← array_get (pointerSectors this) i;
             ASSERT (s >=? 0)
               (entry ← array_get (table this) i;
                match entry with
                | Some p => DataPointer_WriteBack p d s
                | None => Abort
                end))
          d;
  Ok (WriteSector d' sector cache).

Definition FileHeader_FileLength (this : FileHeader) : Z := numBytes this.

(** ** Byte offset to sector *)

Section ByteToSector.

(** The array [SIZE_IN_LEVEL] is not declared in the available sources;
    the translation functions read entries 0 to 3 of it. *)
Variable SIZE_IN_LEVEL : list Z.

(** [divRoundDown(a, b)] and [a % b] on [int]; a zero divisor traps. *)
Definition c_div (a b : Z) : res Z :=
  if b =? 0 then Abort else Ok (divRoundDown a b).
Definition c_mod (a b : Z) : res Z := if b =? 0 then Abort else Ok (Z.rem a b).

(** [a[i]] for an [int] index. *)
Definition array_get_int {A : Type} (a : list A) (i : Z) : res A :=
  if i <? 0 then Abort else array_get a (Z.to_nat i).

Definition SingleIndirectPointer_ByteToSector (this : SingleIndirectPointer)
    (offset : Z) : res Z :=
  pointerIndex ← c_div offset (at_index SIZE_IN_LEVEL 0);
  newOffset ← c_mod offset (at_index SIZE_IN_LEVEL 0);
  ASSERT (ult pointerIndex NUM_INDIRECT_POINTER)
    (s ← array_get_int (s_pointerSectors this) pointerIndex;
     ASSERT (s >=? 0) (Ok s)).

Definition DoubleIndirectPointer_ByteToSector (this : DoubleIndirectPointer)
    (offset : Z) : res Z :=
  pointerIndex ← c_div offset (at_index SIZE_IN_LEVEL 1);
  newOffset ← c_mod offset (at_index SIZE_IN_LEVEL 1);
  ASSERT (ult pointerIndex NUM_INDIRECT_POINTER)
    (s ← array_get_int (d_pointerSectors this) pointerIndex;
     ASSERT (s >=? 0)
       (child ← array_get_int (d_table this) pointerIndex;
        SingleIndirectPointer_ByteToSector child newOffset)).

Definition TripleIndirectPointer_ByteToSector (this : TripleIndirectPointer)
    (offset : Z) : res Z :=
  pointerIndex ← c_div offset (at_index SIZE_IN_LEVEL 2);
  newOffset ← c_mod offset (at_index SIZE_IN_LEVEL 2);
  ASSERT (ult pointerIndex NUM_INDIRECT_POINTER)
    (s ← array_get_int (t_pointerSectors this) pointerIndex;
     ASSERT (s >=? 0)
       (child ← array_get_int (t_table this) pointerIndex;
        DoubleIndirectPointer_ByteToSector child newOffset)).

Definition DataPointer_ByteToSector (this : DataPointerInterface)
    (offset : Z) : res Z :=
  match this with
  | Direct p => DirectPointer_ByteToSector p offset
  | SingleIndirect p => SingleIndirectPointer_ByteToSector p offset
  | DoubleIndirect p => DoubleIndirectPointer_ByteToSector p offset
  | TripleIndirect p => TripleIndirectPointer_ByteToSector p offset
  end.

Definition FileHeader_ByteToSector (this : FileHeader) (offset : Z) : res Z :=
  pointerIndex ← c_div offset (at_index SIZE_IN_LEVEL (level this - 1));
  newOffset ← c_mod offset (at_index SIZE_IN_LEVEL (level this - 1));
  ASSERT (ult pointerIndex NUM_FILE_HEADER_POINTER)
    (entry ← array_get_int (table this) pointerIndex;
     match entry with
     | Some p => DataPointer_ByteToSector p newOffset
     | None => Abort
     end).

End ByteToSector.

(** ** The directory (directory.h, directory.cc) *)

Definition FILE_TYPE : Z := 1.
Definition DIR_TYPE : Z := 2.
Definition FileNameMaxLen : nat := 9.
Definition NumDirEntries : Z := 64.

(** A C string argument is the [string] of its characters before the
    terminator; a stored name is the array of its [FileNameMaxLen + 1]
    bytes. *)
Definition NUL : ascii := Ascii.zero.

Record DirectoryEntry : Type := {
  inUse : bool;
  fileType : Z;
  sector : Z;
  name : list ascii
}.

(** The directory is its [table]; [tableSize] is the length of it. *)
Abbreviation Directory := (list DirectoryEntry).

(** [strncmp(a, s, n) == 0] for a stored array against a C string. *)
Fixpoint strncmp_is0 (a : list ascii) (s : string) (n : nat) : bool :=
  match n with
  | O => true
  | S n' =>
      let c1 := hd NUL a in
      let c2 := match s with EmptyString => NUL | String c _ => c end in
      if Ascii.eqb c1 c2 then
        if Ascii.eqb c1 NUL then true
        else strncmp_is0 (tl a)
               (match s with EmptyString => EmptyString | String _ s' => s' end)
               n'
      else false
  end.

(** [strncpy(dst, src, n)]: the first [n] bytes of [dst] receive the
    characters of [src], then NULs once [src] has ended; the bytes of [dst]
    after the first [n] are not written. *)
Fixpoint strncpy (dst : list ascii) (src : string) (n : nat) : list ascii :=
  match n, dst with
  | O, _ => dst
  | S _, [] => []
  | S n', _ :: dst' =>
      match src with
      | EmptyString => NUL :: strncpy dst' EmptyString n'
      | String c src' =>
          if Ascii.eqb c NUL then NUL :: strncpy dst' EmptyString n'
          else c :: strncpy dst' src' n'
      end
  end.

(** [Directory::Directory(size)]: [new DirectoryEntry[size]] hands out
    storage whose content is not initialised ([storage]); the constructor
    only clears [inUse]. *)
Definition Directory_new (storage : list DirectoryEntry) : Directory :=
  map (fun e => {| inUse := false; fileType := fileType e;
                   sector := sector e; name := name e |}) storage.

Fixpoint FindIndex_from (i : Z) (table : list DirectoryEntry) (nm : string) : Z :=
  match table with
  | [] => -1
  | e :: table' =>
      if inUse e && strncmp_is0 (name e) nm FileNameMaxLen then i
      else FindIndex_from (i + 1) table' nm
  end.

Definition Directory_FindIndex (this : Directory) (nm : string) : Z :=
  FindIndex_from 0 this nm.

(** [table[i]] where [i] is an index returned by [FindIndex]. *)
Definition entry_at (this : Directory) (i : Z) : option DirectoryEntry :=
  if i <? 0 then None else this !! Z.to_nat i.

Definition Directory_Find (this : Directory) (nm : string) : Z :=
  let i := Directory_FindIndex this nm in
  if negb (i =? -1) then
    match entry_at this i with Some e => sector e | None => -1 end
  else -1.

Definition Directory_IsDirectory (this : Directory) (nm : string) : bool :=
  let index := Directory_FindIndex this nm in
  if negb (index =? -1) then
    match entry_at this index with
    | Some e => fileType e =? DIR_TYPE
    | None => false
    end
  else false.

(** The loop of [Directory::Add] over the free slots; [None] when the loop
    ends without finding one. *)
Fixpoint Add_loop (table : list DirectoryEntry) (nm : string)
    (newSector type : Z) : option (list DirectoryEntry) :=
  match table with
  | [] => None
  | e :: table' =>
      if negb (inUse e) then
        Some ({| inUse := true;
                 fileType := type;
                 sector := newSector;
                 name := strncpy (name e) nm FileNameMaxLen |} :: table')
      else
        match Add_loop table' nm newSector type with
        | Some t => Some (e :: t)
        | None => None
        end
  end.

Definition Directory_Add (this : Directory) (nm : string) (newSector type : Z)
  : bool * Directory :=
  if negb (Directory_FindIndex this nm =? -1) then (false, this)
  else
    match Add_loop this nm newSector type with
    | Some t => (true, t)
    | None => (false, this)
    end.

Definition clear_inUse (e : DirectoryEntry) : DirectoryEntry :=
  {| inUse := false; fileType := fileType e; sector := sector e;
     name := name e |}.

Definition Directory_Remove (this : Directory) (nm : string)
  : bool * Directory :=
  let i := Directory_FindIndex this nm in
  if i =? -1 then (false, this)
  else (true, alter clear_inUse (Z.to_nat i) this).

(** One line of [Directory::List] or [Directory::ListRecursive]:
    the indentation printed before it, the index, the stored name and the
    type letter. *)
Record ListLine : Type := {
  line_indent : Z;
  line_index : Z;
  line_name : list ascii;
  line_type : ascii
}.

Fixpoint List_from (i : Z) (table : list DirectoryEntry) : list ListLine :=
  match table with
  | [] => []
  | e :: table' =>
      if inUse e then
        {| line_indent := 0; line_index := i; line_name := name e;
           line_type := if fileType e =? DIR_TYPE then "D"%char else "F"%char |}
        :: List_from (i + 1) table'
      else List_from (i + 1) table'
  end.

Definition Directory_List (this : Directory) : list ListLine := List_from 0 this.

(** ** Files on the disk

    Modelled from the spec: openfile.cc is not among the sources.  An open
    file wraps a header, identified by its sector, and a byte position.
    The directory and the bitmap move their whole content through
    [ReadAt] and [WriteAt] at offset 0 of their backing file; the store
    keeps, next to the raw sectors, the table that a directory read of
    the file with a given header sector yields and the bitmap that the
    bitmap file holds.  [ReadAt] and [WriteAt] stop at the end of the
    backing file, and files never grow: the transfer of the whole table
    that the store follows is the transfer of the code when the backing
    file has at least the bytes of the table, as the files have that
    formatting and [CreateDirectory] allocate for a directory.  A table
    written through a shorter file reaches the disk in part only, which
    the store does not follow; the properties of what a write of a
    directory leaves are stated for backing files that hold the whole
    table ([directory_file] below).  The raw sectors follow the headers
    and their pointer blocks; the data sectors under a table or under
    the bitmap are not followed there, so nothing is stated of them. *)

Record OpenFile : Type := {
  of_sector : Z;
  seekPosition : Z
}.

Definition OpenFile_new (sector0 : Z) : OpenFile :=
  {| of_sector := sector0; seekPosition := 0 |}.

Record Store : Type := {
  synchDisk : SynchDisk;
  dirData : Z -> list DirectoryEntry;
  mapData : Bitmap
}.

Definition Directory_FetchFrom (st : Store) (file : OpenFile) : Directory :=
  dirData st (of_sector file).

Definition Directory_WriteBack (this : Directory) (st : Store) (file : OpenFile)
  : Store :=
  {| synchDisk := synchDisk st;
     dirData := fun s => if s =? of_sector file then this else dirData st s;
     mapData := mapData st |}.

(** [new PersistentBitmap(file, numItems)] and [freeMap->WriteBack(file)]. *)
Definition PersistentBitmap_load (st : Store) (file : OpenFile) : Bitmap :=
  mapData st.

Definition PersistentBitmap_WriteBack (freeMap : Bitmap) (st : Store)
    (file : OpenFile) : Store :=
  {| synchDisk := synchDisk st; dirData := dirData st; mapData := freeMap |}.

Definition set_synchDisk (st : Store) (d : SynchDisk) : Store :=
  {| synchDisk := d; dirData := dirData st; mapData := mapData st |}.

(** [foreach]-style loop over the entries of a table. *)
Fixpoint foldM {A St : Type} (f : A -> St -> res St) (l : list A) (s : St)
  : res St :=
  match l with
  | [] => Ok s
  | x :: l' => s' ← f x s; foldM f l' s'
  end.

(** ** The file system (filesys.h, filesys.cc) *)

Definition FreeMapSector : Z := 0.
Definition DirectorySector : Z := 1.
Definition BitsInByte : Z := 8.

(** [std::map<OpenFileId, OpenFile*>]; a stored [NULL] is [None]. *)
Abbreviation OpenFileTable := (gmap Z (option OpenFile)).

Record FileSystem : Type := {
  freeMapFile : OpenFile;
  directoryFile : OpenFile;
  currentDirectoryFile : OpenFile;
  currentDirectory : Directory;
  fs_table : OpenFileTable
}.

(** [table[fd]]: [operator[]] inserts a value-initialised ([NULL]) entry
    when the key is absent. *)
Definition map_subscript (t : OpenFileTable) (fd : Z)
  : option OpenFile * OpenFileTable :=
  match t !! fd with
  | Some v => (v, t)
  | None => (None, <[fd := None]> t)
  end.

(** [table.insert({k, v})]: no effect when the key is present. *)
Definition map_insert_pair (t : OpenFileTable) (k : Z) (v : option OpenFile)
  : OpenFileTable :=
  match t !! k with
  | Some _ => t
  | None => <[k := v]> t
  end.

(** [table.erase(fd)] *)
Definition map_erase (t : OpenFileTable) (fd : Z) : OpenFileTable :=
  delete fd t.

(** The tokens that the [strtok(splitPath, "/")] loop stores in [pathArr]:
    the maximal runs of characters other than ['/'].  [tok] is the run
    being read. *)
Fixpoint strtok_loop (s : string) (tok : string) : list string :=
  match s with
  | EmptyString => if String.eqb tok "" then [] else [tok]
  | String c s' =>
      if Ascii.eqb c "/"%char then
        if String.eqb tok "" then strtok_loop s' ""
        else tok :: strtok_loop s' ""
      else strtok_loop s' (tok ++ String c "")
  end.

(** [path[0]] *)
Definition first_char (path : string) : ascii :=
  match path with
  | EmptyString => NUL
  | String c _ => c
  end.

(** A local [int] that may be read before it is assigned: [None] is the
    indeterminate value it then holds. *)
Abbreviation local_int := (option Z).

Section FileSystem.

(** Missing from the sources: the number of sectors of the disk (disk.h),
    the size of a directory entry, the content of the storage that
    [new DirectoryEntry[NumDirEntries]] and [new FileHeader] hand out
    (the integers [numBytes], [numPointer], [level], [pointerSectors]),
    and the positional read and write of openfile.cc. *)
Variable NumSectors : Z.
Variable sizeof_DirectoryEntry : Z.
Variable entry_storage : list DirectoryEntry.
Variable header_storage : list Z.
Variable OpenFile_Read : OpenFile -> Store -> Z -> Z * OpenFile.
Variable OpenFile_Write :
  OpenFile -> Store -> string -> Z -> Z * OpenFile * Store.

Definition FreeMapFileSize : Z := Z.quot NumSectors BitsInByte.
Definition DirectoryFileSize : Z := sizeof_DirectoryEntry * NumDirEntries.
Definition DIR_SIZE : Z := NumDirEntries * sizeof_DirectoryEntry.

Definition new_FileHeader : FileHeader :=
  FileHeader_new (nth 0 header_storage 0) (nth 1 header_storage 0)
                 (nth 2 header_storage 0) (drop 3 header_storage).

Definition new_Directory : Directory := Directory_new entry_storage.

(** *** Directory::RemoveRecursive and Directory::ListRecursive

    [RemoveRecursive] is the definition of directory.cc: it takes no
    argument, although directory.h declares and [FileSystem::RemoveDir]
    passes a bitmap.  The recursion follows the directories found on the
    disk; [fuel] bounds its depth. *)
Fixpoint Directory_RemoveRecursive (fuel : nat) (this : Directory)
    (st : Store) : res Store :=
  match fuel with
  | O => OutOfFuel
  | S fuel' =>
      foldM
        (fun e st =>
           if inUse e then
             if fileType e =? DIR_TYPE then
               let subSector := sector e in
               let subDirFile := OpenFile_new subSector in
               let subDir := Directory_FetchFrom st subDirFile in
               st1 ← Directory_RemoveRecursive fuel' subDir st;
               let subDir := new_Directory in
               Ok (Directory_WriteBack subDir st1 subDirFile)
             else Ok st
           else Ok st)
        this st
  end.

Fixpoint Directory_ListRecursive (fuel : nat) (st : Store)
    (this : Directory) (offset : Z) : res (list ListLine) :=
  match fuel with
  | O => OutOfFuel
  | S fuel' =>
      (fix loop (i : Z) (table : list DirectoryEntry) : res (list ListLine) :=
         match table with
         | [] => Ok []
         | e :: table' =>
             if inUse e then
               if fileType e =? DIR_TYPE then
                 let subDirFile := OpenFile_new (sector e) in
                 let subDir := Directory_FetchFrom st subDirFile in
                 sub ← Directory_ListRecursive fuel' st subDir (offset + 2);
                 rest ← loop (i + 1) table';
                 Ok ({| line_indent := offset; line_index := i;
                        line_name := name e; line_type := "D"%char |}
                     :: sub ++ rest)
               else
                 rest ← loop (i + 1) table';
                 Ok ({| line_indent := 0; line_index := i;
                        line_name := name e; line_type := "F"%char |}
                     :: rest)
             else loop (i + 1) table'
         end) 0 this
  end.

(** *** Construction *)

Definition FileSystem_new (format : bool) (st : Store)
  : res (FileSystem * Store) :=
  if format then
    let freeMap := Bitmap_new NumSectors in
    let directory := new_Directory in
    let mapHdr := new_FileHeader in
    let dirHdr := new_FileHeader in
    let freeMap := Mark FreeMapSector freeMap in
    let freeMap := Mark DirectorySector freeMap in
    '(ok1, mapHdr, freeMap) ← FileHeader_Allocate mapHdr freeMap FreeMapFileSize;
    ASSERT ok1
      ('(ok2, dirHdr, freeMap) ←
         FileHeader_Allocate dirHdr freeMap DirectoryFileSize;
       ASSERT ok2
         (d1 ← FileHeader_WriteBack mapHdr (synchDisk st) FreeMapSector;
          d2 ← FileHeader_WriteBack dirHdr d1 DirectorySector;
          let st := set_synchDisk st d2 in
          let freeMapFile' := OpenFile_new FreeMapSector in
          let directoryFile' := OpenFile_new DirectorySector in
          let st := PersistentBitmap_WriteBack freeMap st freeMapFile' in
          let st := Directory_WriteBack directory st directoryFile' in
          let currentDirectoryFile' := OpenFile_new DirectorySector in
          Ok ({| freeMapFile := freeMapFile';
                 directoryFile := directoryFile';
                 currentDirectoryFile := currentDirectoryFile';
                 currentDirectory :=
                   Directory_FetchFrom st currentDirectoryFile';
                 fs_table := ∅ |}, st)))
  else
    let currentDirectoryFile' := OpenFile_new DirectorySector in
    Ok ({| freeMapFile := OpenFile_new FreeMapSector;
           directoryFile := OpenFile_new DirectorySector;
           currentDirectoryFile := currentDirectoryFile';
           currentDirectory := Directory_FetchFrom st currentDirectoryFile';
           fs_table := ∅ |}, st).

(** *** Moving the current directory *)

Definition set_current (this : FileSystem) (file : OpenFile) (dir : Directory)
  : FileSystem :=
  {| freeMapFile := freeMapFile this;
     directoryFile := directoryFile this;
     currentDirectoryFile := file;
     currentDirectory := dir;
     fs_table := fs_table this |}.

Definition set_table (this : FileSystem) (t : OpenFileTable) : FileSystem :=
  {| freeMapFile := freeMapFile this;
     directoryFile := directoryFile this;
     currentDirectoryFile := currentDirectoryFile this;
     currentDirectory := currentDirectory this;
     fs_table := t |}.

Definition ResetToRootDirectory (this : FileSystem) (st : Store)
  : FileSystem :=
  let file := OpenFile_new DirectorySector in
  set_current this file (Directory_FetchFrom st file).

Definition ChangeCurrentDirectory (this : FileSystem) (st : Store)
    (nm : string) : bool * FileSystem * Store :=
  let dir := Directory_FetchFrom st (currentDirectoryFile this) in
  let this := set_current this (currentDirectoryFile this) dir in
  let dirSector := Directory_Find dir nm in
  if dirSector =? -1 then (false, this, st)
  else
    let st := Directory_WriteBack dir st (currentDirectoryFile this) in
    let file := OpenFile_new dirSector in
    (true, set_current this file (Directory_FetchFrom st file), st).

(** [for (i = 0; i < pathLength - 1; i++)
      if (!ChangeCurrentDirectory(pathArr[i])) return false;]
    over the tokens of [pathArr]; the last token is not visited. *)
Fixpoint traverse (this : FileSystem) (st : Store) (pathArr : list string)
  : bool * FileSystem * Store :=
  match pathArr with
  | [] => (true, this, st)
  | [_] => (true, this, st)
  | p :: rest =>
      let '(ok, this', st') := ChangeCurrentDirectory this st p in
      if ok then traverse this' st' rest else (false, this', st')
  end.

(** The result carries [filename]; [currentPath] is only computed for the
    commented-out messages and is left out.  The sizes of the local
    buffers ([PATH_MAX_LEN], [PATH_DEPTH], [FileNameMaxLen]) are not
    modelled: paths are taken to fit. *)
Definition ChangeCurrentDirectoryByWholePath (this : FileSystem) (st : Store)
    (path : string) : bool * string * FileSystem * Store :=
  let this := ResetToRootDirectory this st in
  let filename := ""%string in
  if negb (Ascii.eqb (first_char path) "/"%char) then
    (false, filename, this, st)
  else
    let pathArr := strtok_loop path "" in
    let '(ok, this, st) := traverse this st pathArr in
    if negb ok then (false, filename, this, st)
    else
      let filename := last pathArr in
      (true, default ""%string filename, this, st).

(** *** Creation *)

Definition with_currentDirectory (this : FileSystem) (dir : Directory)
  : FileSystem :=
  set_current this (currentDirectoryFile this) dir.

Definition CreateDirectory (this : FileSystem) (st : Store) (nm : string)
  : res (bool * FileSystem * Store) :=
  let dir := Directory_FetchFrom st (currentDirectoryFile this) in
  let this := with_currentDirectory this dir in
  if negb (Directory_Find dir nm =? -1) then Ok (false, this, st)
  else
    let freeMap := PersistentBitmap_load st (freeMapFile this) in
    let '(sector0, freeMap) := FindAndSet freeMap in
    if sector0 =? -1 then Ok (false, this, st)
    else
      let '(added, dir) := Directory_Add dir nm sector0 DIR_TYPE in
      let this := with_currentDirectory this dir in
      if negb added then Ok (false, this, st)
      else
        let hdr := new_FileHeader in
        '(ok, hdr, freeMap) ← FileHeader_Allocate hdr freeMap DIR_SIZE;
        if negb ok then Ok (false, this, st)
        else
          d ← FileHeader_WriteBack hdr (synchDisk st) sector0;
          let st := set_synchDisk st d in
          let newDirFile := OpenFile_new sector0 in
          let newDir := new_Directory in
          let st := Directory_WriteBack newDir st newDirFile in
          let st := Directory_WriteBack dir st (currentDirectoryFile this) in
          let st := PersistentBitmap_WriteBack freeMap st (freeMapFile this) in
          Ok (true, this, st).

Definition CreateFile (this : FileSystem) (st : Store) (nm : string)
    (initialSize : Z) : res (bool * FileSystem * Store) :=
  let dir := Directory_FetchFrom st (currentDirectoryFile this) in
  let this := with_currentDirectory this dir in
  if negb (Directory_Find dir nm =? -1) then Ok (false, this, st)
  else
    let freeMap := PersistentBitmap_load st (freeMapFile this) in
    let '(sector0, freeMap) := FindAndSet freeMap in
    if sector0 =? -1 then Ok (false, this, st)
    else
      let '(added, dir) := Directory_Add dir nm sector0 FILE_TYPE in
      let this := with_currentDirectory this dir in
      if negb added then Ok (false, this, st)
      else
        let hdr := new_FileHeader in
        '(ok, hdr, freeMap) ← FileHeader_Allocate hdr freeMap initialSize;
        if negb ok then Ok (false, this, st)
        else
          d ← FileHeader_WriteBack hdr (synchDisk st) sector0;
          let st := set_synchDisk st d in
          let st := Directory_WriteBack dir st (currentDirectoryFile this) in
          let st := PersistentBitmap_WriteBack freeMap st (freeMapFile this) in
          Ok (true, this, st).

Definition Create (this : FileSystem) (st : Store) (path : string)
    (initialSize : Z) : res (bool * FileSystem * Store) :=
  let success := false in
  let '(resolved, filename, this, st) :=
    ChangeCurrentDirectoryByWholePath this st path in
  '(success, this, st) ←
    (if resolved then
       rbind (CreateFile this st filename initialSize)
         (fun '(created, this, st) =>
            if created then Ok (true, this, st) else Ok (success, this, st))
     else Ok (success, this, st));
  let this := ResetToRootDirectory this st in
  Ok (success, this, st).

(** *** Opening *)

(** [FileSystem::Open]; the result is the new handle or [NULL]. *)
Definition Open (this : FileSystem) (st : Store) (path : string)
  : option OpenFile * FileSystem * Store :=
  let openFile := None in
  let '(resolved, filename, this, st) :=
    ChangeCurrentDirectoryByWholePath this st path in
  let openFile :=
    if resolved then
      let sector0 := Directory_Find (currentDirectory this) filename in
      if sector0 >=? 0 then Some (OpenFile_new sector0) else openFile
    else openFile in
  let this := ResetToRootDirectory this st in
  (openFile, this, st).

(** [FileSystem::OpenAFile]; the local [sector] is declared without an
    initialiser and is what the function returns. *)
Definition OpenAFile (this : FileSystem) (st : Store) (path : string)
  : local_int * FileSystem * Store :=
  let sector0 : local_int := None in
  let '(resolved, filename, this, st) :=
    ChangeCurrentDirectoryByWholePath this st path in
  let '(sector0, this) :=
    if resolved then
      let found := Directory_Find (currentDirectory this) filename in
      if found >=? 0 then
        let openFile := OpenFile_new found in
        (Some found,
         set_table this (map_insert_pair (fs_table this) found (Some openFile)))
      else (Some found, this)
    else (sector0, this) in
  let this := ResetToRootDirectory this st in
  (sector0, this, st).

(** *** Read, write and close by identifier *)

Definition WriteFile (this : FileSystem) (st : Store) (buffer : string)
    (size : Z) (fd : Z) : Z * FileSystem * Store :=
  let '(openFile, t) := map_subscript (fs_table this) fd in
  let this := set_table this t in
  match openFile with
  | None => (-1, this, st)
  | Some f =>
      let '(n, f', st') := OpenFile_Write f st buffer size in
      (n, set_table this (<[fd := Some f']> t), st')
  end.

Definition ReadFile (this : FileSystem) (st : Store) (size : Z) (fd : Z)
  : Z * FileSystem * Store :=
  let '(openFile, t) := map_subscript (fs_table this) fd in
  let this := set_table this t in
  match openFile with
  | None => (-1, this, st)
  | Some f =>
      let '(n, f') := OpenFile_Read f st size in
      (n, set_table this (<[fd := Some f']> t), st)
  end.

Definition CloseFile (this : FileSystem) (st : Store) (fd : Z)
  : Z * FileSystem * Store :=
  let '(openFile, t) := map_subscript (fs_table this) fd in
  let this := set_table this t in
  match openFile with
  | None => (0, this, st)
  | Some eraseFile => (1, set_table this (map_erase t fd), st)
  end.

(** *** Removal *)

Definition RemoveDir (fuel : nat) (this : FileSystem) (st : Store)
    (sector0 : Z) (dirName : string) : res (FileSystem * Store) :=
  let freeMap := PersistentBitmap_load st (freeMapFile this) in
  let removeDirFile := OpenFile_new sector0 in
  let removeDir := Directory_FetchFrom st removeDirFile in
  st ← Directory_RemoveRecursive fuel removeDir st;
  let st := Directory_WriteBack removeDir st removeDirFile in
  fileHdr ← FileHeader_FetchFrom new_FileHeader (synchDisk st) sector0;
  '(fileHdr, freeMap) ← FileHeader_Deallocate fileHdr freeMap;
  let freeMap := Clear sector0 freeMap in
  let '(_, dir) := Directory_Remove (currentDirectory this) dirName in
  let this := with_currentDirectory this dir in
  let st := PersistentBitmap_WriteBack freeMap st (freeMapFile this) in
  let st := Directory_WriteBack dir st (currentDirectoryFile this) in
  Ok (this, st).

Definition RemoveFile (this : FileSystem) (st : Store) (sector0 : Z)
    (fileName : string) : res (FileSystem * Store) :=
  fileHdr ← FileHeader_FetchFrom new_FileHeader (synchDisk st) sector0;
  let freeMap := PersistentBitmap_load st (freeMapFile this) in
  '(fileHdr, freeMap) ← FileHeader_Deallocate fileHdr freeMap;
  let freeMap := Clear sector0 freeMap in
  let '(_, dir) := Directory_Remove (currentDirectory this) fileName in
  let this := with_currentDirectory this dir in
  let st := PersistentBitmap_WriteBack freeMap st (freeMapFile this) in
  let st := Directory_WriteBack dir st (currentDirectoryFile this) in
  Ok (this, st).

Definition Remove (fuel : nat) (this : FileSystem) (st : Store)
    (path : string) : res (bool * FileSystem * Store) :=
  let '(resolved, filename, this, st) :=
    ChangeCurrentDirectoryByWholePath this st path in
  if resolved then
    if String.eqb filename "" then Ok (false, this, st)
    else
      let sector0 := Directory_Find (currentDirectory this) filename in
      if sector0 =? -1 then Ok (false, this, st)
      else
        '(this, st) ←
          (if Directory_IsDirectory (currentDirectory this) filename
           then RemoveDir fuel this st sector0 filename
           else RemoveFile this st sector0 filename)
          : res (FileSystem * Store);
        let this := ResetToRootDirectory this st in
        Ok (true, this, st)
  else
    let this := ResetToRootDirectory this st in
    Ok (true, this, st).

(** *** Listing *)

Definition List (this : FileSystem) (st : Store) (path : string)
  : list ListLine * FileSystem * Store :=
  let '(resolved, filename, this, st) :=
    ChangeCurrentDirectoryByWholePath this st path in
  let '(out, this, st) :=
    if resolved then
      let '(this, st) :=
        if negb (String.eqb filename "") then
          let '(_, this, st) := ChangeCurrentDirectory this st filename in
          (this, st)
        else (this, st) in
      (Directory_List (currentDirectory this), this, st)
    else ([], this, st) in
  let this := ResetToRootDirectory this st in
  (out, this, st).

Definition ListRecursive (fuel : nat) (this : FileSystem) (st : Store)
    (path : string) : res (list ListLine * FileSystem * Store) :=
  let '(resolved, filename, this, st) :=
    ChangeCurrentDirectoryByWholePath this st path in
  '(out, this, st) ←
    (if resolved then
       let '(this, st) :=
         if negb (String.eqb filename "") then
           let '(_, this, st) := ChangeCurrentDirectory this st filename in
           (this, st)
         else (this, st) in
       let offset := 0 in
       out ← Directory_ListRecursive fuel st (currentDirectory this) offset;
       Ok (out, this, st)
     else Ok ([], this, st)) : res (list ListLine * FileSystem * Store);
  let this := ResetToRootDirectory this st in
  Ok (out, this, st).

End FileSystem.

(** ** Sample states

    A disk of 128 sectors whose content is all zero, directory entries of 24
    bytes, and storage that holds zeros; the states below are reached from
    it by the operations of the file system. *)

Definition sample_entry : DirectoryEntry :=
  {| inUse := false; fileType := 0; sector := 0;
     name := replicate (S FileNameMaxLen) NUL |}.

Definition sample_storage : list DirectoryEntry :=
  repeat sample_entry (Z.to_nat NumDirEntries).

Definition sample_NumSectors : Z := 128.
Definition sample_entry_size : Z := 24.

Definition blank_store : Store :=
  {| synchDisk := fun _ => replicate (Z.to_nat NUM_INT_IN_SECTOR) 0;
     dirData := fun _ => sample_storage;
     mapData := Bitmap_new sample_NumSectors |}.

(** [FileSystem(true)] on the blank disk. *)
Definition formatted : res (FileSystem * Store) :=
  FileSystem_new sample_NumSectors sample_entry_size sample_storage [] true
    blank_store.

(** ... then a directory [d] in the root ... *)
Definition with_dir_d : res (bool * FileSystem * Store) :=
  '(fs, st) ← formatted;
  CreateDirectory sample_entry_size sample_storage [] fs st "d".

(** ... then a file [/d/f] of 100 bytes. *)
Definition with_file_d_f : res (bool * FileSystem * Store) :=
  '(_, fs, st) ← with_dir_d;
  Create [] fs st "/d/f" 100.

(** The sectors that [Create] gave to [/d/f]: the header, and the pointer
    and data sector of its only block. *)
Definition sectors_of_d_f : list Z := [53; 54; 55].

(** Storage whose name bytes all hold ['x']. *)
Definition dirty_entry : DirectoryEntry :=
  {| inUse := true; fileType := 7; sector := 7;
     name := replicate (S FileNameMaxLen) "x"%char |}.

Definition dirty_storage : list DirectoryEntry := replicate 2 dirty_entry.

(** ** Predicates used by the properties *)

(** The stored array holds a terminated string. *)
Definition NUL_terminated (a : list ascii) : Prop := In NUL a.

(** The first [FileNameMaxLen] characters of the C string in a stored
    array, which is what [FindIndex] compares. *)
Fixpoint c_prefix (n : nat) (a : list ascii) : list ascii :=
  match n, a with
  | O, _ => []
  | S _, [] => []
  | S n', c :: a' => if Ascii.eqb c NUL then [] else c :: c_prefix n' a'
  end.

Definition key_of (e : DirectoryEntry) : list ascii :=
  c_prefix FileNameMaxLen (name e).

(** No two entries in use carry the same name. *)
Definition names_unique (d : Directory) : Prop :=
  forall i j e1 e2,
    d !! i = Some e1 -> d !! j = Some e2 ->
    inUse e1 = true -> inUse e2 = true ->
    key_of e1 = key_of e2 -> i = j.

(** A sequence of directory operations. *)
Inductive dir_op : Type :=
| OpAdd (nm : string) (newSector type : Z)
| OpRemove (nm : string).

(** Runs the operations; [None] as soon as one of them fails. *)
Fixpoint run_ops (ops : list dir_op) (d : Directory) : option Directory :=
  match ops with
  | [] => Some d
  | OpAdd nm s t :: ops' =>
      let '(ok, d') := Directory_Add d nm s t in
      if ok then run_ops ops' d' else None
  | OpRemove nm :: ops' =>
      let '(ok, d') := Directory_Remove d nm in
      if ok then run_ops ops' d' else None
  end.

(** Two stores hold the same content. *)
Definition store_eq (st st' : Store) : Prop :=
  (forall n, synchDisk st' n = synchDisk st n) /\
  (forall s, dirData st' s = dirData st s) /\
  mapData st' = mapData st.

(** The current directory is the root, as [ResetToRootDirectory] leaves it. *)
Definition at_root (this : FileSystem) (st : Store) : Prop :=
  of_sector (currentDirectoryFile this) = DirectorySector /\
  currentDirectory this = dirData st DirectorySector.

(** ** Sample runs *)

(** [Remove("/a/b")] right after formatting: the root has no [a]. *)
Definition remove_a_b_after_format : res (bool * FileSystem * Store) :=
  '(fs, st) ← formatted;
  Remove sample_storage [] 10 fs st "/a/b".

(** [OpenAFile("/a/b")] right after formatting. *)
Definition open_a_b_after_format : res (local_int * FileSystem * Store) :=
  '(fs, st) ← formatted;
  Ok (OpenAFile fs st "/a/b").

(** [Remove("/d/x")] when [d] holds only [f]. *)
Definition remove_d_x : res (bool * FileSystem * Store) :=
  '(_, fs, st) ← with_file_d_f;
  Remove sample_storage [] 10 fs st "/d/x".

(** [Remove("/d")] when [d] holds [f]. *)
Definition remove_d : res (bool * FileSystem * Store) :=
  '(_, fs, st) ← with_file_d_f;
  Remove sample_storage [] 10 fs st "/d".

(** The sector of the header of the directory [d]. *)
Definition sector_of_d : Z := 28.

(** [Add("abcdefghi", 5, FILE_TYPE)] on a new directory whose storage is
    [dirty_storage]. *)
Definition add_nine_chars : bool * Directory :=
  Directory_Add (Directory_new dirty_storage) "abcdefghi" 5 FILE_TYPE.

(** The first [n] characters of a C string argument. *)
Fixpoint c_prefix_str (n : nat) (s : string) : list ascii :=
  match n, s with
  | O, _ => []
  | S _, EmptyString => []
  | S n', String c s' =>
      if Ascii.eqb c NUL then [] else c :: c_prefix_str n' s'
  end.

(** Every stored name is an array of [FileNameMaxLen + 1] bytes. *)
Definition names_sized (d : Directory) : Prop :=
  Forall (fun e => length (name e) = S FileNameMaxLen) d.

(** ** Pointer blocks and well-formed nodes

    The sectors that hold the pointer blocks below a node (the sector of
    the node itself left out), which are the sectors that [WriteBack]
    writes and [FetchFrom] reads. *)

Definition children_blocks {C : Type} (blocks : C -> list Z) (n : nat)
    (table : list C) (ps : list Z) : list Z :=
  concat (zip_with (fun c s => s :: blocks c) (take n table) (take n ps)).

Definition blocks_single (p : SingleIndirectPointer) : list Z := [].

Definition blocks_double (p : DoubleIndirectPointer) : list Z :=
  children_blocks blocks_single (Z.to_nat (d_numPointer p)) (d_table p)
    (d_pointerSectors p).

Definition blocks_triple (p : TripleIndirectPointer) : list Z :=
  children_blocks blocks_double (Z.to_nat (t_numPointer p)) (t_table p)
    (t_pointerSectors p).

Definition blocks_ptr (p : DataPointerInterface) : list Z :=
  match p with
  | Direct _ => []
  | SingleIndirect q => blocks_single q
  | DoubleIndirect q => blocks_double q
  | TripleIndirect q => blocks_triple q
  end.

Definition blocks_entry (e : option DataPointerInterface) : list Z :=
  match e with
  | Some p => blocks_ptr p
  | None => []
  end.

Definition blocks_hdr (h : FileHeader) : list Z :=
  children_blocks blocks_entry (Z.to_nat (numPointer h)) (table h)
    (pointerSectors h).

(** The level whose headers point to nodes of this class. *)
Definition kind_of (p : DataPointerInterface) : Z :=
  match p with
  | Direct _ => LEVEL_1
  | SingleIndirect _ => LEVEL_2
  | DoubleIndirect _ => LEVEL_3
  | TripleIndirect _ => LEVEL_4
  end.

(** A node with [cap] slots of which the first [np] are in use: the used
    pointer sectors are sector numbers, the used children are well formed
    and the unused children are as [new] left them. *)
Definition wf_node {C : Type} (okC : C -> Prop) (newC : C) (np : Z)
    (ps : list Z) (tb : list C) (cap : nat) : Prop :=
  length ps = cap /\ length tb = cap /\ 0 <= np <= Z.of_nat cap /\
  Forall (fun s => 0 <= s) (take (Z.to_nat np) ps) /\
  Forall okC (take (Z.to_nat np) tb) /\
  drop (Z.to_nat np) tb = replicate (cap - Z.to_nat np) newC.

Definition wf_single (p : SingleIndirectPointer) : Prop :=
  length (s_pointerSectors p) = Z.to_nat NUM_INDIRECT_POINTER.

Definition wf_double (p : DoubleIndirectPointer) : Prop :=
  wf_node wf_single SingleIndirectPointer_new (d_numPointer p)
    (d_pointerSectors p) (d_table p) (Z.to_nat NUM_INDIRECT_POINTER).

Definition wf_triple (p : TripleIndirectPointer) : Prop :=
  wf_node wf_double DoubleIndirectPointer_new (t_numPointer p)
    (t_pointerSectors p) (t_table p) (Z.to_nat NUM_INDIRECT_POINTER).

Definition wf_ptr (p : DataPointerInterface) : Prop :=
  match p with
  | Direct _ => True
  | SingleIndirect q => wf_single q
  | DoubleIndirect q => wf_double q
  | TripleIndirect q => wf_triple q
  end.

Definition wf_entry (lv : Z) (e : option DataPointerInterface) : Prop :=
  exists p, e = Some p /\ wf_ptr p /\ kind_of p = lv.

Definition wf_hdr (h : FileHeader) : Prop :=
  wf_node (wf_entry (level h)) None (numPointer h) (pointerSectors h)
    (table h) (Z.to_nat NUM_FILE_HEADER_POINTER) /\
  FetchFrom_level (numBytes h) = Some (level h).

(** Bits only get set between two bitmaps. *)
Definition mono (fm fm' : Bitmap) : Prop :=
  forall x, Test x fm = true -> Test x fm' = true.

(** The sectors of [L] are distinct, free in [fm] and taken in [fm']. *)
Definition allocated (fm fm' : Bitmap) (L : list Z) : Prop :=
  NoDup L /\
  Forall (fun x => Test x fm = false /\ Test x fm' = true) L /\
  mono fm fm'.

(** A disk from which the node can be read back at a sector: every disk
    that agrees with it on the sectors of the node yields the node. *)
Definition readable {C : Type} (fetch : SynchDisk -> Z -> res C)
    (W : list Z) (d : SynchDisk) (s : Z) (c : C) : Prop :=
  forall d' : SynchDisk, (forall x, x ∈ W -> d' x = d x) -> fetch d' s = Ok c.

(** Every name added is shorter than [FileNameMaxLen]. *)
Definition short_names (ops : list dir_op) : Prop :=
  Forall (fun op => match op with
                    | OpAdd nm _ _ => (String.length nm < FileNameMaxLen)%nat
                    | OpRemove _ => True
                    end) ops.

(** The name of every entry in use is terminated. *)
Definition names_terminated (d : Directory) : Prop :=
  Forall (fun e => inUse e = true -> NUL_terminated (name e)) d.

(** The entries that a sequence of successful operations adds, less those
    it removes. *)
Fixpoint net_adds (ops : list dir_op) : Z :=
  match ops with
  | [] => 0
  | OpAdd _ _ _ :: ops' => 1 + net_adds ops'
  | OpRemove _ :: ops' => net_adds ops' - 1
  end.

(** A directory with one file, [notes], at sector 7. *)
Definition dir_with_notes : Directory :=
  snd (Directory_Add (Directory_new sample_storage) "notes" 7 FILE_TYPE).
(** A path component: not empty and without ['/']. *)
Definition is_component (t : string) : Prop :=
  t <> ""%string /\ ~ In "/"%char (list_ascii_of_string t).

(** ** The sectors of a file

    [sectors_*]: every sector that a node holds, the pointer block of each
    child followed by the sectors of the child.  [data_*]: the data
    sectors, in the order of the bytes they hold.  A single-indirect node
    holds data sectors only. *)

Definition sectors_single (p : SingleIndirectPointer) : list Z :=
  take (Z.to_nat (s_numPointer p)) (s_pointerSectors p).

Definition sectors_double (p : DoubleIndirectPointer) : list Z :=
  children_blocks sectors_single (Z.to_nat (d_numPointer p)) (d_table p)
    (d_pointerSectors p).

Definition sectors_triple (p : TripleIndirectPointer) : list Z :=
  children_blocks sectors_double (Z.to_nat (t_numPointer p)) (t_table p)
    (t_pointerSectors p).

Definition sectors_ptr (p : DataPointerInterface) : list Z :=
  match p with
  | Direct q => [dataSector q]
  | SingleIndirect q => sectors_single q
  | DoubleIndirect q => sectors_double q
  | TripleIndirect q => sectors_triple q
  end.

Definition sectors_entry (e : option DataPointerInterface) : list Z :=
  match e with
  | Some p => sectors_ptr p
  | None => []
  end.

Definition sectors_hdr (h : FileHeader) : list Z :=
  children_blocks sectors_entry (Z.to_nat (numPointer h)) (table h)
    (pointerSectors h).

Definition data_single (p : SingleIndirectPointer) : list Z :=
  take (Z.to_nat (s_numPointer p)) (s_pointerSectors p).

Definition data_double (p : DoubleIndirectPointer) : list Z :=
  concat (map data_single (take (Z.to_nat (d_numPointer p)) (d_table p))).

Definition data_triple (p : TripleIndirectPointer) : list Z :=
  concat (map data_double (take (Z.to_nat (t_numPointer p)) (t_table p))).

Definition data_ptr (p : DataPointerInterface) : list Z :=
  match p with
  | Direct q => [dataSector q]
  | SingleIndirect q => data_single q
  | DoubleIndirect q => data_double q
  | TripleIndirect q => data_triple q
  end.

Definition data_entry (e : option DataPointerInterface) : list Z :=
  match e with
  | Some p => data_ptr p
  | None => []
  end.

Definition data_hdr (h : FileHeader) : list Z :=
  concat (map data_entry (take (Z.to_nat (numPointer h)) (table h))).

(** The sectors whose bit [FileHeader::Deallocate] clears: the top-level
    pointer blocks and the data sectors; and the sectors it passes over:
    the pointer blocks below the top level. *)
Definition cleared_hdr (h : FileHeader) : list Z :=
  children_blocks data_entry (Z.to_nat (numPointer h)) (table h)
    (pointerSectors h).

Definition leaked_hdr (h : FileHeader) : list Z :=
  concat (map blocks_entry (take (Z.to_nat (numPointer h)) (table h))).

(** [fm'] is [fm] with exactly the sectors of [L] taken, which were
    distinct and free. *)
Definition taken (fm fm' : Bitmap) (L : list Z) : Prop :=
  allocated fm fm' L /\
  length fm' = length fm /\
  (forall x, x ∉ L -> Test x fm' = Test x fm) /\
  NumClear fm' = NumClear fm - Z.of_nat (length L).

(** [fm'] is [fm] with exactly the sectors of [L] cleared. *)
Definition released (fm fm' : Bitmap) (L : list Z) : Prop :=
  length fm' = length fm /\
  forall x, Test x fm' = if bool_decide (x ∈ L) then false else Test x fm.

(** The sectors of [L] are distinct and all marked. *)
Definition held (fm : Bitmap) (L : list Z) : Prop :=
  NoDup L /\ Forall (fun x => Test x fm = true) L.

(** ** The shape that [Allocate] gives a node

    A node that was asked for [m] sectors with children of [cap] sectors
    each: every child in use but the last is full, and the last holds the
    rest. *)
Definition good_node {C : Type} (goodC : Z -> C -> Prop) (cap m np : Z)
    (tb : list C) : Prop :=
  0 <= np /\ m <= np * cap /\
  forall i : nat, (i < Z.to_nat np)%nat ->
    0 < m - Z.of_nat i * cap /\
    exists c, tb !! i = Some c /\
              goodC (Z.min (m - Z.of_nat i * cap) cap) c.

Definition good_single (m : Z) (p : SingleIndirectPointer) : Prop :=
  s_numPointer p = m /\
  (Z.to_nat m <= length (s_pointerSectors p))%nat /\
  Forall (fun s => 0 <= s) (take (Z.to_nat m) (s_pointerSectors p)).

Definition good_double (m : Z) (p : DoubleIndirectPointer) : Prop :=
  good_node good_single LEVEL_1_SECTOR_NUM m (d_numPointer p) (d_table p).

Definition good_triple (m : Z) (p : TripleIndirectPointer) : Prop :=
  good_node good_double LEVEL_2_SECTOR_NUM m (t_numPointer p) (t_table p).

Definition good_ptr (m : Z) (p : DataPointerInterface) : Prop :=
  match p with
  | Direct q => m = 1 /\ 0 <= dataSector q
  | SingleIndirect q => good_single m q
  | DoubleIndirect q => good_double m q
  | TripleIndirect q => good_triple m q
  end.

Definition good_entry (m : Z) (e : option DataPointerInterface) : Prop :=
  exists p, e = Some p /\ good_ptr m p.

(** A header that holds [m] data sectors. *)
Definition good_hdr (m : Z) (h : FileHeader) : Prop :=
  good_node good_entry (at_index SECTOR_NUM_IN_LEVEL (level h - 1)) m
    (numPointer h) (table h).
(** [SIZE_IN_LEVEL[k]] is the number of bytes in
    [SECTOR_NUM_IN_LEVEL[k]] sectors. *)
Definition byte_sizes (SIZE_IN_LEVEL : list Z) : Prop :=
  forall k, 0 <= k <= 3 ->
    at_index SIZE_IN_LEVEL k = SectorSize * at_index SECTOR_NUM_IN_LEVEL k.

(** ** Path resolution as iterated look-up *)

(** The header sector of the directory that the loop of
    [ChangeCurrentDirectoryByWholePath] ends in, when it starts in the
    directory at [sec]: every component but the last is looked up in the
    table of the directory reached so far. *)
Fixpoint walk (dd : Z -> list DirectoryEntry) (sec : Z)
    (pathArr : list string) : option Z :=
  match pathArr with
  | [] => Some sec
  | [_] => Some sec
  | p :: rest =>
      let s := Directory_Find (dd sec) p in
      if s =? -1 then None else walk dd s rest
  end.

(** The current directory is the table that its file holds. *)
Definition synced (this : FileSystem) (st : Store) : Prop :=
  currentDirectory this = dirData st (of_sector (currentDirectoryFile this)).

(** Every look-up that succeeds on [st] gives the same sector on [st']. *)
Definition lookup_stable (st st' : Store) : Prop :=
  forall sec nm, Directory_Find (dirData st sec) nm <> -1 ->
    Directory_Find (dirData st' sec) nm = Directory_Find (dirData st sec) nm.

(** Every directory file holds names of [FileNameMaxLen + 1] bytes. *)
Definition sized_store (st : Store) : Prop :=
  forall sec, names_sized (dirData st sec).

(** ** Directory files

    The file with header at [sec] is a directory file when the whole table
    fits in it and the file is in place on the disk: the header sector is
    marked in the bitmap, the header can be read from it, the file has at
    least the [DirectoryFileSize] bytes of the table, and the sectors of
    its pointer blocks and of its data are marked.  The files that
    formatting and [CreateDirectory] create for a directory are of this
    kind.  On them [ReadAt] and [WriteAt] move the whole table, and no
    sector that the bitmap hands out afterwards is one of theirs. *)
Definition directory_file (sizeof_DirectoryEntry : Z)
    (header_storage : list Z) (st : Store) (sec : Z) : Prop :=
  Test sec (mapData st) = true /\
  exists hdr,
    FileHeader_FetchFrom (new_FileHeader header_storage) (synchDisk st) sec
      = Ok hdr /\
    DirectoryFileSize sizeof_DirectoryEntry <= FileHeader_FileLength hdr /\
    Forall (fun x => Test x (mapData st) = true) (sectors_hdr hdr).

(** The header sectors of the directories that the resolution of a path
    fetches: the root, and the directory that each component but the last
    is found at. *)
Fixpoint visited (dd : Z -> list DirectoryEntry) (sec : Z)
    (pathArr : list string) : list Z :=
  match pathArr with
  | [] => [sec]
  | [_] => [sec]
  | p :: rest =>
      let s := Directory_Find (dd sec) p in
      sec :: (if s =? -1 then [] else visited dd s rest)
  end.

(** Every directory on the way of [path] is a directory file. *)
Definition directories_on_path (sizeof_DirectoryEntry : Z)
    (header_storage : list Z) (st : Store) (path : string) : Prop :=
  Forall (directory_file sizeof_DirectoryEntry header_storage st)
         (visited (dirData st) DirectorySector (strtok_loop path "")).

(** The two, decided. *)
Definition directory_file_b (sizeof_DirectoryEntry : Z)
    (header_storage : list Z) (st : Store) (sec : Z) : bool :=
  Test sec (mapData st) &&
  match FileHeader_FetchFrom (new_FileHeader header_storage) (synchDisk st)
          sec with
  | Ok hdr =>
      (DirectoryFileSize sizeof_DirectoryEntry <=? FileHeader_FileLength hdr)
      && forallb (fun x => Test x (mapData st)) (sectors_hdr hdr)
  | _ => false
  end.

Definition directories_on_path_b (sizeof_DirectoryEntry : Z)
    (header_storage : list Z) (st : Store) (path : string) : bool :=
  forallb (directory_file_b sizeof_DirectoryEntry header_storage st)
          (visited (dirData st) DirectorySector (strtok_loop path "")).

(** ** The stub file system (filesys.h, [FILESYS_STUB])

    Modelled from the spec: sysdep.cc and openfile.h are not among the
    sources.  [OpenForReadWrite] is a call to the host; its answer, a
    descriptor or -1, is an argument of [Open] and [OpenAFile] below.  A
    stub [OpenFile] wraps that descriptor, which [GetFileDescriptor]
    returns; what [Read] and [Write] of a handle answer is left to the
    host. *)

Module Stub.

Definition FS_OPENFILE_NUMS : Z := 20.

Record OpenFile : Type := { file : Z }.

Definition OpenFile_new (f : Z) : OpenFile := {| file := f |}.

Definition GetFileDescriptor (this : OpenFile) : Z := file this.

(** [OpenFile *fileDescriptorTable[FS_OPENFILE_NUMS]]; [NULL] is [None]. *)
Abbreviation FileSystem := (list (option OpenFile)).

(** The constructor, on the storage that the object got:
    [for (int i = 0; i < 20; i++) fileDescriptorTable[i] = NULL;] *)
Definition FileSystem_new (storage : FileSystem) : res FileSystem :=
  for_ 20 (fun i t => array_set t i None) storage.

(** [Open], given what [OpenForReadWrite(name, FALSE)] answered. *)
Definition Open (fileDescriptor : Z) : option OpenFile :=
  if fileDescriptor =? -1 then None else Some (OpenFile_new fileDescriptor).

(** The search of [OpenAFile] for a free slot; the loop has no [break], and
    [freeIndex] starts as [NULL], which is 0. *)
Definition freeIndex_loop (this : FileSystem) : res Z :=
  for_ FS_OPENFILE_NUMS
    (fun i freeIndex =>
       slot ← array_get this i;
       Ok (match slot with
           | None => Z.of_nat i
           | Some _ => freeIndex
           end))
    0.

Definition OpenAFile (this : FileSystem) (fileDescriptor : Z)
  : res (Z * FileSystem) :=
  match Open fileDescriptor with
  | None => Ok (-1, this)
  | Some file0 =>
      freeIndex ← freeIndex_loop this;
      if freeIndex =? 0 then Ok (-1, this)
      else
        let fd := GetFileDescriptor file0 in
        this' ← array_set this (Z.to_nat freeIndex) (Some file0);
        Ok (fd, this')
  end.

(** The linear search of [CloseFile], which returns from inside the loop. *)
Fixpoint CloseFile_from (i n : nat) (this : FileSystem) (fd : Z)
  : res (Z * FileSystem) :=
  match n with
  | O => Ok (0, this)
  | S n' =>
      slot ← array_get this i;
      match slot with
      | None => CloseFile_from (S i) n' this fd
      | Some f =>
          if GetFileDescriptor f =? fd then
            this' ← array_set this i None;
            Ok (1, this')
          else CloseFile_from (S i) n' this fd
      end
  end.

Definition CloseFile (this : FileSystem) (fd : Z) : res (Z * FileSystem) :=
  CloseFile_from 0 (Z.to_nat FS_OPENFILE_NUMS) this fd.

Section Host.

(** What [Read] and [Write] of a handle return. *)
Variable OpenFile_Read : OpenFile -> Z -> Z.
Variable OpenFile_Write : OpenFile -> string -> Z -> Z.

Fixpoint ReadFile_from (i n : nat) (this : FileSystem) (size fd : Z) : res Z :=
  match n with
  | O => Ok (-1)
  | S n' =>
      slot ← array_get this i;
      match slot with
      | None => ReadFile_from (S i) n' this size fd
      | Some f =>
          if GetFileDescriptor f =? fd then Ok (OpenFile_Read f size)
          else ReadFile_from (S i) n' this size fd
      end
  end.

Definition ReadFile (this : FileSystem) (size fd : Z) : res Z :=
  ReadFile_from 0 (Z.to_nat FS_OPENFILE_NUMS) this size fd.

Fixpoint WriteFile_from (i n : nat) (this : FileSystem) (buffer : string)
    (size fd : Z) : res Z :=
  match n with
  | O => Ok (-1)
  | S n' =>
      slot ← array_get this i;
      match slot with
      | None => WriteFile_from (S i) n' this buffer size fd
      | Some f =>
          if GetFileDescriptor f =? fd then Ok (OpenFile_Write f buffer size)
          else WriteFile_from (S i) n' this buffer size fd
      end
  end.

Definition WriteFile (this : FileSystem) (buffer : string) (size fd : Z)
  : res Z :=
  WriteFile_from 0 (Z.to_nat FS_OPENFILE_NUMS) this buffer size fd.

End Host.

(** No slot holds a handle on the descriptor [fd]. *)
Definition closed (this : FileSystem) (fd : Z) : Prop :=
  forall i f, this !! i = Some (Some f) -> GetFileDescriptor f <> fd.

(** Every slot from [i] on, below [n], holds a handle. *)
Definition occupied (this : FileSystem) (i n : nat) : Prop :=
  forall j, (i <= j < n)%nat -> exists f, this !! j = Some (Some f).

End Stub.

(** ** The header when only level 1 was written (an earlier filehdr.cc)

    [FileHeader::Allocate] has the comparison chain and the loops of the
    final version, but its [switch] creates a node at [LEVEL_1] only; at
    the other levels [table[i]] is left as it was, deleted if it was set,
    and the call through it has no defined behaviour: the model stops
    there.  [FileHeader::ByteToSector] divides with [divRoundUp] and
    scales the remainder. *)

Module Draft.

Definition new_pointer (level : Z) : option DataPointerInterface :=
  if level =? LEVEL_1 then Some (Direct DirectPointer_new) else None.

Definition FileHeader_Allocate (this : FileHeader) (freeMap : Bitmap)
    (fileSize : Z) : res (bool * FileHeader * Bitmap) :=
  let numBytes' := fileSize in
  let numSectors := divRoundUp fileSize SectorSize in
  match Allocate_level fileSize with
  | None =>
      Ok (false, {| numBytes := numBytes'; numPointer := numPointer this;
                    pointerSectors := pointerSectors this;
                    level := level this; table := table this |}, freeMap)
  | Some level' =>
      let numPointer' :=
        divRoundUp numSectors (at_index SECTOR_NUM_IN_LEVEL (level' - 1)) in
      ASSERT (ule numPointer' NUM_FILE_HEADER_POINTER)
        (if NumClear freeMap <? numPointer' then
           Ok (false, {| numBytes := numBytes'; numPointer := numPointer';
                         pointerSectors := pointerSectors this;
                         level := level'; table := table this |}, freeMap)
         else
           '(ps, freeMap1) ← alloc_pointerSectors numPointer'
                                (pointerSectors this) freeMap;
           let remainSector := numSectors in
           '(table', freeMap2, remainSector) ←
             for_ numPointer'
               (fun i '(table, fm, remainSector) =>
                  match new_pointer level' with
                  | None => Abort
                  | Some p =>
                      ASSERT (remainSector >? 0)
                        (let allocateSectors :=
                           Z.min remainSector
                             (at_index SECTOR_NUM_IN_LEVEL (level' - 1)) in
                         '(ok, p', fm') ←
                           DataPointer_Allocate p fm allocateSectors;
                         ASSERT ok
                           (table' ← array_set table i (Some p');
                            Ok (table', fm', remainSector - allocateSectors)))
                  end)
               (table this, freeMap1, remainSector);
           ASSERT (remainSector =? 0)
             (Ok (true, {| numBytes := numBytes'; numPointer := numPointer';
                           pointerSectors := ps; level := level';
                           table := table' |}, freeMap2)))
  end.

(** [divRoundUp(offset, SECTOR_NUM_IN_LEVEL[level - 1] * SectorSize)] and
    [offset % SECTOR_NUM_IN_LEVEL[level - 1] * SectorSize]; the node at
    level 1 is a [DirectPointer]. *)
Definition FileHeader_ByteToSector (this : FileHeader) (offset : Z) : res Z :=
  let span := at_index SECTOR_NUM_IN_LEVEL (level this - 1) in
  if span * SectorSize =? 0 then Abort
  else
    let pointerIndex := divRoundUp offset (span * SectorSize) in
    r ← c_mod offset span;
    let newOffset := r * SectorSize in
    ASSERT (ult pointerIndex NUM_FILE_HEADER_POINTER)
      (entry ← array_get_int (table this) pointerIndex;
       match entry with
       | Some (Direct p) => DirectPointer_ByteToSector p newOffset
       | _ => Abort
       end).

End Draft.

(** ** The first header: direct sectors and single-indirect blocks
    (the earliest filehdr.h and filehdr.cc)

    The header holds [MAX_NUM_OF_DIRECT_POINTER] data sectors itself and
    [NUM_OF_INDIRECT_POINTER] sectors of blocks that hold
    [MAX_NUM_OF_SECTORS_IN_INDIIRECT_POINTER] data sectors each. *)

Module TwoTier.

Definition NUM_OF_POINTER_IN_SECTOR : Z := SectorSize / sizeof_int.
Definition INDIRECT_SECTOR_FILE_SIZE : Z :=
  SectorSize * (NUM_OF_POINTER_IN_SECTOR - 1).
Definition NUM_OF_INDIRECT_POINTER : Z := 8.
Definition NUM_OF_DIRECT_POINTER : Z :=
  NUM_OF_POINTER_IN_SECTOR - NUM_OF_INDIRECT_POINTER - 3.
Definition MAX_FILE_SIZE : Z :=
  NUM_OF_DIRECT_POINTER * SectorSize
  + NUM_OF_INDIRECT_POINTER * INDIRECT_SECTOR_FILE_SIZE.

Definition MAX_NUM_OF_DIRECT_POINTER : Z := NUM_OF_DIRECT_POINTER.
Definition MAX_NUM_OF_SECTORS_IN_INDIIRECT_POINTER : Z :=
  NUM_OF_POINTER_IN_SECTOR - 1.

(** *** SingleIndirectPointer *)

Record SingleIndirectPointer : Type := {
  s_numSectors : Z;
  s_dataSectors : list Z
}.

(** [new SingleIndirectPointer[n]]: the class has no constructor and the
    members of the elements are not initialised; [heap i j] is what the
    [j]-th integer of element [i] holds. *)
Definition new_table (heap : nat -> nat -> Z) (n : Z)
  : list SingleIndirectPointer :=
  map (fun i =>
         {| s_numSectors := heap i O;
            s_dataSectors :=
              map (fun j => heap i (S j))
                  (seq 0 (Z.to_nat MAX_NUM_OF_SECTORS_IN_INDIIRECT_POINTER)) |})
      (seq 0 (Z.to_nat n)).

Definition SingleIndirectPointer_Allocate (this : SingleIndirectPointer)
    (freeMap : Bitmap) (needNumSectors : Z)
  : res (bool * SingleIndirectPointer * Bitmap) :=
  let numSectors := needNumSectors in
  if NumClear freeMap <? numSectors then
    Ok (false, {| s_numSectors := numSectors;
                  s_dataSectors := s_dataSectors this |}, freeMap)
  else
    '(ds, freeMap') ← alloc_pointerSectors numSectors (s_dataSectors this)
                         freeMap;
    Ok (true, {| s_numSectors := numSectors; s_dataSectors := ds |}, freeMap').

(** [for (i = 0; i < n; i++) {
       ASSERT(freeMap->Test((int) sectors[i]));
       freeMap->Clear((int) sectors[i]); }] *)
Definition dealloc_sectors (n : Z) (sectors : list Z) (freeMap : Bitmap)
  : res Bitmap :=
  for_ n
    (fun i fm =>
       s ← array_get sectors i;
       ASSERT (Test s fm) (Ok (Clear s fm)))
    freeMap.

Definition SingleIndirectPointer_Deallocate (this : SingleIndirectPointer)
    (freeMap : Bitmap) : res Bitmap :=
  dealloc_sectors (s_numSectors this) (s_dataSectors this) freeMap.

Definition SingleIndirectPointer_GetSectorByIndex
    (this : SingleIndirectPointer) (sectorIndex : Z) : res Z :=
  ASSERT (s_numSectors this >? sectorIndex)
    (array_get_int (s_dataSectors this) sectorIndex).

(** *** FileHeader

    There is no constructor: the integers of a new header hold what the
    storage held.  [table], which [AllocateIndirect] and the destructor
    test against [nullptr], is taken to start as [nullptr] ([None]). *)

Record FileHeader : Type := {
  numBytes : Z;
  numDirectSectors : Z;
  dataSectors : list Z;
  numIndirectPointerSectors : Z;
  singleIndirectSectors : list Z;
  table : option (list SingleIndirectPointer)
}.

Definition FileHeader_new (numBytes0 numDirectSectors0 : Z)
    (dataSectors0 : list Z) (numIndirectPointerSectors0 : Z)
    (singleIndirectSectors0 : list Z) : FileHeader :=
  {| numBytes := numBytes0;
     numDirectSectors := numDirectSectors0;
     dataSectors :=
       take (Z.to_nat MAX_NUM_OF_DIRECT_POINTER)
            (dataSectors0 ++ replicate (Z.to_nat MAX_NUM_OF_DIRECT_POINTER) 0);
     numIndirectPointerSectors := numIndirectPointerSectors0;
     singleIndirectSectors :=
       take (Z.to_nat NUM_OF_INDIRECT_POINTER)
            (singleIndirectSectors0
             ++ replicate (Z.to_nat NUM_OF_INDIRECT_POINTER) 0);
     table := None |}.

(** The last loop of [AllocateIndirect], which returns FALSE from inside:
    [for (i = 0; i < numIndirectPointerSectors; i++)
       if (totalNumOfSectors > 0) {
         int allocateSectors = min(MAX_..., totalNumOfSectors);
         if (!table[i].Allocate(freeMap, allocateSectors)) return FALSE;
         totalNumOfSectors -= allocateSectors; }] *)
Fixpoint AllocateIndirect_loop (i n : nat) (table : list SingleIndirectPointer)
    (freeMap : Bitmap) (totalNumOfSectors : Z)
  : res (bool * list SingleIndirectPointer * Bitmap) :=
  match n with
  | O => Ok (true, table, freeMap)
  | S n' =>
      if totalNumOfSectors >? 0 then
        let allocateSectors :=
          Z.min MAX_NUM_OF_SECTORS_IN_INDIIRECT_POINTER totalNumOfSectors in
        p ← array_get table i;
        '(ok, p', freeMap') ←
          SingleIndirectPointer_Allocate p freeMap allocateSectors;
        table' ← array_set table i p';
        if (ok : bool) then
          AllocateIndirect_loop (S i) n' table' freeMap'
            (totalNumOfSectors - allocateSectors)
        else Ok (false, table', freeMap')
      else AllocateIndirect_loop (S i) n' table freeMap totalNumOfSectors
  end.

Definition FileHeader_AllocateIndirect (heap : nat -> nat -> Z)
    (this : FileHeader) (freeMap : Bitmap) (totalNumOfSectors : Z)
  : res (bool * FileHeader * Bitmap) :=
  let table0 := new_table heap (numIndirectPointerSectors this) in
  if NumClear freeMap <? numIndirectPointerSectors this then
    Ok (false, {| numBytes := numBytes this;
                  numDirectSectors := numDirectSectors this;
                  dataSectors := dataSectors this;
                  numIndirectPointerSectors := numIndirectPointerSectors this;
                  singleIndirectSectors := singleIndirectSectors this;
                  table := Some table0 |}, freeMap)
  else
    '(ss, freeMap1) ← alloc_pointerSectors (numIndirectPointerSectors this)
                         (singleIndirectSectors this) freeMap;
    '(ok, table', freeMap2) ←
      AllocateIndirect_loop 0 (Z.to_nat (numIndirectPointerSectors this))
        table0 freeMap1 totalNumOfSectors;
    Ok (ok, {| numBytes := numBytes this;
               numDirectSectors := numDirectSectors this;
               dataSectors := dataSectors this;
               numIndirectPointerSectors := numIndirectPointerSectors this;
               singleIndirectSectors := ss;
               table := Some table' |}, freeMap2).

Definition FileHeader_Allocate (heap : nat -> nat -> Z) (this : FileHeader)
    (freeMap : Bitmap) (fileSize : Z) : res (bool * FileHeader * Bitmap) :=
  let totalNumOfSectors := divRoundUp fileSize SectorSize in
  let numDirectSectors' :=
    Z.min MAX_NUM_OF_DIRECT_POINTER totalNumOfSectors in
  if NumClear freeMap <? numDirectSectors' then
    Ok (false, {| numBytes := fileSize;
                  numDirectSectors := numDirectSectors';
                  dataSectors := dataSectors this;
                  numIndirectPointerSectors := numIndirectPointerSectors this;
                  singleIndirectSectors := singleIndirectSectors this;
                  table := table this |}, freeMap)
  else
    '(ds, freeMap1) ← alloc_pointerSectors numDirectSectors'
                         (dataSectors this) freeMap;
    let totalNumOfSectors := totalNumOfSectors - numDirectSectors' in
    if totalNumOfSectors >? 0 then
      FileHeader_AllocateIndirect heap
        {| numBytes := fileSize;
           numDirectSectors := numDirectSectors';
           dataSectors := ds;
           numIndirectPointerSectors :=
             divRoundUp totalNumOfSectors
               MAX_NUM_OF_SECTORS_IN_INDIIRECT_POINTER;
           singleIndirectSectors := singleIndirectSectors this;
           table := table this |}
        freeMap1 totalNumOfSectors
    else
      Ok (true, {| numBytes := fileSize;
                   numDirectSectors := numDirectSectors';
                   dataSectors := ds;
                   numIndirectPointerSectors := 0;
                   singleIndirectSectors := singleIndirectSectors this;
                   table := table this |}, freeMap1).

(** A call through [table] when it is [nullptr] stops the model. *)
Definition FileHeader_Deallocate (this : FileHeader) (freeMap : Bitmap)
  : res (FileHeader * Bitmap) :=
  freeMap1 ← dealloc_sectors (numDirectSectors this) (dataSectors this)
                freeMap;
  freeMap2 ←
    for_ (numIndirectPointerSectors this)
      (fun i fm =>
         match table this with
         | None => Abort
         | Some tb =>
             p ← array_get tb i;
             SingleIndirectPointer_Deallocate p fm
         end)
      freeMap1;
  Ok ({| numBytes := numBytes this;
         numDirectSectors := numDirectSectors this;
         dataSectors := dataSectors this;
         numIndirectPointerSectors := numIndirectPointerSectors this;
         singleIndirectSectors := singleIndirectSectors this;
         table := None |}, freeMap2).

Definition FileHeader_ByteToSector (this : FileHeader) (offset : Z) : res Z :=
  let sectorIndex := Z.quot offset SectorSize in
  if sectorIndex <? MAX_NUM_OF_DIRECT_POINTER then
    array_get_int (dataSectors this) sectorIndex
  else
    let sectorIndexInWholeIndirect := sectorIndex - MAX_NUM_OF_DIRECT_POINTER in
    let indirectIndex :=
      Z.quot sectorIndexInWholeIndirect
             MAX_NUM_OF_SECTORS_IN_INDIIRECT_POINTER in
    let sectorIndex :=
      Z.rem sectorIndexInWholeIndirect
            MAX_NUM_OF_SECTORS_IN_INDIIRECT_POINTER in
    match table this with
    | None => Abort
    | Some tb =>
        p ← array_get_int tb indirectIndex;
        SingleIndirectPointer_GetSectorByIndex p sectorIndex
    end.

Definition FileHeader_FileLength (this : FileHeader) : Z := numBytes this.

(** The data sectors of a block, of the blocks, and of the file in the
    order of its bytes. *)
Definition data_block (p : SingleIndirectPointer) : list Z :=
  take (Z.to_nat (s_numSectors p)) (s_dataSectors p).

Definition data_indirect (h : FileHeader) : list Z :=
  match table h with
  | Some tb =>
      concat (map data_block
                  (take (Z.to_nat (numIndirectPointerSectors h)) tb))
  | None => []
  end.

Definition data_direct (h : FileHeader) : list Z :=
  take (Z.to_nat (numDirectSectors h)) (dataSectors h).

Definition data_sectors (h : FileHeader) : list Z :=
  data_direct h ++ data_indirect h.

(** The sectors that hold the blocks. *)
Definition block_sectors (h : FileHeader) : list Z :=
  take (Z.to_nat (numIndirectPointerSectors h)) (singleIndirectSectors h).

(** A block that holds [k] data sectors. *)
Definition good_block (k : Z) (p : SingleIndirectPointer) : Prop :=
  s_numSectors p = k /\
  (Z.to_nat k <= length (s_dataSectors p))%nat /\
  Forall (fun s => 0 <= s) (take (Z.to_nat k) (s_dataSectors p)).

End TwoTier.

(** * Properties *)

(** ** Inversion of the outcome monad *)

Lemma bind_Ok {A B : Type} (m : res A) (f : A -> res B) (b : B) :
  (m ≫= f) = Ok b <-> exists a, m = Ok a /\ f a = Ok b.
Proof.
  destruct m; simpl; split.
  - intros H. exists a. auto.
  - intros (a' & Ha & Hf). inversion Ha. subst. exact Hf.
  - discriminate.
  - intros (a' & Ha & _). discriminate.
  - discriminate.
  - intros (a' & Ha & _). discriminate.
Qed.

Lemma ASSERT_Ok {A : Type} (c : bool) (k : res A) (a : A) :
  ASSERT c k = Ok a <-> c = true /\ k = Ok a.
Proof.
  destruct c; simpl; split; intros H; try tauto.
  - discriminate.
  - destruct H. discriminate.
Qed.

Lemma array_get_Ok {A : Type} (a : list A) (i : nat) (x : A) :
  array_get a i = Ok x <-> a !! i = Some x.
Proof.
  unfold array_get. destruct (a !! i); split; intros H; congruence.
Qed.

Lemma array_set_Ok {A : Type} (a : list A) (i : nat) (x : A) (a' : list A) :
  array_set a i x = Ok a' <-> (i < length a)%nat /\ a' = <[i := x]> a.
Proof.
  unfold array_set. destruct (decide (i < length a)%nat); split.
  - intros H. inversion H. auto.
  - intros [_ ->]. reflexivity.
  - discriminate.
  - intros [H _]. contradiction.
Qed.

(** The invariant rule of the [for] loop. *)
Lemma for_from_inv {St : Type} (P : nat -> St -> Prop)
    (body : nat -> St -> res St) (n i : nat) (s s' : St) :
  P i s ->
  (forall j t t', (i <= j < i + n)%nat -> P j t -> body j t = Ok t' -> P (S j) t') ->
  for_from i n body s = Ok s' ->
  P (i + n)%nat s'.
Proof.
  revert i s. induction n as [|n IH]; intros i s HP Hstep Hrun; simpl in Hrun.
  - inversion Hrun. subst. rewrite Nat.add_0_r. exact HP.
  - apply bind_Ok in Hrun. destruct Hrun as (t & Hb & Hrun).
    replace (i + S n)%nat with (S i + n)%nat by lia.
    apply (IH (S i) t).
    + apply (Hstep i s t); [lia | exact HP | exact Hb].
    + intros j u u' Hj. apply Hstep. lia.
    + exact Hrun.
Qed.

Lemma for_inv {St : Type} (P : nat -> St -> Prop)
    (body : nat -> St -> res St) (n : Z) (s s' : St) :
  P O s ->
  (forall j t t', (j < Z.to_nat n)%nat -> P j t -> body j t = Ok t' -> P (S j) t') ->
  for_ n body s = Ok s' ->
  P (Z.to_nat n) s'.
Proof.
  intros HP Hstep Hrun.
  apply (for_from_inv P body (Z.to_nat n) O s s' HP); [|exact Hrun].
  intros j t t' Hj. apply Hstep. lia.
Qed.

(** ** Unsigned comparisons on values in range *)

Lemma to_unsigned_nonneg (x : Z) :
  0 <= x < 2 ^ 31 -> to_unsigned x = x.
Proof.
  intros H. unfold to_unsigned, word_bits. apply Z.mod_small.
  change (2 ^ 32) with 4294967296. change (2 ^ 31) with 2147483648 in H. lia.
Qed.

Lemma to_unsigned_neg (x : Z) :
  - 2 ^ 31 <= x < 0 -> to_unsigned x = x + 2 ^ 32.
Proof.
  intros H. unfold to_unsigned, word_bits.
  change (2 ^ 32) with 4294967296. change (2 ^ 31) with 2147483648 in H.
  symmetry. apply (Z.mod_unique x 4294967296 (-1)); lia.
Qed.

Lemma ule_true (a b : Z) :
  int_range a -> 0 <= b < 2 ^ 31 ->
  ule a b = true <-> 0 <= a <= b.
Proof.
  intros Ha Hb. unfold ule, int_range in *.
  rewrite (to_unsigned_nonneg b Hb).
  change (2 ^ 31) with 2147483648 in *.
  destruct (Z_lt_dec a 0) as [Hn|Hn].
  - rewrite to_unsigned_neg by (change (2 ^ 31) with 2147483648; lia).
    change (2 ^ 32) with 4294967296.
    split; intros H; [apply Z.leb_le in H|apply Z.leb_le]; lia.
  - rewrite to_unsigned_nonneg by (change (2 ^ 31) with 2147483648; lia).
    split; intros H; [apply Z.leb_le in H|apply Z.leb_le]; lia.
Qed.

(** ** Level selection and the number of top-level pointers *)

Lemma divRoundUp_spec (n s : Z) :
  0 <= n -> 0 < s ->
  n <= s * divRoundUp n s < n + s.
Proof.
  intros Hn Hs. unfold divRoundUp.
  rewrite Z.quot_div_nonneg, Z.rem_mod_nonneg by lia.
  pose proof (Z.div_mod n s ltac:(lia)) as Hdm.
  pose proof (Z.mod_pos_bound n s Hs) as Hm.
  destruct (n mod s >? 0) eqn:E.
  - apply Z.gtb_lt in E. nia.
  - assert (n mod s = 0) by (destruct (Z.gtb_spec (n mod s) 0); [discriminate|lia]).
    nia.
Qed.

Lemma divRoundUp_le (n s b : Z) :
  0 <= n -> 0 < s -> n <= s * b -> 0 <= divRoundUp n s <= b.
Proof.
  intros Hn Hs Hb. pose proof (divRoundUp_spec n s Hn Hs). nia.
Qed.

Lemma Allocate_level_range (s lv : Z) :
  int_range s -> Allocate_level s = Some lv ->
  0 <= s /\
  ((lv = 1 /\ s <= LEVEL_1_SIZE) \/
   (lv = 2 /\ LEVEL_1_SIZE < s <= LEVEL_2_SIZE) \/
   (lv = 3 /\ LEVEL_2_SIZE < s <= LEVEL_3_SIZE) \/
   (lv = 4 /\ LEVEL_3_SIZE < s <= LEVEL_4_SIZE)).
Proof.
  intros Hr H. unfold Allocate_level in H.
  assert (B1 : 0 <= LEVEL_1_SIZE < 2 ^ 31) by (vm_compute; split; congruence).
  assert (B2 : 0 <= LEVEL_2_SIZE < 2 ^ 31) by (vm_compute; split; congruence).
  assert (B3 : 0 <= LEVEL_3_SIZE < 2 ^ 31) by (vm_compute; split; congruence).
  assert (B4 : 0 <= LEVEL_4_SIZE < 2 ^ 31) by (vm_compute; split; congruence).
  pose proof (ule_true s _ Hr B1) as E1.
  pose proof (ule_true s _ Hr B2) as E2.
  pose proof (ule_true s _ Hr B3) as E3.
  pose proof (ule_true s _ Hr B4) as E4.
  destruct (ule s LEVEL_1_SIZE) eqn:U1;
    [|destruct (ule s LEVEL_2_SIZE) eqn:U2;
      [|destruct (ule s LEVEL_3_SIZE) eqn:U3;
        [|destruct (ule s LEVEL_4_SIZE) eqn:U4]]];
    inversion H; subst; clear H.
  - apply proj1 in E1. specialize (E1 eq_refl). split; [lia|]. left. split; [reflexivity|lia].
  - apply proj1 in E2. specialize (E2 eq_refl).
    assert (~ (0 <= s <= LEVEL_1_SIZE)) by (intros C; apply E1 in C; discriminate).
    split; [lia|]. right. left. split; [reflexivity|lia].
  - apply proj1 in E3. specialize (E3 eq_refl).
    assert (~ (0 <= s <= LEVEL_2_SIZE)) by (intros C; apply E2 in C; discriminate).
    split; [lia|]. right. right. left. split; [reflexivity|lia].
  - apply proj1 in E4. specialize (E4 eq_refl).
    assert (~ (0 <= s <= LEVEL_3_SIZE)) by (intros C; apply E3 in C; discriminate).
    split; [lia|]. right. right. right. split; [reflexivity|lia].
Qed.

(** What does hold for every accepted size: the pointers that [Allocate]
    computes cover the file, and there are at most
    [NUM_INDIRECT_POINTER] of them. *)
Lemma Allocate_numPointer_covers (s lv : Z) :
  int_range s -> Allocate_level s = Some lv ->
  0 <= Allocate_numPointer s lv <= NUM_INDIRECT_POINTER /\
  s <= Allocate_numPointer s lv
       * (at_index SECTOR_NUM_IN_LEVEL (lv - 1) * SectorSize).
Proof.
  intros Hr H. destruct (Allocate_level_range s lv Hr H) as (H0 & Hlv).
  unfold Allocate_numPointer, Allocate_numSectors.
  pose proof (divRoundUp_spec s SectorSize H0 ltac:(reflexivity)) as Hns.
  set (ns := divRoundUp s SectorSize) in *.
  change SectorSize with 128 in *. change NUM_INDIRECT_POINTER with 31.
  change LEVEL_1_SIZE with 3840 in Hlv. change LEVEL_2_SIZE with 119040 in Hlv.
  change LEVEL_3_SIZE with 3690240 in Hlv.
  change LEVEL_4_SIZE with 114397440 in Hlv.
  destruct Hlv as [[-> Hs]|[[-> Hs]|[[-> Hs]|[-> Hs]]]].
  - change (at_index SECTOR_NUM_IN_LEVEL (1 - 1)) with 1.
    pose proof (divRoundUp_spec ns 1 ltac:(lia) ltac:(lia)). lia.
  - change (at_index SECTOR_NUM_IN_LEVEL (2 - 1)) with 30.
    pose proof (divRoundUp_spec ns 30 ltac:(lia) ltac:(lia)). lia.
  - change (at_index SECTOR_NUM_IN_LEVEL (3 - 1)) with 930.
    pose proof (divRoundUp_spec ns 930 ltac:(lia) ltac:(lia)). lia.
  - change (at_index SECTOR_NUM_IN_LEVEL (4 - 1)) with 28830.
    pose proof (divRoundUp_spec ns 28830 ltac:(lia) ltac:(lia)). lia.
Qed.

(** Every size above the 900 sectors that 30 single-indirect pointers hold
    and up to [LEVEL_2_SIZE] is accepted with level 2 and needs 31
    pointers: [Allocate] aborts on all of them. *)
Lemma Allocate_aborts_above_900_sectors (s : Z) (this : FileHeader)
    (freeMap : Bitmap) :
  900 * SectorSize < s <= LEVEL_2_SIZE ->
  Allocate_level s = Some LEVEL_2 /\
  Allocate_numPointer s LEVEL_2 = 31 /\
  FileHeader_Allocate this freeMap s = Abort.
Proof.
  change SectorSize with 128. change LEVEL_2_SIZE with 119040. intros Hs.
  assert (Hr : int_range s)
    by (unfold int_range; change (2 ^ 31) with 2147483648; lia).
  assert (Hl : Allocate_level s = Some LEVEL_2).
  { unfold Allocate_level.
    destruct (ule s LEVEL_1_SIZE) eqn:U1.
    - apply (ule_true s LEVEL_1_SIZE Hr) in U1;
        [|vm_compute; split; congruence].
      change LEVEL_1_SIZE with 3840 in U1. lia.
    - destruct (ule s LEVEL_2_SIZE) eqn:U2; [reflexivity|].
      assert (ule s LEVEL_2_SIZE = true); [|congruence].
      apply (ule_true s LEVEL_2_SIZE Hr); [vm_compute; split; congruence|].
      change LEVEL_2_SIZE with 119040. lia. }
  assert (Hn : Allocate_numPointer s LEVEL_2 = 31).
  { unfold Allocate_numPointer, Allocate_numSectors.
    pose proof (divRoundUp_spec s SectorSize ltac:(lia) ltac:(reflexivity)) as H1.
    change SectorSize with 128 in *.
    change (at_index SECTOR_NUM_IN_LEVEL (LEVEL_2 - 1)) with 30.
    pose proof (divRoundUp_spec (divRoundUp s 128) 30 ltac:(lia) ltac:(lia)).
    lia. }
  split; [exact Hl|]. split; [exact Hn|].
  unfold FileHeader_Allocate. rewrite Hl.
  unfold Allocate_numPointer, Allocate_numSectors in Hn. rewrite Hn.
  reflexivity.
Qed.

(** C1 (the code departs from it).  The claim: for every size that the
    level selection of [FileHeader::Allocate] accepts, [numPointer] is at
    most [NUM_FILE_HEADER_POINTER], so that the assertion
    [numPointer <= NUM_FILE_HEADER_POINTER] never fails.  On the code: the
    size [LEVEL_2_SIZE] is accepted with level 2, [numPointer] is 31, which
    exceeds the 30 pointers of a header, and [Allocate] aborts on its
    assertion whatever the header and the bitmap are. *)
Theorem Allocate_assertion_fails_at_LEVEL_2_SIZE :
  LEVEL_2_SIZE = 119040 /\
  Allocate_level LEVEL_2_SIZE = Some LEVEL_2 /\
  Allocate_numPointer LEVEL_2_SIZE LEVEL_2 = 31 /\
  NUM_FILE_HEADER_POINTER = 30 /\
  forall (this : FileHeader) (freeMap : Bitmap),
    FileHeader_Allocate this freeMap LEVEL_2_SIZE = Abort.
Proof.
  repeat split; try reflexivity.
Qed.

(** ** Level derivation *)

Lemma FetchFrom_level_eq (s : Z) : FetchFrom_level s = Allocate_level s.
Proof. reflexivity. Qed.

(** What a successful [FileHeader::Allocate] fixes in the header. *)
Lemma FileHeader_Allocate_fields (this h : FileHeader) (freeMap fm' : Bitmap)
    (s : Z) :
  FileHeader_Allocate this freeMap s = Ok (true, h, fm') ->
  numBytes h = s /\
  Allocate_level s = Some (level h) /\
  numPointer h = Allocate_numPointer s (level h) /\
  ule (numPointer h) NUM_FILE_HEADER_POINTER = true.
Proof.
  unfold FileHeader_Allocate. intros H.
  destruct (Allocate_level s) as [lv|] eqn:El; [|discriminate].
  apply ASSERT_Ok in H. destruct H as (Hc & H).
  destruct (NumClear freeMap <? _); [discriminate|].
  apply bind_Ok in H. destruct H as ([ps fm1] & _ & H).
  apply bind_Ok in H. destruct H as ([[tb fm2] rem] & _ & H).
  apply ASSERT_Ok in H. destruct H as (_ & H).
  inversion H; subst; clear H. simpl. auto.
Qed.

Lemma FileHeader_FetchFrom_level (this h : FileHeader) (d : SynchDisk)
    (sector0 : Z) :
  FileHeader_FetchFrom this d sector0 = Ok h ->
  numBytes h = cache_get (ReadSector d sector0) 0 /\
  FetchFrom_level (numBytes h) = Some (level h).
Proof.
  unfold FileHeader_FetchFrom. intros H.
  destruct (FetchFrom_level (cache_get (ReadSector d sector0) 0)) as [lv|] eqn:E;
    [|discriminate].
  apply bind_Ok in H. destruct H as (tb & _ & H).
  inversion H; subst; clear H. simpl. auto.
Qed.

(** C7.  For every size for which [FileHeader::Allocate] succeeds, the
    level it chose, one of 1 to 4, is the level that the comparison chain
    of [FileHeader::FetchFrom] derives from a stored [numBytes] equal to
    that size: every header fetched from a sector whose first integer is
    that size carries the same level. *)
Theorem level_derivation_deterministic
    (this h : FileHeader) (freeMap fm' : Bitmap) (s : Z) :
  FileHeader_Allocate this freeMap s = Ok (true, h, fm') ->
  1 <= level h <= 4 /\
  FetchFrom_level s = Some (level h) /\
  forall (this' h' : FileHeader) (d : SynchDisk) (sector0 : Z),
    cache_get (ReadSector d sector0) 0 = s ->
    FileHeader_FetchFrom this' d sector0 = Ok h' ->
    level h' = level h.
Proof.
  intros H. destruct (FileHeader_Allocate_fields _ _ _ _ _ H) as (Hb & Hl & _).
  split; [|split].
  - unfold Allocate_level in Hl.
    repeat match type of Hl with
    | (if ?c then _ else _) = _ => destruct c
    end; inversion Hl; unfold LEVEL_1, LEVEL_2, LEVEL_3, LEVEL_4; lia.
  - rewrite FetchFrom_level_eq. exact Hl.
  - intros this' h' d sector0 Hs Hf.
    destruct (FileHeader_FetchFrom_level _ _ _ _ Hf) as (Hn & Hlv).
    rewrite Hn, Hs, FetchFrom_level_eq, Hl in Hlv. congruence.
Qed.

Lemma level_derivation_deterministic_witness :
  exists h fm',
    FileHeader_Allocate (FileHeader_new 0 0 0 []) (Bitmap_new 128) 300
      = Ok (true, h, fm') /\
    1 <= level h <= 4 /\
    FetchFrom_level 300 = Some (level h) /\
    forall (this' h' : FileHeader) (d : SynchDisk) (sector0 : Z),
      cache_get (ReadSector d sector0) 0 = 300 ->
      FileHeader_FetchFrom this' d sector0 = Ok h' ->
      level h' = level h.
Proof.
  eexists. eexists. split; [vm_compute; reflexivity|].
  eapply (level_derivation_deterministic (FileHeader_new 0 0 0 []) _
            (Bitmap_new 128) _ 300).
  vm_compute. reflexivity.
Defined.

(** ** What path resolution leaves alone *)

Lemma store_eq_refl (st : Store) : store_eq st st.
Proof. repeat split. Qed.

Lemma store_eq_trans (st1 st2 st3 : Store) :
  store_eq st1 st2 -> store_eq st2 st3 -> store_eq st1 st3.
Proof.
  intros (A1 & B1 & C1) (A2 & B2 & C2). repeat split.
  - intros n. rewrite A2. apply A1.
  - intros s. rewrite B2. apply B1.
  - congruence.
Qed.

(** Writing back the table that was just fetched from the same file. *)
Lemma Directory_WriteBack_fetched (st : Store) (file : OpenFile) :
  store_eq st (Directory_WriteBack (Directory_FetchFrom st file) st file).
Proof.
  repeat split. intros s. simpl. unfold Directory_FetchFrom.
  destruct (s =? of_sector file) eqn:E; [|reflexivity].
  apply Z.eqb_eq in E. subst. reflexivity.
Qed.

Lemma ChangeCurrentDirectory_frame (this : FileSystem) (st : Store) (nm : string)
    (ok : bool) (this' : FileSystem) (st' : Store) :
  ChangeCurrentDirectory this st nm = (ok, this', st') ->
  fs_table this' = fs_table this /\ store_eq st st'.
Proof.
  unfold ChangeCurrentDirectory. simpl.
  destruct (Directory_Find _ nm =? -1); intros H; inversion H; subst; clear H.
  - split; [reflexivity|apply store_eq_refl].
  - split; [reflexivity|apply Directory_WriteBack_fetched].
Qed.

Lemma traverse_frame (pathArr : list string) (this : FileSystem) (st : Store)
    (ok : bool) (this' : FileSystem) (st' : Store) :
  traverse this st pathArr = (ok, this', st') ->
  fs_table this' = fs_table this /\ store_eq st st'.
Proof.
  revert this st. induction pathArr as [|p rest IH]; intros this st H.
  - inversion H; subst. split; [reflexivity|apply store_eq_refl].
  - destruct rest as [|q rest'].
    + inversion H; subst. split; [reflexivity|apply store_eq_refl].
    + cbn [traverse] in H.
      destruct (ChangeCurrentDirectory this st p) as [[ok1 this1] st1] eqn:E.
      destruct (ChangeCurrentDirectory_frame _ _ _ _ _ _ E) as (T1 & S1).
      destruct ok1.
      * destruct (IH _ _ H) as (T2 & S2).
        split; [congruence|eapply store_eq_trans; eassumption].
      * inversion H; subst. auto.
Qed.

Lemma ChangeCurrentDirectoryByWholePath_frame (this : FileSystem) (st : Store)
    (path : string) (ok : bool) (filename : string) (this' : FileSystem)
    (st' : Store) :
  ChangeCurrentDirectoryByWholePath this st path = (ok, filename, this', st') ->
  fs_table this' = fs_table this /\ store_eq st st'.
Proof.
  unfold ChangeCurrentDirectoryByWholePath.
  destruct (negb (Ascii.eqb (first_char path) "/")).
  - intros H. inversion H; subst. split; [reflexivity|apply store_eq_refl].
  - destruct (traverse (ResetToRootDirectory this st) st (strtok_loop path ""))
      as [[ok1 this1] st1] eqn:E.
    destruct (traverse_frame _ _ _ _ _ _ E) as (T1 & S1).
    destruct (negb ok1); intros H; inversion H; subst; auto.
Qed.

(** ** Failure of Create *)

Lemma CreateFile_false (header_storage : list Z) (this this' : FileSystem)
    (st st' : Store) (nm : string) (initialSize : Z) :
  CreateFile header_storage this st nm initialSize = Ok (false, this', st') ->
  st' = st.
Proof.
  unfold CreateFile.
  destruct (negb (Directory_Find _ nm =? -1)); [intros H; congruence|].
  destruct (FindAndSet _) as [sector0 freeMap].
  destruct (sector0 =? -1); [intros H; congruence|].
  destruct (Directory_Add _ nm sector0 FILE_TYPE) as [added dir].
  destruct (negb added); [intros H; congruence|].
  intros H. apply bind_Ok in H. destruct H as ([[ok hdr] fm] & _ & H).
  destruct (negb ok); [congruence|].
  apply bind_Ok in H. destruct H as (d & _ & H). discriminate.
Qed.

(** C2.  Whenever [FileSystem::Create] returns false, for any path and any
    initial size and whatever the reason (the leaf exists, no sector is
    free for the header, the directory is full, the data blocks cannot be
    allocated, the path does not resolve), the disk holds what it held
    before the call: the bitmap file, every directory file and every
    sector. *)
Theorem Create_failure_leaves_disk (header_storage : list Z)
    (this this' : FileSystem) (st st' : Store) (path : string)
    (initialSize : Z) :
  Create header_storage this st path initialSize = Ok (false, this', st') ->
  store_eq st st'.
Proof.
  unfold Create.
  destruct (ChangeCurrentDirectoryByWholePath this st path)
    as [[[resolved filename] this1] st1] eqn:E.
  destruct (ChangeCurrentDirectoryByWholePath_frame _ _ _ _ _ _ _ E) as (_ & S1).
  intros H. apply bind_Ok in H. destruct H as ([[success this2] st2] & H1 & H).
  inversion H; subst; clear H.
  destruct resolved.
  - unfold rbind in H1.
    destruct (CreateFile header_storage this1 st1 filename initialSize)
      as [[[created this3] st3]| |] eqn:EC; try discriminate.
    destruct created; inversion H1; subst; clear H1.
    apply CreateFile_false in EC. subst. exact S1.
  - inversion H1; subst. exact S1.
Qed.

Lemma Create_failure_leaves_disk_witness :
  exists fs st this' st',
    with_file_d_f = Ok (true, fs, st) /\
    Create [] fs st "/d/f" 100 = Ok (false, this', st') /\
    store_eq st st'.
Proof.
  assert (H : exists fs st this' st',
             with_file_d_f = Ok (true, fs, st) /\
             Create [] fs st "/d/f" 100 = Ok (false, this', st')).
  { do 4 eexists. split; vm_compute; reflexivity. }
  destruct H as (fs & st & this' & st' & H1 & H2).
  exists fs, st, this', st'. split; [exact H1|]. split; [exact H2|].
  exact (Create_failure_leaves_disk [] fs this' st st' "/d/f" 100 H2).
Defined.

(** ** The open-file table *)

Lemma OpenAFile_table (this this' : FileSystem) (st st' : Store)
    (path : string) (r : local_int) :
  OpenAFile this st path = (r, this', st') ->
  fs_table this' = fs_table this \/
  exists found, r = Some found /\ 0 <= found /\
    fs_table this' =
      map_insert_pair (fs_table this) found (Some (OpenFile_new found)).
Proof.
  unfold OpenAFile.
  destruct (ChangeCurrentDirectoryByWholePath this st path)
    as [[[resolved filename] this1] st1] eqn:E.
  destruct (ChangeCurrentDirectoryByWholePath_frame _ _ _ _ _ _ _ E) as (T1 & _).
  destruct resolved.
  - destruct (Directory_Find (currentDirectory this1) filename >=? 0) eqn:F;
      intros H; inversion H; subst; clear H; simpl.
    + right. eexists. split; [reflexivity|]. split; [|rewrite T1; reflexivity].
      apply Z.geb_le in F. lia.
    + left. exact T1.
  - intros H; inversion H; subst; clear H. left. exact T1.
Qed.

(** C10.  For an identifier [fd] that the open-file table does not hold,
    [ReadFile], [WriteFile] and [CloseFile] return -1, -1 and 0, and the
    table they leave maps [fd] to a null handle: the failing lookup went
    through [operator[]].  When a later [OpenAFile] opens a file whose
    header sector is [fd], its [insert] finds the key present and the table
    is left as it was, with the null handle. *)
Theorem unknown_id_lookup_inserts_null
    (OpenFile_Read : OpenFile -> Store -> Z -> Z * OpenFile)
    (OpenFile_Write : OpenFile -> Store -> string -> Z -> Z * OpenFile * Store)
    (this : FileSystem) (st : Store) (buffer : string) (size fd : Z) :
  fs_table this !! fd = None ->
  let after := set_table this (<[fd := None]> (fs_table this)) in
  ReadFile OpenFile_Read this st size fd = (-1, after, st) /\
  WriteFile OpenFile_Write this st buffer size fd = (-1, after, st) /\
  CloseFile this st fd = (0, after, st) /\
  fs_table after !! fd = Some None /\
  fs_table after <> fs_table this /\
  forall (path : string) (this' : FileSystem) (st' : Store),
    OpenAFile after st path = (Some fd, this', st') ->
    fs_table this' = fs_table after /\
    ReadFile OpenFile_Read this' st' size fd = (-1, this', st').
Proof.
  intros Hnone after.
  unfold ReadFile, WriteFile, CloseFile, map_subscript. rewrite Hnone.
  repeat (split; [reflexivity|]).
  assert (Hafter : fs_table after !! fd = Some None)
    by (simpl; apply lookup_insert_eq).
  split; [exact Hafter|].
  split; [intros E; rewrite E in Hafter; congruence|].
  intros path this' st' Hopen.
  assert (Ht : fs_table this' = fs_table after).
  { destruct (OpenAFile_table _ _ _ _ _ _ Hopen) as [Ht|(found & Hf & _ & Ht)].
    - exact Ht.
    - inversion Hf; subst found. rewrite Ht. unfold map_insert_pair.
      rewrite Hafter. reflexivity. }
  split; [exact Ht|].
  rewrite Ht, Hafter. destruct this'; simpl in *. subst. reflexivity.
Qed.

Lemma unknown_id_lookup_inserts_null_witness :
  let this := {| freeMapFile := OpenFile_new 0; directoryFile := OpenFile_new 1;
                 currentDirectoryFile := OpenFile_new 1;
                 currentDirectory := sample_storage; fs_table := ∅ |} in
  let rd := fun (f : OpenFile) (_ : Store) (_ : Z) => (0, f) in
  let wr := fun (f : OpenFile) (st : Store) (_ : string) (_ : Z) => (0, f, st) in
  fs_table this !! 53 = None /\
  ReadFile rd this blank_store 10 53
    = (-1, set_table this (<[53 := None]> (fs_table this)), blank_store) /\
  CloseFile this blank_store 53
    = (0, set_table this (<[53 := None]> (fs_table this)), blank_store).
Proof.
  intros this rd wr.
  assert (H : fs_table this !! 53 = None) by reflexivity.
  split; [exact H|].
  pose proof (unknown_id_lookup_inserts_null rd wr this blank_store "" 10 53 H)
    as (R & _ & C & _).
  split; [exact R|exact C].
Defined.

(** ** Removal *)

(** When the path does not resolve, [Remove] skips its body, resets the
    current directory and falls through to [return TRUE]. *)
Lemma Remove_unresolved (entry_storage : list DirectoryEntry)
    (header_storage : list Z) (fuel : nat) (this this1 : FileSystem)
    (st st1 : Store) (path filename : string) :
  ChangeCurrentDirectoryByWholePath this st path
    = (false, filename, this1, st1) ->
  Remove entry_storage header_storage fuel this st path
    = Ok (true, ResetToRootDirectory this1 st1, st1).
Proof.
  intros H. unfold Remove. rewrite H. reflexivity.
Qed.

(** When the path resolves and the directory does not hold the leaf,
    [Remove] returns FALSE, from inside its body. *)
Lemma Remove_leaf_missing (entry_storage : list DirectoryEntry)
    (header_storage : list Z) (fuel : nat) (this this1 : FileSystem)
    (st st1 : Store) (path filename : string) :
  ChangeCurrentDirectoryByWholePath this st path
    = (true, filename, this1, st1) ->
  filename <> ""%string ->
  Directory_Find (currentDirectory this1) filename = -1 ->
  Remove entry_storage header_storage fuel this st path
    = Ok (false, this1, st1).
Proof.
  intros H Hne Hfind. unfold Remove. rewrite H.
  destruct (String.eqb_spec filename ""); [contradiction|].
  rewrite Hfind. reflexivity.
Qed.

(** C4 (the code departs from it).  The claim: [Remove] returns FALSE
    whenever an intermediate component of the path is missing.  On the
    code: on the freshly formatted disk, whose root directory holds no
    entry [a], [Remove("/a/b")] returns TRUE; so does [Remove] of a path
    without the leading slash. *)
Theorem Remove_missing_component_returns_TRUE :
  exists fs st fs' st',
    formatted = Ok (fs, st) /\
    Directory_Find (dirData st DirectorySector) "a" = -1 /\
    remove_a_b_after_format = Ok (true, fs', st') /\
    Remove sample_storage [] 10 fs st "a" = Ok (true, fs', st').
Proof.
  do 4 eexists.
  split; [vm_compute; reflexivity|].
  split; [vm_compute; reflexivity|].
  split; vm_compute; reflexivity.
Qed.

(** C9 (the code departs from it).  The claim: every entry path resets the
    current directory to the root before it returns.  On the code: with a
    directory [d] that holds no [x], [Remove("/d/x")] returns FALSE from
    inside its body and leaves the current directory on [d]. *)
Theorem Remove_not_found_leaves_current_directory :
  exists fs st fs' st',
    with_file_d_f = Ok (true, fs, st) /\
    at_root fs st /\
    remove_d_x = Ok (false, fs', st') /\
    of_sector (currentDirectoryFile fs') = sector_of_d /\
    ~ at_root fs' st'.
Proof.
  do 4 eexists.
  split; [vm_compute; reflexivity|].
  split; [split; vm_compute; reflexivity|].
  split; [vm_compute; reflexivity|].
  split; [vm_compute; reflexivity|].
  intros [H _]. vm_compute in H. discriminate.
Qed.

(** C3 (the code departs from it).  The claim: after [Remove] succeeds on
    a directory, every sector reachable through it is clear in the bitmap
    and the directory has no entry in use.  On the code: [d] holds the
    file [f], whose header, pointer and data sectors are 53, 54 and 55;
    [Remove("/d")] returns TRUE, the three sectors are still marked in the
    bitmap on the disk, and the table of [d] on the disk still has [f] in
    use. *)
Theorem Remove_directory_leaves_descendants_marked :
  exists fs st fs' st',
    with_file_d_f = Ok (true, fs, st) /\
    Directory_Find (dirData st DirectorySector) "d" = sector_of_d /\
    Directory_IsDirectory (dirData st DirectorySector) "d" = true /\
    Directory_Find (dirData st sector_of_d) "f" = 53 /\
    (exists h,
       FileHeader_FetchFrom (FileHeader_new 0 0 0 []) (synchDisk st) 53 = Ok h /\
       numPointer h = 1 /\
       pointerSectors h !! O = Some 54 /\
       table h !! O = Some (Some (Direct {| dataSector := 55 |}))) /\
    remove_d = Ok (true, fs', st') /\
    Forall (fun s => Test s (mapData st) = true) sectors_of_d_f /\
    Forall (fun s => Test s (mapData st') = true) sectors_of_d_f /\
    Directory_Find (dirData st' sector_of_d) "f" = 53.
Proof.
  do 4 eexists.
  split; [vm_compute; reflexivity|].
  do 3 (split; [vm_compute; reflexivity|]).
  split.
  { eexists. split; [vm_compute; reflexivity|].
    repeat split; vm_compute; reflexivity. }
  split; [vm_compute; reflexivity|].
  split; [|split]; try (vm_compute; reflexivity);
    repeat constructor.
Qed.

(** ** Opening by identifier *)

(** When the path resolves, [OpenAFile] returns what [Find] returned for
    the leaf: the header sector of the file, or -1 when the directory does
    not hold the leaf. *)
Lemma OpenAFile_resolved (this this1 : FileSystem) (st st1 : Store)
    (path filename : string) :
  ChangeCurrentDirectoryByWholePath this st path
    = (true, filename, this1, st1) ->
  fst (fst (OpenAFile this st path))
    = Some (Directory_Find (currentDirectory this1) filename).
Proof.
  intros H. unfold OpenAFile. rewrite H.
  destruct (Directory_Find (currentDirectory this1) filename >=? 0);
    reflexivity.
Qed.

(** When the path does not resolve, [sector] is returned as declared. *)
Lemma OpenAFile_unresolved (this this1 : FileSystem) (st st1 : Store)
    (path filename : string) :
  ChangeCurrentDirectoryByWholePath this st path
    = (false, filename, this1, st1) ->
  fst (fst (OpenAFile this st path)) = None.
Proof.
  intros H. unfold OpenAFile. rewrite H. reflexivity.
Qed.

(** C5 (the code departs from it).  The claim: [OpenAFile] returns -1 on
    every failure, also when an intermediate component of the path is
    missing.  On the code: on the freshly formatted disk, whose root
    holds no [a], [OpenAFile("/a/b")] returns its local [sector], which no
    statement has assigned, not the value -1; when only the leaf is
    missing, as for ["/b"], it does return -1, and for the existing file
    [/d/f] it returns the header sector 53. *)
Theorem OpenAFile_missing_component_returns_unassigned :
  exists fs st fs' st' fs2 st2,
    formatted = Ok (fs, st) /\
    Directory_Find (dirData st DirectorySector) "a" = -1 /\
    open_a_b_after_format = Ok (None, fs', st') /\
    (None : local_int) <> Some (-1) /\
    fst (fst (OpenAFile fs st "/b")) = Some (-1) /\
    with_file_d_f = Ok (true, fs2, st2) /\
    fst (fst (OpenAFile fs2 st2 "/d/f")) = Some 53.
Proof.
  do 6 eexists.
  split; [vm_compute; reflexivity|].
  split; [vm_compute; reflexivity|].
  split; [vm_compute; reflexivity|].
  split; [discriminate|].
  split; [vm_compute; reflexivity|].
  split; vm_compute; reflexivity.
Qed.

(** ** Where the entry paths leave the current directory *)

Lemma ResetToRootDirectory_at_root (this : FileSystem) (st : Store) :
  at_root (ResetToRootDirectory this st) st.
Proof. split; reflexivity. Qed.

Lemma Create_at_root (header_storage : list Z) (this this' : FileSystem)
    (st st' : Store) (path : string) (initialSize : Z) (r : bool) :
  Create header_storage this st path initialSize = Ok (r, this', st') ->
  at_root this' st'.
Proof.
  unfold Create.
  destruct (ChangeCurrentDirectoryByWholePath this st path)
    as [[[resolved filename] this1] st1].
  intros H. apply bind_Ok in H. destruct H as ([[success this2] st2] & _ & H).
  inversion H; subst. apply ResetToRootDirectory_at_root.
Qed.

Lemma Open_at_root (this this' : FileSystem) (st st' : Store) (path : string)
    (r : option OpenFile) :
  Open this st path = (r, this', st') -> at_root this' st'.
Proof.
  unfold Open.
  destruct (ChangeCurrentDirectoryByWholePath this st path)
    as [[[resolved filename] this1] st1].
  intros H. inversion H; subst. apply ResetToRootDirectory_at_root.
Qed.

Lemma OpenAFile_at_root (this this' : FileSystem) (st st' : Store)
    (path : string) (r : local_int) :
  OpenAFile this st path = (r, this', st') -> at_root this' st'.
Proof.
  unfold OpenAFile.
  destruct (ChangeCurrentDirectoryByWholePath this st path)
    as [[[resolved filename] this1] st1].
  destruct (if resolved then _ else _) as [s0 this2].
  intros H. inversion H; subst. apply ResetToRootDirectory_at_root.
Qed.

Lemma List_at_root (this this' : FileSystem) (st st' : Store) (path : string)
    (out : list ListLine) :
  List this st path = (out, this', st') -> at_root this' st'.
Proof.
  unfold List.
  destruct (ChangeCurrentDirectoryByWholePath this st path)
    as [[[resolved filename] this1] st1].
  destruct (if resolved then _ else _) as [[o this2] st2].
  intros H. inversion H; subst. apply ResetToRootDirectory_at_root.
Qed.

Lemma ListRecursive_at_root (fuel : nat) (this this' : FileSystem)
    (st st' : Store) (path : string) (out : list ListLine) :
  ListRecursive fuel this st path = Ok (out, this', st') -> at_root this' st'.
Proof.
  unfold ListRecursive.
  destruct (ChangeCurrentDirectoryByWholePath this st path)
    as [[[resolved filename] this1] st1].
  intros H. apply bind_Ok in H. destruct H as ([[o this2] st2] & _ & H).
  inversion H; subst. apply ResetToRootDirectory_at_root.
Qed.

(** [Remove] resets whenever it returns TRUE. *)
Lemma Remove_TRUE_at_root (entry_storage : list DirectoryEntry)
    (header_storage : list Z) (fuel : nat) (this this' : FileSystem)
    (st st' : Store) (path : string) :
  Remove entry_storage header_storage fuel this st path = Ok (true, this', st') ->
  at_root this' st'.
Proof.
  unfold Remove.
  destruct (ChangeCurrentDirectoryByWholePath this st path)
    as [[[resolved filename] this1] st1].
  destruct resolved.
  - destruct (String.eqb filename ""); [discriminate|].
    destruct (_ =? -1); [discriminate|].
    intros H. apply bind_Ok in H. destruct H as ([this2 st2] & _ & H).
    inversion H; subst. apply ResetToRootDirectory_at_root.
  - intros H. inversion H; subst. apply ResetToRootDirectory_at_root.
Qed.

(** ** Names in a directory *)

Lemma strncmp_is0_prefix (n : nat) (a : list ascii) (s : string) :
  strncmp_is0 a s n = true <-> c_prefix n a = c_prefix_str n s.
Proof.
  revert a s. induction n as [|n IH]; intros a s.
  - simpl. tauto.
  - destruct a as [|c1 a']; destruct s as [|c2 s'];
      cbn [strncmp_is0 c_prefix c_prefix_str hd tl].
    + rewrite Ascii.eqb_refl. tauto.
    + destruct (Ascii.eqb_spec NUL c2) as [<-|Hne].
      * rewrite Ascii.eqb_refl. tauto.
      * destruct (Ascii.eqb_spec c2 NUL) as [->|_]; [contradiction|].
        split; discriminate.
    + destruct (Ascii.eqb_spec c1 NUL) as [->|Hne]; [tauto|].
      split; discriminate.
    + destruct (Ascii.eqb_spec c1 c2) as [<-|Hne].
      * destruct (Ascii.eqb_spec c1 NUL) as [->|Hn]; [tauto|].
        rewrite IH. split; [intros ->; reflexivity|intros H; congruence].
      * destruct (Ascii.eqb_spec c1 NUL) as [->|Hn1];
          destruct (Ascii.eqb_spec c2 NUL) as [->|Hn2];
          split; try discriminate; try congruence.
Qed.

Lemma c_prefix_strncpy (n : nat) (dst : list ascii) (s : string) :
  (n <= length dst)%nat ->
  c_prefix n (strncpy dst s n) = c_prefix_str n s.
Proof.
  revert dst s. induction n as [|n IH]; intros dst s Hlen.
  - destruct dst; reflexivity.
  - destruct dst as [|d0 dst']; [simpl in Hlen; lia|].
    simpl in Hlen. destruct s as [|c s']; cbn [strncpy c_prefix c_prefix_str].
    + rewrite Ascii.eqb_refl. reflexivity.
    + destruct (Ascii.eqb_spec c NUL) as [->|Hne]; cbn [c_prefix].
      * rewrite Ascii.eqb_refl. reflexivity.
      * destruct (Ascii.eqb_spec c NUL); [contradiction|].
        rewrite IH by lia. reflexivity.
Qed.

Lemma length_strncpy (n : nat) (dst : list ascii) (s : string) :
  length (strncpy dst s n) = length dst.
Proof.
  revert dst s. induction n as [|n IH]; intros dst s.
  - destruct dst; reflexivity.
  - destruct dst as [|d0 dst']; [reflexivity|].
    destruct s as [|c s']; cbn [strncpy]; [simpl; rewrite IH; reflexivity|].
    destruct (Ascii.eqb c NUL); simpl; rewrite IH; reflexivity.
Qed.

Lemma FindIndex_from_range (t : list DirectoryEntry) (nm : string) (i : Z) :
  0 <= i -> FindIndex_from i t nm = -1 \/ i <= FindIndex_from i t nm.
Proof.
  revert i. induction t as [|e t IH]; intros i Hi; cbn [FindIndex_from].
  - left. reflexivity.
  - destruct (inUse e && strncmp_is0 (name e) nm FileNameMaxLen).
    + right. lia.
    + destruct (IH (i + 1) ltac:(lia)) as [H|H]; [left; exact H|right; lia].
Qed.

Lemma FindIndex_from_none (t : list DirectoryEntry) (nm : string) (i : Z) :
  0 <= i -> FindIndex_from i t nm = -1 ->
  Forall (fun e => inUse e = true ->
                   strncmp_is0 (name e) nm FileNameMaxLen = false) t.
Proof.
  revert i. induction t as [|e t IH]; intros i Hi H; cbn [FindIndex_from] in H.
  - constructor.
  - destruct (inUse e && strncmp_is0 (name e) nm FileNameMaxLen) eqn:E.
    + lia.
    + constructor; [|apply (IH (i + 1)); [lia|exact H]].
      intros Hu. rewrite Hu in E. exact E.
Qed.

(** A found index names an entry in use whose name compares equal. *)
Lemma FindIndex_from_found (t : list DirectoryEntry) (nm : string) (i k : Z) :
  0 <= i -> FindIndex_from i t nm = k -> k <> -1 ->
  i <= k /\
  exists e, t !! Z.to_nat (k - i) = Some e /\ inUse e = true /\
            strncmp_is0 (name e) nm FileNameMaxLen = true.
Proof.
  revert i. induction t as [|e t IH]; intros i Hi H Hk; cbn [FindIndex_from] in H.
  - congruence.
  - destruct (inUse e && strncmp_is0 (name e) nm FileNameMaxLen) eqn:E.
    + subst k. split; [lia|]. exists e. rewrite Z.sub_diag.
      apply andb_true_iff in E. destruct E. auto.
    + destruct (IH (i + 1) ltac:(lia) H Hk) as (Hle & e' & Hl & Hu & Hc).
      split; [lia|]. exists e'.
      replace (Z.to_nat (k - i)) with (S (Z.to_nat (k - (i + 1)))) by lia.
      auto.
Qed.

Lemma Add_loop_inv (t t' : list DirectoryEntry) (nm : string) (s ty : Z) :
  Add_loop t nm s ty = Some t' ->
  exists k e,
    t !! k = Some e /\ inUse e = false /\
    t' = <[k := {| inUse := true; fileType := ty; sector := s;
                   name := strncpy (name e) nm FileNameMaxLen |}]> t.
Proof.
  revert t'. induction t as [|e t IH]; intros t' H; cbn [Add_loop] in H.
  - discriminate.
  - destruct (inUse e) eqn:Eu; cbn [negb] in H.
    + destruct (Add_loop t nm s ty) as [t1|] eqn:E1; [|discriminate].
      inversion H; subst. destruct (IH t1 eq_refl) as (k & e0 & Hl & Hu & ->).
      exists (S k), e0. auto.
    + inversion H; subst. exists O, e. auto.
Qed.

Lemma names_unique_new (storage : list DirectoryEntry) :
  names_unique (Directory_new storage).
Proof.
  intros i j e1 e2 H1 _ Hu _ _. unfold Directory_new in H1.
  rewrite list_lookup_fmap in H1. destruct (storage !! i); inversion H1; subst.
  discriminate.
Qed.

Lemma names_sized_new (storage : list DirectoryEntry) :
  names_sized storage -> names_sized (Directory_new storage).
Proof.
  unfold names_sized, Directory_new. intros H. apply Forall_fmap.
  eapply Forall_impl; [exact H|]. intros e He. exact He.
Qed.

Lemma Directory_Add_unique (d d' : Directory) (nm : string) (s ty : Z) :
  names_sized d -> names_unique d ->
  Directory_Add d nm s ty = (true, d') ->
  names_sized d' /\ names_unique d'.
Proof.
  intros Hsz Hun. unfold Directory_Add, Directory_FindIndex.
  destruct (FindIndex_from 0 d nm =? -1) eqn:Ef; simpl; [|discriminate].
  apply Z.eqb_eq in Ef.
  destruct (Add_loop d nm s ty) as [t|] eqn:Ea; [|discriminate].
  intros H. inversion H; subst t; clear H.
  destruct (Add_loop_inv _ _ _ _ _ Ea) as (k & e & Hk & Hfree & ->).
  pose proof (FindIndex_from_none d nm 0 ltac:(lia) Ef) as Hnone.
  assert (Hlen : length (name e) = S FileNameMaxLen).
  { unfold names_sized in Hsz. rewrite Forall_lookup in Hsz. eapply Hsz; eauto. }
  assert (Hkey : forall j e2, d !! j = Some e2 -> inUse e2 = true ->
             key_of e2 <> c_prefix_str FileNameMaxLen nm).
  { intros j e2 Hj Hu Hk2. rewrite Forall_lookup in Hnone.
    specialize (Hnone j e2 Hj Hu).
    apply strncmp_is0_prefix in Hk2. congruence. }
  assert (Hnew : c_prefix FileNameMaxLen (strncpy (name e) nm FileNameMaxLen)
                 = c_prefix_str FileNameMaxLen nm).
  { apply c_prefix_strncpy. rewrite Hlen. unfold FileNameMaxLen. lia. }
  pose proof (lookup_lt_Some _ _ _ Hk) as Hklt.
  split.
  - unfold names_sized in *. rewrite Forall_lookup in *.
    intros i x Hi. destruct (decide (i = k)) as [->|Hne].
    + rewrite list_lookup_insert_eq in Hi by exact Hklt.
      inversion Hi; subst; simpl. rewrite length_strncpy. exact Hlen.
    + rewrite list_lookup_insert_ne in Hi by congruence. eapply Hsz; eauto.
  - intros i j e1 e2 H1 H2 U1 U2 K.
    destruct (decide (i = k)) as [->|Hik]; destruct (decide (j = k)) as [->|Hjk].
    + reflexivity.
    + rewrite list_lookup_insert_eq in H1 by exact Hklt.
      rewrite list_lookup_insert_ne in H2 by congruence.
      inversion H1; subst e1. unfold key_of in K at 1. cbn [name] in K.
      rewrite Hnew in K. exfalso. eapply Hkey; eauto.
    + rewrite list_lookup_insert_ne in H1 by congruence.
      rewrite list_lookup_insert_eq in H2 by exact Hklt.
      inversion H2; subst e2. unfold key_of in K at 2. cbn [name] in K.
      rewrite Hnew in K. exfalso. eapply Hkey; eauto.
    + rewrite list_lookup_insert_ne in H1 by congruence.
      rewrite list_lookup_insert_ne in H2 by congruence.
      eapply Hun; eauto.
Qed.

Lemma Directory_Remove_unique (d d' : Directory) (nm : string) :
  names_sized d -> names_unique d ->
  Directory_Remove d nm = (true, d') ->
  names_sized d' /\ names_unique d'.
Proof.
  intros Hsz Hun. unfold Directory_Remove.
  destruct (Directory_FindIndex d nm =? -1); [discriminate|].
  intros H. inversion H; subst d'; clear H.
  set (k := Z.to_nat (Directory_FindIndex d nm)).
  assert (Hl : forall i x, alter clear_inUse k d !! i = Some x ->
            exists y, d !! i = Some y /\ name x = name y /\
                      (inUse x = true -> inUse y = true)).
  { intros i x Hi. destruct (decide (i = k)) as [->|Hne].
    - rewrite list_lookup_alter_eq in Hi. destruct (d !! k) as [y|]; [|discriminate].
      inversion Hi; subst. exists y. simpl. split; [reflexivity|].
      split; [reflexivity|discriminate].
    - rewrite list_lookup_alter_ne in Hi by congruence. exists x. auto. }
  split.
  - unfold names_sized in *. rewrite Forall_lookup in *.
    intros i x Hi. destruct (Hl i x Hi) as (y & Hy & Hn & _).
    rewrite Hn. eapply Hsz; eauto.
  - intros i j e1 e2 H1 H2 U1 U2 K.
    destruct (Hl i e1 H1) as (y1 & Hy1 & Hn1 & Hu1).
    destruct (Hl j e2 H2) as (y2 & Hy2 & Hn2 & Hu2).
    apply (Hun i j y1 y2 Hy1 Hy2 (Hu1 U1) (Hu2 U2)).
    unfold key_of in *. congruence.
Qed.

(** The part of C8 that holds: whatever the storage of the new directory
    held, after any sequence of successful [Add] and [Remove] no two
    entries in use carry the same name. *)
Lemma run_ops_names_unique (ops : list dir_op) (d d' : Directory) :
  names_sized d -> names_unique d ->
  run_ops ops d = Some d' ->
  names_sized d' /\ names_unique d'.
Proof.
  revert d. induction ops as [|op ops IH]; intros d Hsz Hun H; simpl in H.
  - inversion H; subst. auto.
  - destruct op as [nm s ty|nm].
    + destruct (Directory_Add d nm s ty) as [ok d1] eqn:E.
      destruct ok; [|discriminate].
      destruct (Directory_Add_unique _ _ _ _ _ Hsz Hun E) as (Hsz1 & Hun1).
      eapply IH; eauto.
    + destruct (Directory_Remove d nm) as [ok d1] eqn:E.
      destruct ok; [|discriminate].
      destruct (Directory_Remove_unique _ _ _ Hsz Hun E) as (Hsz1 & Hun1).
      eapply IH; eauto.
Qed.

(** X6.  Whatever the storage of a new directory held, after any
    sequence of successful [Add] and [Remove] no two entries in use carry
    the same name (compared, as [FindIndex] does, on the first
    [FileNameMaxLen] characters). *)
Corollary new_directory_names_unique (storage : list DirectoryEntry)
    (ops : list dir_op) (d : Directory) :
  names_sized storage ->
  run_ops ops (Directory_new storage) = Some d ->
  names_unique d.
Proof.
  intros Hsz H.
  apply (run_ops_names_unique ops (Directory_new storage) d); auto.
  - apply names_sized_new, Hsz.
  - apply names_unique_new.
Qed.

(** A name shorter than [FileNameMaxLen] is stored with its terminator. *)
Lemma strncpy_short_terminated (n : nat) (dst : list ascii) (s : string) :
  (String.length s < n <= length dst)%nat ->
  NUL_terminated (strncpy dst s n).
Proof.
  unfold NUL_terminated. revert dst s.
  induction n as [|n IH]; intros dst s Hlen; [lia|].
  destruct dst as [|d0 dst']; [simpl in Hlen; lia|].
  simpl in Hlen. destruct s as [|c s']; cbn [strncpy].
  - left. reflexivity.
  - destruct (Ascii.eqb c NUL); [left; reflexivity|].
    right. apply IH. simpl in Hlen. lia.
Qed.

Lemma Directory_Add_terminated (d d' : Directory) (nm : string) (s ty : Z) :
  names_sized d -> names_terminated d ->
  (String.length nm < FileNameMaxLen)%nat ->
  Directory_Add d nm s ty = (true, d') ->
  names_terminated d'.
Proof.
  intros Hsz Ht Hshort. unfold Directory_Add.
  destruct (negb (Directory_FindIndex d nm =? -1)); [discriminate|].
  destruct (Add_loop d nm s ty) as [t|] eqn:Ea; [|discriminate].
  intros H. inversion H; subst t; clear H.
  destruct (Add_loop_inv _ _ _ _ _ Ea) as (k & e & Hk & _ & ->).
  unfold names_terminated, names_sized in *.
  rewrite Forall_lookup in Hsz. specialize (Hsz k e Hk). cbv beta in Hsz.
  apply Forall_insert; [exact Ht|]. intros _. cbn [name].
  apply strncpy_short_terminated. rewrite Hsz. lia.
Qed.

Lemma Directory_Remove_terminated (d d' : Directory) (nm : string) :
  names_terminated d ->
  Directory_Remove d nm = (true, d') ->
  names_terminated d'.
Proof.
  intros Ht. unfold Directory_Remove.
  destruct (Directory_FindIndex d nm =? -1); [discriminate|].
  intros H. inversion H; subst d'; clear H.
  unfold names_terminated in *. rewrite Forall_lookup in *.
  intros i x Hi Hu.
  destruct (decide (i = Z.to_nat (Directory_FindIndex d nm))) as [->|Hne].
  - rewrite list_lookup_alter_eq in Hi.
    destruct (d !! Z.to_nat (Directory_FindIndex d nm)); [|discriminate].
    inversion Hi; subst. discriminate.
  - rewrite list_lookup_alter_ne in Hi by congruence. eapply Ht; eauto.
Qed.

(** X7.  Termination of the names is kept: from a directory whose names
    in use are distinct and terminated, and as long as every added name
    is shorter than [FileNameMaxLen], every name in use is terminated
    after any sequence of successful [Add] and [Remove], whatever the
    arrays of the free entries held. *)
Lemma run_ops_names_terminated (ops : list dir_op) (d d' : Directory) :
  names_sized d -> names_unique d -> names_terminated d ->
  short_names ops ->
  run_ops ops d = Some d' ->
  names_terminated d'.
Proof.
  revert d. induction ops as [|op ops IH]; intros d Hsz Hun Ht Hs H;
    cbn [run_ops] in H.
  - inversion H; subst. exact Ht.
  - apply Forall_cons in Hs. destruct Hs as (Hop & Hs).
    destruct op as [nm s ty|nm].
    + destruct (Directory_Add d nm s ty) as [ok d1] eqn:E.
      destruct ok; [|discriminate].
      destruct (Directory_Add_unique _ _ _ _ _ Hsz Hun E) as (Hsz1 & Hun1).
      apply (IH d1); auto.
      exact (Directory_Add_terminated d d1 nm s ty Hsz Ht Hop E).
    + destruct (Directory_Remove d nm) as [ok d1] eqn:E.
      destruct ok; [|discriminate].
      destruct (Directory_Remove_unique _ _ _ Hsz Hun E) as (Hsz1 & Hun1).
      apply (IH d1); auto.
      exact (Directory_Remove_terminated d d1 nm Ht E).
Qed.

Lemma names_terminated_new (storage : list DirectoryEntry) :
  names_terminated (Directory_new storage).
Proof.
  unfold names_terminated, Directory_new. apply Forall_fmap, Forall_forall.
  intros e _. simpl. discriminate.
Qed.

(** C8 (the code departs from it).  The claim: after any sequence of
    successful [Add] and [Remove] from an empty directory, the name of
    every entry in use is NUL-terminated.  On the code: the constructor
    leaves the name arrays as the storage held them and [Add] copies with
    [strncpy(.., FileNameMaxLen)], which writes no terminator for a name of
    nine characters and never touches the tenth byte; on storage that
    holds ['x'] bytes, adding ["abcdefghi"] succeeds and the entry in use
    holds ["abcdefghix"], with no NUL in its array. *)
Theorem Add_nine_characters_leaves_name_unterminated :
  exists e rest,
    run_ops [OpAdd "abcdefghi" 5 FILE_TYPE] (Directory_new dirty_storage)
      = Some (e :: rest) /\
    add_nine_chars = (true, e :: rest) /\
    inUse e = true /\
    name e = list_ascii_of_string "abcdefghix" /\
    length (name e) = S FileNameMaxLen /\
    ~ NUL_terminated (name e).
Proof.
  do 2 eexists.
  split; [vm_compute; reflexivity|].
  split; [vm_compute; reflexivity|].
  split; [reflexivity|].
  split; [reflexivity|].
  split; [reflexivity|].
  unfold NUL_terminated. simpl. intros H.
  repeat (destruct H as [H|H]; [discriminate|]). exact H.
Qed.

(** ** The bitmap *)

Lemma find_clear_Some (b : Bitmap) (i : nat) :
  find_clear b = Some i -> b !! i = Some false.
Proof.
  revert i. induction b as [|x b IH]; intros i H; simpl in H.
  - discriminate.
  - destruct x.
    + destruct (find_clear b) as [k|]; [|discriminate].
      inversion H; subst. simpl. apply IH. reflexivity.
    + inversion H; subst. reflexivity.
Qed.

Lemma mono_refl (fm : Bitmap) : mono fm fm.
Proof. intros x H. exact H. Qed.

Lemma mono_trans (fm1 fm2 fm3 : Bitmap) :
  mono fm1 fm2 -> mono fm2 fm3 -> mono fm1 fm3.
Proof. intros H1 H2 x H. apply H2, H1, H. Qed.

Lemma FindAndSet_spec (b b' : Bitmap) (s : Z) :
  FindAndSet b = (s, b') -> 0 <= s ->
  Test s b = false /\ Test s b' = true /\ mono b b'.
Proof.
  unfold FindAndSet. destruct (find_clear b) as [i|] eqn:E.
  - intros H _. inversion H; subst; clear H.
    pose proof (find_clear_Some _ _ E) as Hi.
    pose proof (lookup_lt_Some _ _ _ Hi) as Hlt.
    unfold Test. destruct (Z.ltb_spec (Z.of_nat i) 0) as [Hn|_]; [lia|].
    rewrite Nat2Z.id. split; [rewrite Hi; reflexivity|].
    split; [rewrite list_lookup_insert_eq by exact Hlt; reflexivity|].
    intros x. unfold Test. destruct (x <? 0); [discriminate|].
    destruct (decide (Z.to_nat x = i)) as [->|Hne].
    + rewrite list_lookup_insert_eq by exact Hlt. reflexivity.
    + rewrite list_lookup_insert_ne by congruence. tauto.
  - intros H Hs. inversion H; subst. lia.
Qed.

Lemma allocated_nil (fm fm' : Bitmap) : mono fm fm' -> allocated fm fm' [].
Proof. intros H. split; [constructor|]. split; [constructor|exact H]. Qed.

Lemma allocated_app (fm fm1 fm2 : Bitmap) (L1 L2 : list Z) :
  allocated fm fm1 L1 -> allocated fm1 fm2 L2 ->
  allocated fm fm2 (L1 ++ L2).
Proof.
  intros (N1 & F1 & M1) (N2 & F2 & M2).
  rewrite Forall_forall in F1, F2.
  split; [|split].
  - apply NoDup_app. split; [exact N1|]. split; [|exact N2].
    intros x H1 H2. destruct (F1 x H1) as (_ & S1).
    destruct (F2 x H2) as (C2 & _). congruence.
  - rewrite Forall_app. split; rewrite Forall_forall; intros x Hx.
    + destruct (F1 x Hx) as (C & S). split; [exact C|apply M2, S].
    + destruct (F2 x Hx) as (C & S). split; [|exact S].
      destruct (Test x fm) eqn:E; [|reflexivity].
      apply M1 in E. congruence.
  - eapply mono_trans; eassumption.
Qed.

Lemma allocated_perm (fm fm' : Bitmap) (L L' : list Z) :
  L ≡ₚ L' -> allocated fm fm' L -> allocated fm fm' L'.
Proof.
  intros HP (N & F & M). split; [|split].
  - rewrite <- HP. exact N.
  - rewrite <- HP. exact F.
  - exact M.
Qed.

Lemma allocated_mono (fm fm' : Bitmap) (L : list Z) :
  allocated fm fm' L -> mono fm fm'.
Proof. intros (_ & _ & M). exact M. Qed.

(** A sector that is taken before the allocation is none of the sectors
    that the allocation hands out. *)
Lemma allocated_fresh (fm fm' : Bitmap) (L : list Z) (s : Z) :
  allocated fm fm' L -> Test s fm = true -> NoDup (s :: L).
Proof.
  intros (N & F & _) Hs. constructor; [|exact N].
  intros Hin. rewrite Forall_forall in F. destruct (F s Hin). congruence.
Qed.

Lemma alloc_pointerSectors_spec (n : Z) (ps ps' : list Z) (fm fm' : Bitmap) :
  alloc_pointerSectors n ps fm = Ok (ps', fm') ->
  length ps' = length ps /\
  (Z.to_nat n <= length ps)%nat /\
  drop (Z.to_nat n) ps' = drop (Z.to_nat n) ps /\
  Forall (fun s => 0 <= s) (take (Z.to_nat n) ps') /\
  allocated fm fm' (take (Z.to_nat n) ps').
Proof.
  unfold alloc_pointerSectors. intros H.
  pose (P := fun (j : nat) (st : list Z * Bitmap) =>
    length (fst st) = length ps /\
    (j <= length ps)%nat /\
    drop j (fst st) = drop j ps /\
    Forall (fun s => 0 <= s) (take j (fst st)) /\
    allocated fm (snd st) (take j (fst st))).
  apply (for_inv P) in H.
  - exact H.
  - unfold P. simpl. split; [reflexivity|]. split; [lia|]. split; [reflexivity|].
    split; [constructor|]. apply allocated_nil, mono_refl.
  - intros j [psj fmj] [psj' fmj'] Hj (Hl & Hle & Hd & Hp & Ha) Hb.
    simpl in Hl, Hd, Hp, Ha.
    destruct (FindAndSet fmj) as [s fm1] eqn:Ef.
    apply bind_Ok in Hb. destruct Hb as (psx & Hset & Hb).
    apply array_set_Ok in Hset. destruct Hset as (Hlt & ->).
    apply ASSERT_Ok in Hb. destruct Hb as (Hs & Hb).
    inversion Hb; subst; clear Hb. apply Z.geb_le in Hs.
    destruct (FindAndSet_spec _ _ _ Ef Hs) as (Hc & Ht & Hm).
    unfold P. simpl.
    assert (Htake : take (S j) (<[j:=s]> psj) = take j psj ++ [s]).
    { rewrite (take_S_r _ _ s) by (apply list_lookup_insert_eq; exact Hlt).
      rewrite take_insert_ge by lia. reflexivity. }
    split; [rewrite length_insert; exact Hl|].
    split; [lia|].
    split.
    { rewrite drop_insert_lt by lia.
      replace (S j) with (j + 1)%nat by lia.
      rewrite <- !(drop_drop _ 1 j). rewrite Hd. reflexivity. }
    rewrite Htake. split.
    { apply Forall_app. split; [exact Hp|]. repeat constructor. exact Hs. }
    eapply allocated_app; [exact Ha|].
    split; [apply NoDup_singleton|]. split; [|exact Hm].
    repeat constructor; assumption.
Qed.

(** ** Allocation of the children of a node *)

Lemma for_nonpos {St : Type} (n : Z) (body : nat -> St -> res St) (s : St) :
  n <= 0 -> for_ n body s = Ok s.
Proof.
  intros H. unfold for_. replace (Z.to_nat n) with O by lia. reflexivity.
Qed.

Lemma children_blocks_perm {C : Type} (blocks : C -> list Z) (n : nat)
    (tb : list C) (ps : list Z) :
  (n <= length tb)%nat -> (n <= length ps)%nat ->
  children_blocks blocks n tb ps
    ≡ₚ take n ps ++ concat (map blocks (take n tb)).
Proof.
  unfold children_blocks. revert tb ps.
  induction n as [|n IH]; intros tb ps Ht Hp.
  - reflexivity.
  - destruct tb as [|c tb]; [simpl in Ht; lia|].
    destruct ps as [|s ps]; [simpl in Hp; lia|].
    simpl in Ht, Hp. cbn [take zip_with concat map].
    rewrite (IH tb ps) by lia.
    rewrite <- !app_comm_cons. constructor.
    rewrite !app_assoc. apply Permutation_app_tail, Permutation_app_comm.
Qed.

Section ChildLoop.

Context {C : Type}.
Variable okC : C -> Prop.
Variable blocksC : C -> list Z.
Variable body : nat -> list C * Bitmap * Z -> res (list C * Bitmap * Z).
Variable tb0 : list C.

(** Each round replaces slot [i], which no earlier round has touched, by a
    well-formed child whose blocks it takes from the bitmap. *)
Hypothesis body_spec :
  forall (i : nat) (tb tb' : list C) (fm fm' : Bitmap) (rem rem' : Z),
    tb !! i = tb0 !! i ->
    body i (tb, fm, rem) = Ok (tb', fm', rem') ->
    exists c, (i < length tb)%nat /\ tb' = <[i := c]> tb /\ okC c /\
              allocated fm fm' (blocksC c).

Lemma child_loop_spec (n : Z) (fm0 fm' : Bitmap) (rem0 rem' : Z)
    (tb' : list C) :
  for_ n body (tb0, fm0, rem0) = Ok (tb', fm', rem') ->
  length tb' = length tb0 /\
  (Z.to_nat n <= length tb0)%nat /\
  drop (Z.to_nat n) tb' = drop (Z.to_nat n) tb0 /\
  Forall okC (take (Z.to_nat n) tb') /\
  allocated fm0 fm' (concat (map blocksC (take (Z.to_nat n) tb'))).
Proof.
  intros H.
  pose (P := fun (j : nat) (st : list C * Bitmap * Z) =>
    length (fst (fst st)) = length tb0 /\
    (j <= length tb0)%nat /\
    drop j (fst (fst st)) = drop j tb0 /\
    Forall okC (take j (fst (fst st))) /\
    allocated fm0 (snd (fst st)) (concat (map blocksC (take j (fst (fst st)))))).
  apply (for_inv P) in H.
  - exact H.
  - unfold P. simpl. split; [reflexivity|]. split; [lia|]. split; [reflexivity|].
    split; [constructor|]. apply allocated_nil, mono_refl.
  - intros j [[tb fm] rem] [[tb1 fm1] rem1] Hj (Hl & Hle & Hd & Hok & Ha) Hb.
    simpl in Hl, Hd, Hok, Ha.
    assert (Hj0 : tb !! j = tb0 !! j).
    { rewrite <- (Nat.add_0_r j). rewrite <- !lookup_drop, Hd. reflexivity. }
    destruct (body_spec j tb tb1 fm fm1 rem rem1 Hj0 Hb)
      as (c & Hlt & -> & Hc & Hac).
    unfold P. simpl.
    assert (Htake : take (S j) (<[j:=c]> tb) = take j tb ++ [c]).
    { rewrite (take_S_r _ _ c) by (apply list_lookup_insert_eq; exact Hlt).
      rewrite take_insert_ge by lia. reflexivity. }
    split; [rewrite length_insert; exact Hl|].
    split; [lia|].
    split.
    { rewrite drop_insert_lt by lia.
      replace (S j) with (j + 1)%nat by lia.
      rewrite <- !(drop_drop _ 1 j). rewrite Hd. reflexivity. }
    rewrite Htake. split.
    { apply Forall_app. split; [exact Hok|]. repeat constructor. exact Hc. }
    rewrite map_app, concat_app. simpl. rewrite app_nil_r.
    eapply allocated_app; eassumption.
Qed.

End ChildLoop.

(** Assembling a node from its pointer sectors and its children. *)
Lemma node_allocated {C : Type} (okC : C -> Prop) (blocksC : C -> list Z)
    (newC : C) (cap : nat) (np : Z) (ps0 ps : list Z) (tb : list C)
    (fm fm1 fm2 : Bitmap) :
  length ps0 = cap ->
  0 <= np ->
  length ps = length ps0 /\
  (Z.to_nat np <= length ps0)%nat /\
  drop (Z.to_nat np) ps = drop (Z.to_nat np) ps0 /\
  Forall (fun s => 0 <= s) (take (Z.to_nat np) ps) /\
  allocated fm fm1 (take (Z.to_nat np) ps) ->
  length tb = length (replicate cap newC) /\
  (Z.to_nat np <= length (replicate cap newC))%nat /\
  drop (Z.to_nat np) tb = drop (Z.to_nat np) (replicate cap newC) /\
  Forall okC (take (Z.to_nat np) tb) /\
  allocated fm1 fm2 (concat (map blocksC (take (Z.to_nat np) tb))) ->
  wf_node okC newC np ps tb cap /\
  allocated fm fm2 (children_blocks blocksC (Z.to_nat np) tb ps).
Proof.
  intros Hcap Hnp (Hl & Hle & _ & Hpos & Ha) (Hl2 & _ & Hd & Hok & Ha2).
  rewrite length_replicate in Hl2.
  split.
  - unfold wf_node. split; [lia|]. split; [exact Hl2|]. split; [lia|].
    split; [exact Hpos|]. split; [exact Hok|].
    rewrite Hd, drop_replicate. reflexivity.
  - eapply allocated_perm.
    + symmetry. apply children_blocks_perm; lia.
    + eapply allocated_app; eassumption.
Qed.

(** ** What [Allocate] builds *)

Lemma wf_single_new : wf_single SingleIndirectPointer_new.
Proof. reflexivity. Qed.

Lemma SingleIndirectPointer_Allocate_spec (this p' : SingleIndirectPointer)
    (fm fm' : Bitmap) (n : Z) :
  wf_single this ->
  SingleIndirectPointer_Allocate this fm n = Ok (true, p', fm') ->
  wf_single p' /\ allocated fm fm' (blocks_single p').
Proof.
  unfold SingleIndirectPointer_Allocate. intros Hwf H.
  apply ASSERT_Ok in H. destruct H as (_ & H).
  destruct (NumClear fm <? n); [discriminate|].
  apply bind_Ok in H. destruct H as ([ps fm1] & Hps & H).
  inversion H; subst; clear H.
  destruct (alloc_pointerSectors_spec _ _ _ _ _ Hps) as (Hl & _ & _ & _ & Ha).
  split.
  - unfold wf_single in *. simpl. congruence.
  - apply allocated_nil. eapply allocated_mono; eassumption.
Qed.

Lemma DoubleIndirectPointer_Allocate_spec (p' : DoubleIndirectPointer)
    (fm fm' : Bitmap) (n : Z) :
  DoubleIndirectPointer_Allocate DoubleIndirectPointer_new fm n
    = Ok (true, p', fm') ->
  wf_double p' /\ allocated fm fm' (blocks_double p').
Proof.
  unfold DoubleIndirectPointer_Allocate. intros H.
  apply ASSERT_Ok in H. destruct H as (_ & H).
  set (np := divRoundUp n LEVEL_1_SECTOR_NUM) in *.
  destruct (NumClear fm <? np); [discriminate|].
  apply bind_Ok in H. destruct H as ([ps fm1] & Hps & H).
  apply bind_Ok in H. destruct H as ([[tb fm2] rem] & Hloop & H).
  apply ASSERT_Ok in H. destruct H as (Hrem & H).
  inversion H; subst p' fm'; clear H.
  assert (Hnp : 0 <= np).
  { destruct (Z_le_gt_dec np 0) as [Hle|Hgt]; [|lia].
    rewrite for_nonpos in Hloop by exact Hle.
    assert (Hn0 : n = 0)
      by (inversion Hloop; subst; apply Z.eqb_eq in Hrem; lia).
    unfold np. rewrite Hn0. vm_compute. discriminate. }
  unfold wf_double, blocks_double. simpl.
  eapply (node_allocated wf_single blocks_single SingleIndirectPointer_new
            (Z.to_nat NUM_INDIRECT_POINTER) np
            (d_pointerSectors DoubleIndirectPointer_new) ps tb fm fm1 fm2).
  - reflexivity.
  - exact Hnp.
  - eapply alloc_pointerSectors_spec. exact Hps.
  - eapply (child_loop_spec wf_single blocks_single); [|exact Hloop].
    clear. intros i tb tb' fm fm' rem rem' Hi Hb.
    apply ASSERT_Ok in Hb. destruct Hb as (_ & Hb).
    apply bind_Ok in Hb. destruct Hb as (child & Hget & Hb).
    apply array_get_Ok in Hget.
    apply bind_Ok in Hb. destruct Hb as ([[ok child'] fmx] & Hal & Hb).
    apply ASSERT_Ok in Hb. destruct Hb as (-> & Hb).
    inversion Hb; subst; clear Hb.
    assert (child = SingleIndirectPointer_new).
    { rewrite Hget in Hi. symmetry in Hi.
      apply lookup_replicate in Hi. destruct Hi as [Hi _]. congruence. }
    subst child.
    destruct (SingleIndirectPointer_Allocate_spec _ _ _ _ _ wf_single_new Hal)
      as (Hw & Ha).
    exists child'. split; [eapply lookup_lt_Some; eassumption|].
    split; [reflexivity|]. split; assumption.
Qed.

Lemma wf_double_new : wf_double DoubleIndirectPointer_new.
Proof.
  unfold wf_double, wf_node. simpl.
  repeat split; try reflexivity; try lia; constructor.
Qed.

Lemma TripleIndirectPointer_Allocate_spec (p' : TripleIndirectPointer)
    (fm fm' : Bitmap) (n : Z) :
  TripleIndirectPointer_Allocate TripleIndirectPointer_new fm n
    = Ok (true, p', fm') ->
  wf_triple p' /\ allocated fm fm' (blocks_triple p').
Proof.
  unfold TripleIndirectPointer_Allocate. intros H.
  apply ASSERT_Ok in H. destruct H as (_ & H).
  set (np := divRoundUp n LEVEL_2_SECTOR_NUM) in *.
  destruct (NumClear fm <? np); [discriminate|].
  apply bind_Ok in H. destruct H as ([ps fm1] & Hps & H).
  apply bind_Ok in H. destruct H as ([[tb fm2] rem] & Hloop & H).
  apply ASSERT_Ok in H. destruct H as (Hrem & H).
  inversion H; subst p' fm'; clear H.
  assert (Hnp : 0 <= np).
  { destruct (Z_le_gt_dec np 0) as [Hle|Hgt]; [|lia].
    rewrite for_nonpos in Hloop by exact Hle.
    assert (Hn0 : n = 0)
      by (inversion Hloop; subst; apply Z.eqb_eq in Hrem; lia).
    unfold np. rewrite Hn0. vm_compute. discriminate. }
  unfold wf_triple, blocks_triple. simpl.
  eapply (node_allocated wf_double blocks_double DoubleIndirectPointer_new
            (Z.to_nat NUM_INDIRECT_POINTER) np
            (t_pointerSectors TripleIndirectPointer_new) ps tb fm fm1 fm2).
  - reflexivity.
  - exact Hnp.
  - eapply alloc_pointerSectors_spec. exact Hps.
  - eapply (child_loop_spec wf_double blocks_double); [|exact Hloop].
    clear. intros i tb tb' fm fm' rem rem' Hi Hb.
    apply ASSERT_Ok in Hb. destruct Hb as (_ & Hb).
    apply bind_Ok in Hb. destruct Hb as (child & Hget & Hb).
    apply array_get_Ok in Hget.
    apply bind_Ok in Hb. destruct Hb as ([[ok child'] fmx] & Hal & Hb).
    apply ASSERT_Ok in Hb. destruct Hb as (-> & Hb).
    inversion Hb; subst; clear Hb.
    assert (child = DoubleIndirectPointer_new).
    { rewrite Hget in Hi. symmetry in Hi.
      apply lookup_replicate in Hi. destruct Hi as [Hi _]. congruence. }
    subst child.
    destruct (DoubleIndirectPointer_Allocate_spec _ _ _ _ Hal) as (Hw & Ha).
    exists child'. split; [eapply lookup_lt_Some; eassumption|].
    split; [reflexivity|]. split; assumption.
Qed.

Lemma DataPointer_Allocate_spec (lv : Z) (p p' : DataPointerInterface)
    (fm fm' : Bitmap) (n : Z) :
  GetNewPointerByLevel lv = Some p ->
  DataPointer_Allocate p fm n = Ok (true, p', fm') ->
  wf_ptr p' /\ kind_of p' = lv /\ allocated fm fm' (blocks_ptr p').
Proof.
  unfold GetNewPointerByLevel. intros Hnew H.
  destruct (lv =? LEVEL_1) eqn:E1;
    [|destruct (lv =? LEVEL_2) eqn:E2;
      [|destruct (lv =? LEVEL_3) eqn:E3;
        [|destruct (lv =? LEVEL_4) eqn:E4; [|discriminate]]]];
    inversion Hnew; subst p; clear Hnew; cbn [DataPointer_Allocate] in H;
    apply bind_Ok in H; destruct H as ([[ok q] fmx] & Hal & H);
    inversion H; subst; clear H; cbn [wf_ptr kind_of blocks_ptr].
  - apply Z.eqb_eq in E1. split; [exact I|]. split; [congruence|].
    apply allocated_nil. unfold DirectPointer_Allocate in Hal.
    apply ASSERT_Ok in Hal. destruct Hal as (_ & Hal).
    destruct (NumClear fm <? n); [discriminate|].
    destruct (FindAndSet fm) as [s fm1] eqn:Ef.
    apply ASSERT_Ok in Hal. destruct Hal as (Hs & Hal).
    inversion Hal; subst. apply Z.geb_le in Hs.
    eapply FindAndSet_spec; eassumption.
  - apply Z.eqb_eq in E2.
    destruct (SingleIndirectPointer_Allocate_spec _ _ _ _ _ wf_single_new Hal).
    split; [assumption|]. split; [congruence|assumption].
  - apply Z.eqb_eq in E3.
    destruct (DoubleIndirectPointer_Allocate_spec _ _ _ _ Hal).
    split; [assumption|]. split; [congruence|assumption].
  - apply Z.eqb_eq in E4.
    destruct (TripleIndirectPointer_Allocate_spec _ _ _ _ Hal).
    split; [assumption|]. split; [congruence|assumption].
Qed.

Lemma divRoundUp_0_l (s : Z) : divRoundUp 0 s = 0.
Proof. destruct s; reflexivity. Qed.

Lemma FileHeader_Allocate_spec (nb0 np0 lv0 : Z) (ps0 : list Z)
    (h : FileHeader) (fm fm' : Bitmap) (s : Z) :
  FileHeader_Allocate (FileHeader_new nb0 np0 lv0 ps0) fm s = Ok (true, h, fm') ->
  wf_hdr h /\ allocated fm fm' (blocks_hdr h).
Proof.
  unfold FileHeader_Allocate. intros H.
  destruct (Allocate_level s) as [lv|] eqn:El; [|discriminate].
  apply ASSERT_Ok in H. destruct H as (_ & H).
  set (ns := divRoundUp s SectorSize) in *.
  set (np := divRoundUp ns (at_index SECTOR_NUM_IN_LEVEL (lv - 1))) in *.
  destruct (NumClear fm <? np); [discriminate|].
  apply bind_Ok in H. destruct H as ([ps fm1] & Hps & H).
  apply bind_Ok in H. destruct H as ([[tb fm2] rem] & Hloop & H).
  apply ASSERT_Ok in H. destruct H as (Hrem & H).
  inversion H; subst h fm'; clear H.
  assert (Hnp : 0 <= np).
  { destruct (Z_le_gt_dec np 0) as [Hle|Hgt]; [|lia].
    rewrite for_nonpos in Hloop by exact Hle.
    assert (Hn0 : ns = 0)
      by (inversion Hloop; subst; apply Z.eqb_eq in Hrem; lia).
    unfold np. rewrite Hn0, divRoundUp_0_l. lia. }
  assert (Hlen0 : length (pointerSectors (FileHeader_new nb0 np0 lv0 ps0))
                  = Z.to_nat NUM_FILE_HEADER_POINTER).
  { unfold FileHeader_new. cbn [pointerSectors].
    rewrite length_take, length_app, length_replicate. lia. }
  unfold wf_hdr, blocks_hdr. cbn [numBytes numPointer pointerSectors level table].
  rewrite FetchFrom_level_eq.
  cut (wf_node (wf_entry lv) None np ps tb (Z.to_nat NUM_FILE_HEADER_POINTER) /\
       allocated fm fm2 (children_blocks blocks_entry (Z.to_nat np) tb ps)).
  { intros [A B]. split; [split; [exact A|exact El]|exact B]. }
  eapply (node_allocated (wf_entry lv) blocks_entry None
            (Z.to_nat NUM_FILE_HEADER_POINTER) np
            (pointerSectors (FileHeader_new nb0 np0 lv0 ps0)) ps tb fm fm1 fm2).
  - exact Hlen0.
  - exact Hnp.
  - eapply alloc_pointerSectors_spec. exact Hps.
  - eapply (child_loop_spec (wf_entry lv) blocks_entry); [|exact Hloop].
    clear. intros i tb tb' fm fm' rem rem' Hi Hb.
    destruct (GetNewPointerByLevel lv) as [p|] eqn:Enew; [|discriminate].
    apply ASSERT_Ok in Hb. destruct Hb as (_ & Hb).
    apply bind_Ok in Hb. destruct Hb as ([[ok p'] fmx] & Hal & Hb).
    apply ASSERT_Ok in Hb. destruct Hb as (-> & Hb).
    apply bind_Ok in Hb. destruct Hb as (tbx & Hset & Hb).
    apply array_set_Ok in Hset. destruct Hset as (Hlt & ->).
    inversion Hb; subst; clear Hb.
    destruct (DataPointer_Allocate_spec _ _ _ _ _ _ Enew Hal) as (Hw & Hk & Ha).
    exists (Some p'). split; [exact Hlt|]. split; [reflexivity|].
    split; [|exact Ha]. exists p'. auto.
Qed.

(** ** Sector images *)

Lemma map_nth_seq (l : list Z) (d : Z) :
  map (fun i => nth i l d) (seq 0 (length l)) = l.
Proof.
  induction l as [|x l IH]; [reflexivity|].
  cbn [length seq map nth]. f_equal.
  rewrite <- seq_shift, map_map. exact IH.
Qed.

Lemma cache_slice_fill (off : nat) (a cache : list Z) :
  (off <= length cache)%nat ->
  cache_slice off (length a) (cache_fill off a cache) = a.
Proof.
  intros Hoff. unfold cache_slice, cache_fill, cache_get.
  rewrite <- (map_nth_seq a (-1)) at 2.
  apply map_ext_in. intros i Hi. apply in_seq in Hi.
  rewrite app_nth2; rewrite length_take; [|lia].
  replace (off + i - off `min` length cache)%nat with i by lia.
  apply app_nth1. lia.
Qed.

Lemma cache_get_fill (off i : nat) (a cache : list Z) :
  (i < off <= length cache)%nat ->
  cache_get (cache_fill off a cache) i = cache_get cache i.
Proof.
  intros Hi. unfold cache_fill, cache_get.
  rewrite app_nth1 by (rewrite length_take; lia).
  rewrite <- (take_drop off cache) at 2.
  rewrite app_nth1 by (rewrite length_take; lia). reflexivity.
Qed.

Lemma WriteSector_same (d : SynchDisk) (s : Z) (cache : list Z) :
  WriteSector d s cache s = cache.
Proof. unfold WriteSector. rewrite Z.eqb_refl. reflexivity. Qed.

Lemma WriteSector_other (d : SynchDisk) (s x : Z) (cache : list Z) :
  x <> s -> WriteSector d s cache x = d x.
Proof.
  intros H. unfold WriteSector. destruct (Z.eqb_spec x s); [contradiction|].
  reflexivity.
Qed.

(** ** Loops that always complete *)

Lemma for_from_total {St : Type} (P : nat -> St -> Prop)
    (body : nat -> St -> res St) (n i : nat) (s : St) :
  P i s ->
  (forall j t, (i <= j < i + n)%nat -> P j t ->
               exists t', body j t = Ok t' /\ P (S j) t') ->
  exists s', for_from i n body s = Ok s' /\ P (i + n)%nat s'.
Proof.
  revert i s. induction n as [|n IH]; intros i s HP Hstep.
  - exists s. rewrite Nat.add_0_r. split; [reflexivity|exact HP].
  - destruct (Hstep i s ltac:(lia) HP) as (t & Hb & Ht).
    destruct (IH (S i) t Ht) as (s' & Hrun & Hs').
    { intros j u Hj. apply Hstep. lia. }
    exists s'. split.
    + simpl. rewrite Hb. exact Hrun.
    + replace (i + S n)%nat with (S i + n)%nat by lia. exact Hs'.
Qed.

Lemma readable_frame {C : Type} (fetch : SynchDisk -> Z -> res C)
    (W : list Z) (d d' : SynchDisk) (s : Z) (c : C) :
  readable fetch W d s c ->
  (forall x, x ∈ W -> d' x = d x) ->
  readable fetch W d' s c.
Proof.
  intros Hr Hag d'' Hag'. apply Hr. intros x Hx.
  rewrite Hag' by exact Hx. apply Hag, Hx.
Qed.

Section WriteLoop.

Variable n : nat.
Variable W : nat -> list Z.
Variable wb : nat -> SynchDisk -> res SynchDisk.
Variable rd : nat -> SynchDisk -> Prop.

Hypothesis wb_ok :
  forall i d, (i < n)%nat ->
    exists d', wb i d = Ok d' /\ (forall x, x ∉ W i -> d' x = d x) /\ rd i d'.
Hypothesis rd_frame :
  forall i (d d' : SynchDisk), (i < n)%nat -> rd i d ->
    (forall x, x ∈ W i -> d' x = d x) -> rd i d'.
Hypothesis disj :
  forall i j x, (i < j < n)%nat -> x ∈ W i -> x ∈ W j -> False.

Lemma write_loop (d : SynchDisk) :
  exists d', for_from 0 n wb d = Ok d' /\
    (forall x, (forall i, (i < n)%nat -> x ∉ W i) -> d' x = d x) /\
    (forall i, (i < n)%nat -> rd i d').
Proof.
  pose (P := fun (j : nat) (dj : SynchDisk) =>
    (j <= n)%nat /\
    (forall x, (forall i, (i < j)%nat -> x ∉ W i) -> dj x = d x) /\
    (forall i, (i < j)%nat -> rd i dj)).
  destruct (for_from_total P wb n 0 d) as (d' & Hrun & (_ & Hfr & Hrd)).
  - unfold P. split; [lia|]. split; [reflexivity|]. intros i Hi. lia.
  - intros j dj Hj (Hjn & Hfr & Hrd).
    destruct (wb_ok j dj ltac:(lia)) as (d1 & Hw & Hf1 & Hr1).
    exists d1. split; [exact Hw|]. unfold P. split; [lia|]. split.
    + intros x Hx. rewrite Hf1 by (apply Hx; lia). apply Hfr.
      intros i Hi. apply Hx. lia.
    + intros i Hi. destruct (decide (i = j)) as [->|Hne]; [exact Hr1|].
      apply (rd_frame i dj d1); [lia|apply Hrd; lia|].
      intros x Hx. apply Hf1. intros Hxj. apply (disj i j x); auto. lia.
  - exists d'. split; [exact Hrun|]. split; [exact Hfr|exact Hrd].
Qed.

End WriteLoop.

Section FetchLoop.

Context {X : Type}.
Variable n : nat.
Variable ff : nat -> list X -> res (list X).
Variable target : nat -> X.
Variable tb0 : list X.

Hypothesis ff_step :
  forall i tb, (i < n)%nat -> length tb = length tb0 ->
    (forall k, (i <= k)%nat -> tb !! k = tb0 !! k) ->
    ff i tb = Ok (<[i := target i]> tb).

Lemma fetch_loop :
  (n <= length tb0)%nat ->
  exists tb', for_from 0 n ff tb0 = Ok tb' /\
    length tb' = length tb0 /\
    (forall i, (i < n)%nat -> tb' !! i = Some (target i)) /\
    (forall i, (n <= i)%nat -> tb' !! i = tb0 !! i).
Proof.
  intros Hn.
  pose (P := fun (j : nat) (tb : list X) =>
    length tb = length tb0 /\
    (forall i, (i < j)%nat -> tb !! i = Some (target i)) /\
    (forall i, (j <= i)%nat -> tb !! i = tb0 !! i)).
  destruct (for_from_total P ff n 0 tb0) as (tb' & Hrun & HP).
  - unfold P. split; [reflexivity|]. split; [intros i Hi; lia|reflexivity].
  - intros j tb Hj (Hl & Hlo & Hhi).
    exists (<[j := target j]> tb). split.
    + apply ff_step; [lia|exact Hl|exact Hhi].
    + unfold P. split; [rewrite length_insert; exact Hl|]. split.
      * intros i Hi. destruct (decide (i = j)) as [->|Hne].
        -- apply list_lookup_insert_eq. lia.
        -- rewrite list_lookup_insert_ne by congruence. apply Hlo. lia.
      * intros i Hi. rewrite list_lookup_insert_ne by lia. apply Hhi. lia.
  - exists tb'. split; [exact Hrun|]. exact HP.
Qed.

End FetchLoop.

(** ** The blocks of the children *)

Lemma children_blocks_S {C : Type} (blocks : C -> list Z) (n : nat)
    (c : C) (tb : list C) (s : Z) (ps : list Z) :
  children_blocks blocks (S n) (c :: tb) (s :: ps)
    = (s :: blocks c) ++ children_blocks blocks n tb ps.
Proof. reflexivity. Qed.

Lemma elem_of_children_blocks {C : Type} (blocks : C -> list Z) (n : nat)
    (tb : list C) (ps : list Z) (x : Z) :
  x ∈ children_blocks blocks n tb ps <->
  exists i c s, (i < n)%nat /\ tb !! i = Some c /\ ps !! i = Some s /\
                x ∈ s :: blocks c.
Proof.
  revert tb ps. induction n as [|n IH]; intros tb ps.
  - split; [intros H; inversion H|intros (i & _ & _ & Hi & _); lia].
  - destruct tb as [|c tb]; [|destruct ps as [|s ps]].
    + split; [intros H; inversion H|intros (i & c & s & _ & Hc & _); discriminate].
    + split; [unfold children_blocks; simpl; intros H; inversion H|].
      intros (i & c' & s & _ & _ & Hs & _). discriminate.
    + rewrite children_blocks_S, elem_of_app, IH. split.
      * intros [H|(i & c' & s' & Hi & Hc & Hs & Hx)].
        -- exists O, c, s. split; [lia|]. auto.
        -- exists (S i), c', s'. split; [lia|]. auto.
      * intros (i & c' & s' & Hi & Hc & Hs & Hx). destruct i as [|i].
        -- inversion Hc; inversion Hs; subst. left. exact Hx.
        -- right. exists i, c', s'. split; [lia|]. auto.
Qed.

Lemma NoDup_children_blocks {C : Type} (blocks : C -> list Z) (n : nat)
    (tb : list C) (ps : list Z) :
  NoDup (children_blocks blocks n tb ps) ->
  (forall i c s, (i < n)%nat -> tb !! i = Some c -> ps !! i = Some s ->
                 NoDup (s :: blocks c)) /\
  (forall i j ci si cj sj x, (i < j < n)%nat ->
     tb !! i = Some ci -> ps !! i = Some si ->
     tb !! j = Some cj -> ps !! j = Some sj ->
     x ∈ si :: blocks ci -> x ∈ sj :: blocks cj -> False).
Proof.
  revert tb ps. induction n as [|n IH]; intros tb ps Hnd.
  - split; intros; lia.
  - destruct tb as [|c tb]; [split; intros; discriminate|].
    destruct ps as [|s ps]; [split; intros; discriminate|].
    rewrite children_blocks_S in Hnd. apply NoDup_app in Hnd.
    destruct Hnd as (Hhd & Hdisj & Htl).
    destruct (IH tb ps Htl) as (IH1 & IH2). split.
    + intros i c' s' Hi Hc Hs. destruct i as [|i].
      * inversion Hc; inversion Hs; subst. exact Hhd.
      * apply (IH1 i); [lia|exact Hc|exact Hs].
    + intros i j ci si cj sj x Hij Hci Hsi Hcj Hsj Hxi Hxj.
      destruct j as [|j]; [lia|]. destruct i as [|i].
      * inversion Hci; inversion Hsi; subst.
        apply (Hdisj x Hxi). apply elem_of_children_blocks.
        exists j, cj, sj. split; [lia|]. auto.
      * apply (IH2 i j ci si cj sj x); auto. lia.
Qed.

(** ** Writing a node back and fetching it again *)

Section NodeRoundTrip.

Context {C : Type}.
Variable okC : C -> Prop.
Variable blocksC : C -> list Z.
Variable newC : C.
Variable cap : nat.
Variable child_wb : C -> SynchDisk -> Z -> res SynchDisk.
Variable child_ff : SynchDisk -> Z -> res C.

Hypothesis child_RT :
  forall c d s, okC c -> NoDup (s :: blocksC c) ->
    exists d', child_wb c d s = Ok d' /\
      (forall x, x ∉ s :: blocksC c -> d' x = d x) /\
      readable child_ff (s :: blocksC c) d' s c.

Variable np : Z.
Variable ps : list Z.
Variable tb : list C.
Hypothesis Hwf : wf_node okC newC np ps tb cap.

Variable wb_body : nat -> SynchDisk -> res SynchDisk.
Hypothesis wb_body_eq :
  forall i c si d, tb !! i = Some c -> ps !! i = Some si -> 0 <= si ->
    wb_body i d = child_wb c d si.

Variable ff_body : SynchDisk -> nat -> list C -> res (list C).
Hypothesis ff_body_eq :
  forall d i tbx si, ps !! i = Some si -> 0 <= si ->
    (i < length tbx)%nat -> tbx !! i = Some newC ->
    ff_body d i tbx = (child_ff d si ≫= fun c' => Ok (<[i := c']> tbx)).

Lemma wf_node_lookup (i : nat) :
  (i < Z.to_nat np)%nat ->
  exists c si, tb !! i = Some c /\ ps !! i = Some si /\ okC c /\ 0 <= si.
Proof.
  destruct Hwf as (Hlp & Hlt & Hnp & Hpos & Hok & _). intros Hi.
  destruct (lookup_lt_is_Some_2 tb i ltac:(lia)) as [c Hc].
  destruct (lookup_lt_is_Some_2 ps i ltac:(lia)) as [si Hs].
  exists c, si. split; [exact Hc|]. split; [exact Hs|].
  rewrite Forall_lookup in Hok. rewrite Forall_lookup in Hpos. split.
  - apply (Hok i). rewrite lookup_take_lt by lia. exact Hc.
  - apply (Hpos i). rewrite lookup_take_lt by lia. exact Hs.
Qed.

Lemma wf_node_tail (i : nat) :
  (Z.to_nat np <= i)%nat -> tb !! i = replicate cap newC !! i.
Proof.
  destruct Hwf as (Hlp & Hlt & Hnp & _ & _ & Hdrop). intros Hi.
  replace i with (Z.to_nat np + (i - Z.to_nat np))%nat by lia.
  rewrite <- lookup_drop, Hdrop.
  destruct (decide (Z.to_nat np + (i - Z.to_nat np) < cap)%nat) as [Hlt'|Hge].
  - rewrite !lookup_replicate_2 by lia. reflexivity.
  - rewrite !(proj2 (lookup_ge_None _ _)); [reflexivity| |];
      rewrite length_replicate; lia.
Qed.

Lemma node_roundtrip (s : Z) (d : SynchDisk) :
  NoDup (s :: children_blocks blocksC (Z.to_nat np) tb ps) ->
  exists d', for_ np wb_body d = Ok d' /\
    (forall x, x ∉ children_blocks blocksC (Z.to_nat np) tb ps -> d' x = d x) /\
    forall d'' : SynchDisk,
      (forall x, x ∈ children_blocks blocksC (Z.to_nat np) tb ps ->
                 d'' x = d' x) ->
      for_ np (ff_body d'') (replicate cap newC) = Ok tb.
Proof.
  intros Hnd. apply NoDup_cons in Hnd. destruct Hnd as (_ & Hnd).
  destruct (NoDup_children_blocks _ _ _ _ Hnd) as (Hnd1 & Hdisj).
  pose (W := fun i : nat =>
    match tb !! i, ps !! i with
    | Some c, Some si => si :: blocksC c
    | _, _ => []
    end).
  pose (rd := fun (i : nat) (dx : SynchDisk) =>
    forall c si, tb !! i = Some c -> ps !! i = Some si ->
                 readable child_ff (si :: blocksC c) dx si c).
  assert (HW : forall i x, (i < Z.to_nat np)%nat -> x ∈ W i ->
             x ∈ children_blocks blocksC (Z.to_nat np) tb ps).
  { intros i x Hi Hx. unfold W in Hx.
    destruct (tb !! i) as [c|] eqn:Hc; [|inversion Hx].
    destruct (ps !! i) as [si|] eqn:Hs; [|inversion Hx].
    apply elem_of_children_blocks. exists i, c, si. auto. }
  destruct (write_loop (Z.to_nat np) W wb_body rd) with (d := d)
    as (d' & Hrun & Hfr & Hrd).
  - intros i dx Hi. destruct (wf_node_lookup i Hi) as (c & si & Hc & Hs & Hok & Hpos).
    destruct (child_RT c dx si Hok (Hnd1 i c si Hi Hc Hs)) as (d1 & Hw & Hf & Hr).
    exists d1. split; [rewrite (wb_body_eq i c si dx Hc Hs Hpos); exact Hw|].
    split.
    + intros x Hx. apply Hf. unfold W in Hx. rewrite Hc, Hs in Hx. exact Hx.
    + intros c' si' Hc' Hs'. rewrite Hc in Hc'. rewrite Hs in Hs'.
      inversion Hc'; inversion Hs'; subst. exact Hr.
  - intros i dx dx' Hi Hr Hag c si Hc Hs.
    apply (readable_frame _ _ dx); [apply Hr; assumption|].
    intros x Hx. apply Hag. unfold W. rewrite Hc, Hs. exact Hx.
  - intros i j x Hij Hxi Hxj. unfold W in Hxi, Hxj.
    destruct (tb !! i) as [ci|] eqn:Hci; [|inversion Hxi].
    destruct (ps !! i) as [si|] eqn:Hsi; [|inversion Hxi].
    destruct (tb !! j) as [cj|] eqn:Hcj; [|inversion Hxj].
    destruct (ps !! j) as [sj|] eqn:Hsj; [|inversion Hxj].
    apply (Hdisj i j ci si cj sj x); auto.
  - exists d'. split; [exact Hrun|]. split.
    + intros x Hx. apply Hfr. intros i Hi Hxi. apply Hx. eapply HW; eassumption.
    + intros d'' Hag.
      destruct Hwf as (Hlp & Hlt & Hnp & _ & _ & _).
      destruct (fetch_loop (Z.to_nat np) (ff_body d'')
                  (fun i => default newC (tb !! i)) (replicate cap newC))
        as (tb' & Hrun' & Hl' & Hlo & Hhi).
      * intros i tbx Hi Hl Huntouched.
        destruct (wf_node_lookup i Hi) as (c & si & Hc & Hs & Hok & Hpos).
        rewrite length_replicate in Hl.
        rewrite (ff_body_eq d'' i tbx si Hs Hpos) by
          (first [lia | rewrite Huntouched by lia;
                        apply lookup_replicate_2; lia]).
        rewrite (Hrd i Hi c si Hc Hs d'').
        -- simpl. rewrite Hc. reflexivity.
        -- intros x Hx. apply Hag. apply (HW i); [exact Hi|].
           unfold W. rewrite Hc, Hs. exact Hx.
      * rewrite length_replicate. lia.
      * unfold for_. rewrite Hrun'. f_equal. apply list_eq. intros i.
        destruct (decide (i < Z.to_nat np)%nat) as [Hi|Hi].
        -- rewrite (Hlo i Hi).
           destruct (wf_node_lookup i Hi) as (c & si & Hc & _).
           rewrite Hc. reflexivity.
        -- rewrite Hhi by lia. symmetry. apply wf_node_tail. lia.
Qed.

End NodeRoundTrip.

Lemma SingleIndirectPointer_roundtrip (p : SingleIndirectPointer)
    (d : SynchDisk) (s : Z) :
  wf_single p -> NoDup (s :: blocks_single p) ->
  exists d', SingleIndirectPointer_WriteBack p d s = Ok d' /\
    (forall x, x ∉ s :: blocks_single p -> d' x = d x) /\
    readable (SingleIndirectPointer_FetchFrom SingleIndirectPointer_new)
             (s :: blocks_single p) d' s p.
Proof.
  intros Hwf _. unfold SingleIndirectPointer_WriteBack.
  eexists. split; [reflexivity|]. split.
  - intros x Hx. apply WriteSector_other. intros ->. apply Hx. left.
  - intros d'' Hag. unfold SingleIndirectPointer_FetchFrom, ReadSector.
    rewrite (Hag s) by left. rewrite WriteSector_same.
    unfold wf_single in Hwf. rewrite <- Hwf.
    rewrite cache_slice_fill by (vm_compute; lia).
    rewrite cache_get_fill by (vm_compute; lia).
    destruct p. reflexivity.
Qed.

Lemma DoubleIndirectPointer_roundtrip (p : DoubleIndirectPointer)
    (d : SynchDisk) (s : Z) :
  wf_double p -> NoDup (s :: blocks_double p) ->
  exists d', DoubleIndirectPointer_WriteBack p d s = Ok d' /\
    (forall x, x ∉ s :: blocks_double p -> d' x = d x) /\
    readable (DoubleIndirectPointer_FetchFrom DoubleIndirectPointer_new)
             (s :: blocks_double p) d' s p.
Proof.
  intros Hwf Hnd. unfold DoubleIndirectPointer_WriteBack.
  pose (wb := fun (i : nat) (dx : SynchDisk) =>
    array_get (d_pointerSectors p) i ≫= fun s0 =>
    ASSERT (s0 >=? 0)
      (array_get (d_table p) i ≫= fun child =>
       SingleIndirectPointer_WriteBack child dx s0)).
  pose (ff := fun (dx : SynchDisk) (i : nat) (table : list SingleIndirectPointer) =>
    array_get (d_pointerSectors p) i ≫= fun s0 =>
    ASSERT (s0 >=? 0)
      (array_get table i ≫= fun child =>
       SingleIndirectPointer_FetchFrom child dx s0 ≫= fun child' =>
       Ok (<[i := child']> table))).
  assert (Hwb : forall i c si dx,
            d_table p !! i = Some c -> d_pointerSectors p !! i = Some si ->
            0 <= si -> wb i dx = SingleIndirectPointer_WriteBack c dx si).
  { intros i c si dx Hc Hs Hpos. unfold wb.
    rewrite (proj2 (array_get_Ok _ _ _) Hs). simpl.
    rewrite (proj2 (Z.geb_le _ _) Hpos). simpl.
    rewrite (proj2 (array_get_Ok _ _ _) Hc). reflexivity. }
  assert (Hfb : forall dx i tbx si,
            d_pointerSectors p !! i = Some si -> 0 <= si ->
            (i < length tbx)%nat -> tbx !! i = Some SingleIndirectPointer_new ->
            ff dx i tbx =
              (SingleIndirectPointer_FetchFrom SingleIndirectPointer_new dx si
               ≫= fun c' => Ok (<[i := c']> tbx))).
  { intros dx i tbx si Hs Hpos Hlt Hnew. unfold ff.
    rewrite (proj2 (array_get_Ok _ _ _) Hs). simpl.
    rewrite (proj2 (Z.geb_le _ _) Hpos). simpl.
    rewrite (proj2 (array_get_Ok _ _ _) Hnew). reflexivity. }
  destruct (node_roundtrip wf_single blocks_single SingleIndirectPointer_new
              (Z.to_nat NUM_INDIRECT_POINTER)
              SingleIndirectPointer_WriteBack
              (SingleIndirectPointer_FetchFrom SingleIndirectPointer_new)
              SingleIndirectPointer_roundtrip
              (d_numPointer p) (d_pointerSectors p) (d_table p) Hwf
              wb Hwb ff Hfb s d Hnd)
    as (d1 & Hrun & Hfr & Hff).
  fold wb. rewrite Hrun. eexists. split; [reflexivity|].
  apply NoDup_cons in Hnd. destruct Hnd as (Hs & _).
  destruct Hwf as (Hlp & _).
  split.
  - intros x Hx. rewrite WriteSector_other by (intros ->; apply Hx; left).
    apply Hfr. intros Hin. apply Hx. right. exact Hin.
  - intros d'' Hag. unfold DoubleIndirectPointer_FetchFrom, ReadSector.
    rewrite (Hag s) by left. rewrite WriteSector_same.
    rewrite <- Hlp.
    rewrite cache_slice_fill by (vm_compute; lia).
    rewrite cache_get_fill by (vm_compute; lia).
    change (cache_get (<[0%nat:=d_numPointer p]> cache_init) 0)
      with (d_numPointer p).
    change (d_table DoubleIndirectPointer_new)
      with (replicate (Z.to_nat NUM_INDIRECT_POINTER) SingleIndirectPointer_new).
    fold (ff d''). rewrite Hff.
    + destruct p. reflexivity.
    + intros x Hx. rewrite (Hag x) by (right; exact Hx).
      apply WriteSector_other. intros ->. apply Hs. exact Hx.
Qed.

Lemma TripleIndirectPointer_roundtrip (p : TripleIndirectPointer)
    (d : SynchDisk) (s : Z) :
  wf_triple p -> NoDup (s :: blocks_triple p) ->
  exists d', TripleIndirectPointer_WriteBack p d s = Ok d' /\
    (forall x, x ∉ s :: blocks_triple p -> d' x = d x) /\
    readable (TripleIndirectPointer_FetchFrom TripleIndirectPointer_new)
             (s :: blocks_triple p) d' s p.
Proof.
  intros Hwf Hnd. unfold TripleIndirectPointer_WriteBack.
  pose (wb := fun (i : nat) (dx : SynchDisk) =>
    array_get (t_pointerSectors p) i ≫= fun s0 =>
    ASSERT (s0 >=? 0)
      (array_get (t_table p) i ≫= fun child =>
       DoubleIndirectPointer_WriteBack child dx s0)).
  pose (ff := fun (dx : SynchDisk) (i : nat) (table : list DoubleIndirectPointer) =>
    array_get (t_pointerSectors p) i ≫= fun s0 =>
    ASSERT (s0 >=? 0)
      (array_get table i ≫= fun child =>
       DoubleIndirectPointer_FetchFrom child dx s0 ≫= fun child' =>
       Ok (<[i := child']> table))).
  assert (Hwb : forall i c si dx,
            t_table p !! i = Some c -> t_pointerSectors p !! i = Some si ->
            0 <= si -> wb i dx = DoubleIndirectPointer_WriteBack c dx si).
  { intros i c si dx Hc Hs Hpos. unfold wb.
    rewrite (proj2 (array_get_Ok _ _ _) Hs). simpl.
    rewrite (proj2 (Z.geb_le _ _) Hpos). simpl.
    rewrite (proj2 (array_get_Ok _ _ _) Hc). reflexivity. }
  assert (Hfb : forall dx i tbx si,
            t_pointerSectors p !! i = Some si -> 0 <= si ->
            (i < length tbx)%nat -> tbx !! i = Some DoubleIndirectPointer_new ->
            ff dx i tbx =
              (DoubleIndirectPointer_FetchFrom DoubleIndirectPointer_new dx si
               ≫= fun c' => Ok (<[i := c']> tbx))).
  { intros dx i tbx si Hs Hpos Hlt Hnew. unfold ff.
    rewrite (proj2 (array_get_Ok _ _ _) Hs). simpl.
    rewrite (proj2 (Z.geb_le _ _) Hpos). simpl.
    rewrite (proj2 (array_get_Ok _ _ _) Hnew). reflexivity. }
  destruct (node_roundtrip wf_double blocks_double DoubleIndirectPointer_new
              (Z.to_nat NUM_INDIRECT_POINTER)
              DoubleIndirectPointer_WriteBack
              (DoubleIndirectPointer_FetchFrom DoubleIndirectPointer_new)
              DoubleIndirectPointer_roundtrip
              (t_numPointer p) (t_pointerSectors p) (t_table p) Hwf
              wb Hwb ff Hfb s d Hnd)
    as (d1 & Hrun & Hfr & Hff).
  fold wb. rewrite Hrun. eexists. split; [reflexivity|].
  apply NoDup_cons in Hnd. destruct Hnd as (Hs & _).
  destruct Hwf as (Hlp & _).
  split.
  - intros x Hx. rewrite WriteSector_other by (intros ->; apply Hx; left).
    apply Hfr. intros Hin. apply Hx. right. exact Hin.
  - intros d'' Hag. unfold TripleIndirectPointer_FetchFrom, ReadSector.
    rewrite (Hag s) by left. rewrite WriteSector_same.
    rewrite <- Hlp.
    rewrite cache_slice_fill by (vm_compute; lia).
    rewrite cache_get_fill by (vm_compute; lia).
    change (cache_get (<[0%nat:=t_numPointer p]> cache_init) 0)
      with (t_numPointer p).
    change (t_table TripleIndirectPointer_new)
      with (replicate (Z.to_nat NUM_INDIRECT_POINTER) DoubleIndirectPointer_new).
    fold (ff d''). rewrite Hff.
    + destruct p. reflexivity.
    + intros x Hx. rewrite (Hag x) by (right; exact Hx).
      apply WriteSector_other. intros ->. apply Hs. exact Hx.
Qed.

Lemma DataPointer_roundtrip (lv : Z) (pnew p : DataPointerInterface)
    (d : SynchDisk) (s : Z) :
  GetNewPointerByLevel lv = Some pnew -> kind_of p = lv ->
  wf_ptr p -> NoDup (s :: blocks_ptr p) ->
  exists d', DataPointer_WriteBack p d s = Ok d' /\
    (forall x, x ∉ s :: blocks_ptr p -> d' x = d x) /\
    readable (DataPointer_FetchFrom pnew) (s :: blocks_ptr p) d' s p.
Proof.
  intros Hnew Hk Hwf Hnd. subst lv.
  destruct p as [q|q|q|q]; vm_compute in Hnew; inversion Hnew; subst pnew;
    clear Hnew; cbn [DataPointer_WriteBack blocks_ptr wf_ptr] in *.
  - unfold DirectPointer_WriteBack. eexists. split; [reflexivity|]. split.
    + intros x Hx. apply WriteSector_other. intros ->. apply Hx. left.
    + intros d'' Hag. cbn [DataPointer_FetchFrom].
      unfold DirectPointer_FetchFrom, ReadSector.
      rewrite (Hag s) by left. rewrite WriteSector_same.
      destruct q. reflexivity.
  - destruct (SingleIndirectPointer_roundtrip q d s Hwf Hnd) as (d' & Hw & Hf & Hr).
    exists d'. split; [exact Hw|]. split; [exact Hf|].
    intros d'' Hag. cbn [DataPointer_FetchFrom].
    change (SingleIndirectPointer_FetchFrom _ d'' s)
      with (SingleIndirectPointer_FetchFrom SingleIndirectPointer_new d'' s).
    rewrite (Hr d'' Hag). reflexivity.
  - destruct (DoubleIndirectPointer_roundtrip q d s Hwf Hnd) as (d' & Hw & Hf & Hr).
    exists d'. split; [exact Hw|]. split; [exact Hf|].
    intros d'' Hag. cbn [DataPointer_FetchFrom].
    change (DoubleIndirectPointer_FetchFrom _ d'' s)
      with (DoubleIndirectPointer_FetchFrom DoubleIndirectPointer_new d'' s).
    rewrite (Hr d'' Hag). reflexivity.
  - destruct (TripleIndirectPointer_roundtrip q d s Hwf Hnd) as (d' & Hw & Hf & Hr).
    exists d'. split; [exact Hw|]. split; [exact Hf|].
    intros d'' Hag. cbn [DataPointer_FetchFrom].
    change (TripleIndirectPointer_FetchFrom _ d'' s)
      with (TripleIndirectPointer_FetchFrom TripleIndirectPointer_new d'' s).
    rewrite (Hr d'' Hag). reflexivity.
Qed.

Lemma GetNewPointerByLevel_kind (p : DataPointerInterface) :
  exists pnew, GetNewPointerByLevel (kind_of p) = Some pnew.
Proof. destruct p; eexists; reflexivity. Qed.

Lemma FileHeader_new_fields (nb np lv : Z) (ps : list Z) :
  length (pointerSectors (FileHeader_new nb np lv ps))
    = Z.to_nat NUM_FILE_HEADER_POINTER /\
  table (FileHeader_new nb np lv ps)
    = replicate (Z.to_nat NUM_FILE_HEADER_POINTER) None.
Proof.
  split; [|reflexivity]. unfold FileHeader_new. cbn [pointerSectors].
  rewrite length_take, length_app, length_replicate. lia.
Qed.

(** A well-formed header written to a sector that is none of its pointer
    blocks is fetched back as it was, into any new header. *)
Lemma FileHeader_roundtrip (h : FileHeader) (d : SynchDisk) (sector0 : Z)
    (nb1 np1 lv1 : Z) (ps1 : list Z) :
  wf_hdr h -> NoDup (sector0 :: blocks_hdr h) ->
  exists d', FileHeader_WriteBack h d sector0 = Ok d' /\
    FileHeader_FetchFrom (FileHeader_new nb1 np1 lv1 ps1) d' sector0 = Ok h.
Proof.
  intros (Hwf & Hlv) Hnd. unfold FileHeader_WriteBack.
  pose (child_wb := fun (e : option DataPointerInterface) (dx : SynchDisk)
                        (s0 : Z) =>
    match e with
    | Some p => DataPointer_WriteBack p dx s0
    | None => Abort
    end).
  pose (child_ff := fun (dx : SynchDisk) (s0 : Z) =>
    match GetNewPointerByLevel (level h) with
    | Some pn => DataPointer_FetchFrom pn dx s0 ≫= fun p' => Ok (Some p')
    | None => Abort
    end).
  pose (wb := fun (i : nat) (dx : SynchDisk) =>
    array_get (pointerSectors h) i ≫= fun s0 =>
    ASSERT (s0 >=? 0)
      (array_get (table h) i ≫= fun entry =>
       match entry with
       | Some p => DataPointer_WriteBack p dx s0
       | None => Abort
       end)).
  pose (ff := fun (dx : SynchDisk) (i : nat)
                  (tbx : list (option DataPointerInterface)) =>
    match GetNewPointerByLevel (level h) with
    | None => Abort
    | Some p =>
        array_get (pointerSectors h) i ≫= fun s0 =>
        ASSERT (s0 >=? 0)
          (DataPointer_FetchFrom p dx s0 ≫= fun p' =>
           array_set tbx i (Some p'))
    end).
  assert (Hchild : forall c dx s0, wf_entry (level h) c ->
            NoDup (s0 :: blocks_entry c) ->
            exists d', child_wb c dx s0 = Ok d' /\
              (forall x, x ∉ s0 :: blocks_entry c -> d' x = dx x) /\
              readable child_ff (s0 :: blocks_entry c) d' s0 c).
  { intros c dx s0 (p & -> & Hp & Hk) Hn. cbn [blocks_entry] in *.
    destruct (GetNewPointerByLevel_kind p) as (pn & Hpn). rewrite Hk in Hpn.
    destruct (DataPointer_roundtrip _ pn p dx s0 Hpn Hk Hp Hn)
      as (d' & Hw & Hf & Hr).
    exists d'. split; [exact Hw|]. split; [exact Hf|].
    intros d'' Hag. unfold child_ff. rewrite Hpn, (Hr d'' Hag). reflexivity. }
  assert (Hwb : forall i c si dx,
            table h !! i = Some c -> pointerSectors h !! i = Some si ->
            0 <= si -> wb i dx = child_wb c dx si).
  { intros i c si dx Hc Hs Hpos. unfold wb.
    rewrite (proj2 (array_get_Ok _ _ _) Hs). simpl.
    rewrite (proj2 (Z.geb_le _ _) Hpos). simpl.
    rewrite (proj2 (array_get_Ok _ _ _) Hc). reflexivity. }
  assert (Hfb : forall dx i tbx si,
            pointerSectors h !! i = Some si -> 0 <= si ->
            (i < length tbx)%nat -> tbx !! i = Some None ->
            ff dx i tbx = (child_ff dx si ≫= fun c' => Ok (<[i := c']> tbx))).
  { intros dx i tbx si Hs Hpos Hlt _. unfold ff, child_ff.
    destruct (GetNewPointerByLevel (level h)) as [pn|]; [|reflexivity].
    rewrite (proj2 (array_get_Ok _ _ _) Hs). simpl.
    rewrite (proj2 (Z.geb_le _ _) Hpos). simpl.
    destruct (DataPointer_FetchFrom pn dx si) as [p'| |]; simpl;
      [|reflexivity|reflexivity].
    apply array_set_Ok. auto. }
  destruct (node_roundtrip (wf_entry (level h)) blocks_entry None
              (Z.to_nat NUM_FILE_HEADER_POINTER) child_wb child_ff Hchild
              (numPointer h) (pointerSectors h) (table h) Hwf
              wb Hwb ff Hfb sector0 d Hnd)
    as (d1 & Hrun & Hfr & Hff).
  fold wb. rewrite Hrun. eexists. split; [reflexivity|].
  apply NoDup_cons in Hnd. destruct Hnd as (Hs & _).
  destruct Hwf as (Hlp & _).
  unfold FileHeader_FetchFrom, ReadSector. rewrite WriteSector_same.
  rewrite <- Hlp.
  rewrite cache_slice_fill by (vm_compute; lia).
  rewrite !cache_get_fill by (vm_compute; lia).
  change (cache_get (<[1%nat:=numPointer h]> (<[0%nat:=numBytes h]> cache_init)) 0)
    with (numBytes h).
  change (cache_get (<[1%nat:=numPointer h]> (<[0%nat:=numBytes h]> cache_init)) 1)
    with (numPointer h).
  rewrite Hlv.
  rewrite (proj2 (FileHeader_new_fields nb1 np1 lv1 ps1)).
  fold (ff (WriteSector d1 sector0
              (cache_fill 2 (pointerSectors h)
                 (<[1%nat:=numPointer h]> (<[0%nat:=numBytes h]> cache_init))))).
  rewrite Hff.
  - destruct h. reflexivity.
  - intros x Hx. apply WriteSector_other. intros ->. apply Hs. exact Hx.
Qed.

(** The sectors that are none of the pointer blocks of a header that was
    allocated: every sector that was in use before the allocation (as the
    header sector is: [CreateFile] takes it from the bitmap first), and
    every sector that is still free after it. *)
Lemma blocks_hdr_avoided (nb0 np0 lv0 : Z) (ps0 : list Z)
    (freeMap fm' : Bitmap) (s : Z) (h : FileHeader) (sector0 : Z) :
  FileHeader_Allocate (FileHeader_new nb0 np0 lv0 ps0) freeMap s
    = Ok (true, h, fm') ->
  Test sector0 freeMap = true \/ Test sector0 fm' = false ->
  sector0 ∉ blocks_hdr h.
Proof.
  intros Hal Hsec Hin.
  destruct (FileHeader_Allocate_spec _ _ _ _ _ _ _ _ Hal)
    as (_ & _ & Hall & _).
  rewrite Forall_forall in Hall. destruct (Hall sector0 Hin) as (H0 & H1).
  destruct Hsec; congruence.
Qed.

(** C6.  For every size [s] that [FileHeader::Allocate] can allocate on a
    new header, and every sector that is none of the pointer blocks that
    the allocation gave the header, [WriteBack] to that sector succeeds,
    [FetchFrom] that sector on a new header succeeds, and [ByteToSector]
    of the fetched header agrees with [ByteToSector] of the header before
    the write-back at every offset of the file; the two headers are in
    fact equal. *)
Theorem header_roundtrip_ByteToSector
    (SIZE_IN_LEVEL : list Z)
    (nb0 np0 lv0 : Z) (ps0 : list Z) (nb1 np1 lv1 : Z) (ps1 : list Z)
    (freeMap fm' : Bitmap) (s : Z) (h : FileHeader)
    (d : SynchDisk) (sector0 : Z) :
  FileHeader_Allocate (FileHeader_new nb0 np0 lv0 ps0) freeMap s
    = Ok (true, h, fm') ->
  sector0 ∉ blocks_hdr h ->
  exists d' h',
    FileHeader_WriteBack h d sector0 = Ok d' /\
    FileHeader_FetchFrom (FileHeader_new nb1 np1 lv1 ps1) d' sector0 = Ok h' /\
    h' = h /\
    forall o, 0 <= o < s ->
      FileHeader_ByteToSector SIZE_IN_LEVEL h' o
        = FileHeader_ByteToSector SIZE_IN_LEVEL h o.
Proof.
  intros Hal Hsec.
  destruct (FileHeader_Allocate_spec _ _ _ _ _ _ _ _ Hal)
    as (Hwf & Hnd & _).
  destruct (FileHeader_roundtrip h d sector0 nb1 np1 lv1 ps1 Hwf
              (NoDup_cons_2 _ _ Hsec Hnd))
    as (d' & Hw & Hf).
  exists d', h. repeat split; auto.
Qed.

(** A file of 4000 bytes on a disk whose sector 0 is in use: the header
    goes through sector 0, which was taken before, and through sector 127,
    which the allocation has left free. *)
Lemma header_roundtrip_ByteToSector_witness :
  let h0 := FileHeader_new 0 0 0 [] in
  let freeMap := Mark 0 (Bitmap_new 128) in
  exists h fm' d' h' d2 h2,
    FileHeader_Allocate h0 freeMap 4000 = Ok (true, h, fm') /\
    (0 ∉ blocks_hdr h) /\ (127 ∉ blocks_hdr h) /\
    FileHeader_WriteBack h (synchDisk blank_store) 0 = Ok d' /\
    FileHeader_FetchFrom h0 d' 0 = Ok h' /\
    h' = h /\
    (forall o, 0 <= o < 4000 ->
       FileHeader_ByteToSector [128; 3840; 119040; 3690240] h' o
         = FileHeader_ByteToSector [128; 3840; 119040; 3690240] h o) /\
    FileHeader_WriteBack h (synchDisk blank_store) 127 = Ok d2 /\
    FileHeader_FetchFrom h0 d2 127 = Ok h2 /\
    h2 = h.
Proof.
  intros h0 freeMap.
  assert (Hal : exists h fm',
            FileHeader_Allocate h0 freeMap 4000 = Ok (true, h, fm') /\
            Test 127 fm' = false).
  { do 2 eexists. split; [vm_compute; reflexivity|].
    vm_compute. reflexivity. }
  destruct Hal as (h & fm' & Hal & Hfree).
  assert (H0 : 0 ∉ blocks_hdr h)
    by (apply (blocks_hdr_avoided _ _ _ _ _ _ _ _ _ Hal); left; reflexivity).
  assert (H127 : 127 ∉ blocks_hdr h)
    by (apply (blocks_hdr_avoided _ _ _ _ _ _ _ _ _ Hal); right; exact Hfree).
  destruct (header_roundtrip_ByteToSector [128; 3840; 119040; 3690240]
              0 0 0 [] 0 0 0 [] freeMap fm' 4000 h (synchDisk blank_store) 0
              Hal H0) as (d' & h' & Hw & Hf & He & Hb).
  destruct (header_roundtrip_ByteToSector [128; 3840; 119040; 3690240]
              0 0 0 [] 0 0 0 [] freeMap fm' 4000 h (synchDisk blank_store) 127
              Hal H127) as (d2 & h2 & Hw2 & Hf2 & He2 & _).
  exists h, fm', d', h', d2, h2. repeat split; assumption.
Defined.

(** C6, as the claim has it for any sector, fails.  On an all-clear bitmap
    [Allocate] of 300 bytes takes sector 0 for the first pointer block; a
    header written back to sector 0 overwrites that block, and the header
    fetched from there maps offset 0 to "sector" 300, the file length,
    where the header before the write-back maps it to sector 3. *)
Lemma header_roundtrip_fails_on_own_block :
  exists h fm' d' h',
    FileHeader_Allocate (FileHeader_new 0 0 0 []) (Bitmap_new 128) 300
      = Ok (true, h, fm') /\
    (0 ∈ blocks_hdr h) /\
    FileHeader_WriteBack h (synchDisk blank_store) 0 = Ok d' /\
    FileHeader_FetchFrom (FileHeader_new 0 0 0 []) d' 0 = Ok h' /\
    FileHeader_ByteToSector [128; 3840; 119040; 3690240] h 0 = Ok 3 /\
    FileHeader_ByteToSector [128; 3840; 119040; 3690240] h' 0 = Ok 300 /\
    FileHeader_ByteToSector [128; 3840; 119040; 3690240] h' 0
      <> FileHeader_ByteToSector [128; 3840; 119040; 3690240] h 0.
Proof.
  assert (H : exists h fm' d' h',
            FileHeader_Allocate (FileHeader_new 0 0 0 []) (Bitmap_new 128) 300
              = Ok (true, h, fm') /\
            blocks_hdr h = [0; 1; 2] /\
            FileHeader_WriteBack h (synchDisk blank_store) 0 = Ok d' /\
            FileHeader_FetchFrom (FileHeader_new 0 0 0 []) d' 0 = Ok h' /\
            FileHeader_ByteToSector [128; 3840; 119040; 3690240] h 0 = Ok 3 /\
            FileHeader_ByteToSector [128; 3840; 119040; 3690240] h' 0
              = Ok 300).
  { do 4 eexists.
    split; [vm_compute; reflexivity|].
    split; [vm_compute; reflexivity|].
    split; [vm_compute; reflexivity|].
    split; [vm_compute; reflexivity|].
    split; [vm_compute; reflexivity|].
    vm_compute. reflexivity. }
  destruct H as (h & fm' & d' & h' & Hal & Hb & Hw & Hf & H3 & H300).
  exists h, fm', d', h'.
  split; [exact Hal|]. split; [rewrite Hb; left|].
  split; [exact Hw|]. split; [exact Hf|]. split; [exact H3|].
  split; [exact H300|]. rewrite H3, H300. discriminate.
Qed.

(** ** Lookups after Add and Remove *)

Lemma strncmp_is0_key (a : list ascii) (nm nm' : string) (n : nat) :
  c_prefix_str n nm = c_prefix_str n nm' ->
  strncmp_is0 a nm n = strncmp_is0 a nm' n.
Proof.
  intros H. apply eq_true_iff_eq. rewrite !strncmp_is0_prefix, H. tauto.
Qed.

Lemma FindIndex_from_key (t : list DirectoryEntry) (nm nm' : string) (i : Z) :
  c_prefix_str FileNameMaxLen nm = c_prefix_str FileNameMaxLen nm' ->
  FindIndex_from i t nm = FindIndex_from i t nm'.
Proof.
  intros H. revert i. induction t as [|e t IH]; intros i; cbn [FindIndex_from].
  - reflexivity.
  - rewrite (strncmp_is0_key (name e) nm nm' _ H), IH. reflexivity.
Qed.

Lemma FindIndex_from_all_false (t : list DirectoryEntry) (nm : string) (i : Z) :
  Forall (fun e => inUse e = true ->
                   strncmp_is0 (name e) nm FileNameMaxLen = false) t ->
  FindIndex_from i t nm = -1.
Proof.
  intros H. revert i. induction H as [|e t He _ IH]; intros i;
    cbn [FindIndex_from].
  - reflexivity.
  - destruct (inUse e) eqn:Eu; cbn [andb]; [rewrite (He eq_refl)|]; apply IH.
Qed.

(** Putting an entry that matches [nm] in a free slot of a table that holds
    no match makes it the entry that [FindIndex] returns. *)
Lemma FindIndex_from_insert_found (t : list DirectoryEntry) (nm : string)
    (i : Z) (k : nat) (e e' : DirectoryEntry) :
  FindIndex_from i t nm = -1 -> 0 <= i ->
  t !! k = Some e ->
  inUse e' = true -> strncmp_is0 (name e') nm FileNameMaxLen = true ->
  FindIndex_from i (<[k := e']> t) nm = i + Z.of_nat k.
Proof.
  revert i k. induction t as [|x t IH]; intros i k Hnone Hi Hk Hu Hm.
  - discriminate.
  - cbn [FindIndex_from] in Hnone.
    destruct (inUse x && strncmp_is0 (name x) nm FileNameMaxLen) eqn:Ex;
      [lia|].
    destruct k as [|k]; cbn [list_insert FindIndex_from].
    + change (<[0%nat:=e']> (x :: t)) with (e' :: t). cbn [FindIndex_from].
      rewrite Hu, Hm. simpl. lia.
    + change (<[S k:=e']> (x :: t)) with (x :: <[k:=e']> t).
      cbn [FindIndex_from]. rewrite Ex.
      rewrite (IH (i + 1) k Hnone ltac:(lia) Hk Hu Hm). lia.
Qed.

(** Replacing an entry that does not answer to [nm] by another one that
    does not answer to it either changes no lookup of [nm]. *)
Lemma FindIndex_from_insert_other (t : list DirectoryEntry) (nm : string)
    (i : Z) (k : nat) (e e' : DirectoryEntry) :
  t !! k = Some e ->
  inUse e && strncmp_is0 (name e) nm FileNameMaxLen = false ->
  inUse e' && strncmp_is0 (name e') nm FileNameMaxLen = false ->
  FindIndex_from i (<[k := e']> t) nm = FindIndex_from i t nm.
Proof.
  revert i k. induction t as [|x t IH]; intros i k Hk He He'.
  - discriminate.
  - destruct k as [|k].
    + inversion Hk; subst x.
      change (<[0%nat:=e']> (e :: t)) with (e' :: t). cbn [FindIndex_from].
      rewrite He, He'. reflexivity.
    + change (<[S k:=e']> (x :: t)) with (x :: <[k:=e']> t).
      cbn [FindIndex_from]. rewrite (IH (i + 1) k Hk He He'). reflexivity.
Qed.

Lemma Add_loop_None (t : list DirectoryEntry) (nm : string) (s ty : Z) :
  Add_loop t nm s ty = None <-> Forall (fun e => inUse e = true) t.
Proof.
  induction t as [|e t IH]; cbn [Add_loop].
  - split; [constructor|reflexivity].
  - destruct (inUse e) eqn:Eu; cbn [negb].
    + destruct (Add_loop t nm s ty); split; intros H.
      * discriminate.
      * apply Forall_cons in H. destruct H as [_ H]. apply IH in H. discriminate.
      * constructor; [exact Eu|]. apply IH. reflexivity.
      * reflexivity.
    + split; [discriminate|]. intros H. apply Forall_cons in H.
      destruct H as [H _]. congruence.
Qed.

(** What a successful [Add] does to the table, in terms of the entry that
    it fills. *)
Lemma Directory_Add_inv (d d' : Directory) (nm : string) (s ty : Z) :
  Directory_Add d nm s ty = (true, d') ->
  FindIndex_from 0 d nm = -1 /\
  exists k e,
    d !! k = Some e /\ inUse e = false /\
    d' = <[k := {| inUse := true; fileType := ty; sector := s;
                   name := strncpy (name e) nm FileNameMaxLen |}]> d.
Proof.
  unfold Directory_Add, Directory_FindIndex.
  destruct (FindIndex_from 0 d nm =? -1) eqn:Ef; simpl; [|discriminate].
  apply Z.eqb_eq in Ef.
  destruct (Add_loop d nm s ty) as [t|] eqn:Ea; [|discriminate].
  intros H. inversion H; subst t; clear H.
  split; [exact Ef|]. eapply Add_loop_inv. exact Ea.
Qed.

Lemma strncmp_is0_strncpy (dst : list ascii) (nm : string) :
  (FileNameMaxLen <= length dst)%nat ->
  strncmp_is0 (strncpy dst nm FileNameMaxLen) nm FileNameMaxLen = true.
Proof.
  intros H. apply strncmp_is0_prefix. apply c_prefix_strncpy. exact H.
Qed.

Lemma Directory_Add_FindIndex (d d' : Directory) (nm : string) (s ty : Z) :
  names_sized d ->
  Directory_Add d nm s ty = (true, d') ->
  exists k e,
    d !! k = Some e /\
    Directory_FindIndex d' nm = Z.of_nat k /\
    d' !! k = Some {| inUse := true; fileType := ty; sector := s;
                      name := strncpy (name e) nm FileNameMaxLen |}.
Proof.
  intros Hsz H. destruct (Directory_Add_inv _ _ _ _ _ H)
    as (Hnone & k & e & Hk & Hfree & ->).
  exists k, e. split; [exact Hk|].
  assert (Hlen : length (name e) = S FileNameMaxLen).
  { unfold names_sized in Hsz. rewrite Forall_lookup in Hsz. eapply Hsz; eauto. }
  split.
  - unfold Directory_FindIndex.
    rewrite (FindIndex_from_insert_found d nm 0 k e _ Hnone ltac:(lia) Hk);
      [lia|reflexivity|].
    cbn [name]. apply strncmp_is0_strncpy. rewrite Hlen. lia.
  - apply list_lookup_insert_eq. eapply lookup_lt_Some. exact Hk.
Qed.

(** A lookup that succeeds before a successful [Add] gives the same index
    after it, and so does every lookup of a name that differs from the added
    one within its first [FileNameMaxLen] characters. *)
Lemma Directory_Add_FindIndex_other (d d' : Directory) (nm nm2 : string)
    (s ty : Z) :
  names_sized d ->
  Directory_Add d nm s ty = (true, d') ->
  Directory_FindIndex d nm2 <> -1 \/
    c_prefix_str FileNameMaxLen nm2 <> c_prefix_str FileNameMaxLen nm ->
  Directory_FindIndex d' nm2 = Directory_FindIndex d nm2.
Proof.
  intros Hsz H Hor. destruct (Directory_Add_inv _ _ _ _ _ H)
    as (Hnone & k & e & Hk & Hfree & ->).
  assert (Hlen : length (name e) = S FileNameMaxLen).
  { unfold names_sized in Hsz. rewrite Forall_lookup in Hsz. eapply Hsz; eauto. }
  assert (Hkey : c_prefix_str FileNameMaxLen nm2 <> c_prefix_str FileNameMaxLen nm).
  { destruct Hor as [Hf|Hk2]; [|exact Hk2]. intros Heq. apply Hf.
    unfold Directory_FindIndex. rewrite (FindIndex_from_key d nm2 nm 0 Heq).
    exact Hnone. }
  unfold Directory_FindIndex. eapply FindIndex_from_insert_other.
  - exact Hk.
  - rewrite Hfree. reflexivity.
  - cbn [inUse name andb].
    destruct (strncmp_is0 _ nm2 FileNameMaxLen) eqn:E; [|reflexivity].
    exfalso. apply Hkey. apply strncmp_is0_prefix in E. rewrite <- E.
    apply c_prefix_strncpy. rewrite Hlen. lia.
Qed.

Lemma Directory_Find_of_FindIndex (d : Directory) (nm : string) (k : nat)
    (e : DirectoryEntry) :
  Directory_FindIndex d nm = Z.of_nat k -> d !! k = Some e ->
  Directory_Find d nm = sector e /\
  Directory_IsDirectory d nm = (fileType e =? DIR_TYPE).
Proof.
  intros Hi Hk. unfold Directory_Find, Directory_IsDirectory, entry_at.
  rewrite Hi. destruct (Z.eqb_spec (Z.of_nat k) (-1)) as [Hn|_]; [lia|].
  cbn [negb]. destruct (Z.ltb_spec (Z.of_nat k) 0) as [Hn|_]; [lia|].
  rewrite Nat2Z.id, Hk. auto.
Qed.

Lemma names_sized_sample : names_sized sample_storage.
Proof.
  unfold names_sized, sample_storage. apply List.Forall_forall.
  intros e He. apply repeat_spec in He. subst e. reflexivity.
Qed.

(** X1.  Insert then lookup: after [Directory::Add] has returned
    TRUE for a name, [Find] of that name returns the sector that was
    added, [IsDirectory] answers by the type that was added, a second
    [Add] of the name fails, and the table has kept its size. *)
Theorem Directory_Add_then_Find (d d' : Directory) (nm : string) (s ty : Z) :
  names_sized d ->
  Directory_Add d nm s ty = (true, d') ->
  Directory_Find d' nm = s /\
  Directory_IsDirectory d' nm = (ty =? DIR_TYPE) /\
  fst (Directory_Add d' nm s ty) = false /\
  length d' = length d.
Proof.
  intros Hsz H.
  destruct (Directory_Add_FindIndex _ _ _ _ _ Hsz H) as (k & e & Hk & Hi & Hk').
  destruct (Directory_Find_of_FindIndex _ _ _ _ Hi Hk') as (Hf & Hd).
  split; [exact Hf|]. split; [exact Hd|]. split.
  - unfold Directory_Add. rewrite Hi.
    destruct (Z.eqb_spec (Z.of_nat k) (-1)) as [Hn|_]; [lia|]. reflexivity.
  - destruct (Directory_Add_inv _ _ _ _ _ H) as (_ & k0 & e0 & _ & _ & ->).
    apply length_insert.
Qed.

Lemma Directory_Add_then_Find_witness :
  exists d',
    names_sized (Directory_new sample_storage) /\
    Directory_Add (Directory_new sample_storage) "notes" 7 FILE_TYPE = (true, d') /\
    Directory_Find d' "notes" = 7 /\
    Directory_IsDirectory d' "notes" = (FILE_TYPE =? DIR_TYPE) /\
    fst (Directory_Add d' "notes" 7 FILE_TYPE) = false /\
    length d' = length (Directory_new sample_storage).
Proof.
  assert (Hsz : names_sized (Directory_new sample_storage)).
  { apply names_sized_new, names_sized_sample. }
  assert (Ha : exists d', Directory_Add (Directory_new sample_storage) "notes" 7
                            FILE_TYPE = (true, d')).
  { eexists. vm_compute. reflexivity. }
  destruct Ha as (d' & Ha). exists d'.
  split; [exact Hsz|]. split; [exact Ha|].
  exact (Directory_Add_then_Find _ d' "notes" 7 FILE_TYPE Hsz Ha).
Defined.

(** X2.  The directory tells names apart by their first
    [FileNameMaxLen] characters only ([strncmp] with that bound): two
    names that agree on them get the same answer from [Find] and
    [IsDirectory], and once one has been added, adding the other fails and
    leaves the table as it is. *)
Theorem Directory_names_compared_on_first_nine (d d' : Directory)
    (nm nm' : string) (s ty s' ty' : Z) :
  c_prefix_str FileNameMaxLen nm = c_prefix_str FileNameMaxLen nm' ->
  Directory_Find d nm = Directory_Find d nm' /\
  Directory_IsDirectory d nm = Directory_IsDirectory d nm' /\
  (names_sized d -> Directory_Add d nm s ty = (true, d') ->
   Directory_Add d' nm' s' ty' = (false, d')).
Proof.
  intros Hkey.
  assert (Hi : forall t, Directory_FindIndex t nm = Directory_FindIndex t nm')
    by (intros t; apply FindIndex_from_key, Hkey).
  unfold Directory_Find, Directory_IsDirectory. rewrite (Hi d).
  split; [reflexivity|]. split; [reflexivity|].
  intros Hsz H.
  destruct (Directory_Add_FindIndex _ _ _ _ _ Hsz H) as (k & e & _ & Hk & _).
  unfold Directory_Add. rewrite <- (Hi d'), Hk.
  destruct (Z.eqb_spec (Z.of_nat k) (-1)) as [Hn|_]; [lia|]. reflexivity.
Qed.

Lemma Directory_names_compared_on_first_nine_witness :
  exists d',
    Directory_Add (Directory_new sample_storage) "chapter01a" 7 FILE_TYPE
      = (true, d') /\
    Directory_Find d' "chapter01a" = Directory_Find d' "chapter01b" /\
    Directory_Add d' "chapter01b" 8 FILE_TYPE = (false, d').
Proof.
  assert (Hkey : c_prefix_str FileNameMaxLen "chapter01a"
                 = c_prefix_str FileNameMaxLen "chapter01b") by reflexivity.
  assert (Hsz : names_sized (Directory_new sample_storage))
    by apply names_sized_new, names_sized_sample.
  assert (Ha : exists d', Directory_Add (Directory_new sample_storage)
                            "chapter01a" 7 FILE_TYPE = (true, d')).
  { eexists. vm_compute. reflexivity. }
  destruct Ha as (d' & Ha). exists d'. split; [exact Ha|].
  destruct (Directory_names_compared_on_first_nine
              (Directory_new sample_storage) d' "chapter01a" "chapter01b"
              7 FILE_TYPE 8 FILE_TYPE Hkey) as (_ & _ & Hadd).
  destruct (Directory_names_compared_on_first_nine
              d' d' "chapter01a" "chapter01b"
              7 FILE_TYPE 8 FILE_TYPE Hkey) as (Hf & _ & _).
  split; [exact Hf|]. exact (Hadd Hsz Ha).
Defined.

(** Clearing an entry that does not answer to [nm] changes no lookup of
    [nm]. *)
Lemma FindIndex_from_alter_other (t : list DirectoryEntry) (nm : string)
    (i : Z) (k : nat) :
  (forall e, t !! k = Some e ->
             inUse e && strncmp_is0 (name e) nm FileNameMaxLen = false) ->
  FindIndex_from i (alter clear_inUse k t) nm = FindIndex_from i t nm.
Proof.
  revert i k. induction t as [|x t IH]; intros i k Hk.
  - reflexivity.
  - destruct k as [|k].
    + change (alter clear_inUse 0%nat (x :: t)) with (clear_inUse x :: t).
      cbn [FindIndex_from]. rewrite (Hk x eq_refl). reflexivity.
    + change (alter clear_inUse (S k) (x :: t))
        with (x :: alter clear_inUse k t).
      cbn [FindIndex_from]. rewrite (IH (i + 1) k); [reflexivity|].
      intros e He. apply Hk. exact He.
Qed.

Lemma Directory_Remove_inv (d d' : Directory) (nm : string) :
  Directory_Remove d nm = (true, d') ->
  exists k e,
    Directory_FindIndex d nm = Z.of_nat k /\ d !! k = Some e /\
    inUse e = true /\ strncmp_is0 (name e) nm FileNameMaxLen = true /\
    d' = alter clear_inUse k d.
Proof.
  unfold Directory_Remove.
  destruct (Z.eqb_spec (Directory_FindIndex d nm) (-1)) as [|Hne];
    [discriminate|].
  intros H. inversion H; subst d'; clear H.
  destruct (FindIndex_from_found d nm 0 _ ltac:(lia) eq_refl Hne)
    as (Hle & e & He & Hu & Hm).
  fold (Directory_FindIndex d nm) in *. rewrite Z.sub_0_r in He.
  exists (Z.to_nat (Directory_FindIndex d nm)), e.
  split; [lia|]. auto.
Qed.

Lemma Directory_Remove_FindIndex (d d' : Directory) (nm : string) :
  names_unique d ->
  Directory_Remove d nm = (true, d') ->
  Directory_FindIndex d' nm = -1.
Proof.
  intros Hun H.
  destruct (Directory_Remove_inv _ _ _ H) as (k & e & _ & Hk & Hu & Hm & ->).
  apply FindIndex_from_all_false. apply Forall_lookup. intros j x Hj Hux.
  destruct (decide (j = k)) as [->|Hne].
  - rewrite list_lookup_alter_eq, Hk in Hj. inversion Hj; subst x.
    discriminate.
  - rewrite list_lookup_alter_ne in Hj by congruence.
    destruct (strncmp_is0 (name x) nm FileNameMaxLen) eqn:E; [|reflexivity].
    exfalso. apply Hne. apply (Hun j k x e Hj Hk Hux Hu).
    unfold key_of. apply strncmp_is0_prefix in E, Hm. congruence.
Qed.

Lemma Directory_Remove_FindIndex_other (d d' : Directory) (nm nm2 : string) :
  Directory_Remove d nm = (true, d') ->
  c_prefix_str FileNameMaxLen nm2 <> c_prefix_str FileNameMaxLen nm ->
  Directory_FindIndex d' nm2 = Directory_FindIndex d nm2.
Proof.
  intros H Hkey.
  destruct (Directory_Remove_inv _ _ _ H) as (k & e & _ & Hk & Hu & Hm & ->).
  apply FindIndex_from_alter_other. intros x Hx.
  rewrite Hk in Hx. inversion Hx; subst x.
  destruct (strncmp_is0 (name e) nm2 FileNameMaxLen) eqn:E;
    [|apply andb_false_r].
  exfalso. apply Hkey. apply strncmp_is0_prefix in E, Hm. congruence.
Qed.

Lemma Directory_Find_of_FindIndex_eq (d d' : Directory) (nm : string) :
  Directory_FindIndex d' nm = Directory_FindIndex d nm ->
  (forall k, Directory_FindIndex d nm = Z.of_nat k -> d' !! k = d !! k) ->
  Directory_Find d' nm = Directory_Find d nm /\
  Directory_IsDirectory d' nm = Directory_IsDirectory d nm.
Proof.
  intros Hi Hk. unfold Directory_Find, Directory_IsDirectory, entry_at.
  rewrite Hi. destruct (Z.eqb_spec (Directory_FindIndex d nm) (-1)) as [|Hne];
    [auto|]. cbn [negb].
  destruct (Z.ltb_spec (Directory_FindIndex d nm) 0) as [|Hge]; [auto|].
  rewrite (Hk (Z.to_nat (Directory_FindIndex d nm))) by lia. auto.
Qed.

(** X3.  Delete then lookup: in a directory whose names in use are
    distinct, after [Directory::Remove] has returned TRUE for a name,
    [Find] of that name returns -1 and a further [Remove] fails, while
    every name that differs from it within the first [FileNameMaxLen]
    characters is found as before. *)
Theorem Directory_Remove_then_Find (d d' : Directory) (nm : string) :
  names_unique d ->
  Directory_Remove d nm = (true, d') ->
  Directory_Find d' nm = -1 /\
  Directory_Remove d' nm = (false, d') /\
  forall nm2,
    c_prefix_str FileNameMaxLen nm2 <> c_prefix_str FileNameMaxLen nm ->
    Directory_Find d' nm2 = Directory_Find d nm2 /\
    Directory_IsDirectory d' nm2 = Directory_IsDirectory d nm2.
Proof.
  intros Hun H. pose proof (Directory_Remove_FindIndex _ _ _ Hun H) as Hi.
  split; [unfold Directory_Find; rewrite Hi; reflexivity|].
  split; [unfold Directory_Remove; rewrite Hi; reflexivity|].
  intros nm2 Hkey.
  pose proof (Directory_Remove_FindIndex_other _ _ _ _ H Hkey) as Hi2.
  apply Directory_Find_of_FindIndex_eq; [exact Hi2|].
  intros k Hk.
  destruct (Directory_Remove_inv _ _ _ H) as (k0 & e & _ & Hk0 & Hu & Hm & ->).
  destruct (decide (k = k0)) as [->|Hne];
    [|apply list_lookup_alter_ne; congruence].
  exfalso. unfold Directory_FindIndex in Hk.
  destruct (FindIndex_from_found d nm2 0 _ ltac:(lia) Hk ltac:(lia))
    as (_ & e2 & He2 & _ & Hm2).
  rewrite Z.sub_0_r, Nat2Z.id, Hk0 in He2. inversion He2; subst e2.
  apply Hkey. apply strncmp_is0_prefix in Hm, Hm2. congruence.
Qed.

Lemma names_unique_dir_with_notes :
  names_sized dir_with_notes /\ names_unique dir_with_notes.
Proof.
  apply (Directory_Add_unique (Directory_new sample_storage) _ "notes" 7
           FILE_TYPE).
  - apply names_sized_new, names_sized_sample.
  - apply names_unique_new.
  - reflexivity.
Qed.

Lemma Directory_Remove_then_Find_witness :
  exists d',
    names_unique dir_with_notes /\
    Directory_Remove dir_with_notes "notes" = (true, d') /\
    Directory_Find d' "notes" = -1 /\
    Directory_Remove d' "notes" = (false, d') /\
    forall nm2,
      c_prefix_str FileNameMaxLen nm2 <> c_prefix_str FileNameMaxLen "notes" ->
      Directory_Find d' nm2 = Directory_Find dir_with_notes nm2 /\
      Directory_IsDirectory d' nm2 = Directory_IsDirectory dir_with_notes nm2.
Proof.
  assert (Hr : exists d', Directory_Remove dir_with_notes "notes" = (true, d')).
  { eexists. vm_compute. reflexivity. }
  destruct Hr as (d' & Hr). exists d'.
  split; [exact (proj2 names_unique_dir_with_notes)|]. split; [exact Hr|].
  exact (Directory_Remove_then_Find dir_with_notes d' "notes"
           (proj2 names_unique_dir_with_notes) Hr).
Defined.

(** X4.  [Directory::Add] returns TRUE exactly when the name is
    not in the directory and some entry is free; when it returns FALSE the
    table is as it was. *)
Theorem Directory_Add_succeeds_iff (d : Directory) (nm : string) (s ty : Z) :
  (fst (Directory_Add d nm s ty) = true <->
   Directory_FindIndex d nm = -1 /\ Exists (fun e => inUse e = false) d) /\
  (fst (Directory_Add d nm s ty) = false ->
   snd (Directory_Add d nm s ty) = d).
Proof.
  unfold Directory_Add.
  destruct (Z.eqb_spec (Directory_FindIndex d nm) (-1)) as [Hi|Hi]; cbn [negb].
  - destruct (Add_loop d nm s ty) as [t|] eqn:Ea; cbn [fst snd].
    + split; [|discriminate]. split; [|reflexivity]. intros _.
      split; [exact Hi|].
      destruct (Add_loop_inv _ _ _ _ _ Ea) as (k & e & Hk & Hfree & _).
      apply Exists_exists. exists e. split; [|exact Hfree].
      eapply list_elem_of_lookup_2. exact Hk.
    + split; [|reflexivity]. split; [discriminate|]. intros (_ & Hex).
      apply Add_loop_None in Ea. apply Exists_exists in Hex.
      destruct Hex as (e & He & Hfree). rewrite Forall_forall in Ea.
      rewrite (Ea e He) in Hfree. discriminate.
  - cbn [fst snd]. split; [|reflexivity].
    split; [discriminate|]. intros (H & _). contradiction.
Qed.

(** ** Listing *)

Lemma length_List_from (t : list DirectoryEntry) (i j : Z) :
  length (List_from i t) = length (List_from j t).
Proof.
  revert i j. induction t as [|e t IH]; intros i j; cbn [List_from].
  - reflexivity.
  - destruct (inUse e); cbn [length]; rewrite (IH (i + 1) (j + 1)); reflexivity.
Qed.

Lemma length_List_from_insert (t : list DirectoryEntry) (i : Z) (k : nat)
    (e e' : DirectoryEntry) :
  t !! k = Some e ->
  Z.of_nat (length (List_from i (<[k := e']> t)))
    = Z.of_nat (length (List_from i t))
      + (if inUse e' then 1 else 0) - (if inUse e then 1 else 0).
Proof.
  revert i k. induction t as [|x t IH]; intros i k Hk.
  - discriminate.
  - destruct k as [|k].
    + inversion Hk; subst x.
      change (<[0%nat:=e']> (e :: t)) with (e' :: t). cbn [List_from].
      destruct (inUse e), (inUse e'); cbn [length]; lia.
    + change (<[S k:=e']> (x :: t)) with (x :: <[k:=e']> t).
      cbn [List_from]. specialize (IH (i + 1) k Hk).
      destruct (inUse x); cbn [length]; lia.
Qed.

(** X5.  [Directory::List] prints one line per entry in use:
    after any sequence of successful [Add] and [Remove], the number of
    lines is the number before it plus the entries added less the entries
    removed, and it never exceeds the size of the table. *)
Theorem run_ops_List_count (ops : list dir_op) (d d' : Directory) :
  run_ops ops d = Some d' ->
  Z.of_nat (length (Directory_List d'))
    = Z.of_nat (length (Directory_List d)) + net_adds ops /\
  (length (Directory_List d') <= length d)%nat.
Proof.
  intros H.
  assert (Hbound : forall t i, (length (List_from i t) <= length t)%nat).
  { induction t as [|e t IH]; intros i; cbn [List_from length]; [lia|].
    specialize (IH (i + 1)). destruct (inUse e); cbn [length]; lia. }
  cut (Z.of_nat (length (Directory_List d'))
         = Z.of_nat (length (Directory_List d)) + net_adds ops /\
       length d' = length d).
  { intros [A B]. split; [exact A|]. rewrite <- B. apply Hbound. }
  revert d H. induction ops as [|op ops IH]; intros d H;
    cbn [run_ops net_adds] in *.
  - inversion H; subst. split; [lia|reflexivity].
  - destruct op as [nm s ty|nm].
    + destruct (Directory_Add d nm s ty) as [ok d1] eqn:E.
      destruct ok; [|discriminate].
      destruct (Directory_Add_inv _ _ _ _ _ E) as (_ & k & e & Hk & Hfree & Hd1).
      destruct (IH d1 H) as (Hc & Hl). subst d1.
      unfold Directory_List in *.
      rewrite (length_List_from_insert d 0 k e _ Hk) in Hc.
      rewrite Hfree in Hc. cbn [inUse] in Hc. rewrite length_insert in Hl.
      split; [lia|exact Hl].
    + destruct (Directory_Remove d nm) as [ok d1] eqn:E.
      destruct ok; [|discriminate].
      destruct (Directory_Remove_inv _ _ _ E) as (k & e & _ & Hk & Hu & _ & Hd1).
      assert (Hd1' : d1 = <[k := clear_inUse e]> d).
      { subst d1. apply list_eq. intros j.
        destruct (decide (j = k)) as [->|Hne].
        - rewrite list_lookup_alter_eq, Hk.
          rewrite list_lookup_insert_eq by (eapply lookup_lt_Some; eauto).
          reflexivity.
        - rewrite list_lookup_alter_ne, list_lookup_insert_ne by congruence.
          reflexivity. }
      clear Hd1.
      destruct (IH d1 H) as (Hc & Hl). subst d1.
      unfold Directory_List in *.
      rewrite (length_List_from_insert d 0 k e _ Hk) in Hc.
      rewrite Hu in Hc. cbn [inUse clear_inUse] in Hc.
      rewrite length_insert in Hl.
      split; [lia|exact Hl].
Qed.

Lemma run_ops_List_count_witness :
  exists d',
    run_ops [OpAdd "a" 5 FILE_TYPE; OpAdd "b" 6 DIR_TYPE; OpRemove "a"]
      (Directory_new sample_storage) = Some d' /\
    Z.of_nat (length (Directory_List d'))
      = Z.of_nat (length (Directory_List (Directory_new sample_storage))) + 1 /\
    (length (Directory_List d') <= length (Directory_new sample_storage))%nat.
Proof.
  assert (Hr : exists d',
            run_ops [OpAdd "a" 5 FILE_TYPE; OpAdd "b" 6 DIR_TYPE; OpRemove "a"]
              (Directory_new sample_storage) = Some d').
  { eexists. vm_compute. reflexivity. }
  destruct Hr as (d' & Hr). exists d'.
  split; [exact Hr|].
  exact (run_ops_List_count _ _ d' Hr).
Defined.
(** ** Splitting a path *)

Lemma list_ascii_of_string_app (a b : string) :
  list_ascii_of_string (String.append a b)
    = (list_ascii_of_string a ++ list_ascii_of_string b)%list.
Proof.
  induction a as [|c a IH]; [reflexivity|]. simpl. rewrite IH. reflexivity.
Qed.

Lemma strtok_loop_components (s tok : string) :
  ~ In "/"%char (list_ascii_of_string tok) ->
  Forall is_component (strtok_loop s tok).
Proof.
  revert tok. induction s as [|c s IH]; intros tok Htok; cbn [strtok_loop].
  - destruct (String.eqb_spec tok "") as [|Hne]; [constructor|].
    constructor; [split; assumption|constructor].
  - destruct (Ascii.eqb_spec c "/"%char) as [->|Hc].
    + destruct (String.eqb_spec tok "") as [|Hne].
      * apply IH. simpl. tauto.
      * constructor; [split; assumption|]. apply IH. simpl. tauto.
    + apply IH. rewrite list_ascii_of_string_app. simpl.
      rewrite in_app_iff. simpl. intros [H|[H|[]]]; [tauto|congruence].
Qed.

Lemma strtok_loop_trailing_slash (s tok : string) :
  strtok_loop (String.append s "/") tok = strtok_loop s tok.
Proof.
  revert tok. induction s as [|c s IH]; intros tok.
  - change (String.append "" "/") with "/"%string. cbn [strtok_loop].
    change (Ascii.eqb "/" "/") with true. cbv iota.
    destruct (String.eqb tok ""); reflexivity.
  - change (String.append (String c s) "/")
      with (String c (String.append s "/")). cbn [strtok_loop].
    destruct (Ascii.eqb c "/"%char); [destruct (String.eqb tok "")|];
      rewrite IH; reflexivity.
Qed.

Lemma strtok_loop_double_slash (a b tok : string) :
  strtok_loop (String.append a (String "/" (String "/" b))) tok
    = strtok_loop (String.append a (String "/" b)) tok.
Proof.
  revert tok. induction a as [|c a IH]; intros tok.
  - change (String.append "" ?x) with x. cbn [strtok_loop].
    change (Ascii.eqb "/" "/") with true. cbv iota.
    change (String.eqb "" "") with true.
    destruct (String.eqb tok ""); reflexivity.
  - change (String.append (String c a) ?x) with (String c (String.append a x)).
    cbn [strtok_loop].
    destruct (Ascii.eqb c "/"%char); [destruct (String.eqb tok "")|];
      rewrite IH; reflexivity.
Qed.

(** X8.  The components that path resolution walks are never
    empty and never hold a ['/'], whatever the path; a trailing ['/'] and
    a repeated ['/'] change none of them, so that the resolution of an
    absolute path, and with it [Create], [Open], [OpenAFile] and [Remove],
    answers the same with or without a trailing ['/']. *)
Theorem path_components (header_storage : list Z)
    (entry_storage : list DirectoryEntry) (fuel : nat)
    (this : FileSystem) (st : Store) (path : string) (size : Z) :
  Forall is_component (strtok_loop path "") /\
  (forall a b, strtok_loop (String.append a (String "/" (String "/" b))) ""
               = strtok_loop (String.append a (String "/" b)) "") /\
  (first_char path = "/"%char ->
   ChangeCurrentDirectoryByWholePath this st (String.append path "/")
     = ChangeCurrentDirectoryByWholePath this st path /\
   Create header_storage this st (String.append path "/") size
     = Create header_storage this st path size /\
   Open this st (String.append path "/") = Open this st path /\
   OpenAFile this st (String.append path "/") = OpenAFile this st path /\
   Remove entry_storage header_storage fuel this st (String.append path "/")
     = Remove entry_storage header_storage fuel this st path).
Proof.
  split; [apply strtok_loop_components; simpl; tauto|].
  split; [intros a b; apply strtok_loop_double_slash|].
  intros Hfirst.
  assert (H : ChangeCurrentDirectoryByWholePath this st (String.append path "/")
              = ChangeCurrentDirectoryByWholePath this st path).
  { unfold ChangeCurrentDirectoryByWholePath.
    rewrite strtok_loop_trailing_slash.
    destruct path as [|c path]; [discriminate|]. reflexivity. }
  split; [exact H|].
  unfold Create, Open, OpenAFile, Remove. rewrite H. auto.
Qed.
(** ** Opening and closing by identifier *)

(** X10.  When [OpenAFile] returns the identifier [fd] of a file
    that was found: if the table did not hold [fd], it now maps [fd] to a
    new handle on that header sector, [CloseFile(fd)] returns 1 and leaves
    the table as it was before the file was opened, and closing once more
    returns 0; if the table already held [fd], [OpenAFile] has left the
    table as it was, so that the handle and its position are shared with
    the earlier open. *)
Theorem OpenAFile_then_CloseFile (this this1 : FileSystem) (st st1 : Store)
    (path : string) (fd : Z) :
  OpenAFile this st path = (Some fd, this1, st1) -> 0 <= fd ->
  (fs_table this !! fd = None ->
   fs_table this1 !! fd = Some (Some (OpenFile_new fd)) /\
   exists this2,
     CloseFile this1 st1 fd = (1, this2, st1) /\
     fs_table this2 = fs_table this /\
     fst (fst (CloseFile this2 st1 fd)) = 0) /\
  (forall v, fs_table this !! fd = Some v -> fs_table this1 = fs_table this).
Proof.
  intros Hopen Hfd.
  assert (Ht : fs_table this1
               = map_insert_pair (fs_table this) fd (Some (OpenFile_new fd))).
  { revert Hopen. unfold OpenAFile.
    destruct (ChangeCurrentDirectoryByWholePath this st path)
      as [[[resolved filename] thisr] str] eqn:E.
    destruct (ChangeCurrentDirectoryByWholePath_frame _ _ _ _ _ _ _ E)
      as (T1 & _).
    destruct resolved; [|intros H; inversion H].
    destruct (Directory_Find (currentDirectory thisr) filename >=? 0) eqn:F;
      intros H; inversion H; subst; clear H.
    - simpl. rewrite T1. reflexivity.
    - apply Z.geb_le in Hfd. congruence. }
  split.
  - intros Hnone. unfold map_insert_pair in Ht. rewrite Hnone in Ht.
    assert (H1 : fs_table this1 !! fd = Some (Some (OpenFile_new fd)))
      by (rewrite Ht; apply lookup_insert_eq).
    split; [exact H1|].
    unfold CloseFile at 1, map_subscript. rewrite H1.
    eexists. split; [reflexivity|].
    assert (H2 : map_erase (fs_table this1) fd = fs_table this).
    { unfold map_erase. rewrite Ht. apply delete_insert_id. exact Hnone. }
    split; [exact H2|].
    unfold CloseFile, map_subscript. cbn [fs_table set_table].
    rewrite H2, Hnone. reflexivity.
  - intros v Hv. unfold map_insert_pair in Ht. rewrite Hv in Ht. exact Ht.
Qed.

(** ** What the look-up operations leave alone *)

(** X11.  [Open], [OpenAFile], [List], [ListRecursive] and
    [CloseFile] change nothing on the disk: the bitmap file, every
    directory file and every sector hold after the call what they held
    before it, whatever the path or the identifier. *)
Theorem lookups_leave_disk (this : FileSystem) (st : Store) (path : string)
    (fd : Z) (fuel : nat) :
  store_eq st (snd (Open this st path)) /\
  store_eq st (snd (OpenAFile this st path)) /\
  store_eq st (snd (List this st path)) /\
  store_eq st (snd (CloseFile this st fd)) /\
  forall out this' st',
    ListRecursive fuel this st path = Ok (out, this', st') -> store_eq st st'.
Proof.
  destruct (ChangeCurrentDirectoryByWholePath this st path)
    as [[[resolved filename] this1] st1] eqn:E.
  destruct (ChangeCurrentDirectoryByWholePath_frame _ _ _ _ _ _ _ E)
    as (_ & S1).
  assert (Hcd : forall t s nm,
            store_eq s (snd (ChangeCurrentDirectory t s nm))).
  { intros t s nm.
    destruct (ChangeCurrentDirectory t s nm) as [[ok t'] s'] eqn:Ec.
    apply (ChangeCurrentDirectory_frame _ _ _ _ _ _ Ec). }
  split; [unfold Open; rewrite E; exact S1|].
  split.
  { unfold OpenAFile. rewrite E.
    destruct (if resolved then _ else _) as [s0 this2]. exact S1. }
  split.
  { unfold List. rewrite E. destruct resolved; [|exact S1].
    destruct (negb (String.eqb filename "")); [|exact S1].
    specialize (Hcd this1 st1 filename).
    destruct (ChangeCurrentDirectory this1 st1 filename) as [[ok t'] s'].
    cbn [snd] in *. eapply store_eq_trans; eassumption. }
  split.
  { unfold CloseFile. destruct (map_subscript (fs_table this) fd) as [[f|] t];
      apply store_eq_refl. }
  intros out this' st'. unfold ListRecursive. rewrite E.
  intros H. apply bind_Ok in H. destruct H as ([[o this2] st2] & H & H').
  inversion H'; subst; clear H'.
  destruct resolved; [|inversion H; subst; exact S1].
  destruct (negb (String.eqb filename "")).
  - specialize (Hcd this1 st1 filename).
    destruct (ChangeCurrentDirectory this1 st1 filename) as [[ok t'] s'].
    apply bind_Ok in H. destruct H as (o' & _ & H). inversion H; subst.
    cbn [snd] in *. eapply store_eq_trans; eassumption.
  - apply bind_Ok in H. destruct H as (o' & _ & H). inversion H; subst.
    exact S1.
Qed.
Lemma OpenAFile_then_CloseFile_witness :
  exists fs st this1 st1,
    with_file_d_f = Ok (true, fs, st) /\
    OpenAFile fs st "/d/f" = (Some 53, this1, st1) /\
    fs_table fs !! 53 = None /\
    fs_table this1 !! 53 = Some (Some (OpenFile_new 53)) /\
    exists this2,
      CloseFile this1 st1 53 = (1, this2, st1) /\
      fs_table this2 = fs_table fs /\
      fst (fst (CloseFile this2 st1 53)) = 0.
Proof.
  assert (H : exists fs st this1 st1,
            with_file_d_f = Ok (true, fs, st) /\
            OpenAFile fs st "/d/f" = (Some 53, this1, st1) /\
            fs_table fs !! 53 = None).
  { do 4 eexists. split; [vm_compute; reflexivity|].
    split; [vm_compute; reflexivity|]. vm_compute. reflexivity. }
  destruct H as (fs & st & this1 & st1 & H1 & H2 & H3).
  exists fs, st, this1, st1.
  split; [exact H1|]. split; [exact H2|]. split; [exact H3|].
  exact (proj1 (OpenAFile_then_CloseFile fs this1 st st1 "/d/f" 53 H2
                  ltac:(lia)) H3).
Defined.

(** ** Recursive removal and listing of a directory *)

Lemma foldM_inv {A St : Type} (P : St -> Prop) (f : A -> St -> res St)
    (l : list A) (s s' : St) :
  P s ->
  (forall x t t', x ∈ l -> P t -> f x t = Ok t' -> P t') ->
  foldM f l s = Ok s' -> P s'.
Proof.
  revert s. induction l as [|x l IH]; intros s HP Hstep H; cbn [foldM] in H.
  - inversion H; subst. exact HP.
  - apply bind_Ok in H. destruct H as (t & Hf & H).
    apply (IH t); [|intros y u u' Hy; apply Hstep; right; exact Hy|exact H].
    apply (Hstep x s t); [left|exact HP|exact Hf].
Qed.

Lemma Directory_new_free (storage : list DirectoryEntry) :
  Forall (fun e => inUse e = false) (Directory_new storage).
Proof.
  unfold Directory_new. apply Forall_fmap, Forall_forall. intros e _.
  reflexivity.
Qed.



(** X13.  In the output of [Directory::ListRecursive] a line of a
    file is never indented, at whatever depth the file lies, while the
    line of a directory is indented by at least the offset of the call;
    and on a directory without sub-directories the output is that of
    [Directory::List]. *)
Theorem Directory_ListRecursive_lines (fuel : nat) (st : Store)
    (this : Directory) (offset : Z) (out : list ListLine) :
  Directory_ListRecursive fuel st this offset = Ok out ->
  Forall (fun l => (line_type l = "F"%char /\ line_indent l = 0) \/
                   (line_type l = "D"%char /\ offset <= line_indent l)) out /\
  (Forall (fun e => inUse e = true -> (fileType e =? DIR_TYPE) = false) this ->
   out = Directory_List this).
Proof.
  revert st this offset out.
  induction fuel as [|fuel IH]; intros st this offset out H;
    cbn [Directory_ListRecursive] in H; [discriminate|].
  unfold Directory_List.
  match type of H with ?f 0 this = _ => set (loop := f) in H end.
  cut (forall t i out',
         loop i t = Ok out' ->
         Forall (fun l => (line_type l = "F"%char /\ line_indent l = 0) \/
                          (line_type l = "D"%char /\ offset <= line_indent l))
                out' /\
         (Forall (fun e => inUse e = true -> (fileType e =? DIR_TYPE) = false) t ->
          out' = List_from i t)).
  { intros Hgen. exact (Hgen this 0 out H). }
  clear H this out.
  induction t as [|e t IHt]; intros i out H.
  - inversion H; subst. split; [constructor|reflexivity].
  - cbn [List_from].
    assert (Hstep : loop i (e :: t) =
      if inUse e then
        if fileType e =? DIR_TYPE then
          sub ← Directory_ListRecursive fuel st
                   (Directory_FetchFrom st (OpenFile_new (sector e)))
                   (offset + 2);
          rest ← loop (i + 1) t;
          Ok ({| line_indent := offset; line_index := i;
                 line_name := name e; line_type := "D"%char |}
              :: sub ++ rest)
        else
          rest ← loop (i + 1) t;
          Ok ({| line_indent := 0; line_index := i;
                 line_name := name e; line_type := "F"%char |} :: rest)
      else loop (i + 1) t) by reflexivity.
    rewrite Hstep in H. clear Hstep.
    destruct (inUse e) eqn:Eu.
    + destruct (fileType e =? DIR_TYPE) eqn:Et.
      * apply bind_Ok in H. destruct H as (sub & Hsub & H).
        apply bind_Ok in H. destruct H as (rest & Hrest & H).
        inversion H; subst out; clear H.
        destruct (IH _ _ _ _ Hsub) as (Fsub & _).
        destruct (IHt _ _ Hrest) as (Frest & _).
        split.
        -- constructor; [right; cbn; split; [reflexivity|lia]|].
           apply Forall_app. split; [|exact Frest].
           eapply Forall_impl; [exact Fsub|].
           intros l [Hl|[Hl1 Hl2]]; [left; exact Hl|right; split; [exact Hl1|lia]].
        -- intros Hflat. apply Forall_cons in Hflat. destruct Hflat as [Hf _].
           rewrite (Hf Eu) in Et. discriminate.
      * apply bind_Ok in H. destruct H as (rest & Hrest & H).
        inversion H; subst out; clear H.
        destruct (IHt _ _ Hrest) as (Frest & Heq).
        split.
        -- constructor; [left; cbn; auto|exact Frest].
        -- intros Hflat. apply Forall_cons in Hflat. destruct Hflat as [_ Hf].
           rewrite (Heq Hf). reflexivity.
    + destruct (IHt _ _ H) as (Frest & Heq). split; [exact Frest|].
      intros Hflat. apply Forall_cons in Hflat. destruct Hflat as [_ Hf].
      apply Heq, Hf.
Qed.

Lemma Directory_ListRecursive_lines_witness :
  exists fs st out,
    with_file_d_f = Ok (true, fs, st) /\
    Directory_ListRecursive 10 st (dirData st DirectorySector) 0 = Ok out /\
    Forall (fun l => (line_type l = "F"%char /\ line_indent l = 0) \/
                     (line_type l = "D"%char /\ 0 <= line_indent l)) out /\
    length out = 2%nat.
Proof.
  assert (H : exists fs st out,
            with_file_d_f = Ok (true, fs, st) /\
            Directory_ListRecursive 10 st (dirData st DirectorySector) 0
              = Ok out /\ length out = 2%nat).
  { do 3 eexists. split; [vm_compute; reflexivity|].
    split; [vm_compute; reflexivity|]. vm_compute. reflexivity. }
  destruct H as (fs & st & out & H1 & H2 & H3). exists fs, st, out.
  split; [exact H1|]. split; [exact H2|].
  split; [|exact H3].
  exact (proj1 (Directory_ListRecursive_lines 10 st _ 0 out H2)).
Defined.

(** ** Exact accounting of the bitmap *)

Lemma taken_nil (fm : Bitmap) : taken fm fm [].
Proof.
  split; [apply allocated_nil, mono_refl|]. split; [reflexivity|].
  split; [reflexivity|]. simpl. lia.
Qed.

Lemma taken_app (fm fm1 fm2 : Bitmap) (L1 L2 : list Z) :
  taken fm fm1 L1 -> taken fm1 fm2 L2 -> taken fm fm2 (L1 ++ L2).
Proof.
  intros (A1 & E1 & F1 & N1) (A2 & E2 & F2 & N2).
  split; [eapply allocated_app; eassumption|]. split; [congruence|].
  split.
  - intros x Hx. rewrite elem_of_app in Hx.
    rewrite F2, F1 by tauto. reflexivity.
  - rewrite length_app. lia.
Qed.

Lemma taken_perm (fm fm' : Bitmap) (L L' : list Z) :
  L ≡ₚ L' -> taken fm fm' L -> taken fm fm' L'.
Proof.
  intros HP (A & E & F & N).
  split; [eapply allocated_perm; eassumption|]. split; [exact E|].
  split.
  - intros x Hx. apply F. rewrite HP. exact Hx.
  - rewrite <- HP. exact N.
Qed.

Lemma count_clear_find (b : Bitmap) (i : nat) :
  find_clear b = Some i ->
  S (count_clear (<[i := true]> b)) = count_clear b.
Proof.
  revert i. induction b as [|x b IH]; intros i H; simpl in H.
  - discriminate.
  - destruct x.
    + destruct (find_clear b) as [k|]; [|discriminate].
      inversion H; subst. simpl. apply IH. reflexivity.
    + inversion H; subst. reflexivity.
Qed.

Lemma FindAndSet_taken (b b' : Bitmap) (s : Z) :
  FindAndSet b = (s, b') -> 0 <= s -> taken b b' [s].
Proof.
  intros H Hs. destruct (FindAndSet_spec _ _ _ H Hs) as (Hc & Ht & Hm).
  split; [|split; [|split]].
  - split; [apply NoDup_singleton|]. split; [|exact Hm].
    repeat constructor; assumption.
  - unfold FindAndSet in H. destruct (find_clear b) as [i|];
      inversion H; subst; [apply length_insert|reflexivity].
  - intros x Hx. unfold FindAndSet in H.
    destruct (find_clear b) as [i|]; inversion H; subst; [|reflexivity].
    unfold Test. destruct (Z.ltb_spec x 0) as [|Hx0]; [reflexivity|].
    rewrite list_lookup_insert_ne; [reflexivity|].
    intros Heq. apply Hx. apply list_elem_of_singleton. lia.
  - unfold FindAndSet in H. destruct (find_clear b) as [i|] eqn:Ef;
      inversion H; subst; [|lia].
    unfold NumClear. pose proof (count_clear_find _ _ Ef). simpl. lia.
Qed.

Lemma alloc_pointerSectors_taken (n : Z) (ps ps' : list Z) (fm fm' : Bitmap) :
  alloc_pointerSectors n ps fm = Ok (ps', fm') ->
  taken fm fm' (take (Z.to_nat n) ps').
Proof.
  unfold alloc_pointerSectors. intros H.
  pose (P := fun (j : nat) (st : list Z * Bitmap) =>
    taken fm (snd st) (take j (fst st))).
  apply (for_inv P) in H.
  - exact H.
  - unfold P. simpl. apply taken_nil.
  - intros j [psj fmj] [psj' fmj'] Hj Ha Hb. unfold P in *. simpl in Ha.
    destruct (FindAndSet fmj) as [s fm1] eqn:Ef.
    apply bind_Ok in Hb. destruct Hb as (psx & Hset & Hb).
    apply array_set_Ok in Hset. destruct Hset as (Hlt & ->).
    apply ASSERT_Ok in Hb. destruct Hb as (Hs & Hb).
    inversion Hb; subst; clear Hb. apply Z.geb_le in Hs. simpl.
    rewrite (take_S_r _ _ s) by (apply list_lookup_insert_eq; exact Hlt).
    rewrite take_insert_ge by lia.
    eapply taken_app; [exact Ha|]. eapply FindAndSet_taken; eassumption.
Qed.

(** ** The loop over the children of a node, with the sectors it takes *)

Section AllocLoop.

Context {C : Type}.
Variable secC : C -> list Z.
Variable goodC : Z -> C -> Prop.
Variable cap : Z.
Variable body : nat -> list C * Bitmap * Z -> res (list C * Bitmap * Z).
Variable tb0 : list C.

(** Each round asserts that sectors remain, gives slot [i] a child for
    [min(remain, cap)] of them and takes those off the count. *)
Hypothesis body_spec :
  forall (i : nat) (tb tb' : list C) (fm fm' : Bitmap) (rem rem' : Z),
    tb !! i = tb0 !! i ->
    body i (tb, fm, rem) = Ok (tb', fm', rem') ->
    0 < rem /\ rem' = rem - Z.min rem cap /\
    exists c, (i < length tb)%nat /\ tb' = <[i := c]> tb /\
              goodC (Z.min rem cap) c /\
              taken fm fm' (secC c).

Lemma alloc_loop_spec (np m : Z) (fm0 fm' : Bitmap) (tb' : list C) :
  0 <= np ->
  for_ np body (tb0, fm0, m) = Ok (tb', fm', 0) ->
  taken fm0 fm' (concat (map secC (take (Z.to_nat np) tb'))) /\
  good_node goodC cap m np tb'.
Proof.
  intros Hnp H.
  pose (P := fun (j : nat) (st : list C * Bitmap * Z) =>
    length (fst (fst st)) = length tb0 /\
    drop j (fst (fst st)) = drop j tb0 /\
    taken fm0 (snd (fst st)) (concat (map secC (take j (fst (fst st))))) /\
    (snd st = m - Z.of_nat j * cap \/ (snd st = 0 /\ m <= Z.of_nat j * cap)) /\
    forall i : nat, (i < j)%nat ->
      0 < m - Z.of_nat i * cap /\
      exists c, fst (fst st) !! i = Some c /\
                goodC (Z.min (m - Z.of_nat i * cap) cap) c).
  apply (for_inv P) in H.
  - destruct H as (_ & _ & Ht & Hrem & Hgood). cbn [fst snd] in *.
    rewrite Z2Nat.id in Hrem by exact Hnp.
    split; [exact Ht|]. split; [exact Hnp|]. split; [lia|exact Hgood].
  - unfold P. simpl. split; [reflexivity|]. split; [reflexivity|].
    split; [apply taken_nil|]. split; [left; lia|]. intros i Hi. lia.
  - intros j [[tb fm] rem] [[tb1 fm1] rem1] Hj (Hl & Hd & Ha & Hrem & Hgood) Hb.
    simpl in Hl, Hd, Ha, Hrem, Hgood.
    assert (Hj0 : tb !! j = tb0 !! j).
    { rewrite <- (Nat.add_0_r j). rewrite <- !lookup_drop, Hd. reflexivity. }
    destruct (body_spec j tb tb1 fm fm1 rem rem1 Hj0 Hb)
      as (Hpos & Hrem1 & c & Hlt & -> & Hc & Htk).
    assert (Hrem' : rem = m - Z.of_nat j * cap) by lia.
    unfold P. simpl.
    split; [rewrite length_insert; exact Hl|].
    split.
    { rewrite drop_insert_lt by lia.
      replace (S j) with (j + 1)%nat by lia.
      rewrite <- !(drop_drop _ 1 j). rewrite Hd. reflexivity. }
    split.
    { rewrite (take_S_r _ _ c) by (apply list_lookup_insert_eq; exact Hlt).
      rewrite take_insert_ge by lia.
      rewrite map_app, concat_app. simpl. rewrite app_nil_r.
      eapply taken_app; eassumption. }
    split; [lia|].
    intros i Hi. destruct (decide (i = j)) as [->|Hne].
    + split; [lia|]. exists c.
      split; [apply list_lookup_insert_eq; exact Hlt|].
      rewrite <- Hrem'. exact Hc.
    + rewrite list_lookup_insert_ne by congruence. apply Hgood. lia.
Qed.

End AllocLoop.

(** ** What [Allocate] takes from the bitmap, node by node *)

Lemma SingleIndirectPointer_Allocate_layout (this p' : SingleIndirectPointer)
    (fm fm' : Bitmap) (m : Z) :
  SingleIndirectPointer_Allocate this fm m = Ok (true, p', fm') ->
  good_single m p' /\ taken fm fm' (sectors_single p').
Proof.
  unfold SingleIndirectPointer_Allocate. intros H.
  apply ASSERT_Ok in H. destruct H as (_ & H).
  destruct (NumClear fm <? m); [discriminate|].
  apply bind_Ok in H. destruct H as ([ps fm1] & Hps & H).
  inversion H; subst; clear H.
  destruct (alloc_pointerSectors_spec _ _ _ _ _ Hps) as (Hl & Hle & _ & Hpos & _).
  split.
  - split; [reflexivity|]. cbn [s_pointerSectors]. split; [lia|exact Hpos].
  - exact (alloc_pointerSectors_taken _ _ _ _ _ Hps).
Qed.

Lemma good_node_length {C : Type} (goodC : Z -> C -> Prop) (cap m np : Z)
    (tb : list C) :
  good_node goodC cap m np tb -> (Z.to_nat np <= length tb)%nat.
Proof.
  intros (Hnp & _ & Hg).
  destruct (Z.to_nat np) as [|k] eqn:E; [lia|].
  destruct (Hg k ltac:(lia)) as (_ & c & Hc & _).
  apply lookup_lt_Some in Hc. lia.
Qed.

Lemma DoubleIndirectPointer_Allocate_layout (p' : DoubleIndirectPointer)
    (fm fm' : Bitmap) (m : Z) :
  DoubleIndirectPointer_Allocate DoubleIndirectPointer_new fm m
    = Ok (true, p', fm') ->
  good_double m p' /\ taken fm fm' (sectors_double p').
Proof.
  intros H0. pose proof (DoubleIndirectPointer_Allocate_spec _ _ _ _ H0)
    as ((Hlp & Hlt & Hnp & _) & _).
  revert H0 Hlp Hlt Hnp.
  unfold DoubleIndirectPointer_Allocate. intros H.
  apply ASSERT_Ok in H. destruct H as (_ & H).
  set (np := divRoundUp m LEVEL_1_SECTOR_NUM) in *.
  destruct (NumClear fm <? np); [discriminate|].
  apply bind_Ok in H. destruct H as ([ps fm1] & Hps & H).
  apply bind_Ok in H. destruct H as ([[tb fm2] rem] & Hloop & H).
  apply ASSERT_Ok in H. destruct H as (Hrem & H).
  inversion H; subst p' fm'; clear H. cbn [d_numPointer d_pointerSectors d_table].
  intros Hlp Hlt Hnp. apply Z.eqb_eq in Hrem. subst rem.
  pose proof (alloc_pointerSectors_taken _ _ _ _ _ Hps) as Htk1.
  assert (Hres :
    taken fm1 fm2 (concat (map sectors_single (take (Z.to_nat np) tb))) /\
    good_node good_single LEVEL_1_SECTOR_NUM m np tb).
  { eapply (alloc_loop_spec sectors_single good_single LEVEL_1_SECTOR_NUM);
      [|lia|exact Hloop].
    clear. intros i tb tb' fm fm' rem rem' Hi Hb.
    apply ASSERT_Ok in Hb. destruct Hb as (Hpos & Hb).
    apply bind_Ok in Hb. destruct Hb as (child & Hget & Hb).
    apply array_get_Ok in Hget.
    apply bind_Ok in Hb. destruct Hb as ([[ok child'] fmx] & Hal & Hb).
    apply ASSERT_Ok in Hb. destruct Hb as (-> & Hb).
    inversion Hb; subst; clear Hb.
    destruct (SingleIndirectPointer_Allocate_layout _ _ _ _ _ Hal) as (Hg & Ht).
    split; [lia|]. split; [reflexivity|].
    exists child'. split; [eapply lookup_lt_Some; eassumption|].
    split; [reflexivity|]. split; assumption. }
  destruct Hres as (Htk2 & Hgood).
  split; [exact Hgood|].
  unfold sectors_double. cbn [d_numPointer d_pointerSectors d_table].
  eapply taken_perm; [symmetry; apply children_blocks_perm; lia|].
  eapply taken_app; eassumption.
Qed.

Lemma TripleIndirectPointer_Allocate_layout (p' : TripleIndirectPointer)
    (fm fm' : Bitmap) (m : Z) :
  TripleIndirectPointer_Allocate TripleIndirectPointer_new fm m
    = Ok (true, p', fm') ->
  good_triple m p' /\ taken fm fm' (sectors_triple p').
Proof.
  intros H0. pose proof (TripleIndirectPointer_Allocate_spec _ _ _ _ H0)
    as ((Hlp & Hlt & Hnp & _) & _).
  revert H0 Hlp Hlt Hnp.
  unfold TripleIndirectPointer_Allocate. intros H.
  apply ASSERT_Ok in H. destruct H as (_ & H).
  set (np := divRoundUp m LEVEL_2_SECTOR_NUM) in *.
  destruct (NumClear fm <? np); [discriminate|].
  apply bind_Ok in H. destruct H as ([ps fm1] & Hps & H).
  apply bind_Ok in H. destruct H as ([[tb fm2] rem] & Hloop & H).
  apply ASSERT_Ok in H. destruct H as (Hrem & H).
  inversion H; subst p' fm'; clear H. cbn [t_numPointer t_pointerSectors t_table].
  intros Hlp Hlt Hnp. apply Z.eqb_eq in Hrem. subst rem.
  pose proof (alloc_pointerSectors_taken _ _ _ _ _ Hps) as Htk1.
  assert (Hres :
    taken fm1 fm2 (concat (map sectors_double (take (Z.to_nat np) tb))) /\
    good_node good_double LEVEL_2_SECTOR_NUM m np tb).
  { eapply (alloc_loop_spec sectors_double good_double LEVEL_2_SECTOR_NUM);
      [|lia|exact Hloop].
    clear. intros i tb tb' fm fm' rem rem' Hi Hb.
    apply ASSERT_Ok in Hb. destruct Hb as (Hpos & Hb).
    apply bind_Ok in Hb. destruct Hb as (child & Hget & Hb).
    apply array_get_Ok in Hget.
    apply bind_Ok in Hb. destruct Hb as ([[ok child'] fmx] & Hal & Hb).
    apply ASSERT_Ok in Hb. destruct Hb as (-> & Hb).
    inversion Hb; subst; clear Hb.
    assert (child = DoubleIndirectPointer_new).
    { rewrite Hget in Hi. symmetry in Hi.
      apply lookup_replicate in Hi. destruct Hi as [Hi _]. congruence. }
    subst child.
    destruct (DoubleIndirectPointer_Allocate_layout _ _ _ _ Hal) as (Hg & Ht).
    split; [lia|]. split; [reflexivity|].
    exists child'. split; [eapply lookup_lt_Some; eassumption|].
    split; [reflexivity|]. split; assumption. }
  destruct Hres as (Htk2 & Hgood).
  split; [exact Hgood|].
  unfold sectors_triple. cbn [t_numPointer t_pointerSectors t_table].
  eapply taken_perm; [symmetry; apply children_blocks_perm; lia|].
  eapply taken_app; eassumption.
Qed.

Lemma DataPointer_Allocate_layout (lv : Z) (p p' : DataPointerInterface)
    (fm fm' : Bitmap) (m : Z) :
  GetNewPointerByLevel lv = Some p ->
  DataPointer_Allocate p fm m = Ok (true, p', fm') ->
  good_ptr m p' /\ taken fm fm' (sectors_ptr p').
Proof.
  unfold GetNewPointerByLevel. intros Hnew H.
  destruct (lv =? LEVEL_1) eqn:E1;
    [|destruct (lv =? LEVEL_2) eqn:E2;
      [|destruct (lv =? LEVEL_3) eqn:E3;
        [|destruct (lv =? LEVEL_4) eqn:E4; [|discriminate]]]];
    inversion Hnew; subst p; clear Hnew; cbn [DataPointer_Allocate] in H;
    apply bind_Ok in H; destruct H as ([[ok q] fmx] & Hal & H);
    inversion H; subst; clear H; cbn [good_ptr sectors_ptr].
  - unfold DirectPointer_Allocate in Hal.
    apply ASSERT_Ok in Hal. destruct Hal as (Hm & Hal).
    destruct (NumClear fm <? m); [discriminate|].
    destruct (FindAndSet fm) as [s fm1] eqn:Ef.
    apply ASSERT_Ok in Hal. destruct Hal as (Hs & Hal).
    inversion Hal; subst. apply Z.geb_le in Hs. apply Z.eqb_eq in Hm.
    cbn [dataSector]. split; [split; [exact Hm|exact Hs]|].
    eapply FindAndSet_taken; eassumption.
  - exact (SingleIndirectPointer_Allocate_layout _ _ _ _ _ Hal).
  - exact (DoubleIndirectPointer_Allocate_layout _ _ _ _ Hal).
  - exact (TripleIndirectPointer_Allocate_layout _ _ _ _ Hal).
Qed.

(** What a successful [FileHeader::Allocate] on a new header builds: a
    well-formed header of the shape above, for which it has taken exactly
    the sectors of [sectors_hdr]. *)
Lemma FileHeader_Allocate_layout (nb0 np0 lv0 : Z) (ps0 : list Z)
    (h : FileHeader) (fm fm' : Bitmap) (s : Z) :
  FileHeader_Allocate (FileHeader_new nb0 np0 lv0 ps0) fm s = Ok (true, h, fm') ->
  wf_hdr h /\ good_hdr (divRoundUp s SectorSize) h /\
  taken fm fm' (sectors_hdr h).
Proof.
  intros H0.
  pose proof (FileHeader_Allocate_spec _ _ _ _ _ _ _ _ H0) as (Hwf & _).
  split; [exact Hwf|].
  destruct Hwf as ((Hlp & Hlt & Hnp & _) & _).
  revert H0 Hlp Hlt Hnp.
  unfold FileHeader_Allocate. intros H.
  destruct (Allocate_level s) as [lv|] eqn:El; [|discriminate].
  apply ASSERT_Ok in H. destruct H as (_ & H).
  set (ns := divRoundUp s SectorSize) in *.
  set (np := divRoundUp ns (at_index SECTOR_NUM_IN_LEVEL (lv - 1))) in *.
  destruct (NumClear fm <? np); [discriminate|].
  apply bind_Ok in H. destruct H as ([ps fm1] & Hps & H).
  apply bind_Ok in H. destruct H as ([[tb fm2] rem] & Hloop & H).
  apply ASSERT_Ok in H. destruct H as (Hrem & H).
  inversion H; subst h fm'; clear H.
  unfold good_hdr, sectors_hdr.
  cbn [numBytes numPointer pointerSectors level table].
  intros Hlp Hlt Hnp. apply Z.eqb_eq in Hrem. subst rem.
  pose proof (alloc_pointerSectors_taken _ _ _ _ _ Hps) as Htk1.
  assert (Hres :
    taken fm1 fm2 (concat (map sectors_entry (take (Z.to_nat np) tb))) /\
    good_node good_entry (at_index SECTOR_NUM_IN_LEVEL (lv - 1)) ns np tb).
  { eapply (alloc_loop_spec sectors_entry good_entry
              (at_index SECTOR_NUM_IN_LEVEL (lv - 1)));
      [|lia|exact Hloop].
    clear. intros i tb tb' fm fm' rem rem' Hi Hb.
    destruct (GetNewPointerByLevel lv) as [p|] eqn:Enew; [|discriminate].
    apply ASSERT_Ok in Hb. destruct Hb as (Hpos & Hb).
    apply bind_Ok in Hb. destruct Hb as ([[ok p'] fmx] & Hal & Hb).
    apply ASSERT_Ok in Hb. destruct Hb as (-> & Hb).
    apply bind_Ok in Hb. destruct Hb as (tbx & Hset & Hb).
    apply array_set_Ok in Hset. destruct Hset as (Hlt & ->).
    inversion Hb; subst; clear Hb.
    destruct (DataPointer_Allocate_layout _ _ _ _ _ _ Enew Hal) as (Hg & Ht).
    split; [lia|]. split; [reflexivity|].
    exists (Some p'). split; [exact Hlt|]. split; [reflexivity|].
    split; [exists p'; auto|exact Ht]. }
  destruct Hres as (Htk2 & Hgood).
  split; [exact Hgood|].
  eapply taken_perm; [symmetry; apply children_blocks_perm; lia|].
  eapply taken_app; eassumption.
Qed.
(** ** Giving sectors back *)

Lemma Test_range (x : Z) (fm : Bitmap) :
  Test x fm = true -> 0 <= x /\ (Z.to_nat x < length fm)%nat.
Proof.
  unfold Test. destruct (Z.ltb_spec x 0); [discriminate|].
  destruct (fm !! Z.to_nat x) eqn:E; [|discriminate].
  intros _. split; [lia|]. eapply lookup_lt_Some. exact E.
Qed.

Lemma Clear_released (s : Z) (fm : Bitmap) :
  Test s fm = true -> released fm (Clear s fm) [s].
Proof.
  intros Hs. destruct (Test_range _ _ Hs) as (H0 & Hlt).
  unfold Clear. destruct (Z.ltb_spec s 0) as [|_]; [lia|].
  split; [apply length_insert|].
  intros x. unfold Test. destruct (Z.ltb_spec x 0) as [Hx|Hx].
  - destruct (bool_decide _); reflexivity.
  - destruct (bool_decide_reflect (x ∈ [s])) as [Hin|Hin].
    + apply list_elem_of_singleton in Hin. subst x.
      rewrite list_lookup_insert_eq by exact Hlt. reflexivity.
    + rewrite list_lookup_insert_ne; [reflexivity|].
      intros Heq. apply Hin. apply list_elem_of_singleton. lia.
Qed.

Lemma released_nil (fm : Bitmap) : released fm fm [].
Proof. split; [reflexivity|]. intros x. reflexivity. Qed.

Lemma released_app (fm fm1 fm2 : Bitmap) (L1 L2 : list Z) :
  released fm fm1 L1 -> released fm1 fm2 L2 -> released fm fm2 (L1 ++ L2).
Proof.
  intros (E1 & F1) (E2 & F2). split; [congruence|].
  intros x. rewrite F2, F1.
  destruct (bool_decide_reflect (x ∈ L2)) as [H2|H2];
    destruct (bool_decide_reflect (x ∈ L1)) as [H1|H1];
    destruct (bool_decide_reflect (x ∈ L1 ++ L2)) as [H|H];
    try reflexivity; exfalso; rewrite elem_of_app in H; tauto.
Qed.

Lemma released_perm (fm fm' : Bitmap) (L L' : list Z) :
  L ≡ₚ L' -> released fm fm' L -> released fm fm' L'.
Proof.
  intros HP (E & F). split; [exact E|]. intros x. rewrite F.
  destruct (bool_decide_reflect (x ∈ L)) as [H|H];
    destruct (bool_decide_reflect (x ∈ L')) as [H'|H'];
    try reflexivity; exfalso; rewrite HP in H; tauto.
Qed.

Lemma held_app (fm : Bitmap) (L1 L2 : list Z) :
  held fm (L1 ++ L2) ->
  held fm L1 /\ held fm L2 /\ forall x, x ∈ L1 -> x ∉ L2.
Proof.
  intros (N & F). apply NoDup_app in N. destruct N as (N1 & D & N2).
  apply Forall_app in F. destruct F as (F1 & F2).
  split; [split; assumption|]. split; [split; assumption|exact D].
Qed.

(** After the sectors of [L1] have been given back, those of [L2] are
    still held. *)
Lemma held_released (fm fm1 : Bitmap) (L1 L2 : list Z) :
  held fm (L1 ++ L2) -> released fm fm1 L1 -> held fm1 L2.
Proof.
  intros H (_ & F). destruct (held_app _ _ _ H) as (_ & (N2 & F2) & D).
  split; [exact N2|]. rewrite Forall_forall in *. intros x Hx.
  rewrite F. destruct (bool_decide_reflect (x ∈ L1)) as [H1|H1];
    [exfalso; exact (D x H1 Hx)|apply F2, Hx].
Qed.

Lemma held_perm (fm : Bitmap) (L L' : list Z) :
  L ≡ₚ L' -> held fm L -> held fm L'.
Proof. intros HP (N & F). split; rewrite <- HP; assumption. Qed.

Lemma SingleIndirectPointer_Deallocate_spec (p : SingleIndirectPointer)
    (fm : Bitmap) (m : Z) :
  good_single m p -> held fm (data_single p) ->
  exists fm', SingleIndirectPointer_Deallocate p fm = Ok fm' /\
              released fm fm' (data_single p).
Proof.
  intros (Hm & Hle & _) Hheld. unfold SingleIndirectPointer_Deallocate, for_.
  unfold data_single in *. rewrite Hm in *.
  set (ps := s_pointerSectors p) in *. set (n := Z.to_nat m) in *.
  destruct (for_from_total (fun j fmj => released fm fmj (take j ps))
              (fun i fm0 => s ← array_get ps i;
                            ASSERT (Test s fm0) (Ok (Clear s fm0)))
              n O fm (released_nil fm)) as (fm' & Hrun & Hrel).
  - intros j fmj Hj Hrel.
    destruct (lookup_lt_is_Some_2 ps j ltac:(lia)) as [s Hs].
    rewrite (proj2 (array_get_Ok _ _ _) Hs). cbn.
    assert (Hsplit : take n ps = take j ps ++ s :: drop (S j) (take n ps)).
    { rewrite <- (take_drop j (take n ps)) at 1.
      rewrite take_take. replace (j `min` n)%nat with j by lia. f_equal.
      apply drop_S. rewrite lookup_take_lt by lia. exact Hs. }
    rewrite Hsplit in Hheld.
    pose proof (held_released _ _ _ _ Hheld Hrel) as (Hnd & Hall).
    apply Forall_cons in Hall. destruct Hall as (Hts & _).
    rewrite Hts. cbn. eexists. split; [reflexivity|].
    rewrite (take_S_r _ _ s) by exact Hs.
    eapply released_app; [exact Hrel|]. apply Clear_released, Hts.
  - exists fm'. split; [exact Hrun|exact Hrel].
Qed.

Section DeallocLoop.

Context {C : Type}.
Variable dataC : C -> list Z.
Variable okC : C -> Prop.
Variable dealloc : C -> Bitmap -> res Bitmap.
Variable body : nat -> Bitmap -> res Bitmap.
Variable tb : list C.

Hypothesis child_spec :
  forall c fm, okC c -> held fm (dataC c) ->
    exists fm', dealloc c fm = Ok fm' /\ released fm fm' (dataC c).

Hypothesis body_eq :
  forall i c fm, tb !! i = Some c -> body i fm = dealloc c fm.

Lemma dealloc_loop (n : nat) (fm : Bitmap) :
  (n <= length tb)%nat ->
  Forall okC (take n tb) ->
  held fm (concat (map dataC (take n tb))) ->
  exists fm', for_from 0 n body fm = Ok fm' /\
              released fm fm' (concat (map dataC (take n tb))).
Proof.
  intros Hn Hok Hheld.
  destruct (for_from_total
              (fun j fmj => released fm fmj (concat (map dataC (take j tb))))
              body n O fm (released_nil fm)) as (fm' & Hrun & Hrel).
  - intros j fmj Hj Hrel.
    destruct (lookup_lt_is_Some_2 tb j ltac:(lia)) as [c Hc].
    rewrite (body_eq j c fmj Hc).
    assert (Hsplit : take n tb = take j tb ++ c :: drop (S j) (take n tb)).
    { rewrite <- (take_drop j (take n tb)) at 1.
      rewrite take_take. replace (j `min` n)%nat with j by lia. f_equal.
      apply drop_S. rewrite lookup_take_lt by lia. exact Hc. }
    rewrite Hsplit, map_app, concat_app in Hheld. cbn [map concat] in Hheld.
    pose proof (held_released _ _ _ _ Hheld Hrel) as Hh.
    destruct (held_app _ _ _ Hh) as (Hhc & _).
    assert (Hokc : okC c).
    { rewrite Forall_lookup in Hok. apply (Hok j).
      rewrite lookup_take_lt by lia. exact Hc. }
    destruct (child_spec c fmj Hokc Hhc) as (fm1 & Hd & Hr).
    exists fm1. split; [exact Hd|].
    rewrite (take_S_r _ _ c) by exact Hc.
    rewrite map_app, concat_app. cbn [map concat]. rewrite app_nil_r.
    eapply released_app; eassumption.
  - exists fm'. split; [exact Hrun|exact Hrel].
Qed.

End DeallocLoop.

Lemma good_node_children {C : Type} (goodC : Z -> C -> Prop) (cap m np : Z)
    (tb : list C) :
  good_node goodC cap m np tb ->
  Forall (fun c => exists k, goodC k c) (take (Z.to_nat np) tb).
Proof.
  intros (Hnp & _ & Hg). apply Forall_lookup. intros i c Hi.
  assert (Hlt : (i < Z.to_nat np)%nat).
  { apply lookup_lt_Some in Hi. rewrite length_take in Hi. lia. }
  rewrite lookup_take_lt in Hi by exact Hlt.
  destruct (Hg i Hlt) as (_ & c' & Hc' & Hgood).
  rewrite Hi in Hc'. inversion Hc'; subst c'. eexists. exact Hgood.
Qed.

Lemma DoubleIndirectPointer_Deallocate_spec (p : DoubleIndirectPointer)
    (fm : Bitmap) (m : Z) :
  good_double m p -> held fm (data_double p) ->
  exists fm', DoubleIndirectPointer_Deallocate p fm = Ok fm' /\
              released fm fm' (data_double p).
Proof.
  intros Hg Hheld. unfold DoubleIndirectPointer_Deallocate, for_, data_double.
  apply (dealloc_loop data_single (fun c => exists k, good_single k c)
           SingleIndirectPointer_Deallocate).
  - intros c fm0 (k & Hk) Hh.
    exact (SingleIndirectPointer_Deallocate_spec c fm0 k Hk Hh).
  - intros i c fm0 Hc. rewrite (proj2 (array_get_Ok _ _ _) Hc). reflexivity.
  - eapply good_node_length. exact Hg.
  - eapply good_node_children. exact Hg.
  - exact Hheld.
Qed.

Lemma TripleIndirectPointer_Deallocate_spec (p : TripleIndirectPointer)
    (fm : Bitmap) (m : Z) :
  good_triple m p -> held fm (data_triple p) ->
  exists fm', TripleIndirectPointer_Deallocate p fm = Ok fm' /\
              released fm fm' (data_triple p).
Proof.
  intros Hg Hheld. unfold TripleIndirectPointer_Deallocate, for_, data_triple.
  apply (dealloc_loop data_double (fun c => exists k, good_double k c)
           DoubleIndirectPointer_Deallocate).
  - intros c fm0 (k & Hk) Hh.
    exact (DoubleIndirectPointer_Deallocate_spec c fm0 k Hk Hh).
  - intros i c fm0 Hc. rewrite (proj2 (array_get_Ok _ _ _) Hc). reflexivity.
  - eapply good_node_length. exact Hg.
  - eapply good_node_children. exact Hg.
  - exact Hheld.
Qed.

Lemma DataPointer_Deallocate_spec (p : DataPointerInterface) (fm : Bitmap)
    (m : Z) :
  good_ptr m p -> held fm (data_ptr p) ->
  exists fm', DataPointer_Deallocate p fm = Ok fm' /\
              released fm fm' (data_ptr p).
Proof.
  destruct p as [q|q|q|q]; cbn [good_ptr data_ptr DataPointer_Deallocate];
    intros Hg Hheld.
  - unfold DirectPointer_Deallocate. destruct Hheld as (_ & Hall).
    apply Forall_cons in Hall. destruct Hall as (Ht & _). rewrite Ht.
    eexists. split; [reflexivity|]. apply Clear_released, Ht.
  - eapply SingleIndirectPointer_Deallocate_spec; eassumption.
  - eapply DoubleIndirectPointer_Deallocate_spec; eassumption.
  - eapply TripleIndirectPointer_Deallocate_spec; eassumption.
Qed.

Lemma children_blocks_snoc {C : Type} (blocks : C -> list Z) (n : nat)
    (tb : list C) (ps : list Z) (c : C) (s : Z) :
  tb !! n = Some c -> ps !! n = Some s ->
  children_blocks blocks (S n) tb ps
    = children_blocks blocks n tb ps ++ s :: blocks c.
Proof.
  intros Hc Hs. unfold children_blocks.
  rewrite (take_S_r _ _ c) by exact Hc. rewrite (take_S_r _ _ s) by exact Hs.
  rewrite zip_with_app.
  - rewrite concat_app. cbn. rewrite app_nil_r. reflexivity.
  - rewrite !length_take. apply lookup_lt_Some in Hc, Hs. lia.
Qed.

Lemma children_blocks_prefix {C : Type} (blocks : C -> list Z) (j n : nat)
    (tb : list C) (ps : list Z) :
  (j <= n)%nat -> (n <= length tb)%nat -> (n <= length ps)%nat ->
  exists R, children_blocks blocks n tb ps = children_blocks blocks j tb ps ++ R.
Proof.
  intros Hj Ht Hp. induction n as [|n IH].
  - replace j with O by lia. exists []. reflexivity.
  - destruct (decide (j = S n)) as [->|Hne]; [exists []; symmetry; apply app_nil_r|].
    destruct (IH ltac:(lia) ltac:(lia) ltac:(lia)) as (R & HR).
    destruct (lookup_lt_is_Some_2 tb n ltac:(lia)) as [c Hc].
    destruct (lookup_lt_is_Some_2 ps n ltac:(lia)) as [s Hs].
    rewrite (children_blocks_snoc _ _ _ _ _ _ Hc Hs), HR, <- app_assoc.
    eexists. reflexivity.
Qed.

(** [FileHeader::Deallocate] on a well-formed header whose cleared sectors
    are held. *)
Lemma FileHeader_Deallocate_spec (h : FileHeader) (m : Z) (fm : Bitmap) :
  wf_hdr h -> good_hdr m h -> held fm (cleared_hdr h) ->
  exists h' fm', FileHeader_Deallocate h fm = Ok (h', fm') /\
                 released fm fm' (cleared_hdr h) /\
                 table h' = replicate (Z.to_nat NUM_FILE_HEADER_POINTER) None.
Proof.
  intros ((Hlp & Hlt & Hnp & _ & _ & Hdrop) & _) Hgood Hheld.
  unfold FileHeader_Deallocate, for_, cleared_hdr in *.
  set (np := Z.to_nat (numPointer h)) in *.
  set (cap := Z.to_nat NUM_FILE_HEADER_POINTER) in *.
  set (body := fun (i : nat) '(table, fm) =>
         entry ← array_get table i;
         match entry with
         | Some p =>
             fm1 ← DataPointer_Deallocate p fm;
             s ← array_get (pointerSectors h) i;
             ASSERT (Test s fm1) (Ok (<[i := None]> table, Clear s fm1))
         | None => Ok (table, fm)
         end).
  destruct (for_from_total
    (fun j (st : list (option DataPointerInterface) * Bitmap) =>
       released fm (snd st)
         (children_blocks data_entry (j `min` np) (table h) (pointerSectors h)) /\
       length (fst st) = cap /\
       take j (fst st) = replicate j None /\
       drop j (fst st) = drop j (table h))
    body cap O (table h, fm)) as ([tb' fm'] & Hrun & Hrel & Hlen & Htake & _).
  - cbn [fst snd]. split; [apply released_nil|]. split; [exact Hlt|].
    split; reflexivity.
  - intros j [tbj fmj] Hj (Hrel & Hlen & Htake & Hdr). cbn [fst snd] in *.
    assert (Hj0 : tbj !! j = table h !! j).
    { rewrite <- (Nat.add_0_r j). rewrite <- !lookup_drop, Hdr. reflexivity. }
    assert (Hnext : forall e, drop (S j) (<[j := e]> tbj) = drop (S j) (table h)).
    { intros e. rewrite drop_insert_lt by lia.
      replace (S j) with (j + 1)%nat by lia.
      rewrite <- !(drop_drop _ 1 j). rewrite Hdr. reflexivity. }
    assert (Hnext0 : drop (S j) tbj = drop (S j) (table h)).
    { replace (S j) with (j + 1)%nat by lia.
      rewrite <- !(drop_drop _ 1 j). rewrite Hdr. reflexivity. }
    destruct (decide (j < np)%nat) as [Hlt'|Hge].
    + destruct Hgood as (_ & _ & Hg).
      destruct (Hg j Hlt') as (_ & e & He & p & -> & Hp).
      destruct (lookup_lt_is_Some_2 (pointerSectors h) j ltac:(lia)) as [s Hs].
      destruct (children_blocks_prefix data_entry (S j) np (table h)
                  (pointerSectors h) ltac:(lia) ltac:(lia) ltac:(lia))
        as (R & HR).
      rewrite HR, (children_blocks_snoc _ _ _ _ _ _ He Hs) in Hheld.
      replace (j `min` np)%nat with j in Hrel by lia.
      rewrite <- !app_assoc in Hheld.
      pose proof (held_released _ _ _ _ Hheld Hrel) as Hh.
      assert (Hh' : held fmj ((data_ptr p ++ [s]) ++ R)).
      { eapply held_perm; [|exact Hh]. cbn [data_entry].
        rewrite <- (app_assoc (data_ptr p)). cbn [app].
        apply Permutation_middle. }
      destruct (held_app _ _ _ Hh') as (Hh1 & _).
      destruct (held_app _ _ _ Hh1) as (Hhd & _).
      destruct (DataPointer_Deallocate_spec p fmj _ Hp Hhd) as (fm1 & Hd & Hr1).
      pose proof (held_released _ _ _ _ Hh1 Hr1) as (_ & Hall).
      apply Forall_cons in Hall. destruct Hall as (Hts & _).
      exists (<[j := None]> tbj, Clear s fm1). split.
      { unfold body. rewrite (proj2 (array_get_Ok _ _ _) (eq_trans Hj0 He)).
        cbn. rewrite Hd. cbn. rewrite (proj2 (array_get_Ok _ _ _) Hs). cbn.
        rewrite Hts. reflexivity. }
      cbn [fst snd].
      split; [|split; [|split]].
      * replace (S j `min` np)%nat with (S j) by lia.
        rewrite (children_blocks_snoc _ _ _ _ _ _ He Hs).
        eapply released_app; [exact Hrel|].
        eapply released_perm; [|eapply released_app;
          [exact Hr1|apply Clear_released, Hts]].
        cbn [data_entry]. symmetry. apply Permutation_cons_append.
      * rewrite length_insert. exact Hlen.
      * rewrite (take_S_r _ _ None) by (apply list_lookup_insert_eq; lia).
        rewrite take_insert_ge by lia. rewrite Htake.
        rewrite <- replicate_S_end. reflexivity.
      * apply Hnext.
    + assert (He : table h !! j = Some None).
      { replace j with (np + (j - np))%nat by lia.
        rewrite <- lookup_drop, Hdrop. apply lookup_replicate_2. lia. }
      exists (tbj, fmj). split.
      { unfold body. rewrite (proj2 (array_get_Ok _ _ _) (eq_trans Hj0 He)).
        reflexivity. }
      cbn [fst snd].
      split; [|split; [|split]].
      * replace (S j `min` np)%nat with (j `min` np)%nat by lia. exact Hrel.
      * exact Hlen.
      * rewrite (take_S_r _ _ None) by (rewrite Hj0; exact He).
        rewrite Htake. rewrite <- replicate_S_end. reflexivity.
      * exact Hnext0.
  - fold body. rewrite Hrun. cbn. do 2 eexists. split; [reflexivity|].
    cbn [fst snd table] in *.
    split.
    + cbn [Nat.add] in Hrel.
      replace (cap `min` np)%nat with np in Hrel by lia. exact Hrel.
    + cbn [Nat.add] in Htake. rewrite <- Htake. symmetry. apply take_ge. lia.
Qed.
(** ** Data sectors and pointer blocks *)

Lemma concat_map_split {C : Type} (secC dataC blkC : C -> list Z)
    (l : list C) :
  Forall (fun c => secC c ≡ₚ dataC c ++ blkC c) l ->
  concat (map secC l) ≡ₚ concat (map dataC l) ++ concat (map blkC l).
Proof.
  induction 1 as [|c l Hc _ IH]; cbn [map concat]; [reflexivity|].
  rewrite Hc, IH. rewrite <- !app_assoc. apply Permutation_app_head.
  rewrite !app_assoc. apply Permutation_app_tail, Permutation_app_comm.
Qed.

Lemma children_blocks_split {C : Type} (secC dataC blkC : C -> list Z)
    (n : nat) (tb : list C) (ps : list Z) :
  (n <= length tb)%nat -> (n <= length ps)%nat ->
  Forall (fun c => secC c ≡ₚ dataC c ++ blkC c) (take n tb) ->
  children_blocks secC n tb ps
    ≡ₚ concat (map dataC (take n tb)) ++ children_blocks blkC n tb ps.
Proof.
  intros Ht Hp Hall.
  rewrite (children_blocks_perm secC) by assumption.
  rewrite (children_blocks_perm blkC) by assumption.
  rewrite (concat_map_split _ _ _ _ Hall).
  rewrite !app_assoc. apply Permutation_app_tail, Permutation_app_comm.
Qed.

Lemma sectors_double_split (p : DoubleIndirectPointer) :
  wf_double p -> sectors_double p ≡ₚ data_double p ++ blocks_double p.
Proof.
  intros (Hlp & Hlt & Hnp & _ & _ & _).
  unfold sectors_double, data_double, blocks_double.
  apply children_blocks_split; [lia|lia|].
  apply Forall_forall. intros c _. unfold sectors_single, data_single,
    blocks_single. rewrite app_nil_r. reflexivity.
Qed.

Lemma sectors_triple_split (p : TripleIndirectPointer) :
  wf_triple p -> sectors_triple p ≡ₚ data_triple p ++ blocks_triple p.
Proof.
  intros (Hlp & Hlt & Hnp & _ & Hok & _).
  unfold sectors_triple, data_triple, blocks_triple.
  apply children_blocks_split; [lia|lia|].
  eapply Forall_impl; [exact Hok|]. intros c Hc.
  apply sectors_double_split, Hc.
Qed.

Lemma sectors_ptr_split (p : DataPointerInterface) :
  wf_ptr p -> sectors_ptr p ≡ₚ data_ptr p ++ blocks_ptr p.
Proof.
  destruct p as [q|q|q|q]; cbn [wf_ptr sectors_ptr data_ptr blocks_ptr];
    intros Hwf.
  - reflexivity.
  - unfold sectors_single, data_single, blocks_single. rewrite app_nil_r.
    reflexivity.
  - apply sectors_double_split, Hwf.
  - apply sectors_triple_split, Hwf.
Qed.

Lemma wf_hdr_entries (h : FileHeader) :
  wf_hdr h ->
  Forall (fun e => sectors_entry e ≡ₚ data_entry e ++ blocks_entry e)
         (take (Z.to_nat (numPointer h)) (table h)).
Proof.
  intros ((_ & _ & _ & _ & Hok & _) & _).
  eapply Forall_impl; [exact Hok|]. intros e (p & -> & Hp & _).
  apply sectors_ptr_split, Hp.
Qed.

(** The sectors of a header are its data sectors and its pointer blocks;
    they are also the sectors that [Deallocate] clears and those it passes
    over. *)
Lemma sectors_hdr_split (h : FileHeader) :
  wf_hdr h ->
  sectors_hdr h ≡ₚ data_hdr h ++ blocks_hdr h /\
  sectors_hdr h ≡ₚ cleared_hdr h ++ leaked_hdr h.
Proof.
  intros Hwf. pose proof (wf_hdr_entries h Hwf) as Hall.
  destruct Hwf as ((Hlp & Hlt & Hnp & _) & _).
  unfold sectors_hdr, data_hdr, blocks_hdr, cleared_hdr, leaked_hdr.
  split.
  - apply children_blocks_split; [lia|lia|exact Hall].
  - rewrite (children_blocks_perm sectors_entry) by lia.
    rewrite (children_blocks_perm data_entry) by lia.
    rewrite (concat_map_split _ _ _ _ Hall). rewrite app_assoc. reflexivity.
Qed.

Lemma bitmap_ext (a b : Bitmap) :
  length a = length b -> (forall x, Test x a = Test x b) -> a = b.
Proof.
  intros Hl Ht. apply list_eq. intros i.
  specialize (Ht (Z.of_nat i)). unfold Test in Ht.
  destruct (Z.ltb_spec (Z.of_nat i) 0) as [|_]; [lia|].
  rewrite Nat2Z.id in Ht.
  destruct (a !! i) as [x|] eqn:Ea; destruct (b !! i) as [y|] eqn:Eb.
  - simpl in Ht. congruence.
  - apply lookup_lt_Some in Ea. apply lookup_ge_None in Eb. lia.
  - apply lookup_ge_None in Ea. apply lookup_lt_Some in Eb. lia.
  - reflexivity.
Qed.

Lemma leaked_hdr_low_level (h : FileHeader) :
  wf_hdr h -> level h <= 2 -> leaked_hdr h = [].
Proof.
  intros ((_ & _ & _ & _ & Hok & _) & _) Hlv. unfold leaked_hdr.
  induction Hok as [|e l (p & -> & _ & Hk) _ IH]; [reflexivity|].
  cbn [map concat]. rewrite IH. rewrite app_nil_r.
  destruct p; cbn in *; try reflexivity;
    unfold LEVEL_3, LEVEL_4 in Hk; lia.
Qed.

Lemma FileHeader_Allocate_then_Deallocate_aux (nb0 np0 lv0 : Z)
    (ps0 : list Z) (h : FileHeader) (fm fm' : Bitmap) (s : Z) :
  FileHeader_Allocate (FileHeader_new nb0 np0 lv0 ps0) fm s = Ok (true, h, fm') ->
  exists h' fm'',
    FileHeader_Deallocate h fm' = Ok (h', fm'') /\
    (forall x, Test x fm'' =
               if bool_decide (x ∈ leaked_hdr h) then true else Test x fm) /\
    (forall x, x ∈ leaked_hdr h -> Test x fm = false).
Proof.
  intros Hal.
  destruct (FileHeader_Allocate_layout _ _ _ _ _ _ _ _ Hal)
    as (Hwf & Hgood & Htk).
  destruct (sectors_hdr_split h Hwf) as (_ & Hsplit).
  pose proof (taken_perm _ _ _ _ Hsplit Htk)
    as ((Hnd & Hall & _) & Hlen & Hframe & _).
  assert (Hheld : held fm' (cleared_hdr h)).
  { apply NoDup_app in Hnd. destruct Hnd as (Hnd & _ & _).
    apply Forall_app in Hall. destruct Hall as (Hall & _).
    split; [exact Hnd|]. eapply Forall_impl; [exact Hall|].
    intros x [_ Hx]. exact Hx. }
  destruct (FileHeader_Deallocate_spec h _ fm' Hwf Hgood Hheld)
    as (h' & fm'' & Hd & (Hlen' & Hrel) & Htb).
  exists h', fm''. split; [exact Hd|].
  rewrite Forall_app in Hall. destruct Hall as (Hc & Hl).
  rewrite Forall_forall in Hc, Hl.
  split; [|intros x Hx; apply (Hl x Hx)].
  intros x. rewrite Hrel.
  apply NoDup_app in Hnd. destruct Hnd as (_ & Hdisj & _).
  destruct (bool_decide_reflect (x ∈ cleared_hdr h)) as [H1|H1];
    destruct (bool_decide_reflect (x ∈ leaked_hdr h)) as [H2|H2].
  - exfalso. exact (Hdisj x H1 H2).
  - symmetry. apply (Hc x H1).
  - apply (Hl x H2).
  - apply Hframe. rewrite elem_of_app. tauto.
Qed.

(** X14.  Allocate then deallocate: on the header that
    [FileHeader::Allocate] has built for any size, [Deallocate] succeeds
    (none of its assertions fails), empties the table, and clears the bit
    of every data sector and of every top-level pointer block, so that
    the bitmap is the one from before the allocation except for the
    pointer blocks below the top level, which [Deallocate] passes over and
    which stay marked; a header of level 1 or 2 has none, and the bitmap
    is then exactly the one from before. *)
Theorem FileHeader_Allocate_then_Deallocate (nb0 np0 lv0 : Z) (ps0 : list Z)
    (h : FileHeader) (fm fm' : Bitmap) (s : Z) :
  FileHeader_Allocate (FileHeader_new nb0 np0 lv0 ps0) fm s = Ok (true, h, fm') ->
  exists h' fm'',
    FileHeader_Deallocate h fm' = Ok (h', fm'') /\
    table h' = replicate (Z.to_nat NUM_FILE_HEADER_POINTER) None /\
    length fm'' = length fm /\
    (forall x, Test x fm'' =
               if bool_decide (x ∈ leaked_hdr h) then true else Test x fm) /\
    (level h <= 2 -> fm'' = fm).
Proof.
  intros Hal.
  destruct (FileHeader_Allocate_layout _ _ _ _ _ _ _ _ Hal)
    as (Hwf & Hgood & Htk).
  destruct (sectors_hdr_split h Hwf) as (_ & Hsplit).
  pose proof (taken_perm _ _ _ _ Hsplit Htk)
    as ((Hnd & Hall & _) & Hlen & _).
  assert (Hheld : held fm' (cleared_hdr h)).
  { apply NoDup_app in Hnd. destruct Hnd as (Hnd & _ & _).
    apply Forall_app in Hall. destruct Hall as (Hall & _).
    split; [exact Hnd|]. eapply Forall_impl; [exact Hall|].
    intros x [_ Hx]. exact Hx. }
  destruct (FileHeader_Deallocate_spec h _ fm' Hwf Hgood Hheld)
    as (h' & fm'' & Hd & (Hlen' & _) & Htb).
  destruct (FileHeader_Allocate_then_Deallocate_aux _ _ _ _ _ _ _ _ Hal)
    as (h2 & fm2 & Hd2 & Hext & _).
  rewrite Hd in Hd2. inversion Hd2; subst h2 fm2; clear Hd2.
  exists h', fm''. split; [exact Hd|]. split; [exact Htb|].
  split; [congruence|]. split; [exact Hext|].
  intros Hlv. apply bitmap_ext; [congruence|].
  intros x. rewrite Hext, (leaked_hdr_low_level h Hwf Hlv). reflexivity.
Qed.

Lemma FileHeader_Allocate_then_Deallocate_witness :
  exists h fm' h' fm'',
    FileHeader_Allocate (FileHeader_new 0 0 0 []) (Mark 0 (Bitmap_new 128)) 4000
      = Ok (true, h, fm') /\
    FileHeader_Deallocate h fm' = Ok (h', fm'') /\
    fm'' = Mark 0 (Bitmap_new 128).
Proof.
  assert (Hal : exists h fm',
            FileHeader_Allocate (FileHeader_new 0 0 0 [])
              (Mark 0 (Bitmap_new 128)) 4000 = Ok (true, h, fm') /\
            level h <= 2).
  { do 2 eexists. split; vm_compute; [reflexivity|discriminate]. }
  destruct Hal as (h & fm' & Hal & Hlv).
  destruct (FileHeader_Allocate_then_Deallocate 0 0 0 [] h _ fm' 4000 Hal)
    as (h' & fm'' & Hd & _ & _ & _ & Heq).
  exists h, fm', h', fm''. split; [exact Hal|]. split; [exact Hd|].
  exact (Heq Hlv).
Defined.

Lemma children_blocks_head {C : Type} (blocks : C -> list Z) (n : nat)
    (tb : list C) (ps : list Z) (c : C) (s : Z) :
  (0 < n)%nat -> tb !! O = Some c -> ps !! O = Some s ->
  s ∈ children_blocks blocks n tb ps.
Proof.
  intros Hn Hc Hs. apply elem_of_children_blocks.
  exists O, c, s. split; [exact Hn|]. split; [exact Hc|]. split; [exact Hs|].
  left.
Qed.

Lemma good_node_first {C : Type} (goodC : Z -> C -> Prop) (cap m np : Z)
    (tb : list C) :
  0 < cap -> 0 < m -> good_node goodC cap m np tb ->
  (0 < Z.to_nat np)%nat /\
  exists c, tb !! O = Some c /\ goodC (Z.min m cap) c.
Proof.
  intros Hcap Hm (Hnp & Hle & Hg).
  assert (H1 : (0 < Z.to_nat np)%nat) by nia.
  split; [exact H1|]. destruct (Hg O H1) as (_ & c & Hc & Hgc).
  exists c. split; [exact Hc|]. rewrite Z.mul_0_l, Z.sub_0_r in Hgc. exact Hgc.
Qed.

(** A header of level 3 or 4 that holds at least one sector has a pointer
    block below its top level. *)
Lemma leaked_hdr_high_level (h : FileHeader) (m : Z) :
  wf_hdr h -> good_hdr m h -> 0 < m -> 3 <= level h <= 4 ->
  exists x, x ∈ leaked_hdr h.
Proof.
  intros ((_ & _ & _ & _ & Hok & _) & _) Hgood Hm Hlv.
  assert (Hcap : 0 < at_index SECTOR_NUM_IN_LEVEL (level h - 1)).
  { destruct (Z.eq_dec (level h) 3) as [->|]; [reflexivity|].
    replace (level h) with 4 by lia. reflexivity. }
  destruct (good_node_first _ _ _ _ _ Hcap Hm Hgood) as (Hnp & e & He & p & -> & Hp).
  assert (Hwf : wf_entry (level h) (Some p)).
  { rewrite Forall_lookup in Hok. apply (Hok O).
    rewrite lookup_take_lt by exact Hnp. exact He. }
  destruct Hwf as (p' & Hp' & Hwfp & Hk). inversion Hp'; subst p'; clear Hp'.
  assert (Hin : exists x, x ∈ blocks_ptr p).
  { set (m0 := Z.min m (at_index SECTOR_NUM_IN_LEVEL (level h - 1))) in *.
    assert (Hm0 : 0 < m0) by (unfold m0; lia).
    destruct p as [q|q|q|q]; cbn [kind_of] in Hk;
      unfold LEVEL_1, LEVEL_2, LEVEL_3, LEVEL_4 in Hk; try lia;
      cbn [good_ptr wf_ptr blocks_ptr] in *.
    - destruct (good_node_first good_single LEVEL_1_SECTOR_NUM m0
                  (d_numPointer q) (d_table q) eq_refl Hm0 Hp)
        as (Hn & c & Hc & _).
      destruct Hwfp as (Hlp & _).
      destruct (lookup_lt_is_Some_2 (d_pointerSectors q) O
                  ltac:(rewrite Hlp; vm_compute; lia)) as [s0 Hs0].
      exists s0. eapply children_blocks_head; eassumption.
    - destruct (good_node_first good_double LEVEL_2_SECTOR_NUM m0
                  (t_numPointer q) (t_table q) eq_refl Hm0 Hp)
        as (Hn & c & Hc & _).
      destruct Hwfp as (Hlp & _).
      destruct (lookup_lt_is_Some_2 (t_pointerSectors q) O
                  ltac:(rewrite Hlp; vm_compute; lia)) as [s0 Hs0].
      exists s0. eapply children_blocks_head; eassumption. }
  destruct Hin as (x & Hx). exists x. unfold leaked_hdr.
  assert (Hhd : take (Z.to_nat (numPointer h)) (table h) !! O = Some (Some p))
    by (rewrite lookup_take_lt by exact Hnp; exact He).
  destruct (take (Z.to_nat (numPointer h)) (table h)) as [|e l];
    [discriminate|].
  inversion Hhd; subst e. cbn [map concat blocks_entry].
  apply elem_of_app. left. exact Hx.
Qed.

(** X15.  A file of more than [LEVEL_2_SIZE] bytes cannot be given
    back in full: after [Allocate] and then [Deallocate] on its header,
    the pointer blocks below the top level, of which there is at least
    one, are marked in the bitmap although they were free before the
    allocation; neither [DoubleIndirectPointer::Deallocate] nor
    [TripleIndirectPointer::Deallocate] clears the bits of
    [pointerSectors]. *)
Theorem FileHeader_Deallocate_leaks_pointer_blocks (nb0 np0 lv0 : Z)
    (ps0 : list Z) (h : FileHeader) (fm fm' : Bitmap) (s : Z) :
  int_range s -> LEVEL_2_SIZE < s ->
  FileHeader_Allocate (FileHeader_new nb0 np0 lv0 ps0) fm s = Ok (true, h, fm') ->
  exists h' fm'',
    FileHeader_Deallocate h fm' = Ok (h', fm'') /\
    (exists x, x ∈ leaked_hdr h) /\
    forall x, x ∈ leaked_hdr h -> Test x fm = false /\ Test x fm'' = true.
Proof.
  intros Hr Hs Hal.
  destruct (FileHeader_Allocate_then_Deallocate_aux _ _ _ _ _ _ _ _ Hal)
    as (h' & fm'' & Hd & Hext & Hfree).
  exists h', fm''. split; [exact Hd|].
  destruct (FileHeader_Allocate_layout _ _ _ _ _ _ _ _ Hal)
    as (Hwf & Hgood & _).
  destruct (FileHeader_Allocate_fields _ _ _ _ _ Hal) as (_ & Hl & _).
  destruct (Allocate_level_range s _ Hr Hl) as (H0 & Hlv).
  split.
  - apply (leaked_hdr_high_level h _ Hwf Hgood).
    + pose proof (divRoundUp_spec s SectorSize H0 ltac:(reflexivity)).
      change LEVEL_2_SIZE with 119040 in Hs. change SectorSize with 128 in *. lia.
    + change LEVEL_1_SIZE with 3840 in Hlv.
      change LEVEL_2_SIZE with 119040 in Hlv, Hs. lia.
  - intros x Hx. split; [apply Hfree, Hx|].
    rewrite Hext. rewrite bool_decide_eq_true_2 by exact Hx. reflexivity.
Qed.

Lemma FileHeader_Deallocate_leaks_pointer_blocks_witness :
  exists h fm' h' fm'',
    int_range 119041 /\ LEVEL_2_SIZE < 119041 /\
    FileHeader_Allocate (FileHeader_new 0 0 0 []) (Bitmap_new 1024) 119041
      = Ok (true, h, fm') /\
    FileHeader_Deallocate h fm' = Ok (h', fm'') /\
    (exists x, x ∈ leaked_hdr h) /\
    forall x, x ∈ leaked_hdr h ->
      Test x (Bitmap_new 1024) = false /\ Test x fm'' = true.
Proof.
  assert (Hr : int_range 119041) by (vm_compute; split; congruence).
  assert (Hs : LEVEL_2_SIZE < 119041) by reflexivity.
  assert (Hal : exists h fm',
            FileHeader_Allocate (FileHeader_new 0 0 0 []) (Bitmap_new 1024)
              119041 = Ok (true, h, fm')).
  { do 2 eexists. vm_compute. reflexivity. }
  destruct Hal as (h & fm' & Hal).
  destruct (FileHeader_Deallocate_leaks_pointer_blocks 0 0 0 [] h _ fm' 119041
              Hr Hs Hal) as (h' & fm'' & Hd & Hex & Hall).
  exists h, fm', h', fm''.
  split; [exact Hr|]. split; [exact Hs|]. split; [exact Hal|].
  split; [exact Hd|]. split; [exact Hex|exact Hall].
Defined.
(** ** The number of sectors of a file *)

Lemma good_node_data_length {C : Type} (goodC : Z -> C -> Prop)
    (dataC : C -> list Z) (cap m np : Z) (tb : list C) :
  0 < cap -> 0 <= m ->
  (forall k c, 0 < k -> goodC k c -> Z.of_nat (length (dataC c)) = k) ->
  good_node goodC cap m np tb ->
  forall j : nat, (j <= Z.to_nat np)%nat ->
    Z.of_nat (length (concat (map dataC (take j tb))))
      = Z.min m (Z.of_nat j * cap).
Proof.
  intros Hcap Hm Hlen (Hnp & Hle & Hg) j. induction j as [|j IH]; intros Hj.
  - simpl. lia.
  - destruct (Hg j ltac:(lia)) as (Hpos & c & Hc & Hgc).
    rewrite (take_S_r _ _ c) by exact Hc.
    rewrite map_app, concat_app, length_app. cbn [map concat].
    rewrite app_nil_r, Nat2Z.inj_add, IH by lia.
    rewrite (Hlen (Z.min (m - Z.of_nat j * cap) cap) c ltac:(lia) Hgc).
    rewrite Nat2Z.inj_succ, Z.mul_succ_l. lia.
Qed.

Lemma good_single_length (k : Z) (p : SingleIndirectPointer) :
  0 < k -> good_single k p -> Z.of_nat (length (data_single p)) = k.
Proof.
  intros Hk (Hm & Hle & _). unfold data_single. rewrite Hm, length_take. lia.
Qed.

Lemma good_double_length (k : Z) (p : DoubleIndirectPointer) :
  0 < k -> good_double k p -> Z.of_nat (length (data_double p)) = k.
Proof.
  intros Hk Hg. unfold data_double.
  rewrite (good_node_data_length good_single data_single LEVEL_1_SECTOR_NUM k
             (d_numPointer p) (d_table p) eq_refl (Z.lt_le_incl _ _ Hk)
             good_single_length Hg _ (le_n _)).
  destruct Hg as (Hnp & Hle & _). rewrite Z2Nat.id by exact Hnp. lia.
Qed.

Lemma good_triple_length (k : Z) (p : TripleIndirectPointer) :
  0 < k -> good_triple k p -> Z.of_nat (length (data_triple p)) = k.
Proof.
  intros Hk Hg. unfold data_triple.
  rewrite (good_node_data_length good_double data_double LEVEL_2_SECTOR_NUM k
             (t_numPointer p) (t_table p) eq_refl (Z.lt_le_incl _ _ Hk)
             good_double_length Hg _ (le_n _)).
  destruct Hg as (Hnp & Hle & _). rewrite Z2Nat.id by exact Hnp. lia.
Qed.

Lemma good_entry_length (k : Z) (e : option DataPointerInterface) :
  0 < k -> good_entry k e -> Z.of_nat (length (data_entry e)) = k.
Proof.
  intros Hk (p & -> & Hp). cbn [data_entry].
  destruct p as [q|q|q|q]; cbn [good_ptr data_ptr] in *.
  - destruct Hp as [-> _]. reflexivity.
  - apply good_single_length; assumption.
  - apply good_double_length; assumption.
  - apply good_triple_length; assumption.
Qed.

Lemma level_capacity_pos (lv : Z) :
  1 <= lv <= 4 -> 0 < at_index SECTOR_NUM_IN_LEVEL (lv - 1).
Proof.
  intros H. assert (E : lv = 1 \/ lv = 2 \/ lv = 3 \/ lv = 4) by lia.
  destruct E as [->|[->|[->| ->]]]; reflexivity.
Qed.

Lemma wf_hdr_level (h : FileHeader) : wf_hdr h -> 1 <= level h <= 4.
Proof.
  intros (_ & Hl). unfold FetchFrom_level in Hl.
  repeat match type of Hl with
  | (if ?c then _ else _) = _ => destruct c
  end; inversion Hl; unfold LEVEL_1, LEVEL_2, LEVEL_3, LEVEL_4; lia.
Qed.

Lemma good_hdr_data_length (h : FileHeader) (m : Z) :
  wf_hdr h -> 0 <= m -> good_hdr m h ->
  Z.of_nat (length (data_hdr h)) = m.
Proof.
  intros Hwf Hm Hg. unfold data_hdr.
  rewrite (good_node_data_length good_entry data_entry _ m
             (numPointer h) (table h)
             (level_capacity_pos _ (wf_hdr_level h Hwf)) Hm
             good_entry_length Hg _ (le_n _)).
  destruct Hg as (Hnp & Hle & _). rewrite Z2Nat.id by exact Hnp. lia.
Qed.

Lemma length_children_blocks_nil {C : Type} (blocks : C -> list Z) (n : nat)
    (tb : list C) (ps : list Z) :
  (n <= length tb)%nat -> (n <= length ps)%nat ->
  Forall (fun c => blocks c = []) (take n tb) ->
  length (children_blocks blocks n tb ps) = n.
Proof.
  intros Ht Hp Hall.
  rewrite (Permutation_length (children_blocks_perm blocks n tb ps Ht Hp)).
  rewrite length_app, length_take.
  replace (concat (map blocks (take n tb))) with (@nil Z); [simpl; lia|].
  induction Hall as [|c l Hc _ IH]; [reflexivity|].
  cbn [map concat]. rewrite Hc, <- IH. reflexivity.
Qed.

Lemma FileHeader_Allocate_count (nb0 np0 lv0 : Z) (ps0 : list Z)
    (h : FileHeader) (fm fm' : Bitmap) (s : Z) :
  int_range s ->
  FileHeader_Allocate (FileHeader_new nb0 np0 lv0 ps0) fm s = Ok (true, h, fm') ->
  0 <= divRoundUp s SectorSize /\
  Z.of_nat (length (data_hdr h)) = divRoundUp s SectorSize /\
  taken fm fm' (data_hdr h ++ blocks_hdr h).
Proof.
  intros Hr Hal.
  destruct (FileHeader_Allocate_layout _ _ _ _ _ _ _ _ Hal)
    as (Hwf & Hgood & Htk).
  destruct (FileHeader_Allocate_fields _ _ _ _ _ Hal) as (_ & Hl & _).
  destruct (Allocate_level_range s _ Hr Hl) as (H0 & _).
  assert (Hns : 0 <= divRoundUp s SectorSize).
  { pose proof (divRoundUp_spec s SectorSize H0 ltac:(reflexivity)).
    change SectorSize with 128 in *. lia. }
  split; [exact Hns|].
  split; [exact (good_hdr_data_length h _ Hwf Hns Hgood)|].
  destruct (sectors_hdr_split h Hwf) as (Hsplit & _).
  exact (taken_perm _ _ _ _ Hsplit Htk).
Qed.

(** X16.  What a file costs: a successful [FileHeader::Allocate] of
    [s] bytes takes from the bitmap one sector per started [SectorSize]
    bytes for the data and one per pointer block, all of them distinct and
    free before, and changes no other bit.  At level 1 every data sector
    has a pointer block of its own, so that the file costs twice its data
    sectors; at level 2 the pointer blocks are the [numPointer] of the
    header. *)
Theorem FileHeader_Allocate_cost (nb0 np0 lv0 : Z) (ps0 : list Z)
    (h : FileHeader) (fm fm' : Bitmap) (s : Z) :
  int_range s ->
  FileHeader_Allocate (FileHeader_new nb0 np0 lv0 ps0) fm s = Ok (true, h, fm') ->
  let ns := divRoundUp s SectorSize in
  Z.of_nat (length (data_hdr h)) = ns /\
  NumClear fm' = NumClear fm - ns - Z.of_nat (length (blocks_hdr h)) /\
  NoDup (data_hdr h ++ blocks_hdr h) /\
  (forall x, x ∈ data_hdr h ++ blocks_hdr h ->
             Test x fm = false /\ Test x fm' = true) /\
  (forall x, x ∉ data_hdr h ++ blocks_hdr h -> Test x fm' = Test x fm) /\
  (level h = 1 -> NumClear fm' = NumClear fm - 2 * ns) /\
  (level h = 2 -> NumClear fm' = NumClear fm - ns - numPointer h).
Proof.
  intros Hr Hal ns.
  destruct (FileHeader_Allocate_layout _ _ _ _ _ _ _ _ Hal)
    as (Hwf & Hgood & _).
  destruct (FileHeader_Allocate_count _ _ _ _ _ _ _ _ Hr Hal)
    as (Hns & Hdl & (Hnd & Hall & _) & _ & Hframe & Hcount).
  fold ns in Hns, Hdl.
  rewrite length_app, Nat2Z.inj_add, Hdl in Hcount.
  split; [exact Hdl|]. split; [lia|]. split; [exact Hnd|].
  split; [rewrite Forall_forall in Hall; exact Hall|].
  split; [exact Hframe|].
  assert (Hblk : level h <= 2 ->
            Z.of_nat (length (blocks_hdr h)) = numPointer h).
  { intros Hlv. destruct Hwf as ((Hlp & Hlt & Hnp & _ & Hok & _) & _).
    unfold blocks_hdr. rewrite length_children_blocks_nil; [lia|lia|lia|].
    eapply Forall_impl; [exact Hok|]. intros e (p & -> & _ & Hk).
    destruct p; cbn in *; try reflexivity; unfold LEVEL_3, LEVEL_4 in Hk; lia. }
  split.
  - intros Hlv. rewrite Hblk in Hcount by lia.
    destruct Hgood as (Hnp & Hle & Hg). rewrite Hlv in Hle, Hg.
    change (at_index SECTOR_NUM_IN_LEVEL (1 - 1)) with 1 in Hle, Hg.
    destruct (Z.to_nat (numPointer h)) as [|k] eqn:Ek; [lia|].
    destruct (Hg k ltac:(lia)) as (Hpos & _). lia.
  - intros Hlv. rewrite Hblk in Hcount by lia. lia.
Qed.

Lemma FileHeader_Allocate_cost_witness :
  exists h fm',
    int_range 4000 /\
    FileHeader_Allocate (FileHeader_new 0 0 0 []) (Bitmap_new 128) 4000
      = Ok (true, h, fm') /\
    Z.of_nat (length (data_hdr h)) = 32 /\
    NumClear fm' = 128 - 32 - 2.
Proof.
  assert (Hr : int_range 4000) by (vm_compute; split; congruence).
  assert (Hal : exists h fm',
            FileHeader_Allocate (FileHeader_new 0 0 0 []) (Bitmap_new 128)
              4000 = Ok (true, h, fm') /\ level h = 2 /\ numPointer h = 2).
  { do 2 eexists. split; [vm_compute; reflexivity|]. split; reflexivity. }
  destruct Hal as (h & fm' & Hal & Hlv & Hnp).
  destruct (FileHeader_Allocate_cost 0 0 0 [] h _ fm' 4000 Hr Hal)
    as (Hd & _ & _ & _ & _ & _ & H2).
  exists h, fm'. split; [exact Hr|]. split; [exact Hal|].
  split; [exact Hd|]. rewrite (H2 Hlv), Hnp. reflexivity.
Defined.
(** ** Refusal *)

Lemma Allocate_level_out_of_range (s : Z) :
  int_range s -> s < 0 \/ LEVEL_4_SIZE < s -> Allocate_level s = None.
Proof.
  intros Hr Hs. destruct (Allocate_level s) as [lv|] eqn:E; [|reflexivity].
  destruct (Allocate_level_range s lv Hr E) as (H0 & Hlv). exfalso.
  change LEVEL_1_SIZE with 3840 in Hlv. change LEVEL_2_SIZE with 119040 in Hlv.
  change LEVEL_3_SIZE with 3690240 in Hlv.
  change LEVEL_4_SIZE with 114397440 in Hlv, Hs. lia.
Qed.

(** X17.  A size that is negative or exceeds [LEVEL_4_SIZE] is
    refused by [FileHeader::Allocate] whatever the bitmap holds: the
    comparison chain, which converts the size to unsigned, finds no level;
    the call returns FALSE having stored the size in [numBytes] and
    nothing else, and the bitmap is as it was. *)
Theorem FileHeader_Allocate_rejects_size (this : FileHeader) (fm : Bitmap)
    (s : Z) :
  int_range s -> s < 0 \/ LEVEL_4_SIZE < s ->
  FileHeader_Allocate this fm s
    = Ok (false, {| numBytes := s; numPointer := numPointer this;
                    pointerSectors := pointerSectors this;
                    level := level this; table := table this |}, fm).
Proof.
  intros Hr Hs. unfold FileHeader_Allocate.
  rewrite (Allocate_level_out_of_range s Hr Hs). reflexivity.
Qed.

Lemma FileHeader_Allocate_rejects_size_witness :
  int_range (-1) /\
  FileHeader_Allocate (FileHeader_new 0 0 0 []) (Bitmap_new 128) (-1)
    = Ok (false, {| numBytes := -1; numPointer := 0;
                    pointerSectors := pointerSectors (FileHeader_new 0 0 0 []);
                    level := 0;
                    table := table (FileHeader_new 0 0 0 []) |},
          Bitmap_new 128).
Proof.
  assert (Hr : int_range (-1)) by (vm_compute; split; congruence).
  split; [exact Hr|].
  exact (FileHeader_Allocate_rejects_size (FileHeader_new 0 0 0 [])
           (Bitmap_new 128) (-1) Hr (or_introl eq_refl)).
Defined.

Lemma FileHeader_Allocate_false (this h : FileHeader) (fm fm' : Bitmap)
    (s : Z) :
  FileHeader_Allocate this fm s = Ok (false, h, fm') ->
  fm' = fm /\ table h = table this /\
  pointerSectors h = pointerSectors this /\ numBytes h = s /\
  (Allocate_level s = None \/
   exists lv, Allocate_level s = Some lv /\
              NumClear fm < Allocate_numPointer s lv).
Proof.
  unfold FileHeader_Allocate. intros H.
  destruct (Allocate_level s) as [lv|] eqn:El.
  - apply ASSERT_Ok in H. destruct H as (_ & H).
    destruct (NumClear fm <? _) eqn:En.
    + inversion H; subst; clear H. cbn. repeat split; try reflexivity.
      right. exists lv. split; [reflexivity|]. apply Z.ltb_lt in En. exact En.
    + apply bind_Ok in H. destruct H as ([ps fm1] & _ & H).
      apply bind_Ok in H. destruct H as ([[tb fm2] rem] & _ & H).
      apply ASSERT_Ok in H. destruct H as (_ & H). discriminate.
  - inversion H; subst; clear H. cbn. repeat split; try reflexivity.
    left. reflexivity.
Qed.

(** ** Operations without fuel *)

Lemma bind_OutOfFuel {A B : Type} (m : res A) (f : A -> res B) :
  (m ≫= f) = OutOfFuel ->
  m = OutOfFuel \/ exists a, m = Ok a /\ f a = OutOfFuel.
Proof.
  destruct m; cbn; intros H; [right; eauto|discriminate|left; reflexivity].
Qed.

Lemma ASSERT_OutOfFuel {A : Type} (c : bool) (k : res A) :
  ASSERT c k = OutOfFuel -> k = OutOfFuel.
Proof. destruct c; [auto|discriminate]. Qed.

Lemma for_from_fuel {St : Type} (body : nat -> St -> res St) (n i : nat)
    (s : St) :
  (forall j t, body j t <> OutOfFuel) ->
  for_from i n body s <> OutOfFuel.
Proof.
  intros Hb. revert i s. induction n as [|n IH]; intros i s; cbn [for_from].
  - discriminate.
  - intros H. apply bind_OutOfFuel in H.
    destruct H as [H|(t & _ & H)]; [exact (Hb _ _ H)|exact (IH _ _ H)].
Qed.

Lemma array_get_fuel {A : Type} (a : list A) (i : nat) :
  array_get a i <> OutOfFuel.
Proof. unfold array_get. destruct (a !! i); discriminate. Qed.

Lemma array_set_fuel {A : Type} (a : list A) (i : nat) (x : A) :
  array_set a i x <> OutOfFuel.
Proof. unfold array_set. destruct (decide _); discriminate. Qed.

Lemma alloc_pointerSectors_fuel (n : Z) (ps : list Z) (fm : Bitmap) :
  alloc_pointerSectors n ps fm <> OutOfFuel.
Proof.
  unfold alloc_pointerSectors, for_. apply for_from_fuel.
  intros j [psj fmj]. destruct (FindAndSet fmj) as [s fm1].
  intros H. apply bind_OutOfFuel in H.
  destruct H as [H|(a & _ & H)]; [exact (array_set_fuel _ _ _ H)|].
  apply ASSERT_OutOfFuel in H. discriminate.
Qed.

Lemma SingleIndirectPointer_Allocate_fuel (p : SingleIndirectPointer)
    (fm : Bitmap) (n : Z) :
  SingleIndirectPointer_Allocate p fm n <> OutOfFuel.
Proof.
  unfold SingleIndirectPointer_Allocate. intros H.
  apply ASSERT_OutOfFuel in H. destruct (NumClear fm <? n); [discriminate|].
  apply bind_OutOfFuel in H.
  destruct H as [H|([ps fm1] & _ & H)];
    [exact (alloc_pointerSectors_fuel _ _ _ H)|discriminate].
Qed.

Lemma DoubleIndirectPointer_Allocate_fuel (p : DoubleIndirectPointer)
    (fm : Bitmap) (n : Z) :
  DoubleIndirectPointer_Allocate p fm n <> OutOfFuel.
Proof.
  unfold DoubleIndirectPointer_Allocate. intros H.
  apply ASSERT_OutOfFuel in H. destruct (NumClear fm <? _); [discriminate|].
  apply bind_OutOfFuel in H.
  destruct H as [H|([ps fm1] & _ & H)];
    [exact (alloc_pointerSectors_fuel _ _ _ H)|].
  apply bind_OutOfFuel in H. destruct H as [H|([[tb fm2] rem] & _ & H)].
  - revert H. apply for_from_fuel. intros j [[tbj fmj] remj] H.
    apply ASSERT_OutOfFuel in H. apply bind_OutOfFuel in H.
    destruct H as [H|(c & _ & H)]; [exact (array_get_fuel _ _ H)|].
    apply bind_OutOfFuel in H. destruct H as [H|([[ok c'] fmx] & _ & H)];
      [exact (SingleIndirectPointer_Allocate_fuel _ _ _ H)|].
    apply ASSERT_OutOfFuel in H. discriminate.
  - apply ASSERT_OutOfFuel in H. discriminate.
Qed.

Lemma TripleIndirectPointer_Allocate_fuel (p : TripleIndirectPointer)
    (fm : Bitmap) (n : Z) :
  TripleIndirectPointer_Allocate p fm n <> OutOfFuel.
Proof.
  unfold TripleIndirectPointer_Allocate. intros H.
  apply ASSERT_OutOfFuel in H. destruct (NumClear fm <? _); [discriminate|].
  apply bind_OutOfFuel in H.
  destruct H as [H|([ps fm1] & _ & H)];
    [exact (alloc_pointerSectors_fuel _ _ _ H)|].
  apply bind_OutOfFuel in H. destruct H as [H|([[tb fm2] rem] & _ & H)].
  - revert H. apply for_from_fuel. intros j [[tbj fmj] remj] H.
    apply ASSERT_OutOfFuel in H. apply bind_OutOfFuel in H.
    destruct H as [H|(c & _ & H)]; [exact (array_get_fuel _ _ H)|].
    apply bind_OutOfFuel in H. destruct H as [H|([[ok c'] fmx] & _ & H)];
      [exact (DoubleIndirectPointer_Allocate_fuel _ _ _ H)|].
    apply ASSERT_OutOfFuel in H. discriminate.
  - apply ASSERT_OutOfFuel in H. discriminate.
Qed.

Lemma DataPointer_Allocate_fuel (p : DataPointerInterface) (fm : Bitmap)
    (n : Z) :
  DataPointer_Allocate p fm n <> OutOfFuel.
Proof.
  destruct p as [q|q|q|q]; cbn [DataPointer_Allocate]; intros H;
    apply bind_OutOfFuel in H; destruct H as [H|([[ok c'] fmx] & _ & H)];
    try discriminate.
  - unfold DirectPointer_Allocate in H. apply ASSERT_OutOfFuel in H.
    destruct (NumClear fm <? n); [discriminate|].
    destruct (FindAndSet fm). apply ASSERT_OutOfFuel in H. discriminate.
  - exact (SingleIndirectPointer_Allocate_fuel _ _ _ H).
  - exact (DoubleIndirectPointer_Allocate_fuel _ _ _ H).
  - exact (TripleIndirectPointer_Allocate_fuel _ _ _ H).
Qed.

Lemma FileHeader_Allocate_fuel (this : FileHeader) (fm : Bitmap) (s : Z) :
  FileHeader_Allocate this fm s <> OutOfFuel.
Proof.
  unfold FileHeader_Allocate. intros H.
  destruct (Allocate_level s) as [lv|]; [|discriminate].
  apply ASSERT_OutOfFuel in H. destruct (NumClear fm <? _); [discriminate|].
  apply bind_OutOfFuel in H.
  destruct H as [H|([ps fm1] & _ & H)];
    [exact (alloc_pointerSectors_fuel _ _ _ H)|].
  apply bind_OutOfFuel in H. destruct H as [H|([[tb fm2] rem] & _ & H)].
  - revert H. apply for_from_fuel. intros j [[tbj fmj] remj] H.
    destruct (GetNewPointerByLevel lv) as [p|]; [|discriminate].
    apply ASSERT_OutOfFuel in H.
    apply bind_OutOfFuel in H. destruct H as [H|([[ok c'] fmx] & _ & H)];
      [exact (DataPointer_Allocate_fuel _ _ _ H)|].
    apply ASSERT_OutOfFuel in H. apply bind_OutOfFuel in H.
    destruct H as [H|(t & _ & H)]; [exact (array_set_fuel _ _ _ H)|].
    discriminate.
  - apply ASSERT_OutOfFuel in H. discriminate.
Qed.

(** X18.  [FileHeader::Allocate] compares the free sectors with
    [numPointer] only, the sectors of the top-level pointer blocks.  When
    that many are free but fewer than those plus the data sectors, the
    call does not return FALSE: it runs into one of its assertions
    ([ASSERT(pointer->Allocate(...))] or the [ASSERT] on a sector number)
    and the simulator stops. *)
Theorem FileHeader_Allocate_short_of_space (nb0 np0 lv0 : Z) (ps0 : list Z)
    (fm : Bitmap) (s lv : Z) :
  int_range s -> Allocate_level s = Some lv ->
  Allocate_numPointer s lv <= NumClear fm ->
  NumClear fm < divRoundUp s SectorSize + Allocate_numPointer s lv ->
  FileHeader_Allocate (FileHeader_new nb0 np0 lv0 ps0) fm s = Abort.
Proof.
  intros Hr Hl Hge Hlt.
  destruct (FileHeader_Allocate (FileHeader_new nb0 np0 lv0 ps0) fm s)
    as [[[ok h] fm']| |] eqn:E; [|reflexivity|].
  - exfalso. destruct ok.
    + destruct (FileHeader_Allocate_count _ _ _ _ _ _ _ _ Hr E)
        as (_ & Hdl & _ & _ & _ & Hc).
      rewrite length_app, Nat2Z.inj_add, Hdl in Hc.
      destruct (FileHeader_Allocate_layout _ _ _ _ _ _ _ _ E)
        as (((Hlp & Hlt' & Hnp & _) & _) & _ & _).
      destruct (FileHeader_Allocate_fields _ _ _ _ _ E) as (_ & Hl' & Hn & _).
      rewrite Hl in Hl'. inversion Hl'; subst lv.
      assert (Hb : numPointer h <= Z.of_nat (length (blocks_hdr h))).
      { unfold blocks_hdr.
        assert (Ht : (Z.to_nat (numPointer h) <= length (table h))%nat) by lia.
        assert (Hp : (Z.to_nat (numPointer h) <= length (pointerSectors h))%nat)
          by lia.
        rewrite (Permutation_length
                   (children_blocks_perm blocks_entry _ _ _ Ht Hp)).
        rewrite length_app, length_take. lia. }
      assert (0 <= NumClear fm') by (unfold NumClear; lia).
      lia.
    + destruct (FileHeader_Allocate_false _ _ _ _ _ E)
        as (_ & _ & _ & _ & [Hn|(lv' & Hl' & Hn)]); [congruence|].
      rewrite Hl in Hl'. inversion Hl'; subst lv'. lia.
  - exfalso. exact (FileHeader_Allocate_fuel _ _ _ E).
Qed.

Lemma FileHeader_Allocate_short_of_space_witness :
  int_range 300 /\ Allocate_level 300 = Some 1 /\
  Allocate_numPointer 300 1 <= NumClear (Bitmap_new 5) /\
  NumClear (Bitmap_new 5) < divRoundUp 300 SectorSize + Allocate_numPointer 300 1 /\
  FileHeader_Allocate (FileHeader_new 0 0 0 []) (Bitmap_new 5) 300 = Abort.
Proof.
  assert (Hr : int_range 300) by (vm_compute; split; congruence).
  assert (Hl : Allocate_level 300 = Some 1) by reflexivity.
  assert (H1 : Allocate_numPointer 300 1 <= NumClear (Bitmap_new 5))
    by (vm_compute; congruence).
  assert (H2 : NumClear (Bitmap_new 5)
               < divRoundUp 300 SectorSize + Allocate_numPointer 300 1)
    by reflexivity.
  split; [exact Hr|]. split; [exact Hl|]. split; [exact H1|].
  split; [exact H2|].
  exact (FileHeader_Allocate_short_of_space 0 0 0 [] (Bitmap_new 5) 300 1
           Hr Hl H1 H2).
Defined.
(** ** From a byte offset to its data sector *)

Lemma offset_split (o cap : Z) :
  0 <= o -> 0 < cap ->
  let pi := o / (SectorSize * cap) in
  let no := o mod (SectorSize * cap) in
  0 <= pi /\ 0 <= no < SectorSize * cap /\
  o = SectorSize * cap * pi + no /\
  o / SectorSize = pi * cap + no / SectorSize /\
  0 <= no / SectorSize.
Proof.
  intros Ho Hcap pi no. change SectorSize with 128 in *.
  pose proof (Z.div_mod o (128 * cap) ltac:(lia)) as Hdm.
  pose proof (Z.mod_pos_bound o (128 * cap) ltac:(lia)) as Hm.
  fold pi no in Hdm, Hm.
  assert (Hpi : 0 <= pi) by (apply Z.div_pos; lia).
  split; [exact Hpi|]. split; [exact Hm|]. split; [lia|].
  split.
  - rewrite Hdm at 1.
    replace (128 * cap * pi + no) with (pi * cap * 128 + no) by lia.
    rewrite Z.div_add_l by lia. reflexivity.
  - apply Z.div_pos; lia.
Qed.

Lemma c_div_nonneg (a b : Z) :
  0 <= a -> 0 < b -> c_div a b = Ok (a / b).
Proof.
  intros Ha Hb. unfold c_div, divRoundDown.
  destruct (Z.eqb_spec b 0); [lia|]. rewrite Z.quot_div_nonneg by lia.
  reflexivity.
Qed.

Lemma c_mod_nonneg (a b : Z) :
  0 <= a -> 0 < b -> c_mod a b = Ok (a mod b).
Proof.
  intros Ha Hb. unfold c_mod.
  destruct (Z.eqb_spec b 0); [lia|]. rewrite Z.rem_mod_nonneg by lia.
  reflexivity.
Qed.

Lemma ult_small (a b : Z) : 0 <= a < b -> b < 2 ^ 31 -> ult a b = true.
Proof.
  intros Ha Hb. unfold ult.
  rewrite !to_unsigned_nonneg by lia. apply Z.ltb_lt. lia.
Qed.

Lemma array_get_int_Ok {A : Type} (a : list A) (i : Z) (x : A) :
  0 <= i -> a !! Z.to_nat i = Some x -> array_get_int a i = Ok x.
Proof.
  intros Hi Hx. unfold array_get_int.
  destruct (Z.ltb_spec i 0); [lia|]. apply array_get_Ok, Hx.
Qed.

Section NodeByteToSector.

Context {C : Type}.
Variable goodC : Z -> C -> Prop.
Variable okC : C -> Prop.
Variable newC : C.
Variable dataC : C -> list Z.
Variable child_bts : C -> Z -> res Z.
Variable cap : Z.
Hypothesis cap_pos : 0 < cap.

Hypothesis child_spec :
  forall k c o, 0 < k <= cap -> goodC k c -> okC c ->
    0 <= o < k * SectorSize ->
    exists s, child_bts c o = Ok s /\
              dataC c !! Z.to_nat (o / SectorSize) = Some s.

Hypothesis child_len :
  forall k c, 0 < k -> goodC k c -> Z.of_nat (length (dataC c)) = k.

Variable m np : Z.
Variable ps : list Z.
Variable tb : list C.
Variable size : nat.
Hypothesis Hgood : good_node goodC cap m np tb.
Hypothesis Hwf : wf_node okC newC np ps tb size.

(** The slot that an offset falls in holds the sector of that offset. *)
Lemma node_ByteToSector (o : Z) :
  0 <= o < m * SectorSize ->
  let pi := o / (SectorSize * cap) in
  let no := o mod (SectorSize * cap) in
  0 <= pi < np /\
  exists c sp s,
    tb !! Z.to_nat pi = Some c /\
    ps !! Z.to_nat pi = Some sp /\ 0 <= sp /\
    child_bts c no = Ok s /\
    concat (map dataC (take (Z.to_nat np) tb)) !! Z.to_nat (o / SectorSize)
      = Some s.
Proof.
  intros Ho pi no.
  destruct (offset_split o cap (proj1 Ho) cap_pos)
    as (Hpi & Hno & Heq & Hdiv & Hq). fold pi no in Hpi, Hno, Heq, Hdiv, Hq.
  destruct Hgood as (Hnp & Hle & Hg).
  destruct Hwf as (Hlp & Hlt & Hnp' & Hpos & Hok & _).
  change SectorSize with 128 in *.
  assert (Hpin : pi < np) by nia.
  split; [lia|].
  destruct (Hg (Z.to_nat pi) ltac:(lia)) as (Hrem & c & Hc & Hgc).
  rewrite Z2Nat.id in Hrem, Hgc by exact Hpi.
  destruct (lookup_lt_is_Some_2 ps (Z.to_nat pi) ltac:(lia)) as [sp Hsp].
  assert (Hsp0 : 0 <= sp).
  { rewrite Forall_lookup in Hpos. apply (Hpos (Z.to_nat pi)).
    rewrite lookup_take_lt by lia. exact Hsp. }
  assert (Hokc : okC c).
  { rewrite Forall_lookup in Hok. apply (Hok (Z.to_nat pi)).
    rewrite lookup_take_lt by lia. exact Hc. }
  set (k := Z.min (m - pi * cap) cap) in *.
  assert (Hk : 0 < k <= cap) by (unfold k; lia).
  assert (Hnok : 0 <= no < k * 128) by (unfold k; nia).
  destruct (child_spec k c no Hk Hgc Hokc Hnok) as (s & Hbts & Hdata).
  exists c, sp, s. split; [exact Hc|]. split; [exact Hsp|].
  split; [exact Hsp0|]. split; [exact Hbts|].
  assert (Hsplit : take (Z.to_nat np) tb
                   = take (Z.to_nat pi) tb ++ c :: drop (S (Z.to_nat pi))
                                                      (take (Z.to_nat np) tb)).
  { rewrite <- (take_drop (Z.to_nat pi) (take (Z.to_nat np) tb)) at 1.
    rewrite take_take.
    replace (Z.to_nat pi `min` Z.to_nat np)%nat with (Z.to_nat pi) by lia.
    f_equal. apply drop_S. rewrite lookup_take_lt by lia. exact Hc. }
  rewrite Hsplit, map_app, concat_app. cbn [map concat].
  pose proof (good_node_data_length goodC dataC cap m np tb cap_pos
                ltac:(nia) child_len (conj Hnp (conj Hle Hg))
                (Z.to_nat pi) ltac:(lia)) as Hlen.
  rewrite Z2Nat.id in Hlen by exact Hpi.
  rewrite Z.min_r in Hlen by lia.
  rewrite lookup_app_r by lia.
  rewrite lookup_app_l.
  - rewrite <- Hdata. f_equal. rewrite Hdiv. lia.
  - pose proof (child_len k c ltac:(lia) Hgc) as Hlc.
    assert (no / 128 < k) by (apply Z.div_lt_upper_bound; lia).
    lia.
Qed.

End NodeByteToSector.

Lemma SingleIndirectPointer_ByteToSector_spec (SIZE_IN_LEVEL : list Z)
    (k : Z) (p : SingleIndirectPointer) (o : Z) :
  byte_sizes SIZE_IN_LEVEL ->
  0 < k <= LEVEL_1_SECTOR_NUM -> good_single k p -> wf_single p ->
  0 <= o < k * SectorSize ->
  exists s, SingleIndirectPointer_ByteToSector SIZE_IN_LEVEL p o = Ok s /\
            data_single p !! Z.to_nat (o / SectorSize) = Some s.
Proof.
  intros Hsz Hk (Hm & Hle & Hpos) Hwf Ho.
  unfold SingleIndirectPointer_ByteToSector.
  rewrite (Hsz 0 ltac:(lia)).
  change (SectorSize * at_index SECTOR_NUM_IN_LEVEL 0) with 128.
  change SectorSize with 128 in *. change LEVEL_1_SECTOR_NUM with 30 in Hk.
  rewrite c_div_nonneg by lia. cbn [mbind res_bind rbind].
  rewrite c_mod_nonneg by lia. cbn [mbind res_bind rbind].
  assert (Hq : 0 <= o / 128 < k).
  { split; [apply Z.div_pos; lia|apply Z.div_lt_upper_bound; lia]. }
  rewrite ult_small by (change NUM_INDIRECT_POINTER with 31;
                        change (2 ^ 31) with 2147483648; lia).
  cbn [ASSERT].
  destruct (lookup_lt_is_Some_2 (s_pointerSectors p) (Z.to_nat (o / 128))
              ltac:(lia)) as [s Hs].
  rewrite (array_get_int_Ok _ _ s (proj1 Hq) Hs). cbn [mbind res_bind rbind].
  assert (Hs0 : 0 <= s).
  { rewrite Forall_lookup in Hpos. apply (Hpos (Z.to_nat (o / 128))).
    rewrite lookup_take_lt by lia. exact Hs. }
  rewrite (proj2 (Z.geb_le _ _) Hs0). cbn [ASSERT].
  exists s. split; [reflexivity|].
  unfold data_single. rewrite Hm, lookup_take_lt by lia. exact Hs.
Qed.

Lemma DoubleIndirectPointer_ByteToSector_spec (SIZE_IN_LEVEL : list Z)
    (k : Z) (p : DoubleIndirectPointer) (o : Z) :
  byte_sizes SIZE_IN_LEVEL ->
  0 < k <= LEVEL_2_SECTOR_NUM -> good_double k p -> wf_double p ->
  0 <= o < k * SectorSize ->
  exists s, DoubleIndirectPointer_ByteToSector SIZE_IN_LEVEL p o = Ok s /\
            data_double p !! Z.to_nat (o / SectorSize) = Some s.
Proof.
  intros Hsz Hk Hg Hwf Ho.
  destruct (node_ByteToSector good_single wf_single SingleIndirectPointer_new
              data_single (SingleIndirectPointer_ByteToSector SIZE_IN_LEVEL)
              LEVEL_1_SECTOR_NUM eq_refl
              (fun k c o Hk Hg Hw Ho =>
                 SingleIndirectPointer_ByteToSector_spec SIZE_IN_LEVEL k c o
                   Hsz Hk Hg Hw Ho)
              good_single_length k (d_numPointer p) (d_pointerSectors p)
              (d_table p) _ Hg Hwf o Ho)
    as (Hpi & c & sp & s & Hc & Hsp & Hsp0 & Hbts & Hdata).
  unfold DoubleIndirectPointer_ByteToSector.
  rewrite (Hsz 1 ltac:(lia)).
  change (at_index SECTOR_NUM_IN_LEVEL 1) with LEVEL_1_SECTOR_NUM.
  rewrite c_div_nonneg by (try reflexivity; lia).
  cbn [mbind res_bind rbind].
  rewrite c_mod_nonneg by (try reflexivity; lia).
  cbn [mbind res_bind rbind].
  destruct Hwf as (_ & _ & Hnp & _).
  rewrite ult_small by (change NUM_INDIRECT_POINTER with 31 in *;
                        change (2 ^ 31) with 2147483648;
                        change (Z.of_nat (Z.to_nat 31)) with 31 in Hnp; lia).
  cbn [ASSERT].
  rewrite (array_get_int_Ok _ _ sp (proj1 Hpi) Hsp). cbn [mbind res_bind rbind].
  rewrite (proj2 (Z.geb_le _ _) Hsp0). cbn [ASSERT].
  rewrite (array_get_int_Ok _ _ c (proj1 Hpi) Hc). cbn [mbind res_bind rbind].
  exists s. split; [exact Hbts|exact Hdata].
Qed.

Lemma TripleIndirectPointer_ByteToSector_spec (SIZE_IN_LEVEL : list Z)
    (k : Z) (p : TripleIndirectPointer) (o : Z) :
  byte_sizes SIZE_IN_LEVEL ->
  0 < k <= LEVEL_3_SECTOR_NUM -> good_triple k p -> wf_triple p ->
  0 <= o < k * SectorSize ->
  exists s, TripleIndirectPointer_ByteToSector SIZE_IN_LEVEL p o = Ok s /\
            data_triple p !! Z.to_nat (o / SectorSize) = Some s.
Proof.
  intros Hsz Hk Hg Hwf Ho.
  destruct (node_ByteToSector good_double wf_double DoubleIndirectPointer_new
              data_double (DoubleIndirectPointer_ByteToSector SIZE_IN_LEVEL)
              LEVEL_2_SECTOR_NUM eq_refl
              (fun k c o Hk Hg Hw Ho =>
                 DoubleIndirectPointer_ByteToSector_spec SIZE_IN_LEVEL k c o
                   Hsz Hk Hg Hw Ho)
              good_double_length k (t_numPointer p) (t_pointerSectors p)
              (t_table p) _ Hg Hwf o Ho)
    as (Hpi & c & sp & s & Hc & Hsp & Hsp0 & Hbts & Hdata).
  unfold TripleIndirectPointer_ByteToSector.
  rewrite (Hsz 2 ltac:(lia)).
  change (at_index SECTOR_NUM_IN_LEVEL 2) with LEVEL_2_SECTOR_NUM.
  rewrite c_div_nonneg by (try reflexivity; lia).
  cbn [mbind res_bind rbind].
  rewrite c_mod_nonneg by (try reflexivity; lia).
  cbn [mbind res_bind rbind].
  destruct Hwf as (_ & _ & Hnp & _).
  rewrite ult_small by (change NUM_INDIRECT_POINTER with 31 in *;
                        change (2 ^ 31) with 2147483648;
                        change (Z.of_nat (Z.to_nat 31)) with 31 in Hnp; lia).
  cbn [ASSERT].
  rewrite (array_get_int_Ok _ _ sp (proj1 Hpi) Hsp). cbn [mbind res_bind rbind].
  rewrite (proj2 (Z.geb_le _ _) Hsp0). cbn [ASSERT].
  rewrite (array_get_int_Ok _ _ c (proj1 Hpi) Hc). cbn [mbind res_bind rbind].
  exists s. split; [exact Hbts|exact Hdata].
Qed.

Lemma DataPointer_ByteToSector_spec (SIZE_IN_LEVEL : list Z)
    (k : Z) (p : DataPointerInterface) (o : Z) :
  byte_sizes SIZE_IN_LEVEL ->
  0 < k <= at_index SECTOR_NUM_IN_LEVEL (kind_of p - 1) ->
  good_ptr k p -> wf_ptr p ->
  0 <= o < k * SectorSize ->
  exists s, DataPointer_ByteToSector SIZE_IN_LEVEL p o = Ok s /\
            data_ptr p !! Z.to_nat (o / SectorSize) = Some s.
Proof.
  intros Hsz Hk Hg Hwf Ho.
  destruct p as [q|q|q|q];
    cbn [kind_of good_ptr wf_ptr DataPointer_ByteToSector data_ptr] in *.
  - destruct Hg as [-> Hq]. unfold DirectPointer_ByteToSector.
    change SectorSize with 128 in *.
    destruct (Z.leb_spec o 128) as [_|Hgt]; [|lia]. cbn [ASSERT].
    exists (dataSector q). split; [reflexivity|].
    rewrite Z.div_small by lia. reflexivity.
  - apply (SingleIndirectPointer_ByteToSector_spec _ k); assumption.
  - apply (DoubleIndirectPointer_ByteToSector_spec _ k); assumption.
  - apply (TripleIndirectPointer_ByteToSector_spec _ k); assumption.
Qed.

Lemma FileHeader_ByteToSector_spec (SIZE_IN_LEVEL : list Z) (m : Z)
    (h : FileHeader) (o : Z) :
  byte_sizes SIZE_IN_LEVEL -> wf_hdr h -> good_hdr m h ->
  0 <= o < m * SectorSize ->
  exists s, FileHeader_ByteToSector SIZE_IN_LEVEL h o = Ok s /\
            data_hdr h !! Z.to_nat (o / SectorSize) = Some s.
Proof.
  intros Hsz Hwf Hg Ho.
  pose proof (wf_hdr_level h Hwf) as Hlv.
  pose proof (level_capacity_pos _ Hlv) as Hcap.
  destruct Hwf as (Hwfn & _).
  pose (child_bts := fun (e : option DataPointerInterface) (o : Z) =>
          match e with
          | Some p => DataPointer_ByteToSector SIZE_IN_LEVEL p o
          | None => Abort
          end).
  assert (Hchild : forall k c o,
            0 < k <= at_index SECTOR_NUM_IN_LEVEL (level h - 1) ->
            good_entry k c -> wf_entry (level h) c ->
            0 <= o < k * SectorSize ->
            exists s, child_bts c o = Ok s /\
                      data_entry c !! Z.to_nat (o / SectorSize) = Some s).
  { intros k c o' Hk (p & -> & Hp) (p' & E' & Hwp & Hkd) Ho'.
    inversion E'; subst p'. cbn [data_entry child_bts].
    apply (DataPointer_ByteToSector_spec _ k); try assumption.
    rewrite Hkd. exact Hk. }
  destruct (node_ByteToSector good_entry (wf_entry (level h)) None
              data_entry child_bts
              (at_index SECTOR_NUM_IN_LEVEL (level h - 1)) Hcap Hchild
              good_entry_length m (numPointer h) (pointerSectors h)
              (table h) _ Hg Hwfn o Ho)
    as (Hpi & c & sp & s & Hc & Hsp & Hsp0 & Hbts & Hdata).
  unfold FileHeader_ByteToSector.
  rewrite (Hsz (level h - 1) ltac:(lia)).
  rewrite c_div_nonneg by (change SectorSize with 128; lia).
  cbn [mbind res_bind rbind].
  rewrite c_mod_nonneg by (change SectorSize with 128; lia).
  cbn [mbind res_bind rbind].
  destruct Hwfn as (_ & _ & Hnp & _).
  rewrite ult_small by (change NUM_FILE_HEADER_POINTER with 30 in *;
                        change (2 ^ 31) with 2147483648;
                        change (Z.of_nat (Z.to_nat 30)) with 30 in Hnp; lia).
  cbn [ASSERT].
  rewrite (array_get_int_Ok _ _ c (proj1 Hpi) Hc). cbn [mbind res_bind rbind].
  exists s. split; [|exact Hdata].
  destruct c as [p|]; exact Hbts.
Qed.

(** X19.  [FileHeader::ByteToSector] is right on every header that
    [Allocate] has built, provided that [SIZE_IN_LEVEL[k]] is the byte size
    of [SECTOR_NUM_IN_LEVEL[k]] sectors: for every offset of the file none
    of the assertions on the way down fails, and the result is the data
    sector that holds the byte, the one at position
    [offset / SectorSize] among the data sectors of the file in the order
    in which [Allocate] has laid them out.  That sector was free before
    the allocation and is marked after it, and two offsets are mapped to
    the same sector only when they lie in the same [SectorSize] bytes. *)
Theorem FileHeader_ByteToSector_correct (SIZE_IN_LEVEL : list Z)
    (nb0 np0 lv0 : Z) (ps0 : list Z) (h : FileHeader) (fm fm' : Bitmap)
    (s : Z) :
  byte_sizes SIZE_IN_LEVEL -> int_range s ->
  FileHeader_Allocate (FileHeader_new nb0 np0 lv0 ps0) fm s = Ok (true, h, fm') ->
  (forall o, 0 <= o < s ->
     exists sec,
       FileHeader_ByteToSector SIZE_IN_LEVEL h o = Ok sec /\
       data_hdr h !! Z.to_nat (o / SectorSize) = Some sec /\
       Test sec fm = false /\ Test sec fm' = true) /\
  (forall o1 o2 sec, 0 <= o1 < s -> 0 <= o2 < s ->
     FileHeader_ByteToSector SIZE_IN_LEVEL h o1 = Ok sec ->
     FileHeader_ByteToSector SIZE_IN_LEVEL h o2 = Ok sec ->
     o1 / SectorSize = o2 / SectorSize).
Proof.
  intros Hsz Hr Hal.
  destruct (FileHeader_Allocate_layout _ _ _ _ _ _ _ _ Hal)
    as (Hwf & Hgood & _).
  destruct (FileHeader_Allocate_count _ _ _ _ _ _ _ _ Hr Hal)
    as (Hns & _ & (Hnd & Hall & _) & _).
  apply NoDup_app in Hnd. destruct Hnd as (Hnd & _ & _).
  apply Forall_app in Hall. destruct Hall as (Hall & _).
  rewrite Forall_forall in Hall.
  assert (Hrange : forall o, 0 <= o < s ->
            0 <= o < divRoundUp s SectorSize * SectorSize).
  { intros o Ho.
    pose proof (divRoundUp_spec s SectorSize ltac:(lia) ltac:(reflexivity)).
    lia. }
  assert (Hone : forall o, 0 <= o < s ->
            exists sec,
              FileHeader_ByteToSector SIZE_IN_LEVEL h o = Ok sec /\
              data_hdr h !! Z.to_nat (o / SectorSize) = Some sec).
  { intros o Ho.
    exact (FileHeader_ByteToSector_spec SIZE_IN_LEVEL _ h o Hsz Hwf Hgood
             (Hrange o Ho)). }
  split.
  - intros o Ho. destruct (Hone o Ho) as (sec & Hb & Hd).
    exists sec. split; [exact Hb|]. split; [exact Hd|].
    apply Hall. eapply list_elem_of_lookup_2. exact Hd.
  - intros o1 o2 sec Ho1 Ho2 H1 H2.
    destruct (Hone o1 Ho1) as (s1 & Hb1 & Hd1).
    destruct (Hone o2 Ho2) as (s2 & Hb2 & Hd2).
    rewrite H1 in Hb1. rewrite H2 in Hb2.
    inversion Hb1; subst s1. inversion Hb2; subst s2.
    pose proof (NoDup_lookup _ _ _ _ Hnd Hd1 Hd2) as Heq.
    assert (0 <= o1 / SectorSize) by (apply Z.div_pos; [lia|reflexivity]).
    assert (0 <= o2 / SectorSize) by (apply Z.div_pos; [lia|reflexivity]).
    lia.
Qed.

Lemma byte_sizes_sample : byte_sizes [128; 3840; 119040; 3690240].
Proof.
  intros k Hk. assert (E : k = 0 \/ k = 1 \/ k = 2 \/ k = 3) by lia.
  destruct E as [->|[->|[->| ->]]]; reflexivity.
Qed.

Lemma FileHeader_ByteToSector_correct_witness :
  exists h fm',
    byte_sizes [128; 3840; 119040; 3690240] /\ int_range 4000 /\
    FileHeader_Allocate (FileHeader_new 0 0 0 []) (Bitmap_new 128) 4000
      = Ok (true, h, fm') /\
    forall o, 0 <= o < 4000 ->
      exists sec,
        FileHeader_ByteToSector [128; 3840; 119040; 3690240] h o = Ok sec /\
        data_hdr h !! Z.to_nat (o / SectorSize) = Some sec /\
        Test sec (Bitmap_new 128) = false /\ Test sec fm' = true.
Proof.
  assert (Hr : int_range 4000) by (vm_compute; split; congruence).
  assert (Hal : exists h fm',
            FileHeader_Allocate (FileHeader_new 0 0 0 []) (Bitmap_new 128)
              4000 = Ok (true, h, fm')).
  { do 2 eexists. vm_compute. reflexivity. }
  destruct Hal as (h & fm' & Hal). exists h, fm'.
  split; [exact byte_sizes_sample|]. split; [exact Hr|]. split; [exact Hal|].
  exact (proj1 (FileHeader_ByteToSector_correct _ 0 0 0 [] h _ fm' 4000
                  byte_sizes_sample Hr Hal)).
Defined.

(** ** A header on a disk that keeps changing *)

(** The write-back of a well-formed header touches its own sectors only,
    and the header is read back from every disk that agrees with the
    written one on those sectors. *)
Lemma FileHeader_roundtrip_frame (h : FileHeader) (d : SynchDisk)
    (sector0 : Z) :
  wf_hdr h -> NoDup (sector0 :: blocks_hdr h) ->
  exists d', FileHeader_WriteBack h d sector0 = Ok d' /\
    (forall x, x ∉ sector0 :: blocks_hdr h -> d' x = d x) /\
    forall nb1 np1 lv1 ps1,
      readable (FileHeader_FetchFrom (FileHeader_new nb1 np1 lv1 ps1))
        (sector0 :: blocks_hdr h) d' sector0 h.
Proof.
  intros (Hwf & Hlv) Hnd. unfold FileHeader_WriteBack.
  pose (child_wb := fun (e : option DataPointerInterface) (dx : SynchDisk)
                        (s0 : Z) =>
    match e with
    | Some p => DataPointer_WriteBack p dx s0
    | None => Abort
    end).
  pose (child_ff := fun (dx : SynchDisk) (s0 : Z) =>
    match GetNewPointerByLevel (level h) with
    | Some pn => DataPointer_FetchFrom pn dx s0 ≫= fun p' => Ok (Some p')
    | None => Abort
    end).
  pose (wb := fun (i : nat) (dx : SynchDisk) =>
    array_get (pointerSectors h) i ≫= fun s0 =>
    ASSERT (s0 >=? 0)
      (array_get (table h) i ≫= fun entry =>
       match entry with
       | Some p => DataPointer_WriteBack p dx s0
       | None => Abort
       end)).
  pose (ff := fun (dx : SynchDisk) (i : nat)
                  (tbx : list (option DataPointerInterface)) =>
    match GetNewPointerByLevel (level h) with
    | None => Abort
    | Some p =>
        array_get (pointerSectors h) i ≫= fun s0 =>
        ASSERT (s0 >=? 0)
          (DataPointer_FetchFrom p dx s0 ≫= fun p' =>
           array_set tbx i (Some p'))
    end).
  assert (Hchild : forall c dx s0, wf_entry (level h) c ->
            NoDup (s0 :: blocks_entry c) ->
            exists d', child_wb c dx s0 = Ok d' /\
              (forall x, x ∉ s0 :: blocks_entry c -> d' x = dx x) /\
              readable child_ff (s0 :: blocks_entry c) d' s0 c).
  { intros c dx s0 (p & -> & Hp & Hk) Hn. cbn [blocks_entry] in *.
    destruct (GetNewPointerByLevel_kind p) as (pn & Hpn). rewrite Hk in Hpn.
    destruct (DataPointer_roundtrip _ pn p dx s0 Hpn Hk Hp Hn)
      as (d' & Hw & Hf & Hr).
    exists d'. split; [exact Hw|]. split; [exact Hf|].
    intros d'' Hag. unfold child_ff. rewrite Hpn, (Hr d'' Hag). reflexivity. }
  assert (Hwb : forall i c si dx,
            table h !! i = Some c -> pointerSectors h !! i = Some si ->
            0 <= si -> wb i dx = child_wb c dx si).
  { intros i c si dx Hc Hs Hpos. unfold wb.
    rewrite (proj2 (array_get_Ok _ _ _) Hs). simpl.
    rewrite (proj2 (Z.geb_le _ _) Hpos). simpl.
    rewrite (proj2 (array_get_Ok _ _ _) Hc). reflexivity. }
  assert (Hfb : forall dx i tbx si,
            pointerSectors h !! i = Some si -> 0 <= si ->
            (i < length tbx)%nat -> tbx !! i = Some None ->
            ff dx i tbx = (child_ff dx si ≫= fun c' => Ok (<[i := c']> tbx))).
  { intros dx i tbx si Hs Hpos Hlt _. unfold ff, child_ff.
    destruct (GetNewPointerByLevel (level h)) as [pn|]; [|reflexivity].
    rewrite (proj2 (array_get_Ok _ _ _) Hs). simpl.
    rewrite (proj2 (Z.geb_le _ _) Hpos). simpl.
    destruct (DataPointer_FetchFrom pn dx si) as [p'| |]; simpl;
      [|reflexivity|reflexivity].
    apply array_set_Ok. auto. }
  destruct (node_roundtrip (wf_entry (level h)) blocks_entry None
              (Z.to_nat NUM_FILE_HEADER_POINTER) child_wb child_ff Hchild
              (numPointer h) (pointerSectors h) (table h) Hwf
              wb Hwb ff Hfb sector0 d Hnd)
    as (d1 & Hrun & Hfr & Hff).
  fold wb. rewrite Hrun. eexists. split; [reflexivity|].
  apply NoDup_cons in Hnd. destruct Hnd as (Hs & _).
  destruct Hwf as (Hlp & _).
  split.
  { intros x Hx. rewrite WriteSector_other by (intros ->; apply Hx; left).
    apply Hfr. intros Hin. apply Hx. right. exact Hin. }
  intros nb1 np1 lv1 ps1 d'' Hag.
  unfold FileHeader_FetchFrom, ReadSector.
  rewrite (Hag sector0) by left. rewrite WriteSector_same.
  rewrite <- Hlp.
  rewrite cache_slice_fill by (vm_compute; lia).
  rewrite !cache_get_fill by (vm_compute; lia).
  change (cache_get (<[1%nat:=numPointer h]> (<[0%nat:=numBytes h]> cache_init)) 0)
    with (numBytes h).
  change (cache_get (<[1%nat:=numPointer h]> (<[0%nat:=numBytes h]> cache_init)) 1)
    with (numPointer h).
  rewrite Hlv.
  rewrite (proj2 (FileHeader_new_fields nb1 np1 lv1 ps1)).
  fold (ff d'').
  rewrite Hff.
  - destruct h. reflexivity.
  - intros x Hx. rewrite Hag by (right; exact Hx).
    apply WriteSector_other. intros ->. apply Hs. exact Hx.
Qed.
(** ** Path resolution *)

Lemma walk_ext (dd dd' : Z -> list DirectoryEntry) (sec : Z)
    (pathArr : list string) :
  (forall s, dd' s = dd s) -> walk dd' sec pathArr = walk dd sec pathArr.
Proof.
  intros He. revert sec. induction pathArr as [|p rest IH]; intros sec;
    [reflexivity|].
  destruct rest as [|q rest']; [reflexivity|].
  cbn [walk] in *. rewrite He. destruct (_ =? -1); [reflexivity|apply IH].
Qed.

Lemma walk_stable (st st' : Store) (sec s : Z) (pathArr : list string) :
  lookup_stable st st' ->
  walk (dirData st) sec pathArr = Some s ->
  walk (dirData st') sec pathArr = Some s.
Proof.
  intros Hst. revert sec. induction pathArr as [|p rest IH]; intros sec H;
    [exact H|].
  destruct rest as [|q rest']; [exact H|].
  cbn [walk] in *.
  destruct (Z.eqb_spec (Directory_Find (dirData st sec) p) (-1)) as [|Hne];
    [discriminate|].
  rewrite (Hst sec p Hne).
  destruct (Z.eqb_spec (Directory_Find (dirData st sec) p) (-1)) as [|_];
    [contradiction|].
  apply IH, H.
Qed.

Lemma walk_step (dd : Z -> list DirectoryEntry) (sec : Z) (p q : string)
    (rest : list string) :
  walk dd sec (p :: q :: rest)
    = if Directory_Find (dd sec) p =? -1 then None
      else walk dd (Directory_Find (dd sec) p) (q :: rest).
Proof. reflexivity. Qed.

Lemma traverse_step (this : FileSystem) (st : Store) (p q : string)
    (rest : list string) :
  traverse this st (p :: q :: rest)
    = let '(ok, this', st') := ChangeCurrentDirectory this st p in
      if ok then traverse this' st' (q :: rest) else (false, this', st').
Proof. reflexivity. Qed.

Lemma traverse_walk (pathArr : list string) (this this1 : FileSystem)
    (st st1 : Store) (ok : bool) :
  traverse this st pathArr = (ok, this1, st1) ->
  synced this st ->
  store_eq st st1 /\ fs_table this1 = fs_table this /\ synced this1 st1 /\
  match walk (dirData st) (of_sector (currentDirectoryFile this)) pathArr with
  | Some s => ok = true /\ of_sector (currentDirectoryFile this1) = s
  | None => ok = false
  end.
Proof.
  revert this st. induction pathArr as [|p rest IH]; intros this st H Hsy.
  - inversion H; subst. split; [apply store_eq_refl|].
    cbn [walk]. repeat split; auto.
  - destruct rest as [|q rest'].
    + inversion H; subst. split; [apply store_eq_refl|].
      cbn [walk]. repeat split; auto.
    + rewrite traverse_step in H. rewrite walk_step.
      unfold ChangeCurrentDirectory in H.
      cbn [currentDirectoryFile set_current] in H.
      unfold Directory_FetchFrom at 1 2 in H.
      set (found := Directory_Find
                  (dirData st (of_sector (currentDirectoryFile this))) p) in *.
      destruct (Z.eqb_spec found (-1)) as [Hn|Hn].
      * inversion H; subst; clear H. split; [apply store_eq_refl|].
        split; [reflexivity|]. split; [reflexivity|reflexivity].
      * set (st2 := Directory_WriteBack _ st (currentDirectoryFile this)) in H.
        assert (Heq : store_eq st st2) by apply Directory_WriteBack_fetched.
        apply IH in H; [|reflexivity].
        destruct H as (S1 & T1 & Sy1 & Hw).
        split; [eapply store_eq_trans; eassumption|].
        split; [exact T1|]. split; [exact Sy1|].
        change (of_sector (currentDirectoryFile (set_current _ _ _)))
          with found in Hw.
        rewrite (walk_ext (dirData st) (dirData st2)) in Hw; [exact Hw|].
        destruct Heq as (_ & Hd & _). exact Hd.
Qed.

Lemma ChangeCurrentDirectoryByWholePath_walk (this this1 : FileSystem)
    (st st1 : Store) (path filename : string) (ok : bool) :
  ChangeCurrentDirectoryByWholePath this st path = (ok, filename, this1, st1) ->
  store_eq st st1 /\ fs_table this1 = fs_table this /\ synced this1 st1 /\
  if Ascii.eqb (first_char path) "/"%char then
    match walk (dirData st) DirectorySector (strtok_loop path "") with
    | Some s => ok = true /\ of_sector (currentDirectoryFile this1) = s /\
                filename = default ""%string (last (strtok_loop path ""))
    | None => ok = false
    end
  else ok = false.
Proof.
  unfold ChangeCurrentDirectoryByWholePath.
  destruct (Ascii.eqb (first_char path) "/"); cbn [negb].
  - destruct (traverse (ResetToRootDirectory this st) st (strtok_loop path ""))
      as [[ok1 this2] st2] eqn:E.
    apply traverse_walk in E; [|reflexivity].
    destruct E as (S1 & T1 & Sy1 & Hw).
    cbn [ResetToRootDirectory currentDirectoryFile set_current of_sector
         OpenFile_new] in Hw.
    destruct (walk (dirData st) DirectorySector (strtok_loop path "")) as [s|].
    + destruct Hw as (-> & Hs). cbn [negb]. intros H. inversion H; subst.
      repeat split; auto; apply S1.
    + subst ok1. cbn [negb]. intros H. inversion H; subst.
      repeat split; auto; apply S1.
  - intros H. inversion H; subst. split; [apply store_eq_refl|].
    repeat split; auto.
Qed.
(** ** What a successful Create has done *)

Lemma FindAndSet_range (b b' : Bitmap) (s : Z) :
  FindAndSet b = (s, b') -> s = -1 \/ 0 <= s.
Proof.
  unfold FindAndSet. destruct (find_clear b); intros H; inversion H; lia.
Qed.

Lemma CreateFile_true (header_storage : list Z) (this this' : FileSystem)
    (st st' : Store) (nm : string) (size : Z) :
  CreateFile header_storage this st nm size = Ok (true, this', st') ->
  exists sector0 fm1 dir' hdr fm2,
    FindAndSet (mapData st) = (sector0, fm1) /\ 0 <= sector0 /\
    Directory_Find (dirData st (of_sector (currentDirectoryFile this))) nm
      = -1 /\
    Directory_Add (dirData st (of_sector (currentDirectoryFile this))) nm
      sector0 FILE_TYPE = (true, dir') /\
    FileHeader_Allocate (new_FileHeader header_storage) fm1 size
      = Ok (true, hdr, fm2) /\
    FileHeader_WriteBack hdr (synchDisk st) sector0 = Ok (synchDisk st') /\
    mapData st' = fm2 /\
    (forall s, dirData st' s =
               if s =? of_sector (currentDirectoryFile this) then dir'
               else dirData st s) /\
    fs_table this' = fs_table this /\
    currentDirectoryFile this' = currentDirectoryFile this.
Proof.
  unfold CreateFile, Directory_FetchFrom, PersistentBitmap_load. intros H.
  set (psec := of_sector (currentDirectoryFile this)) in *.
  destruct (Z.eqb_spec (Directory_Find (dirData st psec) nm) (-1)) as [Hf|Hf];
    cbn [negb] in H; [|discriminate].
  destruct (FindAndSet (mapData st)) as [sector0 fm1] eqn:Ef.
  destruct (Z.eqb_spec sector0 (-1)) as [Hs|Hs]; [discriminate|].
  destruct (Directory_Add (dirData st psec) nm sector0 FILE_TYPE)
    as [added dir'] eqn:Ea.
  destruct added; cbn [negb] in H; [|discriminate].
  apply bind_Ok in H. destruct H as ([[ok hdr] fm2] & Hal & H).
  destruct ok; cbn [negb] in H; [|discriminate].
  apply bind_Ok in H. destruct H as (d & Hwb & H).
  inversion H; subst this' st'; clear H.
  exists sector0, fm1, dir', hdr, fm2.
  split; [reflexivity|].
  split; [destruct (FindAndSet_range _ _ _ Ef); [contradiction|assumption]|].
  split; [exact Hf|]. split; [exact Ea|]. split; [exact Hal|].
  split; [exact Hwb|]. split; [reflexivity|]. split; [|split; reflexivity].
  intros s. reflexivity.
Qed.

Lemma Create_true (header_storage : list Z) (this this' : FileSystem)
    (st st' : Store) (path : string) (size : Z) :
  Create header_storage this st path size = Ok (true, this', st') ->
  exists filename thisR stR,
    ChangeCurrentDirectoryByWholePath this st path
      = (true, filename, thisR, stR) /\
    exists thisC,
      CreateFile header_storage thisR stR filename size = Ok (true, thisC, st') /\
      this' = ResetToRootDirectory thisC st'.
Proof.
  unfold Create.
  destruct (ChangeCurrentDirectoryByWholePath this st path)
    as [[[resolved filename] thisR] stR] eqn:E.
  intros H. apply bind_Ok in H. destruct H as ([[success this2] st2] & H & H').
  inversion H'; subst; clear H'.
  destruct resolved; [|discriminate].
  apply bind_Ok in H. destruct H as ([[created thisC] stC] & Hc & H).
  destruct created; inversion H; subst; clear H.
  exists filename, thisR, stR. split; [reflexivity|].
  exists this2. split; [exact Hc|reflexivity].
Qed.

Lemma Directory_Add_Find_other (d d' : Directory) (nm nm2 : string)
    (s ty : Z) :
  names_sized d ->
  Directory_Add d nm s ty = (true, d') ->
  Directory_Find d nm2 <> -1 ->
  Directory_Find d' nm2 = Directory_Find d nm2.
Proof.
  intros Hsz Ha Hf.
  assert (Hi : Directory_FindIndex d nm2 <> -1).
  { intros Hi. apply Hf. unfold Directory_Find. rewrite Hi. reflexivity. }
  pose proof (Directory_Add_FindIndex_other d d' nm nm2 s ty Hsz Ha
                (or_introl Hi)) as Hi'.
  apply Directory_Find_of_FindIndex_eq; [exact Hi'|].
  intros k Hk.
  destruct (Directory_Add_inv _ _ _ _ _ Ha) as (_ & k0 & e & Hk0 & Hfree & ->).
  destruct (decide (k = k0)) as [->|Hne];
    [|apply list_lookup_insert_ne; congruence].
  exfalso. unfold Directory_FindIndex in Hk.
  destruct (FindIndex_from_found d nm2 0 _ ltac:(lia) Hk ltac:(lia))
    as (_ & e2 & He2 & Hu & _).
  rewrite Z.sub_0_r, Nat2Z.id, Hk0 in He2. inversion He2; subst e2. congruence.
Qed.

(** The store that a successful [CreateFile] leaves resolves every path
    that resolved before to the same directory. *)
Lemma CreateFile_lookup_stable (header_storage : list Z)
    (this this' : FileSystem) (st st' : Store) (nm : string) (size : Z) :
  sized_store st ->
  CreateFile header_storage this st nm size = Ok (true, this', st') ->
  lookup_stable st st'.
Proof.
  intros Hsz H.
  destruct (CreateFile_true _ _ _ _ _ _ _ H)
    as (sector0 & fm1 & dir' & hdr & fm2 & _ & _ & _ & Ha & _ & _ & _ & Hd & _).
  intros sec nm2 Hf. rewrite Hd.
  destruct (Z.eqb_spec sec (of_sector (currentDirectoryFile this))) as [->|_];
    [|reflexivity].
  eapply Directory_Add_Find_other; [apply Hsz|exact Ha|exact Hf].
Qed.

Lemma lookup_stable_eq (st st1 st' : Store) :
  store_eq st st1 -> lookup_stable st1 st' -> lookup_stable st st'.
Proof.
  intros (_ & Hd & _) H sec nm Hf. rewrite <- (Hd sec) in Hf |- *.
  apply H, Hf.
Qed.

Lemma sized_store_eq (st st1 : Store) :
  store_eq st st1 -> sized_store st -> sized_store st1.
Proof. intros (_ & Hd & _) H sec. rewrite Hd. apply H. Qed.

Lemma ChangeCurrentDirectoryByWholePath_resolves (this : FileSystem)
    (st : Store) (path : string) (psec : Z) :
  Ascii.eqb (first_char path) "/"%char = true ->
  walk (dirData st) DirectorySector (strtok_loop path "") = Some psec ->
  exists thisR stR,
    ChangeCurrentDirectoryByWholePath this st path
      = (true, default ""%string (last (strtok_loop path "")), thisR, stR) /\
    of_sector (currentDirectoryFile thisR) = psec /\
    currentDirectory thisR = dirData st psec /\
    store_eq st stR /\ fs_table thisR = fs_table this.
Proof.
  intros Hfc Hw.
  destruct (ChangeCurrentDirectoryByWholePath this st path)
    as [[[ok fn] thisR] stR] eqn:E.
  destruct (ChangeCurrentDirectoryByWholePath_walk _ _ _ _ _ _ _ E)
    as (S1 & T1 & Sy & H).
  rewrite Hfc, Hw in H. destruct H as (-> & Hs & ->).
  exists thisR, stR. split; [reflexivity|]. split; [exact Hs|].
  split; [|split; assumption].
  unfold synced in Sy. rewrite Sy, Hs. destruct S1 as (_ & Hd & _). apply Hd.
Qed.

(** The facts about a successful [Create] that the properties below
    share. *)
Lemma Create_core (header_storage : list Z) (this this' : FileSystem)
    (st st' : Store) (path : string) (size : Z) :
  sized_store st ->
  Create header_storage this st path size = Ok (true, this', st') ->
  exists psec sector0 dir' hdr fm1 fm2,
    let filename := default ""%string (last (strtok_loop path "")) in
    Ascii.eqb (first_char path) "/"%char = true /\
    walk (dirData st) DirectorySector (strtok_loop path "") = Some psec /\
    walk (dirData st') DirectorySector (strtok_loop path "") = Some psec /\
    Directory_Find (dirData st psec) filename = -1 /\
    Directory_Add (dirData st psec) filename sector0 FILE_TYPE = (true, dir') /\
    FindAndSet (mapData st) = (sector0, fm1) /\ 0 <= sector0 /\
    FileHeader_Allocate (new_FileHeader header_storage) fm1 size
      = Ok (true, hdr, fm2) /\
    mapData st' = fm2 /\
    (forall s, dirData st' s = if s =? psec then dir' else dirData st s) /\
    (forall x, x ∉ sector0 :: blocks_hdr hdr ->
               synchDisk st' x = synchDisk st x) /\
    (forall nb1 np1 lv1 ps1,
       readable (FileHeader_FetchFrom (FileHeader_new nb1 np1 lv1 ps1))
         (sector0 :: blocks_hdr hdr) (synchDisk st') sector0 hdr) /\
    fs_table this' = fs_table this.
Proof.
  intros Hsz Hc.
  destruct (Create_true _ _ _ _ _ _ _ Hc)
    as (filename & thisR & stR & Hres & thisC & Hcf & ->).
  destruct (ChangeCurrentDirectoryByWholePath_walk _ _ _ _ _ _ _ Hres)
    as (S1 & T1 & Sy & Hw).
  destruct (Ascii.eqb (first_char path) "/") eqn:Hfc; [|discriminate].
  destruct (walk (dirData st) DirectorySector (strtok_loop path ""))
    as [psec|] eqn:Ew; [|discriminate].
  destruct Hw as (_ & Hps & Hfn).
  pose proof (sized_store_eq _ _ S1 Hsz) as HszR.
  pose proof (CreateFile_lookup_stable _ _ _ _ _ _ _ HszR Hcf) as Hstab.
  destruct (CreateFile_true _ _ _ _ _ _ _ Hcf)
    as (sector0 & fm1 & dir' & hdr & fm2 & Hfs & Hs0 & Hfind & Hadd & Hal &
        Hwb & Hmap & Hdd & Htab & _).
  rewrite Hps in Hfind, Hadd, Hdd.
  destruct S1 as (Hsd & Hd & Hm).
  rewrite Hd in Hfind, Hadd. rewrite Hm in Hfs.
  exists psec, sector0, dir', hdr, fm1, fm2. cbv zeta. rewrite <- Hfn.
  split; [reflexivity|]. split; [reflexivity|].
  split.
  { apply (walk_stable st); [|exact Ew].
    eapply lookup_stable_eq; [|exact Hstab]. repeat split; assumption. }
  split; [exact Hfind|]. split; [exact Hadd|]. split; [exact Hfs|].
  split; [exact Hs0|]. split; [exact Hal|]. split; [exact Hmap|].
  split; [intros s; rewrite Hdd, Hd; reflexivity|].
  unfold new_FileHeader in Hal.
  destruct (FileHeader_Allocate_spec _ _ _ _ _ _ _ _ Hal) as (Hwf & Ha).
  destruct (FindAndSet_spec _ _ _ Hfs Hs0) as (_ & Ht & _).
  pose proof (allocated_fresh _ _ _ _ Ha Ht) as Hnd.
  destruct (FileHeader_roundtrip_frame hdr (synchDisk stR) sector0 Hwf Hnd)
    as (d' & Hw' & Hfr & Hrd).
  rewrite Hwb in Hw'. inversion Hw'; subst d'; clear Hw'.
  split; [intros x Hx; rewrite (Hfr x Hx); apply Hsd|].
  split; [exact Hrd|].
  cbn [ResetToRootDirectory set_current fs_table]. congruence.
Qed.

Lemma Directory_Add_then_Find_aux (d d' : Directory) (nm : string)
    (s ty : Z) :
  names_sized d -> Directory_Add d nm s ty = (true, d') ->
  Directory_Find d' nm = s /\
  Directory_IsDirectory d' nm = (ty =? DIR_TYPE).
Proof.
  intros Hsz H.
  destruct (Directory_Add_FindIndex _ _ _ _ _ Hsz H) as (k & e & Hk & Hi & Hk').
  exact (Directory_Find_of_FindIndex _ _ _ _ Hi Hk').
Qed.

Lemma directory_file_b_true (sizeof_DirectoryEntry : Z)
    (header_storage : list Z) (st : Store) (sec : Z) :
  directory_file_b sizeof_DirectoryEntry header_storage st sec = true ->
  directory_file sizeof_DirectoryEntry header_storage st sec.
Proof.
  unfold directory_file_b, directory_file. intros H.
  apply andb_prop in H. destruct H as (Ht & H). split; [exact Ht|].
  destruct (FileHeader_FetchFrom _ _ _) as [hdr| |]; try discriminate.
  apply andb_prop in H. destruct H as (Hlen & Hall).
  exists hdr. split; [reflexivity|]. split; [apply Z.leb_le, Hlen|].
  apply Forall_forall. intros x Hx.
  rewrite forallb_forall in Hall. apply Hall.
  apply list_elem_of_In, Hx.
Qed.

Lemma directories_on_path_b_true (sizeof_DirectoryEntry : Z)
    (header_storage : list Z) (st : Store) (path : string) :
  directories_on_path_b sizeof_DirectoryEntry header_storage st path = true ->
  directories_on_path sizeof_DirectoryEntry header_storage st path.
Proof.
  unfold directories_on_path_b, directories_on_path. intros H.
  apply Forall_forall. intros x Hx.
  rewrite forallb_forall in H. apply directory_file_b_true, H.
  apply list_elem_of_In, Hx.
Qed.


(** The disk that formatting leaves: the names in its tables have the
    declared size. *)
Lemma sized_store_tables (st : Store) :
  (forall sec, dirData st sec
               = if sec =? 1 then Directory_new sample_storage
                 else sample_storage) ->
  sized_store st.
Proof.
  intros H sec. rewrite H.
  destruct (sec =? 1); [apply names_sized_new|]; apply names_sized_sample.
Qed.


Lemma CreateFile_sectors (b fm1 fm2 : Bitmap) (sector0 : Z)
    (nb0 np0 lv0 : Z) (ps0 : list Z) (hdr : FileHeader) (size : Z) :
  FindAndSet b = (sector0, fm1) -> 0 <= sector0 ->
  FileHeader_Allocate (FileHeader_new nb0 np0 lv0 ps0) fm1 size
    = Ok (true, hdr, fm2) ->
  allocated b fm2 (sector0 :: blocks_hdr hdr).
Proof.
  intros Hfs Hs0 Hal.
  destruct (FileHeader_Allocate_spec _ _ _ _ _ _ _ _ Hal) as (_ & Ha).
  destruct (FindAndSet_spec _ _ _ Hfs Hs0) as (Hfree & Hset & Hm).
  change (sector0 :: blocks_hdr hdr) with ([sector0] ++ blocks_hdr hdr).
  eapply allocated_app; [|exact Ha].
  split; [apply NoDup_singleton|]. split; [|exact Hm].
  repeat constructor; assumption.
Qed.

Lemma sized_store_Create (header_storage : list Z) (this this' : FileSystem)
    (st st' : Store) (path : string) (size : Z) :
  sized_store st ->
  Create header_storage this st path size = Ok (true, this', st') ->
  sized_store st' /\ lookup_stable st st'.
Proof.
  intros Hsz Hc.
  destruct (Create_core _ _ _ _ _ _ _ Hsz Hc)
    as (psec & sector0 & dir' & hdr & fm1 & fm2 & _ & _ & _ & _ &
        Hadd & _ & _ & _ & _ & Hdd & _).
  cbv zeta in *. split.
  - intros sec. rewrite Hdd. destruct (sec =? psec); [|apply Hsz].
    unfold Directory_Add in Hadd.
    destruct (negb (Directory_FindIndex _ _ =? -1)); [discriminate|].
    destruct (Add_loop _ _ _ _) as [t|] eqn:Ea; [|discriminate].
    inversion Hadd; subst t.
    destruct (Add_loop_inv _ _ _ _ _ Ea) as (k & e & Hk & _ & ->).
    pose proof (Hsz psec) as Hp. unfold names_sized in *.
    apply Forall_insert; [exact Hp|]. cbn [name]. rewrite length_strncpy.
    rewrite Forall_lookup in Hp. eapply Hp; eauto.
  - intros sec nm Hf. rewrite Hdd.
    destruct (Z.eqb_spec sec psec) as [->|_]; [|reflexivity].
    eapply Directory_Add_Find_other; [apply Hsz|exact Hadd|exact Hf].
Qed.



Lemma Directory_Add_shape (d d' : Directory) (nm : string) (s ty : Z) :
  names_sized d ->
  Directory_Add d nm s ty = (true, d') ->
  exists k e,
    d !! k = Some e /\ inUse e = false /\
    d' = <[k := {| inUse := true; fileType := ty; sector := s;
                   name := strncpy (name e) nm FileNameMaxLen |}]> d /\
    Directory_FindIndex d' nm = Z.of_nat k.
Proof.
  intros Hsz H. destruct (Directory_Add_inv _ _ _ _ _ H)
    as (Hnone & k & e & Hk & Hfree & ->).
  exists k, e. split; [exact Hk|]. split; [exact Hfree|].
  split; [reflexivity|].
  assert (Hlen : length (name e) = S FileNameMaxLen).
  { unfold names_sized in Hsz. rewrite Forall_lookup in Hsz. eapply Hsz; eauto. }
  unfold Directory_FindIndex.
  rewrite (FindIndex_from_insert_found d nm 0 k e _ Hnone ltac:(lia) Hk);
    [lia|reflexivity|].
  cbn [name]. apply strncmp_is0_strncpy. rewrite Hlen. lia.
Qed.

(** A table in which a free slot has been filled and cleared again
    answers every look-up as before. *)
Lemma Directory_Find_free_slot (d : Directory) (k : nat)
    (e e' : DirectoryEntry) (nm : string) :
  d !! k = Some e -> inUse e = false -> inUse e' = false ->
  Directory_Find (<[k := e']> d) nm = Directory_Find d nm.
Proof.
  intros Hk Hfree Hfree'.
  apply Directory_Find_of_FindIndex_eq.
  - unfold Directory_FindIndex. eapply FindIndex_from_insert_other;
      [exact Hk|rewrite Hfree; reflexivity|rewrite Hfree'; reflexivity].
  - intros j Hj. destruct (decide (j = k)) as [->|Hne];
      [|apply list_lookup_insert_ne; congruence].
    exfalso. unfold Directory_FindIndex in Hj.
    destruct (FindIndex_from_found d nm 0 _ ltac:(lia) Hj ltac:(lia))
      as (_ & e2 & He2 & Hu & _).
    rewrite Z.sub_0_r, Nat2Z.id, Hk in He2. inversion He2; subst e2. congruence.
Qed.

Lemma FileHeader_Allocate_then_Deallocate_length (nb0 np0 lv0 : Z)
    (ps0 : list Z) (h h' : FileHeader) (fm fm' fm'' : Bitmap) (s : Z) :
  FileHeader_Allocate (FileHeader_new nb0 np0 lv0 ps0) fm s = Ok (true, h, fm') ->
  FileHeader_Deallocate h fm' = Ok (h', fm'') ->
  length fm'' = length fm.
Proof.
  intros Hal Hd.
  destruct (FileHeader_Allocate_layout _ _ _ _ _ _ _ _ Hal)
    as (Hwf & Hgood & Htk).
  destruct (sectors_hdr_split h Hwf) as (_ & Hsplit).
  pose proof (taken_perm _ _ _ _ Hsplit Htk)
    as ((Hnd & Hall & _) & Hlen & _).
  assert (Hheld : held fm' (cleared_hdr h)).
  { apply NoDup_app in Hnd. destruct Hnd as (Hnd & _ & _).
    apply Forall_app in Hall. destruct Hall as (Hall & _).
    split; [exact Hnd|]. eapply Forall_impl; [exact Hall|].
    intros x [_ Hx]. exact Hx. }
  destruct (FileHeader_Deallocate_spec h _ fm' Hwf Hgood Hheld)
    as (h2 & fm2 & Hd2 & (Hlen' & _) & _).
  rewrite Hd in Hd2. inversion Hd2; subst. congruence.
Qed.

Lemma last_component (path : string) :
  strtok_loop path "" <> [] ->
  default ""%string (last (strtok_loop path "")) <> ""%string.
Proof.
  intros Hne.
  pose proof (strtok_loop_components path "" ltac:(simpl; tauto)) as Hall.
  destruct (last (strtok_loop path "")) as [t|] eqn:El.
  - cbn. rewrite Forall_forall in Hall.
    apply (Hall t). apply last_Some in El. destruct El as (l' & ->).
    apply elem_of_app. right. left.
  - apply last_None in El. contradiction.
Qed.



(** ** Formatting *)

Lemma Directory_free_empty (d : Directory) :
  Forall (fun e => inUse e = false) d ->
  (forall nm, Directory_Find d nm = -1 /\ Directory_IsDirectory d nm = false) /\
  Directory_List d = [].
Proof.
  intros Hfree. split.
  - intros nm.
    assert (Hi : Directory_FindIndex d nm = -1).
    { apply FindIndex_from_all_false. eapply Forall_impl; [exact Hfree|].
      intros e He Hu. congruence. }
    unfold Directory_Find, Directory_IsDirectory. rewrite Hi. auto.
  - unfold Directory_List. generalize 0.
    induction Hfree as [|e l He _ IH]; intros i; cbn [List_from];
      [reflexivity|].
    rewrite He. apply IH.
Qed.

Lemma Test_Mark (x s : Z) (b : Bitmap) :
  0 <= s -> (Z.to_nat s < length b)%nat ->
  Test x (Mark s b) = if x =? s then true else Test x b.
Proof.
  intros Hs Hlt. unfold Mark, Test.
  destruct (Z.ltb_spec s 0) as [|_]; [lia|].
  destruct (Z.eqb_spec x s) as [->|Hne].
  - destruct (Z.ltb_spec s 0) as [|_]; [lia|].
    rewrite list_lookup_insert_eq by exact Hlt. reflexivity.
  - destruct (Z.ltb_spec x 0) as [|Hx]; [reflexivity|].
    rewrite list_lookup_insert_ne by lia. reflexivity.
Qed.

(** X20.  Formatting: when [FileSystem(true)] completes on a disk
    of at least two sectors, the bitmap file has the bits of the two
    well-known header sectors set, the root directory holds no entry
    (every look-up in it fails and its listing is empty), the current
    directory is the root, no file is open, and the headers of the bitmap
    file and of the directory file are read back from sectors 0 and 1 with
    the lengths [NumSectors / BitsInByte] and [DirectoryFileSize]: the
    write-back of the second header has left the first one intact. *)
Theorem FileSystem_new_format (NumSectors sizeof_DirectoryEntry : Z)
    (entry_storage : list DirectoryEntry) (header_storage : list Z)
    (st st' : Store) (fs : FileSystem) :
  2 <= NumSectors ->
  FileSystem_new NumSectors sizeof_DirectoryEntry entry_storage header_storage
    true st = Ok (fs, st') ->
  Test FreeMapSector (mapData st') = true /\
  Test DirectorySector (mapData st') = true /\
  (forall nm, Directory_Find (dirData st' DirectorySector) nm = -1) /\
  Directory_List (dirData st' DirectorySector) = [] /\
  at_root fs st' /\ fs_table fs = ∅ /\
  exists mapHdr dirHdr,
    FileHeader_FetchFrom (new_FileHeader header_storage) (synchDisk st')
      FreeMapSector = Ok mapHdr /\
    FileHeader_FileLength mapHdr = FreeMapFileSize NumSectors /\
    FileHeader_FetchFrom (new_FileHeader header_storage) (synchDisk st')
      DirectorySector = Ok dirHdr /\
    FileHeader_FileLength dirHdr = DirectoryFileSize sizeof_DirectoryEntry.
Proof.
  intros HN H. unfold FileSystem_new in H.
  set (fm0 := Mark DirectorySector (Mark FreeMapSector (Bitmap_new NumSectors)))
    in H.
  apply bind_Ok in H. destruct H as ([[ok1 mapHdr] fm1] & Hal1 & H).
  apply ASSERT_Ok in H. destruct H as (-> & H).
  apply bind_Ok in H. destruct H as ([[ok2 dirHdr] fm2] & Hal2 & H).
  apply ASSERT_Ok in H. destruct H as (-> & H).
  apply bind_Ok in H. destruct H as (d1 & Hw1 & H).
  apply bind_Ok in H. destruct H as (d2 & Hw2 & H).
  inversion H; subst fs st'; clear H.
  cbn [mapData dirData synchDisk fs_table Directory_WriteBack
       PersistentBitmap_WriteBack set_synchDisk of_sector OpenFile_new].
  unfold new_FileHeader in *.
  destruct (FileHeader_Allocate_spec _ _ _ _ _ _ _ _ Hal1) as (Hwf1 & Ha1).
  destruct (FileHeader_Allocate_spec _ _ _ _ _ _ _ _ Hal2) as (Hwf2 & Ha2).
  assert (Hlen0 : length (Mark FreeMapSector (Bitmap_new NumSectors))
                  = Z.to_nat NumSectors).
  { unfold Mark, FreeMapSector, Bitmap_new. cbn.
    rewrite length_insert, length_replicate. reflexivity. }
  assert (H0 : Test FreeMapSector fm0 = true).
  { unfold fm0. rewrite Test_Mark by (rewrite ?Hlen0; unfold DirectorySector; lia).
    change (FreeMapSector =? DirectorySector) with false. cbv iota.
    rewrite Test_Mark by (unfold FreeMapSector, Bitmap_new;
                          rewrite ?length_replicate; lia).
    reflexivity. }
  assert (H1 : Test DirectorySector fm0 = true).
  { unfold fm0. rewrite Test_Mark by (rewrite ?Hlen0; unfold DirectorySector; lia).
    rewrite Z.eqb_refl. reflexivity. }
  pose proof (allocated_mono _ _ _ Ha1) as Hm1.
  pose proof (allocated_mono _ _ _ Ha2) as Hm2.
  split; [apply Hm2, Hm1, H0|]. split; [apply Hm2, Hm1, H1|].
  change (DirectorySector =? DirectorySector) with true. cbv iota.
  destruct (Directory_free_empty _ (Directory_new_free entry_storage))
    as (Hfind & Hlist).
  split; [intros nm; apply Hfind|]. split; [exact Hlist|].
  split; [split; reflexivity|]. split; [reflexivity|].
  pose proof (allocated_fresh _ _ _ _ Ha1 H0) as Hnd1.
  pose proof (allocated_fresh _ _ _ _ Ha2 (Hm1 _ H1)) as Hnd2.
  destruct (FileHeader_roundtrip_frame mapHdr (synchDisk st) FreeMapSector
              Hwf1 Hnd1) as (d1' & Hw1' & _ & Hrd1).
  rewrite Hw1 in Hw1'. inversion Hw1'; subst d1'; clear Hw1'.
  destruct (FileHeader_roundtrip_frame dirHdr d1 DirectorySector Hwf2 Hnd2)
    as (d2' & Hw2' & Hfr2 & Hrd2).
  rewrite Hw2 in Hw2'. inversion Hw2'; subst d2'; clear Hw2'.
  exists mapHdr, dirHdr.
  destruct Ha1 as (_ & Hall1 & _). destruct Ha2 as (_ & Hall2 & _).
  rewrite Forall_forall in Hall1, Hall2.
  split.
  { apply Hrd1. intros x Hx. apply Hfr2. intros Hx2.
    apply elem_of_cons in Hx, Hx2.
    destruct Hx as [->|Hx]; destruct Hx2 as [Hx2|Hx2].
    - discriminate.
    - destruct (Hall2 _ Hx2) as (Hc & _). rewrite (Hm1 _ H0) in Hc. discriminate.
    - subst x. destruct (Hall1 _ Hx) as (Hc & _). congruence.
    - destruct (Hall1 _ Hx) as (_ & Hs). destruct (Hall2 _ Hx2) as (Hc & _).
      congruence. }
  split; [apply (FileHeader_Allocate_fields _ _ _ _ _ Hal1)|].
  split; [apply Hrd2; intros x _; reflexivity|].
  apply (FileHeader_Allocate_fields _ _ _ _ _ Hal2).
Qed.

Lemma FileSystem_new_format_witness :
  exists fs st',
    2 <= sample_NumSectors /\
    formatted = Ok (fs, st') /\
    Test FreeMapSector (mapData st') = true /\
    Test DirectorySector (mapData st') = true /\
    Directory_List (dirData st' DirectorySector) = [] /\
    exists mapHdr,
      FileHeader_FetchFrom (new_FileHeader []) (synchDisk st') FreeMapSector
        = Ok mapHdr /\
      FileHeader_FileLength mapHdr = 16.
Proof.
  assert (HN : 2 <= sample_NumSectors) by (vm_compute; congruence).
  assert (H : exists fs st', formatted = Ok (fs, st')).
  { do 2 eexists. vm_compute. reflexivity. }
  destruct H as (fs & st' & H). exists fs, st'.
  split; [exact HN|]. split; [exact H|].
  destruct (FileSystem_new_format sample_NumSectors sample_entry_size
              sample_storage [] blank_store st' fs HN H)
    as (T0 & T1 & _ & Hl & _ & _ & mapHdr & dirHdr & F0 & L0 & _ & _).
  split; [exact T0|]. split; [exact T1|]. split; [exact Hl|].
  exists mapHdr. split; [exact F0|exact L0].
Defined.
(** ** A new directory *)



(** X9.  Path resolution is iterated look-up: whatever the
    current directory was, [ChangeCurrentDirectoryByWholePath] succeeds
    exactly when the path starts with ['/'] and every component but the
    last is found, by [Directory::Find], in the table of the directory
    reached so far, starting from the root; the type of the entries on
    the way is never consulted and the last component is never looked up.
    On success the current directory is the table of the directory
    reached and the file name returned is the last component; in every
    case the disk and the open-file table are as they were. *)
Theorem path_resolution_is_iterated_Find (this : FileSystem) (st : Store)
    (path : string) :
  let tokens := strtok_loop path "" in
  let r := ChangeCurrentDirectoryByWholePath this st path in
  let ok := fst (fst (fst r)) in
  let this1 := snd (fst r) in
  store_eq st (snd r) /\ fs_table this1 = fs_table this /\
  (ok = true <->
   first_char path = "/"%char /\
   exists s, walk (dirData st) DirectorySector tokens = Some s) /\
  (ok = true ->
   walk (dirData st) DirectorySector tokens
     = Some (of_sector (currentDirectoryFile this1)) /\
   snd (fst (fst r)) = default ""%string (last tokens) /\
   currentDirectory this1
     = dirData st (of_sector (currentDirectoryFile this1))).
Proof.
  intros tokens r ok this1. subst ok this1.
  destruct r as [[[ok fn] this1] st1] eqn:E. unfold r in E.
  cbn [fst snd].
  destruct (ChangeCurrentDirectoryByWholePath_walk _ _ _ _ _ _ _ E)
    as (S1 & T1 & Sy & H).
  split; [exact S1|]. split; [exact T1|].
  fold tokens in H.
  destruct (Ascii.eqb_spec (first_char path) "/"%char) as [Hfc|Hfc].
  - destruct (walk (dirData st) DirectorySector tokens) as [s|] eqn:Ew.
    + destruct H as (-> & Hs & ->). split.
      * split; [intros _; split; [exact Hfc|eauto]|reflexivity].
      * intros _. split; [rewrite Hs; reflexivity|]. split; [reflexivity|].
        unfold synced in Sy. rewrite Sy. destruct S1 as (_ & Hd & _). apply Hd.
    + subst ok. split; [|discriminate].
      split; [discriminate|]. intros (_ & s & Hs). discriminate.
  - subst ok. split; [|discriminate].
    split; [discriminate|]. intros (Hc & _). contradiction.
Qed.

(** ** Instances of the invariants of the directory *)

Lemma new_directory_names_unique_witness :
  exists d,
    names_sized sample_storage /\
    run_ops [OpAdd "a" 5 FILE_TYPE; OpAdd "b" 6 DIR_TYPE; OpRemove "a";
             OpAdd "a" 9 FILE_TYPE] (Directory_new sample_storage) = Some d /\
    names_unique d.
Proof.
  assert (Hr : exists d,
            run_ops [OpAdd "a" 5 FILE_TYPE; OpAdd "b" 6 DIR_TYPE; OpRemove "a";
                     OpAdd "a" 9 FILE_TYPE] (Directory_new sample_storage)
              = Some d).
  { eexists. vm_compute. reflexivity. }
  destruct Hr as (d & Hr). exists d.
  split; [exact names_sized_sample|]. split; [exact Hr|].
  exact (new_directory_names_unique sample_storage _ d names_sized_sample Hr).
Defined.

Lemma run_ops_names_terminated_witness :
  exists d,
    short_names [OpAdd "a" 5 FILE_TYPE; OpAdd "b" 6 DIR_TYPE; OpRemove "a"] /\
    run_ops [OpAdd "a" 5 FILE_TYPE; OpAdd "b" 6 DIR_TYPE; OpRemove "a"]
      (Directory_new dirty_storage) = Some d /\
    names_terminated d.
Proof.
  assert (Hs : short_names [OpAdd "a" 5 FILE_TYPE; OpAdd "b" 6 DIR_TYPE;
                            OpRemove "a"]).
  { unfold short_names. repeat constructor; vm_compute; lia. }
  assert (Hsz : names_sized (Directory_new dirty_storage)).
  { apply names_sized_new. unfold names_sized, dirty_storage.
    repeat constructor. }
  assert (Hr : exists d,
            run_ops [OpAdd "a" 5 FILE_TYPE; OpAdd "b" 6 DIR_TYPE; OpRemove "a"]
              (Directory_new dirty_storage) = Some d).
  { eexists. vm_compute. reflexivity. }
  destruct Hr as (d & Hr). exists d.
  split; [exact Hs|]. split; [exact Hr|].
  exact (run_ops_names_terminated _ (Directory_new dirty_storage) d Hsz
           (names_unique_new dirty_storage) (names_terminated_new dirty_storage)
           Hs Hr).
Defined.

(** ** The stub file system *)

Lemma Stub_freeIndex_loop (this : Stub.FileSystem) (n i : nat) (acc : Z) :
  (i + n <= length this)%nat ->
  exists r,
    for_from i n
      (fun i freeIndex =>
         slot ← array_get this i;
         Ok (match slot with
             | None => Z.of_nat i
             | Some _ => freeIndex
             end)) acc = Ok r /\
    ((r = acc /\ Stub.occupied this i (i + n)) \/
     (exists k, r = Z.of_nat k /\ (i <= k < i + n)%nat /\
                this !! k = Some None /\ Stub.occupied this (S k) (i + n))).
Proof.
  revert i acc. induction n as [|n IH]; intros i acc Hlen.
  - exists acc. split; [reflexivity|]. left. split; [reflexivity|].
    intros j Hj. lia.
  - destruct (lookup_lt_is_Some_2 this i ltac:(lia)) as [slot Hslot].
    assert (Hget : array_get this i = Ok slot)
      by (unfold array_get; rewrite Hslot; reflexivity).
    cbn [for_from]. cbn beta. rewrite Hget.
    cbn [mbind res_bind rbind].
    destruct (IH (S i) (match slot with
                        | None => Z.of_nat i
                        | Some _ => acc
                        end) ltac:(lia)) as (r & Hr & Hcase).
    exists r. split; [exact Hr|].
    replace (i + S n)%nat with (S i + n)%nat by lia.
    destruct Hcase as [[-> Hocc] | (k & -> & Hk & Hfree & Hocc)].
    + destruct slot as [f|].
      * left. split; [reflexivity|]. intros j Hj.
        destruct (decide (j = i)) as [->|Hne]; [exists f; exact Hslot|].
        apply Hocc. lia.
      * right. exists i. repeat split; try lia; assumption.
    + right. exists k. repeat split; try lia; assumption.
Qed.

Lemma Stub_CloseFile_from_miss (this : Stub.FileSystem) (fd : Z) (n i : nat) :
  (i + n <= length this)%nat ->
  (forall j f, (i <= j < i + n)%nat -> this !! j = Some (Some f) ->
               Stub.GetFileDescriptor f <> fd) ->
  Stub.CloseFile_from i n this fd = Ok (0, this).
Proof.
  revert i. induction n as [|n IH]; intros i Hlen Hmiss; [reflexivity|].
  destruct (lookup_lt_is_Some_2 this i ltac:(lia)) as [slot Hslot].
  cbn [Stub.CloseFile_from]. unfold array_get at 1. rewrite Hslot.
  cbn [mbind res_bind rbind].
  assert (Hrec : Stub.CloseFile_from (S i) n this fd = Ok (0, this)).
  { apply IH; [lia|]. intros j f Hj. apply Hmiss. lia. }
  destruct slot as [f|]; [|exact Hrec].
  destruct (Z.eqb_spec (Stub.GetFileDescriptor f) fd) as [Heq|_]; [|exact Hrec].
  exfalso. exact (Hmiss i f ltac:(lia) Hslot Heq).
Qed.

Lemma Stub_CloseFile_from_hit (this : Stub.FileSystem) (fd : Z) (f : Stub.OpenFile)
    (k n i : nat) :
  (i + n <= length this)%nat -> (i <= k < i + n)%nat ->
  this !! k = Some (Some f) -> Stub.GetFileDescriptor f = fd ->
  (forall j g, (i <= j < k)%nat -> this !! j = Some (Some g) ->
               Stub.GetFileDescriptor g <> fd) ->
  Stub.CloseFile_from i n this fd = Ok (1, <[k := None]> this).
Proof.
  revert i. induction n as [|n IH]; intros i Hlen Hk Hslot Hfd Hmiss; [lia|].
  cbn [Stub.CloseFile_from].
  destruct (decide (i = k)) as [->|Hne].
  - unfold array_get. rewrite Hslot. cbn [mbind res_bind rbind].
    rewrite Hfd, Z.eqb_refl. unfold array_set.
    destruct (decide (k < length this)%nat) as [_|Hge]; [reflexivity|lia].
  - destruct (lookup_lt_is_Some_2 this i ltac:(lia)) as [slot Hi].
    unfold array_get at 1. rewrite Hi. cbn [mbind res_bind rbind].
    assert (Hrec : Stub.CloseFile_from (S i) n this fd
                   = Ok (1, <[k := None]> this)).
    { apply IH; try lia; try assumption.
      intros j g Hj. apply Hmiss. lia. }
    destruct slot as [g|]; [|exact Hrec].
    destruct (Z.eqb_spec (Stub.GetFileDescriptor g) fd) as [Heq|_]; [|exact Hrec].
    exfalso. exact (Hmiss i g ltac:(lia) Hi Heq).
Qed.

Lemma Stub_ReadFile_from_miss (R : Stub.OpenFile -> Z -> Z)
    (this : Stub.FileSystem) (size fd : Z) (n i : nat) :
  (i + n <= length this)%nat ->
  Stub.closed this fd ->
  Stub.ReadFile_from R i n this size fd = Ok (-1).
Proof.
  revert i. induction n as [|n IH]; intros i Hlen Hmiss; [reflexivity|].
  destruct (lookup_lt_is_Some_2 this i ltac:(lia)) as [slot Hslot].
  cbn [Stub.ReadFile_from]. unfold array_get at 1. rewrite Hslot.
  cbn [mbind res_bind rbind].
  assert (Hrec : Stub.ReadFile_from R (S i) n this size fd = Ok (-1))
    by (apply IH; [lia|assumption]).
  destruct slot as [f|]; [|exact Hrec].
  destruct (Z.eqb_spec (Stub.GetFileDescriptor f) fd) as [Heq|_]; [|exact Hrec].
  exfalso. exact (Hmiss i f Hslot Heq).
Qed.

Lemma Stub_WriteFile_from_miss (W : Stub.OpenFile -> string -> Z -> Z)
    (this : Stub.FileSystem) (buffer : string) (size fd : Z) (n i : nat) :
  (i + n <= length this)%nat ->
  Stub.closed this fd ->
  Stub.WriteFile_from W i n this buffer size fd = Ok (-1).
Proof.
  revert i. induction n as [|n IH]; intros i Hlen Hmiss; [reflexivity|].
  destruct (lookup_lt_is_Some_2 this i ltac:(lia)) as [slot Hslot].
  cbn [Stub.WriteFile_from]. unfold array_get at 1. rewrite Hslot.
  cbn [mbind res_bind rbind].
  assert (Hrec : Stub.WriteFile_from W (S i) n this buffer size fd = Ok (-1))
    by (apply IH; [lia|assumption]).
  destruct slot as [f|]; [|exact Hrec].
  destruct (Z.eqb_spec (Stub.GetFileDescriptor f) fd) as [Heq|_]; [|exact Hrec].
  exfalso. exact (Hmiss i f Hslot Heq).
Qed.

Lemma Stub_OpenAFile_inv (this this' : Stub.FileSystem) (host r : Z) :
  length this = 20%nat ->
  Stub.OpenAFile this host = Ok (r, this') ->
  (r = -1 /\ this' = this /\
   (host = -1 \/ Stub.occupied this 1 20)) \/
  (r = host /\ host <> -1 /\
   exists k, (1 <= k < 20)%nat /\ this !! k = Some None /\
             Stub.occupied this (S k) 20 /\
             this' = <[k := Some (Stub.OpenFile_new host)]> this).
Proof.
  intros Hlen H. unfold Stub.OpenAFile, Stub.Open in H.
  destruct (Z.eqb_spec host (-1)) as [->|Hhost].
  { inversion H; subst. left. auto. }
  unfold Stub.freeIndex_loop, for_ in H.
  destruct (Stub_freeIndex_loop this (Z.to_nat Stub.FS_OPENFILE_NUMS) 0 0
              ltac:(rewrite Hlen; vm_compute; lia)) as (fi & Hfi & Hcase).
  rewrite Hfi in H. cbn [mbind res_bind rbind] in H.
  change (0 + Z.to_nat Stub.FS_OPENFILE_NUMS)%nat with 20%nat in Hcase.
  destruct Hcase as [[-> Hocc] | (k & -> & Hk & Hfree & Hocc)].
  - cbn in H. inversion H; subst. left. repeat split; auto.
    right. intros j Hj. apply Hocc. lia.
  - destruct (decide (k = 0%nat)) as [->|Hk0].
    + cbn in H. inversion H; subst. left. repeat split; auto.
    + destruct (Z.eqb_spec (Z.of_nat k) 0) as [Hz|_]; [lia|].
      rewrite Nat2Z.id in H. unfold array_set in H.
      destruct (decide (k < length this)%nat) as [_|Hge]; [|lia].
      cbn [mbind res_bind rbind] in H. inversion H; subst.
      right. repeat split; auto. exists k. repeat split; auto; lia.
Qed.

Lemma Stub_OpenAFile_total (this : Stub.FileSystem) (host : Z) :
  length this = 20%nat ->
  exists r this', Stub.OpenAFile this host = Ok (r, this').
Proof.
  intros Hlen. unfold Stub.OpenAFile, Stub.Open.
  destruct (host =? -1); [eauto|].
  unfold Stub.freeIndex_loop, for_.
  destruct (Stub_freeIndex_loop this (Z.to_nat Stub.FS_OPENFILE_NUMS) 0 0
              ltac:(rewrite Hlen; vm_compute; lia)) as (fi & Hfi & Hcase).
  rewrite Hfi. cbn [mbind res_bind rbind].
  destruct (fi =? 0) eqn:Hz; [eauto|].
  unfold array_set.
  destruct (decide (Z.to_nat fi < length this)%nat) as [_|Hge];
    [cbn [mbind res_bind rbind]; eauto|].
  exfalso. apply Hge. rewrite Hlen.
  change (0 + Z.to_nat Stub.FS_OPENFILE_NUMS)%nat with 20%nat in Hcase.
  destruct Hcase as [[-> _] | (k & -> & Hk & _)]; [discriminate|].
  rewrite Nat2Z.id. lia.
Qed.

(** X25.  The stub table takes nineteen files, not twenty: [OpenAFile]
    always returns on a table of [FS_OPENFILE_NUMS] slots; it returns -1
    and leaves the table as it is exactly when the host refused the file
    or the slots 1 to 19 all hold a handle, whether slot 0 is free or not
    ([freeIndex] starts as 0 and 0 is read as "none found"); otherwise it
    returns the descriptor of the host and stores the handle in the free
    slot of highest index (the search does not stop at the first one).
    Slot 0 is never written. *)
Theorem Stub_OpenAFile_never_uses_slot_0 (this : Stub.FileSystem) (host : Z) :
  length this = 20%nat ->
  exists r this',
    Stub.OpenAFile this host = Ok (r, this') /\
    length this' = 20%nat /\ this' !! 0%nat = this !! 0%nat /\
    (r = -1 <-> host = -1 \/ Stub.occupied this 1 20) /\
    (r = -1 -> this' = this) /\
    (r <> -1 ->
     r = host /\
     exists k, (1 <= k < 20)%nat /\ this !! k = Some None /\
               Stub.occupied this (S k) 20 /\
               this' = <[k := Some (Stub.OpenFile_new host)]> this).
Proof.
  intros Hlen.
  destruct (Stub_OpenAFile_total this host Hlen) as (r & this' & H).
  exists r, this'. split; [exact H|].
  destruct (Stub_OpenAFile_inv _ _ _ _ Hlen H)
    as [(-> & -> & Hwhy) | (-> & Hhost & k & Hk & Hfree & Hocc & ->)].
  - repeat split; auto; try congruence.
  - rewrite length_insert. split; [exact Hlen|].
    split; [apply list_lookup_insert_ne; lia|].
    split; [split; [congruence|]|].
    + intros [Hc | Hc]; [congruence|].
      destruct (Hc k ltac:(lia)) as [f Hf]. congruence.
    + split; [congruence|]. intros _. split; [reflexivity|].
      exists k. repeat split; auto; lia.
Qed.

(** X26.  Open then close in the stub: when [OpenAFile] returns a
    descriptor that no slot of the table held, [CloseFile] of that
    descriptor returns 1 and leaves the table exactly as it was before the
    file was opened; after that a second [CloseFile] returns 0 and
    [ReadFile] and [WriteFile] return -1, none of them touching the
    table. *)
Theorem Stub_OpenAFile_then_CloseFile (R : Stub.OpenFile -> Z -> Z)
    (W : Stub.OpenFile -> string -> Z -> Z)
    (this this1 : Stub.FileSystem) (host fd : Z) (buffer : string) (size : Z) :
  length this = 20%nat -> Stub.closed this fd ->
  Stub.OpenAFile this host = Ok (fd, this1) -> fd <> -1 ->
  Stub.CloseFile this1 fd = Ok (1, this) /\
  Stub.CloseFile this fd = Ok (0, this) /\
  Stub.ReadFile R this size fd = Ok (-1) /\
  Stub.WriteFile W this buffer size fd = Ok (-1).
Proof.
  intros Hlen Hclosed H Hfd.
  destruct (Stub_OpenAFile_inv _ _ _ _ Hlen H)
    as [(-> & _) | (-> & Hhost & k & Hk & Hfree & Hocc & ->)]; [congruence|].
  assert (H20 : Z.to_nat Stub.FS_OPENFILE_NUMS = 20%nat) by reflexivity.
  repeat split.
  - unfold Stub.CloseFile. rewrite H20.
    rewrite (Stub_CloseFile_from_hit _ host (Stub.OpenFile_new host) k).
    + rewrite list_insert_insert_eq. rewrite list_insert_id; [reflexivity|assumption].
    + rewrite length_insert. lia.
    + lia.
    + apply list_lookup_insert_eq. lia.
    + reflexivity.
    + intros j g Hj Hg. rewrite list_lookup_insert_ne in Hg by lia.
      exact (Hclosed j g Hg).
  - unfold Stub.CloseFile. rewrite H20.
    apply Stub_CloseFile_from_miss; [lia|].
    intros j f _ Hf. exact (Hclosed j f Hf).
  - unfold Stub.ReadFile. rewrite H20.
    apply Stub_ReadFile_from_miss; [lia|assumption].
  - unfold Stub.WriteFile. rewrite H20.
    apply Stub_WriteFile_from_miss; [lia|assumption].
Qed.

Lemma Stub_FileSystem_new_clears (storage : Stub.FileSystem) :
  length storage = 20%nat ->
  Stub.FileSystem_new storage = Ok (replicate 20 None).
Proof.
  intros Hlen.
  do 21 (destruct storage as [|? storage]; try discriminate Hlen).
  reflexivity.
Qed.

Lemma Stub_closed_new (fd : Z) : Stub.closed (replicate 20 None) fd.
Proof.
  intros i f Hi. apply lookup_replicate in Hi as [Hi _]. discriminate.
Qed.

Lemma Stub_OpenAFile_never_uses_slot_0_witness :
  Stub.FileSystem_new (replicate 20 (Some (Stub.OpenFile_new 7)))
    = Ok (replicate 20 None) /\
  exists r this',
    Stub.OpenAFile (replicate 20 None) 3 = Ok (r, this') /\
    length this' = 20%nat /\
    this' !! 0%nat = replicate 20 (@None Stub.OpenFile) !! 0%nat /\
    (r = -1 <-> 3 = -1 \/ Stub.occupied (replicate 20 None) 1 20) /\
    (r = -1 -> this' = replicate 20 None) /\
    (r <> -1 ->
     r = 3 /\
     exists k, (1 <= k < 20)%nat /\
               replicate 20 (@None Stub.OpenFile) !! k = Some None /\
               Stub.occupied (replicate 20 None) (S k) 20 /\
               this' = <[k := Some (Stub.OpenFile_new 3)]> (replicate 20 None)).
Proof.
  split; [apply Stub_FileSystem_new_clears; reflexivity|].
  exact (Stub_OpenAFile_never_uses_slot_0 (replicate 20 None) 3 eq_refl).
Defined.

Lemma Stub_OpenAFile_then_CloseFile_witness :
  exists this1,
    Stub.OpenAFile (replicate 20 None) 3 = Ok (3, this1) /\
    this1 !! 19%nat = Some (Some (Stub.OpenFile_new 3)) /\
    Stub.CloseFile this1 3 = Ok (1, replicate 20 None) /\
    Stub.CloseFile (replicate 20 None) 3 = Ok (0, replicate 20 None) /\
    Stub.ReadFile (fun _ size => size) (replicate 20 None) 8 3 = Ok (-1) /\
    Stub.WriteFile (fun _ _ size => size) (replicate 20 None) "x" 8 3
      = Ok (-1).
Proof.
  assert (H : exists this1,
             Stub.OpenAFile (replicate 20 None) 3 = Ok (3, this1) /\
             this1 !! 19%nat = Some (Some (Stub.OpenFile_new 3))).
  { eexists. split; [vm_compute; reflexivity|]. vm_compute. reflexivity. }
  destruct H as (this1 & Hopen & Hslot).
  exists this1. split; [exact Hopen|]. split; [exact Hslot|].
  exact (Stub_OpenAFile_then_CloseFile (fun _ size => size)
           (fun _ _ size => size) (replicate 20 None) this1 3 3 "x" 8
           eq_refl (Stub_closed_new 3) Hopen ltac:(discriminate)).
Defined.

(** ** The header when only level 1 was written *)

Lemma Draft_Allocate_level_1 (this : FileHeader) (fm : Bitmap) (s : Z) :
  Allocate_level s = Some 1 ->
  Draft.FileHeader_Allocate this fm s = FileHeader_Allocate this fm s.
Proof.
  intros Hl. unfold Draft.FileHeader_Allocate, FileHeader_Allocate.
  rewrite Hl. reflexivity.
Qed.

Lemma concat_singletons_lookup {A : Type} (l : list (list A)) (j : nat) (x : A) :
  (forall i y, (i < j)%nat -> l !! i = Some y -> length y = 1%nat) ->
  l !! j = Some [x] -> concat l !! j = Some x.
Proof.
  revert j. induction l as [|y l IH]; intros j Hone Hj; [discriminate|].
  destruct j as [|j].
  - cbn in Hj. inversion Hj; subst. reflexivity.
  - pose proof (Hone 0%nat y ltac:(lia) eq_refl) as Hy.
    destruct y as [|a [|b y]]; try discriminate.
    cbn [concat app]. cbn [lookup list_lookup]. apply IH.
    + intros i z Hi Hz. apply (Hone (S i) z); [lia|exact Hz].
    + exact Hj.
Qed.

(** At level 1 every slot in use holds a [DirectPointer], whose sector is
    the data sector of that position. *)
Lemma level_1_slot (h : FileHeader) (m : Z) (j : nat) :
  wf_hdr h -> good_hdr m h -> level h = 1 ->
  (j < Z.to_nat (numPointer h))%nat ->
  exists q, table h !! j = Some (Some (Direct q)) /\
            data_hdr h !! j = Some (dataSector q).
Proof.
  intros ((Hlp & Hlt & Hnp & _ & Hok & _) & _) (_ & _ & Hg) Hlv Hj.
  assert (Hslot : forall i, (i < Z.to_nat (numPointer h))%nat ->
            exists q, table h !! i = Some (Some (Direct q))).
  { intros i Hi. destruct (Hg i Hi) as (_ & c & Hc & _).
    rewrite Forall_lookup in Hok.
    destruct (Hok i c) as (p & -> & _ & Hk).
    { rewrite lookup_take_lt by lia. exact Hc. }
    rewrite Hlv in Hk. destruct p as [q| | |]; try discriminate Hk.
    exists q. exact Hc. }
  destruct (Hslot j Hj) as (q & Hq). exists q. split; [exact Hq|].
  unfold data_hdr. apply concat_singletons_lookup.
  - intros i y Hi Hy. rewrite list_lookup_fmap in Hy.
    rewrite lookup_take_lt in Hy by lia.
    destruct (Hslot i ltac:(lia)) as (q' & Hq'). rewrite Hq' in Hy.
    inversion Hy. reflexivity.
  - rewrite list_lookup_fmap, lookup_take_lt by lia. rewrite Hq. reflexivity.
Qed.

Lemma level_1_free_slot (h : FileHeader) :
  wf_hdr h -> numPointer h < NUM_FILE_HEADER_POINTER ->
  table h !! Z.to_nat (numPointer h) = Some None.
Proof.
  intros ((Hlp & Hlt & Hnp & _ & _ & Hdrop) & _) Hlt30.
  change NUM_FILE_HEADER_POINTER with 30 in *.
  change (Z.of_nat (Z.to_nat 30)) with 30 in Hnp.
  pose proof (lookup_drop (table h) (Z.to_nat (numPointer h)) 0) as Hd.
  rewrite Hdrop, Nat.add_0_r in Hd. rewrite <- Hd.
  apply lookup_replicate. split; [reflexivity|].
  change (Z.to_nat 30) with 30%nat. lia.
Qed.

Lemma Draft_ByteToSector_level_1 (h : FileHeader) (o : Z) :
  level h = 1 -> 0 <= o ->
  Draft.FileHeader_ByteToSector h o
  = ASSERT (ult (divRoundUp o SectorSize) NUM_FILE_HEADER_POINTER)
      (entry ← array_get_int (table h) (divRoundUp o SectorSize);
       match entry with
       | Some (Direct p) => Ok (dataSector p)
       | _ => Abort
       end).
Proof.
  intros Hlv Ho. unfold Draft.FileHeader_ByteToSector. rewrite Hlv.
  change (at_index SECTOR_NUM_IN_LEVEL (1 - 1)) with 1.
  change (1 * SectorSize) with SectorSize.
  change (SectorSize =? 0) with false. cbv iota.
  rewrite c_mod_nonneg by lia. cbn [mbind res_bind rbind].
  rewrite Z.mod_1_r. reflexivity.
Qed.

Lemma divRoundUp_sector (o : Z) :
  0 <= o ->
  divRoundUp o SectorSize
  = o / SectorSize + (if o mod SectorSize =? 0 then 0 else 1).
Proof.
  intros Ho. unfold divRoundUp. change SectorSize with 128.
  rewrite Z.quot_div_nonneg, Z.rem_mod_nonneg by lia.
  pose proof (Z.mod_pos_bound o 128 ltac:(lia)).
  destruct (Z.gtb_spec (o mod 128) 0), (Z.eqb_spec (o mod 128) 0); lia.
Qed.

(** X27.  The earlier [FileHeader::ByteToSector] rounds the slot index up.
    On a header of level 1, which the earlier [Allocate] builds as the
    final one does, an offset that is a multiple of [SectorSize] is
    mapped to its data sector; every other offset of the file is mapped to
    the data sector of the block after its own, a different sector, and
    in the last block of the file the call stops at an assertion (the
    index is [NUM_FILE_HEADER_POINTER], or the slot is [nullptr]). *)
Theorem Draft_ByteToSector_rounds_up (nb0 np0 lv0 : Z) (ps0 : list Z)
    (h : FileHeader) (fm fm' : Bitmap) (s : Z) :
  0 <= s <= LEVEL_1_SIZE ->
  Draft.FileHeader_Allocate (FileHeader_new nb0 np0 lv0 ps0) fm s
    = Ok (true, h, fm') ->
  FileHeader_Allocate (FileHeader_new nb0 np0 lv0 ps0) fm s
    = Ok (true, h, fm') /\
  forall o, 0 <= o < s ->
    exists sec,
      data_hdr h !! Z.to_nat (o / SectorSize) = Some sec /\
      (o mod SectorSize = 0 -> Draft.FileHeader_ByteToSector h o = Ok sec) /\
      (o mod SectorSize <> 0 ->
       o / SectorSize + 1 < divRoundUp s SectorSize ->
       exists sec',
         Draft.FileHeader_ByteToSector h o = Ok sec' /\
         data_hdr h !! Z.to_nat (o / SectorSize + 1) = Some sec' /\
         sec' <> sec) /\
      (o mod SectorSize <> 0 ->
       o / SectorSize + 1 = divRoundUp s SectorSize ->
       Draft.FileHeader_ByteToSector h o = Abort).
Proof.
  intros Hs Hd.
  assert (Hr : int_range s).
  { unfold int_range. change LEVEL_1_SIZE with 3840 in Hs.
    change (2 ^ 31) with 2147483648. lia. }
  assert (Hl1 : Allocate_level s = Some 1).
  { unfold Allocate_level, ule.
    rewrite (to_unsigned_nonneg s)
      by (change LEVEL_1_SIZE with 3840 in Hs;
          change (2 ^ 31) with 2147483648; lia).
    change (to_unsigned LEVEL_1_SIZE) with LEVEL_1_SIZE.
    destruct (Z.leb_spec s LEVEL_1_SIZE); [reflexivity|lia]. }
  rewrite (Draft_Allocate_level_1 _ _ _ Hl1) in Hd.
  split; [exact Hd|].
  destruct (FileHeader_Allocate_layout _ _ _ _ _ _ _ _ Hd)
    as (Hwf & Hgood & _).
  destruct (FileHeader_Allocate_fields _ _ _ _ _ Hd) as (_ & Hl & Hnp & _).
  destruct (FileHeader_Allocate_count _ _ _ _ _ _ _ _ Hr Hd)
    as (Hns & Hlen & ((Hnd & _) & _)).
  assert (Hlv : level h = 1) by congruence.
  set (ns := divRoundUp s SectorSize) in *.
  assert (Hnp' : numPointer h = ns).
  { rewrite Hnp, Hlv. unfold Allocate_numPointer, Allocate_numSectors.
    fold ns. change (at_index SECTOR_NUM_IN_LEVEL (1 - 1)) with 1.
    unfold divRoundUp. rewrite Z.quot_1_r, Z.rem_1_r. cbn. lia. }
  assert (Hns30 : ns <= 30).
  { pose proof (divRoundUp_spec s SectorSize (proj1 Hs) eq_refl) as Hb.
    fold ns in Hb. change SectorSize with 128 in Hb.
    change LEVEL_1_SIZE with 3840 in Hs. lia. }
  intros o Ho.
  pose proof (divRoundUp_spec s SectorSize (proj1 Hs) eq_refl) as Hb.
  fold ns in Hb. change SectorSize with 128 in *.
  pose proof (Z.div_mod o 128 ltac:(lia)) as Hdm.
  pose proof (Z.mod_pos_bound o 128 ltac:(lia)) as Hm.
  assert (Hk : 0 <= o / 128 < ns).
  { split; [apply Z.div_pos; lia|]. apply Z.div_lt_upper_bound; lia. }
  destruct (level_1_slot h ns (Z.to_nat (o / 128)) Hwf Hgood Hlv
              ltac:(rewrite Hnp'; lia)) as (q & Hq & Hdq).
  exists (dataSector q). split; [exact Hdq|].
  pose proof (Draft_ByteToSector_level_1 h o Hlv (proj1 Ho)) as Hbts.
  rewrite (divRoundUp_sector o (proj1 Ho)) in Hbts.
  change SectorSize with 128 in Hbts.
  split; [|split].
  - intros H0. rewrite Hbts.
    destruct (Z.eqb_spec (o mod 128) 0) as [_|Hne]; [|contradiction].
    rewrite Z.add_0_r.
    rewrite ult_small
      by (change NUM_FILE_HEADER_POINTER with 30;
          change (2 ^ 31) with 2147483648; lia).
    cbn [ASSERT].
    rewrite (array_get_int_Ok _ _ _ (proj1 Hk) Hq). reflexivity.
  - intros Hne Hnext.
    destruct (level_1_slot h ns (Z.to_nat (o / 128 + 1)) Hwf Hgood Hlv
                ltac:(rewrite Hnp'; lia)) as (q' & Hq' & Hdq').
    exists (dataSector q'). split; [|split; [exact Hdq'|]].
    + rewrite Hbts.
      destruct (Z.eqb_spec (o mod 128) 0) as [H0|_]; [contradiction|].
      rewrite ult_small
        by (change NUM_FILE_HEADER_POINTER with 30;
            change (2 ^ 31) with 2147483648; lia).
      cbn [ASSERT].
      rewrite (array_get_int_Ok _ (o / 128 + 1) _ ltac:(lia) Hq'). reflexivity.
    + intros Heq. rewrite Heq in Hdq'.
      apply NoDup_app in Hnd as (Hnd & _).
      pose proof (NoDup_lookup _ _ _ _ Hnd Hdq Hdq') as Hc. lia.
  - intros Hne Hlast. rewrite Hbts.
    destruct (Z.eqb_spec (o mod 128) 0) as [H0|_]; [contradiction|].
    rewrite Hlast.
    destruct (Z.eq_dec ns 30) as [E30|N30].
    + rewrite E30. reflexivity.
    + rewrite ult_small
        by (change NUM_FILE_HEADER_POINTER with 30;
            change (2 ^ 31) with 2147483648; lia).
      cbn [ASSERT].
      rewrite (array_get_int_Ok _ ns None ltac:(lia));
        [reflexivity|].
      rewrite <- Hnp'. apply level_1_free_slot; [exact Hwf|].
      change NUM_FILE_HEADER_POINTER with 30. lia.
Qed.

Lemma Draft_ByteToSector_rounds_up_witness :
  exists h fm',
    Draft.FileHeader_Allocate (FileHeader_new 0 0 0 []) (Bitmap_new 64) 300
      = Ok (true, h, fm') /\
    Draft.FileHeader_ByteToSector h 128 = Ok 4 /\
    Draft.FileHeader_ByteToSector h 129 = Ok 5 /\
    Draft.FileHeader_ByteToSector h 299 = Abort /\
    forall o, 0 <= o < 300 ->
      exists sec,
        data_hdr h !! Z.to_nat (o / SectorSize) = Some sec /\
        (o mod SectorSize = 0 -> Draft.FileHeader_ByteToSector h o = Ok sec) /\
        (o mod SectorSize <> 0 ->
         o / SectorSize + 1 < divRoundUp 300 SectorSize ->
         exists sec',
           Draft.FileHeader_ByteToSector h o = Ok sec' /\
           data_hdr h !! Z.to_nat (o / SectorSize + 1) = Some sec' /\
           sec' <> sec) /\
        (o mod SectorSize <> 0 ->
         o / SectorSize + 1 = divRoundUp 300 SectorSize ->
         Draft.FileHeader_ByteToSector h o = Abort).
Proof.
  assert (H : exists h fm',
             Draft.FileHeader_Allocate (FileHeader_new 0 0 0 [])
               (Bitmap_new 64) 300 = Ok (true, h, fm') /\
             Draft.FileHeader_ByteToSector h 128 = Ok 4 /\
             Draft.FileHeader_ByteToSector h 129 = Ok 5 /\
             Draft.FileHeader_ByteToSector h 299 = Abort).
  { do 2 eexists. split; [vm_compute; reflexivity|].
    vm_compute. repeat split; reflexivity. }
  destruct H as (h & fm' & Hal & H1 & H2 & H3).
  exists h, fm'. repeat (split; [assumption|]).
  exact (proj2 (Draft_ByteToSector_rounds_up 0 0 0 [] h (Bitmap_new 64) fm' 300
                  ltac:(vm_compute; split; discriminate) Hal)).
Defined.

(** ** The first header: direct sectors and single-indirect blocks *)

Lemma TwoTier_block_Allocate_true (p p' : TwoTier.SingleIndirectPointer)
    (fm fm' : Bitmap) (k : Z) :
  TwoTier.SingleIndirectPointer_Allocate p fm k = Ok (true, p', fm') ->
  TwoTier.good_block k p' /\ taken fm fm' (TwoTier.data_block p') /\
  k <= NumClear fm.
Proof.
  unfold TwoTier.SingleIndirectPointer_Allocate. intros H.
  destruct (Z.ltb_spec (NumClear fm) k) as [|Hk]; [discriminate|].
  apply bind_Ok in H. destruct H as ([ds fm1] & Hds & H).
  inversion H; subst; clear H.
  destruct (alloc_pointerSectors_spec _ _ _ _ _ Hds)
    as (Hl & Hle & _ & Hpos & _).
  split; [|split; [|exact Hk]].
  - split; [reflexivity|]. cbn [TwoTier.s_dataSectors].
    split; [lia|exact Hpos].
  - unfold TwoTier.data_block.
    cbn [TwoTier.s_numSectors TwoTier.s_dataSectors].
    exact (alloc_pointerSectors_taken _ _ _ _ _ Hds).
Qed.

Lemma TwoTier_loop_true (n : nat) :
  forall (i : nat) (tb tb' : list TwoTier.SingleIndirectPointer)
         (fm fm' : Bitmap) (rem : Z),
    (0 < n)%nat -> 31 * (Z.of_nat n - 1) < rem ->
    TwoTier.AllocateIndirect_loop i n tb fm rem = Ok (true, tb', fm') ->
    length tb' = length tb /\ take i tb' = take i tb /\
    (forall j : nat, (j < n)%nat ->
       0 < rem - Z.of_nat j * 31 /\
       exists c, tb' !! (i + j)%nat = Some c /\
                 TwoTier.good_block (Z.min (rem - Z.of_nat j * 31) 31) c) /\
    taken fm fm' (concat (map TwoTier.data_block (take n (drop i tb')))).
Proof.
  induction n as [|n IH]; intros i tb tb' fm fm' rem Hn Hrem H; [lia|].
  cbn [TwoTier.AllocateIndirect_loop] in H.
  change TwoTier.MAX_NUM_OF_SECTORS_IN_INDIIRECT_POINTER with 31 in H.
  destruct (Z.gtb_spec rem 0) as [Hpos|Hneg]; [|lia].
  apply bind_Ok in H. destruct H as (p & Hp & H).
  apply array_get_Ok in Hp.
  apply bind_Ok in H. destruct H as ([[ok p'] fm1] & Hal & H).
  apply bind_Ok in H. destruct H as (tb1 & Hset & H).
  apply array_set_Ok in Hset. destruct Hset as (Hlt & ->).
  destruct ok; [|discriminate].
  destruct (TwoTier_block_Allocate_true _ _ _ _ _ Hal) as (Hgood & Htk & _).
  destruct n as [|n].
  - cbn [TwoTier.AllocateIndirect_loop] in H. inversion H; subst; clear H.
    split; [apply length_insert|].
    split; [apply take_insert_ge; lia|].
    split.
    + intros j Hj. assert (j = 0%nat) by lia. subst j.
      rewrite Nat.add_0_r. cbn [Z.of_nat]. rewrite Z.mul_0_l, Z.sub_0_r.
      split; [exact Hpos|]. exists p'.
      split; [apply list_lookup_insert_eq; exact Hlt|].
      rewrite Z.min_comm. exact Hgood.
    + rewrite (drop_S _ p' i) by (apply list_lookup_insert_eq; exact Hlt).
      cbn [take map concat]. rewrite take_0. cbn [map concat].
      rewrite app_nil_r. exact Htk.
  - assert (Hmin : Z.min 31 rem = 31) by lia. rewrite Hmin in *.
    destruct (IH (S i) (<[i:=p']> tb) tb' fm1 fm' (rem - 31)
                ltac:(lia) ltac:(lia) H)
      as (Hlen & Htake & Hall & Htk2).
    rewrite length_insert in Hlen.
    assert (Hi : tb' !! i = Some p').
    { assert (E : take (S i) tb' !! i = take (S i) (<[i:=p']> tb) !! i)
        by (rewrite Htake; reflexivity).
      rewrite !lookup_take_lt in E by lia. rewrite E.
      apply list_lookup_insert_eq. exact Hlt. }
    split; [exact Hlen|].
    split.
    { assert (E : take i (take (S i) tb') = take i (take (S i) (<[i:=p']> tb)))
        by (rewrite Htake; reflexivity).
      rewrite !take_take in E.
      replace (i `min` S i)%nat with i in E by lia.
      rewrite E. apply take_insert_ge. lia. }
    split.
    + intros j Hj. destruct j as [|j].
      * rewrite Nat.add_0_r. cbn [Z.of_nat]. rewrite Z.mul_0_l, Z.sub_0_r.
        split; [exact Hpos|]. exists p'. split; [exact Hi|].
        rewrite Z.min_r by lia. exact Hgood.
      * destruct (Hall j ltac:(lia)) as (Hp1 & c & Hc & Hgc).
        replace (rem - Z.of_nat (S j) * 31)
          with (rem - 31 - Z.of_nat j * 31) by lia.
        split; [exact Hp1|]. exists c.
        replace (i + S j)%nat with (S i + j)%nat by lia.
        split; assumption.
    + rewrite (drop_S _ p' i) by exact Hi.
      change (take (S (S n)) (p' :: drop (S i) tb'))
        with (p' :: take (S n) (drop (S i) tb')).
      cbn [map concat]. eapply taken_app; eassumption.
Qed.

Lemma TwoTier_length_new_table (heap : nat -> nat -> Z) (n : Z) :
  length (TwoTier.new_table heap n) = Z.to_nat n.
Proof. unfold TwoTier.new_table. rewrite length_map, length_seq. reflexivity. Qed.

(** What a successful [Allocate] leaves: the header, and the bitmap with
    the direct sectors, the sectors of the blocks and the sectors in the
    blocks taken, in this order. *)
Lemma TwoTier_Allocate_layout (heap : nat -> nat -> Z) (nb nd ni : Z)
    (ds0 ss0 : list Z) (h : TwoTier.FileHeader) (fm fm' : Bitmap) (s : Z) :
  TwoTier.FileHeader_Allocate heap (TwoTier.FileHeader_new nb nd ds0 ni ss0)
    fm s = Ok (true, h, fm') ->
  TwoTier.numBytes h = s /\
  TwoTier.numDirectSectors h = Z.min 21 (divRoundUp s SectorSize) /\
  length (TwoTier.dataSectors h) = 21%nat /\
  length (TwoTier.singleIndirectSectors h) = 8%nat /\
  0 <= TwoTier.numIndirectPointerSectors h <= 8 /\
  Forall (fun x => 0 <= x) (TwoTier.data_direct h) /\
  Forall (fun x => 0 <= x) (TwoTier.block_sectors h) /\
  taken fm fm' (TwoTier.data_direct h ++ TwoTier.block_sectors h
                ++ TwoTier.data_indirect h) /\
  ((divRoundUp s SectorSize <= 21 /\
    TwoTier.numIndirectPointerSectors h = 0 /\ TwoTier.table h = None) \/
   (21 < divRoundUp s SectorSize /\
    TwoTier.numIndirectPointerSectors h
      = divRoundUp (divRoundUp s SectorSize - 21) 31 /\
    exists tb, TwoTier.table h = Some tb /\
               length tb = Z.to_nat (TwoTier.numIndirectPointerSectors h) /\
               good_node TwoTier.good_block 31 (divRoundUp s SectorSize - 21)
                 (TwoTier.numIndirectPointerSectors h) tb)).
Proof.
  unfold TwoTier.FileHeader_Allocate.
  change TwoTier.MAX_NUM_OF_DIRECT_POINTER with 21.
  change TwoTier.MAX_NUM_OF_SECTORS_IN_INDIIRECT_POINTER with 31.
  set (total := divRoundUp s SectorSize).
  assert (Hlds : length (TwoTier.dataSectors
                           (TwoTier.FileHeader_new nb nd ds0 ni ss0)) = 21%nat).
  { cbn [TwoTier.FileHeader_new TwoTier.dataSectors].
    rewrite length_take, length_app, length_replicate.
    change (Z.to_nat TwoTier.MAX_NUM_OF_DIRECT_POINTER) with 21%nat. lia. }
  assert (Hlss : length (TwoTier.singleIndirectSectors
                           (TwoTier.FileHeader_new nb nd ds0 ni ss0)) = 8%nat).
  { cbn [TwoTier.FileHeader_new TwoTier.singleIndirectSectors].
    rewrite length_take, length_app, length_replicate.
    change (Z.to_nat TwoTier.NUM_OF_INDIRECT_POINTER) with 8%nat. lia. }
  intros H.
  destruct (Z.ltb_spec (NumClear fm) (Z.min 21 total)) as [|_]; [discriminate|].
  apply bind_Ok in H. destruct H as ([ds fm1] & Hds & H).
  destruct (alloc_pointerSectors_spec _ _ _ _ _ Hds)
    as (Hl1 & _ & _ & Hpos1 & _).
  pose proof (alloc_pointerSectors_taken _ _ _ _ _ Hds) as Htk1.
  destruct (Z.gtb_spec (total - Z.min 21 total) 0) as [Hbig|Hsmall].
  - assert (Hmin : Z.min 21 total = 21) by lia. rewrite Hmin in *.
    unfold TwoTier.FileHeader_AllocateIndirect in H.
    cbn [TwoTier.numIndirectPointerSectors TwoTier.singleIndirectSectors
         TwoTier.numBytes TwoTier.numDirectSectors TwoTier.dataSectors] in H.
    set (np := divRoundUp (total - 21) 31) in *.
    destruct (Z.ltb_spec (NumClear fm1) np) as [|_]; [discriminate|].
    apply bind_Ok in H. destruct H as ([ss fm2] & Hss & H).
    apply bind_Ok in H. destruct H as ([[ok tb] fm3] & Hloop & H).
    inversion H; subst; clear H.
    destruct (alloc_pointerSectors_spec _ _ _ _ _ Hss)
      as (Hl2 & Hle2 & _ & Hpos2 & _).
    pose proof (alloc_pointerSectors_taken _ _ _ _ _ Hss) as Htk2.
    pose proof (divRoundUp_spec (total - 21) 31 ltac:(lia) eq_refl) as Hnp.
    fold np in Hnp.
    assert (Hnp1 : 1 <= np <= 8) by (rewrite Hlss in Hle2; lia).
    destruct (TwoTier_loop_true (Z.to_nat np) 0 _ tb fm2 fm' (total - 21)
                ltac:(lia) ltac:(lia) Hloop) as (Hlen & _ & Hall & Htk3).
    rewrite TwoTier_length_new_table in Hlen. rewrite drop_0 in Htk3.
    cbn [TwoTier.numBytes TwoTier.numDirectSectors TwoTier.dataSectors
         TwoTier.singleIndirectSectors TwoTier.numIndirectPointerSectors
         TwoTier.table].
    unfold TwoTier.data_direct, TwoTier.block_sectors, TwoTier.data_indirect.
    cbn [TwoTier.numBytes TwoTier.numDirectSectors TwoTier.dataSectors
         TwoTier.singleIndirectSectors TwoTier.numIndirectPointerSectors
         TwoTier.table].
    split; [reflexivity|]. split; [reflexivity|].
    split; [congruence|]. split; [congruence|]. split; [lia|].
    split; [exact Hpos1|]. split; [exact Hpos2|].
    split.
    { eapply taken_app; [exact Htk1|].
      eapply taken_app; [exact Htk2|exact Htk3]. }
    right. split; [lia|]. split; [reflexivity|].
    exists tb. split; [reflexivity|]. split; [exact Hlen|].
    split; [lia|]. split; [lia|].
    intros i Hi. exact (Hall i Hi).
  - inversion H; subst; clear H.
    cbn [TwoTier.numBytes TwoTier.numDirectSectors TwoTier.dataSectors
         TwoTier.singleIndirectSectors TwoTier.numIndirectPointerSectors
         TwoTier.table].
    unfold TwoTier.data_direct, TwoTier.block_sectors, TwoTier.data_indirect.
    cbn [TwoTier.numBytes TwoTier.numDirectSectors TwoTier.dataSectors
         TwoTier.singleIndirectSectors TwoTier.numIndirectPointerSectors
         TwoTier.table TwoTier.FileHeader_new].
    split; [reflexivity|]. split; [reflexivity|].
    split; [congruence|]. split; [exact Hlss|]. split; [lia|].
    split; [exact Hpos1|]. split; [constructor|].
    split.
    { change (Z.to_nat 0) with 0%nat. rewrite take_0. cbn [app].
      rewrite app_nil_r. exact Htk1. }
    left. split; [lia|]. split; reflexivity.
Qed.

Lemma TwoTier_good_block_length (k : Z) (c : TwoTier.SingleIndirectPointer) :
  0 < k -> TwoTier.good_block k c ->
  Z.of_nat (length (TwoTier.data_block c)) = k.
Proof.
  intros Hk (Hn & Hle & _). unfold TwoTier.data_block.
  rewrite Hn, length_take. lia.
Qed.

Lemma TwoTier_GetSectorByIndex_spec (k : Z) (c : TwoTier.SingleIndirectPointer)
    (o : Z) :
  0 < k <= 31 -> TwoTier.good_block k c -> True ->
  0 <= o < k * SectorSize ->
  exists s,
    TwoTier.SingleIndirectPointer_GetSectorByIndex c (o / SectorSize) = Ok s /\
    TwoTier.data_block c !! Z.to_nat (o / SectorSize) = Some s.
Proof.
  intros Hk (Hn & Hle & _) _ Ho. change SectorSize with 128 in *.
  assert (Hi : 0 <= o / 128 < k).
  { split; [apply Z.div_pos; lia|apply Z.div_lt_upper_bound; lia]. }
  destruct (lookup_lt_is_Some_2 (TwoTier.s_dataSectors c)
              (Z.to_nat (o / 128)) ltac:(lia)) as [x Hx].
  exists x. unfold TwoTier.SingleIndirectPointer_GetSectorByIndex.
  rewrite Hn. destruct (Z.gtb_spec k (o / 128)) as [_|]; [|lia].
  cbn [ASSERT]. split; [apply array_get_int_Ok; [lia|exact Hx]|].
  unfold TwoTier.data_block. rewrite Hn, lookup_take_lt by lia. exact Hx.
Qed.

(** The data sectors of a file that was allocated, as the bitmap sees
    them, and their number. *)
Lemma TwoTier_Allocate_sectors (heap : nat -> nat -> Z) (nb nd ni : Z)
    (ds0 ss0 : list Z) (h : TwoTier.FileHeader) (fm fm' : Bitmap) (s : Z) :
  TwoTier.FileHeader_Allocate heap (TwoTier.FileHeader_new nb nd ds0 ni ss0)
    fm s = Ok (true, h, fm') ->
  taken fm fm' (TwoTier.block_sectors h ++ TwoTier.data_sectors h) /\
  Z.of_nat (length (TwoTier.block_sectors h))
    = TwoTier.numIndirectPointerSectors h /\
  (0 <= s -> Z.of_nat (length (TwoTier.data_sectors h))
             = divRoundUp s SectorSize).
Proof.
  intros Hal.
  destruct (TwoTier_Allocate_layout _ _ _ _ _ _ _ _ _ _ Hal)
    as (_ & Hnd & Hlds & Hlss & Hni & _ & _ & Htk & Hcase).
  split; [|split].
  - eapply taken_perm; [|exact Htk]. unfold TwoTier.data_sectors.
    apply Permutation_app_swap_app.
  - unfold TwoTier.block_sectors. rewrite length_take, Hlss. lia.
  - intros Hs.
    pose proof (divRoundUp_spec s SectorSize Hs eq_refl) as Hb.
    change SectorSize with 128 in *.
    unfold TwoTier.data_sectors. rewrite length_app.
    unfold TwoTier.data_direct. rewrite length_take, Hlds, Hnd.
    destruct Hcase as [(Hle & Hni0 & Htb) | (Hgt & Hnp & tb & Htb & Hltb & Hg)].
    + unfold TwoTier.data_indirect. rewrite Htb. cbn [length]. lia.
    + unfold TwoTier.data_indirect. rewrite Htb.
      pose proof (good_node_data_length TwoTier.good_block TwoTier.data_block
                    31 (divRoundUp s 128 - 21)
                    (TwoTier.numIndirectPointerSectors h) tb eq_refl
                    ltac:(lia) TwoTier_good_block_length Hg
                    (Z.to_nat (TwoTier.numIndirectPointerSectors h))
                    (le_n _)) as Hlen.
      destruct Hg as (_ & Hm & _). rewrite Z2Nat.id in Hlen by lia. lia.
Qed.

Lemma TwoTier_ByteToSector_spec (heap : nat -> nat -> Z) (nb nd ni : Z)
    (ds0 ss0 : list Z) (h : TwoTier.FileHeader) (fm fm' : Bitmap) (s o : Z) :
  TwoTier.FileHeader_Allocate heap (TwoTier.FileHeader_new nb nd ds0 ni ss0)
    fm s = Ok (true, h, fm') ->
  0 <= o < s ->
  exists sec,
    TwoTier.FileHeader_ByteToSector h o = Ok sec /\
    TwoTier.data_sectors h !! Z.to_nat (o / SectorSize) = Some sec.
Proof.
  intros Hal Ho.
  destruct (TwoTier_Allocate_layout _ _ _ _ _ _ _ _ _ _ Hal)
    as (_ & Hnd & Hlds & Hlss & Hni & _ & Hposb & _ & Hcase).
  pose proof (divRoundUp_spec s SectorSize ltac:(lia) eq_refl) as Hb.
  set (total := divRoundUp s SectorSize) in *.
  change SectorSize with 128 in *.
  assert (Hk : 0 <= o / 128 < total).
  { split; [apply Z.div_pos; lia|apply Z.div_lt_upper_bound; lia]. }
  unfold TwoTier.FileHeader_ByteToSector.
  change SectorSize with 128.
  change TwoTier.MAX_NUM_OF_DIRECT_POINTER with 21.
  change TwoTier.MAX_NUM_OF_SECTORS_IN_INDIIRECT_POINTER with 31.
  rewrite Z.quot_div_nonneg by lia.
  unfold TwoTier.data_sectors, TwoTier.data_direct.
  destruct (Z.ltb_spec (o / 128) 21) as [Hdir|Hind].
  - destruct (lookup_lt_is_Some_2 (TwoTier.dataSectors h)
                (Z.to_nat (o / 128)) ltac:(lia)) as [x Hx].
    exists x. split; [apply array_get_int_Ok; [lia|exact Hx]|].
    rewrite lookup_app_l by (rewrite length_take; lia).
    rewrite lookup_take_lt by lia. exact Hx.
  - destruct Hcase as [(Hle & _) | (Hgt & Hnp & tb & Htb & Hltb & Hg)]; [lia|].
    set (np := TwoTier.numIndirectPointerSectors h) in *.
    set (w := o / 128 - 21).
    assert (Hwf : wf_node (fun _ : TwoTier.SingleIndirectPointer => True)
                    {| TwoTier.s_numSectors := 0; TwoTier.s_dataSectors := [] |}
                    np (take (Z.to_nat np) (TwoTier.singleIndirectSectors h))
                    tb (Z.to_nat np)).
    { split; [rewrite length_take; lia|]. split; [exact Hltb|].
      split; [lia|]. split.
      { rewrite take_take. replace (Z.to_nat np `min` Z.to_nat np)%nat
          with (Z.to_nat np) by lia. exact Hposb. }
      split; [apply Forall_forall; intros; exact I|].
      rewrite drop_ge by lia. rewrite Nat.sub_diag. reflexivity. }
    destruct (node_ByteToSector TwoTier.good_block (fun _ => True) _
                TwoTier.data_block
                (fun c x => TwoTier.SingleIndirectPointer_GetSectorByIndex c
                              (x / SectorSize))
                31 eq_refl TwoTier_GetSectorByIndex_spec
                TwoTier_good_block_length (total - 21) np _ tb _ Hg Hwf
                (128 * w) ltac:(change SectorSize with 128; unfold w; lia))
      as (Hpi & c & sp & sec & Hc & _ & _ & Hbts & Hdata).
    change SectorSize with 128 in *.
    assert (Hw : 0 <= w) by (unfold w; lia).
    rewrite Z.div_mul_cancel_l in Hpi, Hc by lia.
    rewrite Z.mul_mod_distr_l in Hbts by lia.
    rewrite (Z.mul_comm 128 (w mod 31)), Z.div_mul in Hbts by lia.
    rewrite (Z.mul_comm 128 w), Z.div_mul in Hdata by lia.
    exists sec. fold w.
    rewrite Z.quot_div_nonneg, Z.rem_mod_nonneg by lia.
    rewrite Htb.
    rewrite (array_get_int_Ok _ (w / 31) c (proj1 Hpi) Hc).
    cbn [mbind res_bind rbind]. split; [exact Hbts|].
    rewrite lookup_app_r by (rewrite length_take; lia).
    rewrite length_take, Hlds, Hnd.
    unfold TwoTier.data_indirect. rewrite Htb. fold np.
    replace (Z.to_nat (o / 128) - Z.to_nat (Z.min 21 total) `min` 21)%nat
      with (Z.to_nat w) by (unfold w; lia).
    exact Hdata.
Qed.

(** X28.  The first header translates offsets correctly: after a
    successful [Allocate], [ByteToSector] returns, for every offset of the
    file, the data sector at position [offset / SectorSize] in the order
    of the bytes (the direct sectors, then the sectors of each block), with
    no out-of-range access and no failed assertion; that sector was free
    before and is marked after, and two offsets are mapped to the same
    sector only when they lie in the same [SectorSize] bytes.  The file
    costs its data sectors and one sector per block. *)
Theorem TwoTier_ByteToSector_correct (heap : nat -> nat -> Z) (nb nd ni : Z)
    (ds0 ss0 : list Z) (h : TwoTier.FileHeader) (fm fm' : Bitmap) (s : Z) :
  TwoTier.FileHeader_Allocate heap (TwoTier.FileHeader_new nb nd ds0 ni ss0)
    fm s = Ok (true, h, fm') ->
  (forall o, 0 <= o < s ->
     exists sec,
       TwoTier.FileHeader_ByteToSector h o = Ok sec /\
       TwoTier.data_sectors h !! Z.to_nat (o / SectorSize) = Some sec /\
       Test sec fm = false /\ Test sec fm' = true) /\
  (forall o1 o2 sec, 0 <= o1 < s -> 0 <= o2 < s ->
     TwoTier.FileHeader_ByteToSector h o1 = Ok sec ->
     TwoTier.FileHeader_ByteToSector h o2 = Ok sec ->
     o1 / SectorSize = o2 / SectorSize) /\
  (0 <= s ->
   NumClear fm' = NumClear fm - divRoundUp s SectorSize
                  - TwoTier.numIndirectPointerSectors h).
Proof.
  intros Hal.
  destruct (TwoTier_Allocate_sectors _ _ _ _ _ _ _ _ _ _ Hal)
    as (((Hnd & Hall & _) & _ & _ & Hcount) & Hlb & Hld).
  apply NoDup_app in Hnd. destruct Hnd as (_ & _ & Hnd).
  apply Forall_app in Hall. destruct Hall as (_ & Hall).
  rewrite Forall_forall in Hall.
  split; [|split].
  - intros o Ho.
    destruct (TwoTier_ByteToSector_spec _ _ _ _ _ _ _ _ _ _ _ Hal Ho)
      as (sec & Hb & Hd).
    exists sec. split; [exact Hb|]. split; [exact Hd|].
    apply Hall. eapply list_elem_of_lookup_2. exact Hd.
  - intros o1 o2 sec Ho1 Ho2 H1 H2.
    destruct (TwoTier_ByteToSector_spec _ _ _ _ _ _ _ _ _ _ _ Hal Ho1)
      as (s1 & Hb1 & Hd1).
    destruct (TwoTier_ByteToSector_spec _ _ _ _ _ _ _ _ _ _ _ Hal Ho2)
      as (s2 & Hb2 & Hd2).
    rewrite H1 in Hb1. rewrite H2 in Hb2.
    inversion Hb1; subst s1. inversion Hb2; subst s2.
    pose proof (NoDup_lookup _ _ _ _ Hnd Hd1 Hd2) as Heq.
    assert (0 <= o1 / SectorSize) by (apply Z.div_pos; [lia|reflexivity]).
    assert (0 <= o2 / SectorSize) by (apply Z.div_pos; [lia|reflexivity]).
    lia.
  - intros Hs. rewrite Hcount, length_app, Nat2Z.inj_add, Hlb, (Hld Hs). lia.
Qed.

Lemma TwoTier_dealloc_sectors_spec (n : Z) (ps : list Z) (fm : Bitmap) :
  (Z.to_nat n <= length ps)%nat -> held fm (take (Z.to_nat n) ps) ->
  exists fm', TwoTier.dealloc_sectors n ps fm = Ok fm' /\
              released fm fm' (take (Z.to_nat n) ps).
Proof.
  intros Hle Hheld.
  apply (SingleIndirectPointer_Deallocate_spec
           {| s_numPointer := n; s_pointerSectors := ps |} fm n);
    [|exact Hheld].
  split; [reflexivity|]. split; [exact Hle|].
  cbn [s_pointerSectors]. destruct Hheld as (_ & Hall).
  eapply Forall_impl; [exact Hall|].
  intros x Hx. exact (proj1 (Test_range _ _ Hx)).
Qed.

Lemma TwoTier_block_Deallocate_spec (c : TwoTier.SingleIndirectPointer)
    (fm : Bitmap) :
  (exists k, TwoTier.good_block k c) -> held fm (TwoTier.data_block c) ->
  exists fm', TwoTier.SingleIndirectPointer_Deallocate c fm = Ok fm' /\
              released fm fm' (TwoTier.data_block c).
Proof.
  intros (k & Hn & Hle & _) Hheld. subst k.
  exact (TwoTier_dealloc_sectors_spec _ _ _ Hle Hheld).
Qed.

Lemma TwoTier_Deallocate_spec (heap : nat -> nat -> Z) (nb nd ni : Z)
    (ds0 ss0 : list Z) (h : TwoTier.FileHeader) (fm fm' : Bitmap) (s : Z) :
  TwoTier.FileHeader_Allocate heap (TwoTier.FileHeader_new nb nd ds0 ni ss0)
    fm s = Ok (true, h, fm') ->
  exists h' fm'',
    TwoTier.FileHeader_Deallocate h fm' = Ok (h', fm'') /\
    TwoTier.table h' = None /\
    released fm' fm'' (TwoTier.data_sectors h).
Proof.
  intros Hal.
  destruct (TwoTier_Allocate_layout _ _ _ _ _ _ _ _ _ _ Hal)
    as (_ & Hnd & Hlds & Hlss & Hni & _ & _ & Htk & Hcase).
  destruct Htk as ((Hnodup & Hall & _) & _).
  assert (Hheld : held fm' (TwoTier.data_direct h ++ TwoTier.block_sectors h
                            ++ TwoTier.data_indirect h)).
  { split; [exact Hnodup|]. eapply Forall_impl; [exact Hall|].
    intros x [_ Hx]. exact Hx. }
  destruct (held_app _ _ _ Hheld) as (Hhd & _ & _).
  unfold TwoTier.FileHeader_Deallocate.
  destruct (TwoTier_dealloc_sectors_spec (TwoTier.numDirectSectors h)
              (TwoTier.dataSectors h) fm' ltac:(lia) Hhd)
    as (fm1 & Hd1 & Hr1).
  rewrite Hd1. cbn [mbind res_bind rbind].
  pose proof (held_released _ _ _ _ Hheld Hr1) as Hh1.
  destruct (held_app _ _ _ Hh1) as (_ & Hhi & _).
  fold (TwoTier.data_direct h) in Hr1.
  destruct Hcase as [(Hle & Hni0 & Htb) | (Hgt & Hnp & tb & Htb & Hltb & Hg)].
  - rewrite Hni0. cbn [for_ for_from Z.to_nat mbind res_bind rbind].
    eexists _, fm1. split; [reflexivity|]. split; [reflexivity|].
    unfold TwoTier.data_sectors, TwoTier.data_indirect. rewrite Htb.
    rewrite app_nil_r. exact Hr1.
  - unfold TwoTier.data_indirect in Hhi. rewrite Htb in Hhi.
    destruct (dealloc_loop TwoTier.data_block
                (fun c => exists k, TwoTier.good_block k c)
                TwoTier.SingleIndirectPointer_Deallocate
                (fun i fm0 =>
                   match TwoTier.table h with
                   | None => Abort
                   | Some tb0 =>
                       p ← array_get tb0 i;
                       TwoTier.SingleIndirectPointer_Deallocate p fm0
                   end)
                tb TwoTier_block_Deallocate_spec)
      with (n := Z.to_nat (TwoTier.numIndirectPointerSectors h)) (fm := fm1)
      as (fm2 & Hd2 & Hr2).
    + intros i c fm0 Hc. rewrite Htb.
      unfold array_get. rewrite Hc. reflexivity.
    + lia.
    + exact (good_node_children _ _ _ _ _ Hg).
    + exact Hhi.
    + unfold for_. rewrite Hd2. cbn [mbind res_bind rbind].
      eexists _, fm2. split; [reflexivity|]. split; [reflexivity|].
      unfold TwoTier.data_sectors, TwoTier.data_indirect. rewrite Htb.
      eapply released_app; eassumption.
Qed.

(** X29.  Allocate then deallocate on the first header: [Deallocate]
    succeeds on every header that [Allocate] has built, sets [table] to
    [nullptr] and clears the bit of every data sector, but it never
    clears the sectors of the blocks themselves
    ([singleIndirectSectors]): the bitmap is the one from before the
    allocation except for those sectors, which stay marked.  A file of at
    most [MAX_NUM_OF_DIRECT_POINTER] sectors gets the bitmap back as it
    was; a larger one leaves at least one sector marked that was free. *)
Theorem TwoTier_Deallocate_leaks_block_sectors (heap : nat -> nat -> Z)
    (nb nd ni : Z) (ds0 ss0 : list Z) (h : TwoTier.FileHeader)
    (fm fm' : Bitmap) (s : Z) :
  TwoTier.FileHeader_Allocate heap (TwoTier.FileHeader_new nb nd ds0 ni ss0)
    fm s = Ok (true, h, fm') ->
  exists h' fm'',
    TwoTier.FileHeader_Deallocate h fm' = Ok (h', fm'') /\
    TwoTier.table h' = None /\
    length fm'' = length fm /\
    (forall x, Test x fm'' =
               if bool_decide (x ∈ TwoTier.block_sectors h) then true
               else Test x fm) /\
    (divRoundUp s SectorSize <= 21 -> fm'' = fm) /\
    (21 < divRoundUp s SectorSize ->
     exists x, x ∈ TwoTier.block_sectors h /\
               Test x fm = false /\ Test x fm'' = true).
Proof.
  intros Hal.
  destruct (TwoTier_Deallocate_spec _ _ _ _ _ _ _ _ _ _ Hal)
    as (h' & fm'' & Hd & Htb & Hlen' & Hrel).
  destruct (TwoTier_Allocate_sectors _ _ _ _ _ _ _ _ _ _ Hal)
    as (((Hnodup & Hall & _) & Hlen & Hframe & _) & Hlb & _).
  destruct (TwoTier_Allocate_layout _ _ _ _ _ _ _ _ _ _ Hal)
    as (_ & _ & _ & Hlss & Hni & _ & _ & _ & Hcase).
  apply NoDup_app in Hnodup. destruct Hnodup as (_ & Hdisj & _).
  apply Forall_app in Hall. destruct Hall as (Hb & Hdt).
  rewrite Forall_forall in Hb, Hdt.
  assert (Hext : forall x, Test x fm'' =
                   if bool_decide (x ∈ TwoTier.block_sectors h) then true
                   else Test x fm).
  { intros x. rewrite Hrel.
    destruct (bool_decide_reflect (x ∈ TwoTier.data_sectors h)) as [H1|H1];
      destruct (bool_decide_reflect (x ∈ TwoTier.block_sectors h)) as [H2|H2].
    - exfalso. exact (Hdisj x H2 H1).
    - symmetry. apply (Hdt x H1).
    - apply (Hb x H2).
    - apply Hframe. rewrite elem_of_app. tauto. }
  exists h', fm''. split; [exact Hd|]. split; [exact Htb|].
  split; [congruence|]. split; [exact Hext|]. split.
  - intros Hle. apply bitmap_ext; [congruence|]. intros x. rewrite Hext.
    destruct Hcase as [(_ & Hni0 & _) | (Hgt & _)]; [|lia].
    unfold TwoTier.block_sectors. rewrite Hni0.
    change (Z.to_nat 0) with 0%nat. rewrite take_0.
    destruct (bool_decide_reflect (x ∈ @nil Z)) as [Hin|_]; [|reflexivity].
    inversion Hin.
  - intros Hgt.
    destruct Hcase as [(Hle & _) | (_ & Hnp & _)]; [lia|].
    pose proof (divRoundUp_spec (divRoundUp s SectorSize - 21) 31
                  ltac:(lia) eq_refl) as Hb31.
    rewrite <- Hnp in Hb31.
    destruct (TwoTier.block_sectors h) as [|x l] eqn:E;
      [cbn [length] in Hlb; lia|].
    exists x. assert (Hx : x ∈ x :: l) by (left).
    split; [exact Hx|]. split; [apply (Hb x Hx)|].
    rewrite Hext.
    destruct (bool_decide_reflect (x ∈ x :: l)); [reflexivity|contradiction].
Qed.

Lemma find_clear_exists (b : Bitmap) :
  (0 < count_clear b)%nat -> exists i, find_clear b = Some i.
Proof.
  induction b as [|x b IH]; cbn [count_clear find_clear]; intros H; [lia|].
  destruct x.
  - destruct (IH H) as (i & ->). exists (S i). reflexivity.
  - exists 0%nat. reflexivity.
Qed.

(** With enough free sectors the allocation loop runs to its end. *)
Lemma alloc_pointerSectors_total (n : Z) (ps : list Z) (fm : Bitmap) :
  n <= NumClear fm -> (Z.to_nat n <= length ps)%nat ->
  exists ps' fm',
    alloc_pointerSectors n ps fm = Ok (ps', fm') /\
    length ps' = length ps /\
    NumClear fm' = NumClear fm - Z.of_nat (Z.to_nat n).
Proof.
  intros Hn Hlen. unfold alloc_pointerSectors, for_.
  destruct (for_from_total
              (fun (j : nat) (st : list Z * Bitmap) =>
                 length (fst st) = length ps /\
                 NumClear (snd st) = NumClear fm - Z.of_nat j)
              (fun i '(ps0, fm0) =>
                 let '(s, fm1) := FindAndSet fm0 in
                 ps1 ← array_set ps0 i s;
                 ASSERT (s >=? 0) (Ok (ps1, fm1)))
              (Z.to_nat n) 0 (ps, fm)) as ([ps' fm'] & Hrun & Hl & Hc).
  - cbn [fst snd]. split; [reflexivity|]. cbn. lia.
  - intros j [psj fmj] Hj (Hl & Hc). cbn [fst snd] in Hl, Hc.
    assert (Hfree : (0 < count_clear fmj)%nat)
      by (unfold NumClear in *; lia).
    destruct (find_clear_exists _ Hfree) as (i & Hi).
    pose proof (count_clear_find _ _ Hi) as Hcnt.
    unfold FindAndSet. rewrite Hi.
    unfold array_set.
    destruct (decide (j < length psj)%nat) as [_|Hge]; [|lia].
    cbn [mbind res_bind rbind].
    destruct (Z.geb_spec (Z.of_nat i) 0) as [_|]; [|lia].
    cbn [ASSERT]. eexists. split; [reflexivity|]. cbn [fst snd].
    split; [rewrite length_insert; exact Hl|].
    unfold NumClear in *. lia.
  - exists ps', fm'. cbn [fst snd] in Hl, Hc.
    split; [exact Hrun|]. split; [exact Hl|].
    rewrite Nat.add_0_l in Hc. exact Hc.
Qed.

Lemma TwoTier_block_Allocate_total (p : TwoTier.SingleIndirectPointer)
    (fm : Bitmap) (k : Z) :
  0 <= k -> (Z.to_nat k <= length (TwoTier.s_dataSectors p))%nat ->
  exists ok p' fm',
    TwoTier.SingleIndirectPointer_Allocate p fm k = Ok (ok, p', fm') /\
    (ok = true <-> k <= NumClear fm) /\
    length (TwoTier.s_dataSectors p') = length (TwoTier.s_dataSectors p) /\
    (ok = true -> NumClear fm' = NumClear fm - k) /\
    (ok = false -> fm' = fm).
Proof.
  intros Hk Hlen. unfold TwoTier.SingleIndirectPointer_Allocate.
  destruct (Z.ltb_spec (NumClear fm) k) as [Hlt|Hge].
  - eexists false, _, fm. split; [reflexivity|].
    split; [split; [discriminate|lia]|].
    split; [reflexivity|]. split; [discriminate|reflexivity].
  - destruct (alloc_pointerSectors_total k (TwoTier.s_dataSectors p) fm
                Hge Hlen) as (ds & fm' & Hal & Hl & Hc).
    rewrite Hal. cbn [mbind res_bind rbind].
    eexists true, _, fm'. split; [reflexivity|].
    split; [split; [intros _; exact Hge|reflexivity]|].
    cbn [TwoTier.s_dataSectors]. split; [exact Hl|].
    split; [intros _; lia|discriminate].
Qed.

Lemma TwoTier_loop_total (n : nat) :
  forall (i : nat) (tb : list TwoTier.SingleIndirectPointer) (fm : Bitmap)
         (rem : Z),
    (0 < n)%nat -> 31 * (Z.of_nat n - 1) < rem <= 31 * Z.of_nat n ->
    (i + n <= length tb)%nat ->
    Forall (fun p => length (TwoTier.s_dataSectors p) = 31%nat) tb ->
    exists ok tb' fm',
      TwoTier.AllocateIndirect_loop i n tb fm rem = Ok (ok, tb', fm') /\
      (ok = true <-> rem <= NumClear fm) /\
      NumClear fm' <= NumClear fm.
Proof.
  induction n as [|n IH]; intros i tb fm rem Hn Hrem Hlen Hall; [lia|].
  cbn [TwoTier.AllocateIndirect_loop].
  change TwoTier.MAX_NUM_OF_SECTORS_IN_INDIIRECT_POINTER with 31.
  destruct (Z.gtb_spec rem 0) as [Hpos|]; [|lia].
  destruct (lookup_lt_is_Some_2 tb i ltac:(lia)) as [p Hp].
  unfold array_get at 1. rewrite Hp. cbn [mbind res_bind rbind].
  assert (Hlp : length (TwoTier.s_dataSectors p) = 31%nat).
  { rewrite Forall_lookup in Hall. exact (Hall i p Hp). }
  destruct (TwoTier_block_Allocate_total p fm (Z.min 31 rem) ltac:(lia)
              ltac:(lia)) as (ok1 & p' & fm1 & Hal & Hok & Hl' & Hc1 & Hc0).
  rewrite Hal. cbn [mbind res_bind rbind].
  unfold array_set.
  destruct (decide (i < length tb)%nat) as [_|]; [|lia].
  cbn [mbind res_bind rbind].
  destruct ok1.
  - specialize (Hc1 eq_refl). assert (Hk : Z.min 31 rem <= NumClear fm)
      by (apply Hok; reflexivity).
    destruct n as [|n].
    + cbn [TwoTier.AllocateIndirect_loop].
      eexists true, _, fm1. split; [reflexivity|].
      split; [split; [intros _; lia|reflexivity]|]. lia.
    + destruct (IH (S i) (<[i:=p']> tb) fm1 (rem - Z.min 31 rem)
                  ltac:(lia) ltac:(lia)
                  ltac:(rewrite length_insert; lia))
        as (ok & tb' & fm' & Hrun & Hiff & Hmono).
      { apply Forall_insert; [exact Hall|]. congruence. }
      exists ok, tb', fm'. split; [exact Hrun|].
      split; [rewrite Hiff; lia|lia].
  - specialize (Hc0 eq_refl). subst fm1.
    eexists false, _, fm. split; [reflexivity|].
    split; [|lia]. split; [discriminate|].
    intros Hle. exfalso.
    assert (Hk : Z.min 31 rem <= NumClear fm) by lia.
    apply Hok in Hk. discriminate.
Qed.

Lemma TwoTier_new_table_sized (heap : nat -> nat -> Z) (n : Z) :
  Forall (fun p => length (TwoTier.s_dataSectors p) = 31%nat)
         (TwoTier.new_table heap n).
Proof.
  unfold TwoTier.new_table. apply Forall_forall. intros p Hp.
  apply list_elem_of_fmap in Hp. destruct Hp as (i & -> & _).
  cbn [TwoTier.s_dataSectors]. rewrite length_map, length_seq. reflexivity.
Qed.

(** X30.  The first [Allocate] gives nothing back when it fails.  For a
    size of at most [MAX_FILE_SIZE] the call always returns; it returns
    TRUE exactly when the free sectors suffice for the data sectors and
    the blocks.  When it returns FALSE although the direct sectors could
    be had, the sectors taken up to then stay marked: the bitmap has at
    least [MAX_NUM_OF_DIRECT_POINTER] free sectors fewer than before;
    only when the first check fails is the bitmap as it was. *)
Theorem TwoTier_Allocate_failure_keeps_sectors (heap : nat -> nat -> Z)
    (nb nd ni : Z) (ds0 ss0 : list Z) (fm : Bitmap) (s : Z) :
  0 <= s <= TwoTier.MAX_FILE_SIZE ->
  exists ok h fm',
    TwoTier.FileHeader_Allocate heap (TwoTier.FileHeader_new nb nd ds0 ni ss0)
      fm s = Ok (ok, h, fm') /\
    (ok = true <->
     divRoundUp s SectorSize
     + (if divRoundUp s SectorSize >? 21
        then divRoundUp (divRoundUp s SectorSize - 21) 31 else 0)
     <= NumClear fm) /\
    (ok = false -> NumClear fm < Z.min 21 (divRoundUp s SectorSize) ->
     fm' = fm) /\
    (ok = false -> Z.min 21 (divRoundUp s SectorSize) <= NumClear fm ->
     21 < divRoundUp s SectorSize /\ NumClear fm' <= NumClear fm - 21).
Proof.
  intros Hs.
  pose proof (divRoundUp_spec s SectorSize (proj1 Hs) eq_refl) as Hb.
  set (total := divRoundUp s SectorSize) in *.
  change SectorSize with 128 in Hb.
  change TwoTier.MAX_FILE_SIZE with 34432 in Hs.
  assert (Htot : 0 <= total <= 269) by lia.
  unfold TwoTier.FileHeader_Allocate. fold total.
  change TwoTier.MAX_NUM_OF_DIRECT_POINTER with 21.
  change TwoTier.MAX_NUM_OF_SECTORS_IN_INDIIRECT_POINTER with 31.
  assert (Hlds : length (TwoTier.dataSectors
                           (TwoTier.FileHeader_new nb nd ds0 ni ss0)) = 21%nat).
  { cbn [TwoTier.FileHeader_new TwoTier.dataSectors].
    rewrite length_take, length_app, length_replicate.
    change (Z.to_nat TwoTier.MAX_NUM_OF_DIRECT_POINTER) with 21%nat. lia. }
  assert (Hlss : length (TwoTier.singleIndirectSectors
                           (TwoTier.FileHeader_new nb nd ds0 ni ss0)) = 8%nat).
  { cbn [TwoTier.FileHeader_new TwoTier.singleIndirectSectors].
    rewrite length_take, length_app, length_replicate.
    change (Z.to_nat TwoTier.NUM_OF_INDIRECT_POINTER) with 8%nat. lia. }
  destruct (Z.ltb_spec (NumClear fm) (Z.min 21 total)) as [Hlt|Hge].
  - eexists false, _, fm. split; [reflexivity|].
    split.
    { split; [discriminate|]. intros Hle. exfalso.
      destruct (Z.gtb_spec total 21);
        pose proof (divRoundUp_spec (total - 21) 31) as Hq; lia. }
    split; [reflexivity|]. intros _ Hc. lia.
  - destruct (alloc_pointerSectors_total (Z.min 21 total)
                (TwoTier.dataSectors (TwoTier.FileHeader_new nb nd ds0 ni ss0))
                fm Hge ltac:(lia)) as (ds & fm1 & Hal1 & Hl1 & Hc1).
    rewrite Hal1. cbn [mbind res_bind rbind].
    destruct (Z.gtb_spec (total - Z.min 21 total) 0) as [Hbig|Hsmall].
    + assert (Hmin : Z.min 21 total = 21) by lia. rewrite Hmin in *.
      destruct (Z.gtb_spec total 21) as [_|]; [|lia].
      unfold TwoTier.FileHeader_AllocateIndirect.
      cbn [TwoTier.numIndirectPointerSectors TwoTier.singleIndirectSectors
           TwoTier.numBytes TwoTier.numDirectSectors TwoTier.dataSectors].
      pose proof (divRoundUp_spec (total - 21) 31 ltac:(lia) eq_refl) as Hnp.
      set (np := divRoundUp (total - 21) 31) in *.
      assert (Hnp8 : 1 <= np <= 8) by lia.
      destruct (Z.ltb_spec (NumClear fm1) np) as [Hlt2|Hge2].
      * eexists false, _, fm1. split; [reflexivity|].
        split; [split; [discriminate|lia]|].
        split; [intros _ Hc; lia|]. intros _ _. split; lia.
      * destruct (alloc_pointerSectors_total np
                    (TwoTier.singleIndirectSectors
                       (TwoTier.FileHeader_new nb nd ds0 ni ss0))
                    fm1 Hge2 ltac:(lia)) as (ss & fm2 & Hal2 & Hl2 & Hc2).
        rewrite Hal2. cbn [mbind res_bind rbind].
        destruct (TwoTier_loop_total (Z.to_nat np) 0
                    (TwoTier.new_table heap np) fm2 (total - 21)
                    ltac:(lia) ltac:(lia)
                    ltac:(rewrite TwoTier_length_new_table; lia)
                    (TwoTier_new_table_sized heap np))
          as (ok & tb' & fm3 & Hloop & Hiff & Hmono).
        rewrite Hloop. cbn [mbind res_bind rbind].
        eexists ok, _, fm3. split; [reflexivity|].
        split; [rewrite Hiff; lia|].
        split; [intros _ Hc; lia|]. intros _ _. split; lia.
    + destruct (Z.gtb_spec total 21) as [|_]; [lia|].
      eexists true, _, fm1. split; [reflexivity|].
      split; [split; [intros _; lia|reflexivity]|].
      split; discriminate.
Qed.

Lemma TwoTier_ByteToSector_correct_witness :
  exists h fm',
    TwoTier.FileHeader_Allocate (fun _ _ => 7)
      (TwoTier.FileHeader_new 0 0 [] 0 []) (Bitmap_new 64) 3000
      = Ok (true, h, fm') /\
    TwoTier.FileHeader_ByteToSector h 2999 = Ok 24 /\
    (forall o, 0 <= o < 3000 ->
       exists sec,
         TwoTier.FileHeader_ByteToSector h o = Ok sec /\
         TwoTier.data_sectors h !! Z.to_nat (o / SectorSize) = Some sec /\
         Test sec (Bitmap_new 64) = false /\ Test sec fm' = true) /\
    NumClear fm' = NumClear (Bitmap_new 64) - divRoundUp 3000 SectorSize
                   - TwoTier.numIndirectPointerSectors h.
Proof.
  assert (H : exists h fm',
             TwoTier.FileHeader_Allocate (fun _ _ => 7)
               (TwoTier.FileHeader_new 0 0 [] 0 []) (Bitmap_new 64) 3000
               = Ok (true, h, fm') /\
             TwoTier.FileHeader_ByteToSector h 2999 = Ok 24).
  { do 2 eexists. split; [vm_compute; reflexivity|]. vm_compute. reflexivity. }
  destruct H as (h & fm' & Hal & Hlast).
  exists h, fm'. split; [exact Hal|]. split; [exact Hlast|].
  destruct (TwoTier_ByteToSector_correct _ _ _ _ _ _ _ _ _ _ Hal)
    as (Hall & _ & Hcost).
  split; [exact Hall|]. apply Hcost. lia.
Defined.

Lemma TwoTier_Deallocate_leaks_block_sectors_witness :
  exists h fm' h' fm'',
    TwoTier.FileHeader_Allocate (fun _ _ => 7)
      (TwoTier.FileHeader_new 0 0 [] 0 []) (Bitmap_new 64) 3000
      = Ok (true, h, fm') /\
    TwoTier.FileHeader_Deallocate h fm' = Ok (h', fm'') /\
    TwoTier.block_sectors h = [21] /\
    Test 21 (Bitmap_new 64) = false /\ Test 21 fm'' = true /\
    forall x, Test x fm'' =
              if bool_decide (x ∈ TwoTier.block_sectors h) then true
              else Test x (Bitmap_new 64).
Proof.
  assert (H : exists h fm',
             TwoTier.FileHeader_Allocate (fun _ _ => 7)
               (TwoTier.FileHeader_new 0 0 [] 0 []) (Bitmap_new 64) 3000
               = Ok (true, h, fm') /\
             TwoTier.block_sectors h = [21]).
  { do 2 eexists. split; [vm_compute; reflexivity|]. vm_compute. reflexivity. }
  destruct H as (h & fm' & Hal & Hblocks).
  destruct (TwoTier_Deallocate_leaks_block_sectors _ _ _ _ _ _ _ _ _ _ Hal)
    as (h' & fm'' & Hd & _ & _ & Hext & _ & _).
  exists h, fm', h', fm''. split; [exact Hal|]. split; [exact Hd|].
  split; [exact Hblocks|]. split; [reflexivity|].
  split; [|exact Hext].
  rewrite Hext, Hblocks. reflexivity.
Defined.

Lemma TwoTier_Allocate_failure_keeps_sectors_witness :
  exists h fm',
    TwoTier.FileHeader_Allocate (fun _ _ => 7)
      (TwoTier.FileHeader_new 0 0 [] 0 []) (Bitmap_new 22) 3000
      = Ok (false, h, fm') /\
    NumClear (Bitmap_new 22) = 22 /\
    NumClear fm' <= NumClear (Bitmap_new 22) - 21.
Proof.
  destruct (TwoTier_Allocate_failure_keeps_sectors (fun _ _ => 7) 0 0 0 [] []
              (Bitmap_new 22) 3000 ltac:(vm_compute; split; discriminate))
    as (ok & h & fm' & Hal & Hiff & _ & Hkeep).
  assert (Hok : ok = false).
  { destruct ok; [|reflexivity]. exfalso.
    pose proof (proj1 Hiff eq_refl) as Hle. vm_compute in Hle.
    apply Hle. reflexivity. }
  subst ok. exists h, fm'. split; [exact Hal|]. split; [reflexivity|].
  apply (Hkeep eq_refl). vm_compute. discriminate.
Defined.
